(* ===== verification/_CoqProject ===== *)
-Q . S2P
Prelude.v
GoBytes.v
GoHeap.v
Errors.v
Eth.v
RollupConfig.v
ChainSpec.v
Blob.v
Geth.v
Commitment.v
AltDAState.v
SysConfig.v
Deposits.v
L1BlockInfo.v
UpgradeCode.v
UpgradeTxs.v
SpanBatchTxs.v
SpanBatch.v
SpanBatchCodec.v
SpanBatchRoundtrip.v
Batches.v
Frame.v
Channel.v
Stages.v
L1Traversal.v
Attributes.v
DataSource.v
AltDA.v
AltDAInv.v
AltDASource.v
FrameQueue.v
ChannelBank.v
ChannelAssembler.v
ChannelMux.v
ChannelInReader.v
BaseBatchStage.v
SpanSingular.v
BatchQueue.v
BatchStage.v
BatchMux.v
AttributesQueue.v
Pipeline.v
PipelineInv.v
SyncStart.v
Events.v
Finalizer.v
PayloadsQueue.v
Consolidate.v
AttributesHandler.v
Deriver.v
EngineController.v
EngineInv.v
