(* ===== verification/Prelude.v ===== *)
(** * op-node derivation: a verification library

    ** The program

    The rollup node derives the L2 chain from the L1 chain.  The code modelled here
    is the derivation pipeline of [src/op-node/rollup/derive], with the data types
    and codecs it uses from [src/op-service/eth], the fork schedule of
    [src/op-node/rollup], the parts of the node that drive it and the execution
    engine, the alt-DA backend of [src/op-alt-da] and the upgrade
    transactions of the forks.  The pipeline is a stack of stages, each pulling from
    the one below it:

    - L1 traversal walks the L1 chain and tracks the system configuration;
    - L1 retrieval opens, for each L1 block, an iterator of data of the batcher
      (calldata, blobs, or alt-DA commitments resolved through a storage service);
    - the frame queue parses frames, and from Holocene on prunes what can not be
      part of a contiguous channel;
    - the channel bank (before Holocene) or the channel assembler (after it) puts
      frames together into channels;
    - the channel reader decompresses a channel and decodes batches;
    - the batch queue (before Holocene) or the batch stage (after it) checks
      batches against the L1 and L2 chain and hands out one at a time;
    - the attributes queue turns a batch into payload attributes: L1 info deposit,
      user deposits, upgrade transactions, transactions of the batch;
    - the pipeline resets all stages after a reorg and transforms them at a fork.

    ** Files

    Shared: [Prelude] (results, tactics, hint databases, lists, machine integers),
    [GoBytes] (byte strings, readers and writers of Go), [Errors] (error values,
    levels and sentinels: [derive/error.go] and the errors of each package),
    [Stages] (the interfaces between stages, as classes).

    Data: [Eth] ([op-service/eth]: [id.go], [types.go], [bytes32] and system
    configuration), [RollupConfig] ([rollup/types.go], [forks]), [ChainSpec]
    ([rollup/chain_spec.go]), [Blob] ([eth/blob.go]), [Geth] (receipts, logs,
    transactions of go-ethereum), [SysConfig] ([system_config.go]), [Deposits]
    ([deposits.go], [deposit_log.go], [deposit_source.go]), [L1BlockInfo]
    ([l1_block_info.go], [payload_util.go], [l2block_util.go]), [UpgradeCode] and [UpgradeTxs]
    ([*_upgrade_transactions.go], [upgrade_transaction.go]).

    Batches: [SpanBatchTxs], [SpanBatch], [SpanBatchCodec] ([span_batch_txs.go],
    [span_batch_tx.go], [span_batch.go], [span_batch_util.go]),
    [SpanBatchRoundtrip] (decoding inverts encoding), [Batches] ([batches.go], [batch.go], [singular_batch.go]),
    [SpanSingular] (a span batch against the replay of its blocks).

    Stages: [L1Traversal], [DataSource] ([data_source.go], [calldata_source.go],
    [blob_data_source.go], [altda_data_source.go], [l1_retrieval.go]), [Frame],
    [Channel], [FrameQueue], [ChannelBank], [ChannelAssembler], [ChannelMux],
    [ChannelInReader], [BaseBatchStage], [BatchQueue], [BatchStage], [BatchMux],
    [Attributes] ([attributes.go]), [AttributesQueue], each after the Go file of the
    same name; [Pipeline] and [PipelineInv] ([pipeline.go], [check_l1.go]).

    Alt-DA: [Commitment] ([commitment.go]), [AltDAState] ([dastate.go]; the shared
    challenges live in an explicit heap), [AltDA] ([damgr.go]), [AltDAInv],
    [AltDASource] (the data source over the manager).

    Around the pipeline the node is a set of parts that exchange events.  [Events]
    has the events of [rollup/event.go], [deriver.go] and [rollup/engine], and the
    computations a handler is made of: state, events and calls put out in order, and
    an error or panic.  [Deriver] ([deriver.go]) steps the pipeline; [AttributesHandler]
    ([attributes/attributes.go]) applies the attributes it hands out, by building a
    block or by [Consolidate] ([engine_consolidate.go]) with one that exists;
    [EngineController] and [EngineInv] ([engine/engine_controller.go], [build_*.go],
    [payload_*.go], [api.go]) keep the heads of the chain and talk to the execution
    engine; [PayloadsQueue] ([payloads_queue.go], over [GoHeap], the heap of
    [container/heap]) holds the blocks of peers; [SyncStart] ([sync/start.go]) finds
    the heads to start from; [Finalizer] ([finality/*.go]) makes L2 blocks final.

    ** Conventions

    A Go function that can fail is a function to [Res A]: a value, an error or a
    panic.  A method with a pointer receiver takes the record of the object and
    returns its new value next to the result; every state change before an error
    return is kept.  [uint64] values are integers in [0, 2^64) and arithmetic on
    them is [+₆₄], [-₆₄], [*₆₄], which wrap.  Bytes are [Byte.byte].  The code of
    other repositories is a class with the operations the source calls: [Geth]
    (hashing, transaction marshalling), [TxLib], [BatchRLP], [Decompress],
    [NUTBundles], [L1Source] and [L2Source] (the nodes, whose answers may change
    between calls), [DAStorage], [ChallengeABI], [L2Chain], [L2Payloads] and
    [ExecEngine] (the execution engine, whose state a call may change),
    [SuperAuthority], [EIP1559Lib]; what a theorem needs of them is a class of laws or
    a named hypothesis, with an instance in the example modules.

    Loops without a structural measure take fuel, and a theorem or the definition
    shows that it is enough: [ParseFrames] the length of the buffer (each frame
    takes bytes), [prune_loop] twice the queue length (each step deletes a frame or
    moves the cursor on), [ingest_loop] the frames left below the assembler,
    [walk_back] the number of the L2 block, [AltDADataSource_Next] the L1 data left
    plus two, [find_loop] the blocks between the unsafe and the finalized head, the
    loops of the payload queue its length and those of the heap the index.

    ** Theorems

    - Encodings: span batches, frames, blobs, L1 info deposits, deposit events,
      commitments and block references are read back as they were written.
    - Acceptance: exactly when a singular batch is accepted, and that an accepted
      span batch is one whose blocks are accepted one after the other.
    - Stages: pruning equals its reference, a reset empties every stage, channels
      are assembled from their frames in any order, and the Holocene assembler
      refines a fold over the frames.
    - Pipeline: the stages follow the origin through a fork, the reset of all
      stages completes and the walk back ends in a block old enough, and every
      step that returns attributes returns attributes of the next block of the
      safe head.
    - Alt-DA: inputs handed out match their commitment, and a challenge that
      expires unanswered forces a reset.
    - Attributes and blocks: consolidation compares all that matters, attributes are
      built only where they belong and once, a sealed block has its deposits first,
      and neither the handler nor the deriver falls silent.
    - Heads: the search for the sync start returns and its heads are sound, an L2
      block is made final only when canonical L1 data says so, finality never goes
      back, and the engine is told the heads that the node keeps.
    - Queue of unsafe payloads: a heap within its memory bound that drops the lowest
      blocks first and never one that extends the unsafe head.

    ** Not modelled

    Logging, metrics and tracing are left out everywhere; contexts and deadlines
    appear as errors of the sources.  RLP, compression, hashing and ABI bindings of
    other repositories are parameters.  Also left out: the alt-DA HTTP client and
    server, p2p, RPC, the wiring of services, and the other programs of the
    monorepo (batcher, proposer, challenger, conductor, supervisor, fault proof VM,
    deployment tools), which do not take part in derivation. Next in the plan: the
    choice of L1 origins and the state machine of the sequencer, the synchronization
    steps of the driver, and the batcher side of channels. *)

From stdpp Require Export gmap strings list list_numbers.
From Stdlib Require Export ZArith Lia.
From Stdlib Require Export Strings.Byte.

(* some library tactics clear hypotheses twice *)
#[export] Set Warnings "-clear-no-such-hyp".

#[global] Open Scope Z_scope.
#[global] Open Scope list_scope.

(** ** Results

    A Go function either returns a value, returns an error, or panics.  The
    error type is a parameter here; [Errors] fixes it to the errors of the
    derivation pipeline. *)

Inductive res (E A : Type) : Type :=
| Ok (a : A)
| Err (e : E)
| Panic (why : string).
Arguments Ok {E A} a.
Arguments Err {E A} e.
Arguments Panic {E A} why.

#[export] Instance res_ret {E} : MRet (res E) := λ A a, Ok a.
#[export] Instance res_bind {E} : MBind (res E) := λ A B f m,
  match m with Ok a => f a | Err e => Err e | Panic w => Panic w end.

(** Rename the error of a result; [fmt.Errorf("...: %w", err)] is the use. *)
Definition map_err {E E' A} (f : E → E') (r : res E A) : res E' A :=
  match r with Ok a => Ok a | Err e => Err (f e) | Panic w => Panic w end.

Definition is_ok {E A} (r : res E A) : bool :=
  match r with Ok _ => true | _ => false end.
Definition is_panic {E A} (r : res E A) : bool :=
  match r with Panic _ => true | _ => false end.

Lemma bind_ok {E A B} (f : A → res E B) (m : res E A) b :
  m ≫= f = Ok b ↔ ∃ a, m = Ok a ∧ f a = Ok b.
Proof. destruct m; cbn; naive_solver. Qed.

Lemma map_err_ok {E E' A} (f : E → E') (r : res E A) a :
  map_err f r = Ok a ↔ r = Ok a.
Proof. destruct r; cbn; naive_solver. Qed.

(** ** Machine integers

    A Go [uint64] is a [Z] in range; arithmetic wraps around explicitly. *)

Declare Scope go_scope.
Delimit Scope go_scope with go.

Definition wrap (w : Z) (z : Z) : Z := z mod 2 ^ w.
Definition is_uint (w : Z) (z : Z) : Prop := 0 ≤ z < 2 ^ w.

Abbreviation wrap64 := (wrap 64).
Abbreviation is_u64 := (is_uint 64).
Notation "a +₆₄ b" := (wrap64 (a + b)) (at level 50, left associativity) : go_scope.
Notation "a -₆₄ b" := (wrap64 (a - b)) (at level 50, left associativity) : go_scope.
Notation "a *₆₄ b" := (wrap64 (a * b)) (at level 40, left associativity) : go_scope.
Notation "a +₁₆ b" := (wrap 16 (a + b)) (at level 50, left associativity) : go_scope.
#[global] Open Scope go_scope.

#[export] Instance is_uint_dec w z : Decision (is_uint w z).
Proof. unfold is_uint. apply _. Defined.

Lemma wrap_small w z : is_uint w z → wrap w z = z.
Proof. unfold is_uint, wrap. intros. by apply Z.mod_small. Qed.

Lemma wrap_range w z : 0 ≤ w → is_uint w (wrap w z).
Proof. intros. apply Z.mod_pos_bound. lia. Qed.


(** ** Automation *)

(** Turn boolean tests into propositions, everywhere. *)
Ltac bool2prop :=
  repeat match goal with
  | H : context [negb _ = true] |- _ => rewrite negb_true_iff in H
  | H : context [negb _ = false] |- _ => rewrite negb_false_iff in H
  | H : _ && _ = true |- _ => apply andb_true_iff in H as [? ?]
  | H : _ || _ = false |- _ => apply orb_false_iff in H as [? ?]
  | H : _ && _ = false |- _ => apply andb_false_iff in H
  | H : _ || _ = true |- _ => apply orb_true_iff in H
  | H : (_ <? _) = true |- _ => apply Z.ltb_lt in H
  | H : (_ <? _) = false |- _ => apply Z.ltb_ge in H
  | H : (_ <=? _) = true |- _ => apply Z.leb_le in H
  | H : (_ <=? _) = false |- _ => apply Z.leb_gt in H
  | H : (_ =? _) = true |- _ => apply Z.eqb_eq in H
  | H : (_ =? _) = false |- _ => apply Z.eqb_neq in H
  | H : bool_decide _ = true |- _ => apply bool_decide_eq_true in H
  | H : bool_decide _ = false |- _ => apply bool_decide_eq_false in H
  end.

(** Case on the test of the [if] or [match] that blocks the goal or a
    hypothesis, remembering the outcome. *)
Ltac case_goal :=
  match goal with |- context [match ?x with _ => _ end] =>
    let E := fresh "E" in destruct x eqn:E end.
Ltac case_in H :=
  match type of H with context [match ?x with _ => _ end] =>
    let E := fresh "E" in destruct x eqn:E end.

(** Make [2 ^ 64] and friends numerals, so that [lia] sees constants. *)
Ltac uint_unfold :=
  unfold is_uint, wrap in *;
  change (2 ^ 64) with 18446744073709551616 in *;
  change (2 ^ 32) with 4294967296 in *;
  change (2 ^ 16) with 65536 in *;
  change (2 ^ 8) with 256 in *.
Ltac uint_lia := uint_unfold; Z.to_euclidean_division_equations; lia.

(** Split a successful chain of binds into the successes of its parts. *)
Ltac inv_bind H :=
  repeat (let a := fresh "a" in let Ha := fresh "Hb" in
          apply bind_ok in H as (a & Ha & H));
  repeat match goal with u : unit |- _ => destruct u end.

(** Merge two equations with the same left-hand side. *)
Ltac merge_eqs :=
  repeat match goal with H1 : ?x = _, H2 : ?x = _ |- _ => rewrite H1 in H2; simplify_eq end.

(** Normalise nested appends to the right. *)
Ltac app_norm := repeat first [rewrite <- !app_assoc | progress cbn [app]].

(** ** List lemmas *)

Lemma sublist_reverse {A} (l k : list A) :
  l `sublist_of` k → reverse l `sublist_of` reverse k.
Proof.
  induction 1 as [|x l k H IH|x l k H IH]; [done|..]; rewrite ?reverse_cons.
  - by apply sublist_app.
  - by apply sublist_inserts_r.
Qed.

Lemma filter_ext_in {A} (P Q : A → Prop) `{∀ x, Decision (P x), ∀ x, Decision (Q x)} (l : list A) :
  (∀ x, x ∈ l → P x ↔ Q x) → filter P l = filter Q l.
Proof.
  induction l as [|x l IH]; intros Hext; [done|]. rewrite !filter_cons.
  rewrite IH by (intros y Hy; apply Hext; set_solver).
  pose proof (Hext x ltac:(set_solver)). by repeat case_decide; try tauto.
Qed.

Lemma head_drop {A} n (l : list A) : head (drop n l) = l !! n.
Proof. by rewrite head_lookup, lookup_drop, Nat.add_0_r. Qed.
