(* ===== verification/GoBytes.v ===== *)
(** * Bytes and readers

    The parts of Go's [bytes], [io] and [encoding/binary] packages that the
    derivation code uses: byte slices as [list byte], a [bytes.Buffer] or
    [bytes.Reader] as the bytes that are left to read, big-endian integers,
    unsigned varints, and an interface for codecs with a round-trip law. *)

From S2P Require Import Prelude.

Abbreviation bytes := (list byte).

(** ** Single bytes *)

Definition b2z (b : byte) : Z := Z.of_N (Byte.to_N b).
(** Go's [byte(x)] conversion: keep the low eight bits. *)
Definition z2b (z : Z) : byte := default x00 (Byte.of_N (Z.to_N (z mod 256))).

#[export] Instance byte_eq_dec : EqDecision byte := Byte.byte_eq_dec.
#[export] Instance byte_inhabited : Inhabited byte := populate x00.

Lemma b2z_range b : 0 ≤ b2z b < 256.
Proof.
  unfold b2z. pose proof (Byte.to_N_bounded b). lia.
Qed.

Lemma b2z_z2b z : b2z (z2b z) = z mod 256.
Proof.
  unfold b2z, z2b. pose proof (Z.mod_pos_bound z 256 ltac:(lia)).
  destruct (Byte.of_N (Z.to_N (z mod 256))) eqn:E; cbn.
  - apply Byte.to_of_N in E. lia.
  - apply Byte.of_N_None_iff in E. lia.
Qed.

Lemma z2b_b2z b : z2b (b2z b) = b.
Proof.
  unfold b2z, z2b. pose proof (Byte.to_N_bounded b).
  rewrite Z.mod_small by lia. rewrite N2Z.id, Byte.of_to_N. done.
Qed.

Lemma b2z_inj b c : b2z b = b2z c → b = c.
Proof. intros H. rewrite <- (z2b_b2z b), <- (z2b_b2z c). by rewrite H. Qed.

#[export] Instance byte_countable : Countable byte.
Proof.
  refine (inj_countable' Byte.to_N (λ n, default x00 (Byte.of_N n)) _).
  intros b. by rewrite Byte.of_to_N.
Defined.

(** ** Big-endian integers ([encoding/binary.BigEndian], [big.Int.SetBytes]) *)

Definition be_step (acc : Z) (b : byte) : Z := acc * 256 + b2z b.
Definition be_val (bs : bytes) : Z := foldl be_step 0 bs.
Fixpoint be_bytes (n : nat) (z : Z) : bytes :=
  match n with
  | O => []
  | S n => be_bytes n (z / 256) ++ [z2b z]
  end.

Lemma length_be_bytes n z : length (be_bytes n z) = n.
Proof. revert z; induction n; intros; cbn; rewrite ?length_app, ?IHn; cbn; lia. Qed.

Lemma be_val_snoc bs b : be_val (bs ++ [b]) = be_val bs * 256 + b2z b.
Proof. unfold be_val. by rewrite foldl_app. Qed.

Lemma be_val_range bs : 0 ≤ be_val bs < 256 ^ Z.of_nat (length bs).
Proof.
  induction bs as [|b bs IH] using rev_ind; [cbn; lia|].
  rewrite be_val_snoc, length_app. cbn [length].
  rewrite Nat2Z.inj_add, Z.pow_add_r by lia.
  pose proof (b2z_range b). change (256 ^ Z.of_nat 1) with 256. lia.
Qed.

Lemma be_val_be_bytes n z : be_val (be_bytes n z) = z mod 256 ^ Z.of_nat n.
Proof.
  revert z; induction n as [|n IH]; intros z.
  - cbn. by rewrite Z.mod_1_r.
  - cbn [be_bytes]. rewrite be_val_snoc, IH, b2z_z2b.
    rewrite Nat2Z.inj_succ, Z.pow_succ_r by lia.
    rewrite (Z.mul_comm 256 (256 ^ _)), (Z.mul_comm (256 ^ _) 256).
    rewrite Z.rem_mul_r by lia. lia.
Qed.

Lemma be_bytes_be_val bs : be_bytes (length bs) (be_val bs) = bs.
Proof.
  induction bs as [|b bs IH] using rev_ind; [done|].
  rewrite length_app, be_val_snoc, Nat.add_comm. cbn [length Nat.add be_bytes].
  pose proof (b2z_range b).
  rewrite Z.div_add_l, (Z.div_small (b2z b)), Z.add_0_r, IH by lia.
  f_equal. f_equal. rewrite <- (z2b_b2z b) at 2. unfold z2b. do 3 f_equal.
  rewrite Z.add_comm, Z.mod_add by lia. done.
Qed.

Lemma be_val_be_bytes_small n z :
  0 ≤ z < 256 ^ Z.of_nat n → be_val (be_bytes n z) = z.
Proof. intros. rewrite be_val_be_bytes. by apply Z.mod_small. Qed.

(** ** Readers

    The error a standard-library read reports. *)
Inductive ioerr := EOF | ErrUnexpectedEOF | errOverflow.
#[export] Instance ioerr_eq_dec : EqDecision ioerr.
Proof. solve_decision. Defined.

(** [io.ReadFull] of a buffer of [n] bytes: nothing to read is [EOF], too few
    bytes is [ErrUnexpectedEOF] and consumes what was there. *)
Definition ReadFull (n : nat) (r : bytes) : res ioerr bytes * bytes :=
  if decide (n = 0%nat) then (Ok [], r)
  else match r with
       | [] => (Err EOF, [])
       | _ => if decide (n ≤ length r)%nat then (Ok (take n r), drop n r)
              else (Err ErrUnexpectedEOF, [])
       end.

(** [ReadByte] of a [bytes.Buffer] or [bytes.Reader]. *)
Definition ReadByte (r : bytes) : res ioerr byte * bytes :=
  match r with [] => (Err EOF, []) | b :: r => (Ok b, r) end.

(** [binary.Read] of a big-endian unsigned integer of [n] bytes. *)
Definition ReadBE (n : nat) (r : bytes) : res ioerr Z * bytes :=
  let '(v, r') := ReadFull n r in
  (b ← v; mret (be_val b), r').

Lemma ReadFull_app n bs rest :
  length bs = n → ReadFull n (bs ++ rest) = (Ok bs, rest).
Proof.
  intros <-. unfold ReadFull. destruct bs as [|b bs]; [done|].
  rewrite decide_False by done. cbn [app length].
  rewrite decide_True by (rewrite length_app; cbn; lia).
  change (b :: bs ++ rest) with ((b :: bs) ++ rest).
  by rewrite take_app_length', drop_app_length'.
Qed.

Lemma ReadFull_ok n r v r' :
  ReadFull n r = (Ok v, r') → r = v ++ r' ∧ length v = n.
Proof.
  unfold ReadFull. case_decide; [intros [= <- <-]; by subst|].
  destruct r as [|b r]; [done|]. case_decide as Hle; [|done].
  intros [= <- <-]. split; [by rewrite take_drop|].
  rewrite length_take. cbn [length] in *. lia.
Qed.

Lemma ReadFull_not_panic n r v r' w : ReadFull n r = (v, r') → v ≠ Panic w.
Proof. unfold ReadFull. repeat case_match; naive_solver. Qed.

Lemma ReadBE_app n z rest :
  0 ≤ z < 256 ^ Z.of_nat n → ReadBE n (be_bytes n z ++ rest) = (Ok z, rest).
Proof.
  intros. unfold ReadBE. rewrite ReadFull_app by apply length_be_bytes. cbn.
  by rewrite be_val_be_bytes_small.
Qed.

Lemma ReadBE_ok n r v r' :
  ReadBE n r = (Ok v, r') →
  r = be_bytes n v ++ r' ∧ 0 ≤ v < 256 ^ Z.of_nat n.
Proof.
  unfold ReadBE. destruct (ReadFull n r) as [w s] eqn:E. intros [= H <-].
  apply bind_ok in H as (bs & -> & [= <-]).
  apply ReadFull_ok in E as [-> <-].
  by rewrite be_bytes_be_val; split; [|apply be_val_range].
Qed.

(** ** Unsigned varints ([binary.PutUvarint], [binary.ReadUvarint]) *)

Definition MaxVarintLen64 : nat := 10.

Fixpoint put_uvarint_loop (n : nat) (x : Z) : bytes :=
  match n with
  | O => []
  | S n => if x <? 128 then [z2b x]
           else z2b (Z.lor x 128) :: put_uvarint_loop n (Z.shiftr x 7)
  end.
Definition PutUvarint (x : Z) : bytes := put_uvarint_loop MaxVarintLen64 x.

(** [i] counts the bytes read so far, [x] and [s] are the accumulator and the
    shift; [n] is the number of iterations left. *)
Fixpoint read_uvarint_loop (n i : nat) (x s : Z) (r : bytes) : res ioerr Z * bytes :=
  match n with
  | O => (Err errOverflow, r)
  | S n =>
    match r with
    | [] => (Err (if (0 <? i)%nat then ErrUnexpectedEOF else EOF), [])
    | b :: r =>
      if b2z b <? 128 then
        if (i =? 9)%nat && (1 <? b2z b) then (Err errOverflow, r)
        else (Ok (Z.lor x (wrap64 (Z.shiftl (b2z b) s))), r)
      else read_uvarint_loop n (S i)
             (Z.lor x (wrap64 (Z.shiftl (Z.land (b2z b) 127) s))) (s + 7) r
    end
  end.
Definition ReadUvarint (r : bytes) : res ioerr Z * bytes :=
  read_uvarint_loop MaxVarintLen64 0 0 0 r.

Lemma lor_shiftl_add x y s :
  0 ≤ s → 0 ≤ x < 2 ^ s → Z.lor x (Z.shiftl y s) = x + y * 2 ^ s.
Proof.
  intros Hs Hx. rewrite <- Z.shiftl_mul_pow2 by lia.
  assert (Hd : Z.land x (Z.shiftl y s) = 0).
  { apply Z.bits_inj'. intros n Hn. rewrite Z.land_spec, Z.bits_0.
    destruct (Z.ltb_spec n s) as [Hlt|Hge].
    - by rewrite (Z.shiftl_spec_low _ _ _ Hlt), andb_false_r.
    - rewrite <- (Z.mod_small x (2 ^ s)) by lia.
      by rewrite Z.mod_pow2_bits_high by lia. }
  by rewrite <- Z.lxor_lor, <- Z.add_nocarry_lxor by done.
Qed.

Lemma b2z_continuation x : b2z (z2b (Z.lor x 128)) = x mod 128 + 128.
Proof.
  rewrite b2z_z2b.
  change 256 with (2 ^ 8). change 128 with (2 ^ 7) at 2.
  replace (x mod 2 ^ 7 + 128) with (Z.lor (x mod 2 ^ 7) (Z.shiftl 1 7)).
  2:{ rewrite lor_shiftl_add; [done|lia|]. by apply Z.mod_pos_bound. }
  apply Z.bits_inj'. intros n Hn.
  rewrite Z.lor_spec. change 128 with (Z.shiftl 1 7).
  destruct (Z.ltb_spec n 8).
  - rewrite Z.mod_pow2_bits_low, Z.lor_spec by lia.
    destruct (Z.ltb_spec n 7).
    + by rewrite Z.mod_pow2_bits_low by lia.
    + replace n with 7 by lia. by rewrite !orb_true_r.
  - rewrite !Z.mod_pow2_bits_high by lia. cbn.
    rewrite Z.shiftl_spec, (Z.bits_above_log2 1) by (cbn; lia). done.
Qed.

Lemma read_put_uvarint_loop n i x y rest :
  (n + i = 10)%nat → (0 < n)%nat → 0 ≤ x < 2 ^ (7 * Z.of_nat i) →
  0 ≤ y → x + y * 2 ^ (7 * Z.of_nat i) < 2 ^ 64 →
  read_uvarint_loop n i x (7 * Z.of_nat i) (put_uvarint_loop n y ++ rest)
  = (Ok (x + y * 2 ^ (7 * Z.of_nat i)), rest).
Proof.
  revert i x y; induction n as [|n IH]; intros i x y Hni Hn Hx Hy Hb; [lia|].
  set (s := 7 * Z.of_nat i) in *.
  assert (Hp : 0 < 2 ^ s) by (apply Z.pow_pos_nonneg; lia).
  cbn [put_uvarint_loop]. destruct (Z.ltb_spec y 128) as [Hlt|Hge].
  - cbn [app read_uvarint_loop]. rewrite b2z_z2b, Z.mod_small by lia.
    rewrite (proj2 (Z.ltb_lt y 128)) by lia.
    assert (((i =? 9)%nat && (1 <? y)) = false) as ->.
    { destruct (Nat.eqb_spec i 9) as [->|]; [|done]. cbn.
      apply Z.ltb_ge. change (2 ^ s) with (2 ^ 63) in *. lia. }
    f_equal. f_equal. rewrite wrap_small.
    + apply lor_shiftl_add; lia.
    + rewrite Z.shiftl_mul_pow2 by lia. split; nia.
  - cbn [app read_uvarint_loop]. rewrite b2z_continuation.
    pose proof (Z.mod_pos_bound y 128 ltac:(lia)) as Hm.
    rewrite (proj2 (Z.ltb_ge (y mod 128 + 128) 128)) by lia.
    destruct n as [|n'].
    { exfalso. replace s with 63 in * by lia. lia. }
    assert (Z.land (y mod 128 + 128) 127 = y mod 128) as ->.
    { change 127 with (Z.ones 7). rewrite Z.land_ones by lia.
      change (2 ^ 7) with 128. rewrite <- (Z.mul_1_l 128) at 2.
      rewrite Z.mod_add by lia. by apply Z.mod_small. }
    assert (Hlt' : y mod 128 * 2 ^ s < 2 ^ 64).
    { pose proof (Z.mod_le y 128). nia. }
    rewrite wrap_small, lor_shiftl_add by
      (try lia; rewrite Z.shiftl_mul_pow2 by lia; split; nia).
    rewrite Z.shiftr_div_pow2 by lia. change (2 ^ 7) with 128.
    assert (Hs : 7 * Z.of_nat (S i) = s + 7) by lia.
    assert (Hp2 : 2 ^ (s + 7) = 2 ^ s * 128) by (rewrite Z.pow_add_r; lia).
    assert (Hy' : y = y mod 128 + 128 * (y / 128)) by (pose proof (Z.div_mod y 128); lia).
    specialize (IH (S i) (x + y mod 128 * 2 ^ s) (y / 128)).
    rewrite Hs, Hp2 in IH. rewrite IH; try lia; try nia.
    f_equal. f_equal. nia.
Qed.

Lemma ReadUvarint_app x rest :
  is_u64 x → ReadUvarint (PutUvarint x ++ rest) = (Ok x, rest).
Proof.
  intros Hx. unfold ReadUvarint, PutUvarint.
  unfold is_uint in Hx.
  pose proof (read_put_uvarint_loop 10 0 0 x rest) as H.
  cbn -[read_uvarint_loop put_uvarint_loop] in H.
  rewrite Z.mul_1_r in H. apply H; lia.
Qed.

(** ** Codecs

    A codec writes a value as bytes and reads it back from the front of a
    stream.  The law is the round trip: reading what was written returns the
    value and leaves exactly the rest. *)
Class Codec (E A : Type) := {
  encode_to : A → bytes;
  decode_from : bytes → res E A * bytes;
  codec_wf : A → Prop;
  decode_encode a rest :
    codec_wf a → decode_from (encode_to a ++ rest) = (Ok a, rest);
}.

(** Encodings that can be read back are prefix-free, hence injective. *)
Lemma codec_inj {E A} `{Codec E A} a b r s :
  codec_wf a → codec_wf b → encode_to a ++ r = encode_to b ++ s → a = b ∧ r = s.
Proof.
  intros Ha Hb Heq. pose proof (decode_encode a r Ha) as H1.
  rewrite Heq, (decode_encode b s Hb) in H1. naive_solver.
Qed.

#[export] Instance uvarint_codec : Codec ioerr Z := {
  encode_to := PutUvarint;
  decode_from := ReadUvarint;
  codec_wf := is_u64;
  decode_encode := ReadUvarint_app;
}.

Create HintDb gobytes.
#[export] Hint Rewrite length_be_bytes @length_app @length_take @length_drop : gobytes.
#[export] Hint Resolve b2z_range be_val_range : gobytes.

Lemma read_uvarint_nonneg n i x s r v r' :
  0 ≤ x → read_uvarint_loop n i x s r = (Ok v, r') → 0 ≤ v.
Proof.
  revert i x s r. induction n as [|n IH]; intros i x s r Hx Hr; [done|]. cbn [read_uvarint_loop] in Hr.
  assert (Hw : ∀ z, 0 ≤ wrap64 z) by (intros z; apply (wrap_range 64); lia).
  destruct r as [|b r]; [done|]. destruct (b2z b <? 128).
  - destruct (_ && _); simplify_eq. by apply Z.lor_nonneg.
  - eapply IH; [|exact Hr]. by apply Z.lor_nonneg.
Qed.
Lemma ReadUvarint_nonneg r v r' : ReadUvarint r = (Ok v, r') → 0 ≤ v.
Proof. by apply read_uvarint_nonneg. Qed.
