(* ===== verification/GoHeap.v ===== *)
(** * Heaps

    The priority queue of Go's [container/heap] over a slice, as [payloads_queue.go] uses
    it: the element with the least key comes first. *)

From Stdlib Require Import ZifyNat.
From S2P Require Import Prelude.

Section heap.
Context {A : Type} (key : A → Z).
Implicit Type l : list A.

Definition key_at l (i : nat) : Z := match l !! i with Some a => key a | None => 0 end.
Definition heap_Less l (i j : nat) : bool := key_at l i <? key_at l j.
Definition heap_Swap l (i j : nat) : list A :=
  match l !! i, l !! j with
  | Some a, Some b => <[j:=a]> (<[i:=b]> l)
  | _, _ => l
  end.

Definition heap_parent (j : nat) : nat := ((j - 1) / 2)%nat.
(** The loops move towards the root and away from it, so an index bounds their steps. *)
Fixpoint heap_up (fuel : nat) l (j : nat) : list A :=
  match fuel with
  | O => l
  | S fuel =>
    let i := heap_parent j in
    if (i =? j)%nat || negb (heap_Less l j i) then l else heap_up fuel (heap_Swap l i j) i
  end.
Fixpoint heap_down (fuel : nat) l (i n : nat) : list A :=
  match fuel with
  | O => l
  | S fuel =>
    let j1 := (2 * i + 1)%nat in
    if (n <=? j1)%nat then l
    else
      let j := if (j1 + 1 <? n)%nat && heap_Less l (j1 + 1) j1 then (j1 + 1)%nat else j1 in
      if negb (heap_Less l j i) then l else heap_down fuel (heap_Swap l i j) j n
  end.

Definition heap_Push (x : A) l : list A := heap_up (S (length l)) (l ++ [x]) (length l).
(** The caller makes sure that the heap is not empty. *)
Definition heap_Pop l : option (A * list A) :=
  let n := pred (length l) in
  let l := heap_down (S n) (heap_Swap l 0 n) 0 n in
  match last l with
  | Some x => Some (x, take n l)
  | None => None
  end.

(** Every element of the first [n] has a key that is not below that of its parent. *)
Definition heap_ordered l (n : nat) : Prop := ∀ c, (0 < c < n)%nat → key_at l (heap_parent c) ≤ key_at l c.

Lemma length_heap_Swap l i j : length (heap_Swap l i j) = length l.
Proof. unfold heap_Swap. repeat case_match; by rewrite ?length_insert. Qed.
Lemma heap_Swap_perm l i j : heap_Swap l i j ≡ₚ l.
Proof. unfold heap_Swap. repeat case_match; try done. by apply Permutation_insert_swap. Qed.
Lemma heap_Swap_lookup l i j k : (i < length l)%nat → (j < length l)%nat →
  heap_Swap l i j !! k = if decide (k = j) then l !! i else if decide (k = i) then l !! j else l !! k.
Proof.
  intros Hi Hj. unfold heap_Swap.
  destruct (lookup_lt_is_Some_2 l i Hi) as [a Ha], (lookup_lt_is_Some_2 l j Hj) as [b Hb]. rewrite Ha, Hb.
  repeat case_decide; subst.
  - by rewrite list_lookup_insert_eq by (by rewrite length_insert).
  - by rewrite list_lookup_insert_ne, list_lookup_insert_eq.
  - by rewrite !list_lookup_insert_ne.
Qed.
Lemma heap_Swap_key l i j k : (i < length l)%nat → (j < length l)%nat →
  key_at (heap_Swap l i j) k =
    if decide (k = j) then key_at l i else if decide (k = i) then key_at l j else key_at l k.
Proof. intros Hi Hj. unfold key_at. rewrite heap_Swap_lookup by done. by repeat case_decide. Qed.

Lemma heap_up_perm fuel l j : heap_up fuel l j ≡ₚ l.
Proof.
  revert l j. induction fuel as [|fuel IH]; intros l j; cbn; [done|]. case_match; [done|].
  by rewrite IH, heap_Swap_perm.
Qed.
Lemma heap_down_perm fuel l i n : heap_down fuel l i n ≡ₚ l.
Proof.
  revert l i. induction fuel as [|fuel IH]; intros l i; cbn; [done|]. repeat case_match; try done;
  by rewrite IH, heap_Swap_perm.
Qed.

Lemma heap_parent_lt c : (0 < c)%nat → (heap_parent c < c)%nat.
Proof. intros Hc. unfold heap_parent. Zify.zify; Z.to_euclidean_division_equations; lia. Qed.
Lemma heap_parent_0 : heap_parent 0 = 0%nat.
Proof. done. Qed.
Lemma heap_parent_iff c i : (0 < c)%nat → heap_parent c = i ↔ c = (2 * i + 1)%nat ∨ c = (2 * i + 2)%nat.
Proof. intros Hc. unfold heap_parent. Zify.zify; Z.to_euclidean_division_equations; lia. Qed.

(** Only the element at [j] may be smaller than its parent. *)
Lemma heap_up_ordered fuel l j :
  (j < length l)%nat → (j < fuel)%nat →
  (∀ c, (0 < c < length l)%nat → c ≠ j → key_at l (heap_parent c) ≤ key_at l c) →
  (∀ c, (0 < c < length l)%nat → heap_parent c = j → (0 < j)%nat → key_at l (heap_parent j) ≤ key_at l c) →
  heap_ordered (heap_up fuel l j) (length l).
Proof.
  revert l j. induction fuel as [|fuel IH]; intros l j Hj Hf Ho Hc; [lia|]. cbn [heap_up].
  destruct (Nat.eqb_spec (heap_parent j) j) as [Hij|Hij]; cbn [orb].
  { intros c Hcn. apply Ho; [done|]. intros ->. pose proof (heap_parent_lt j). lia. }
  assert (Hj0 : (0 < j)%nat) by (destruct j; [done|lia]).
  pose proof (heap_parent_lt j Hj0) as Hi. unfold heap_Less.
  destruct (Z.ltb_spec (key_at l j) (key_at l (heap_parent j))) as [Hlt|Hge]; cbn [negb].
  2: { intros c Hcn. destruct (decide (c = j)) as [->|]; [done|by apply Ho]. }
  rewrite <- (length_heap_Swap l (heap_parent j) j).
  apply IH; rewrite ?length_heap_Swap; try lia.
  - intros c Hcn Hci. pose proof (heap_parent_lt c). rewrite !heap_Swap_key by lia.
    repeat case_decide; subst; try lia.
    + apply Hc; lia.
    + etrans; [apply Z.lt_le_incl; exact Hlt|]. replace (heap_parent j) with (heap_parent c) by done. by apply Ho.
    + by apply Ho.
  - intros c Hcn Hpar Hi0. pose proof (heap_parent_lt (heap_parent j) Hi0) as Hpp.
    pose proof (heap_parent_lt c). rewrite !heap_Swap_key by lia.
    rewrite (decide_False (P := heap_parent (heap_parent j) = j)) by lia.
    rewrite (decide_False (P := heap_parent (heap_parent j) = heap_parent j)) by lia.
    assert (key_at l (heap_parent (heap_parent j)) ≤ key_at l (heap_parent j)) by (apply Ho; lia).
    repeat case_decide; subst; try lia. etrans; [done|]. rewrite <- Hpar. by apply Ho.
Qed.

(** Only the element at [i] may be larger than its children. *)
Lemma heap_down_ordered fuel l i n :
  (n ≤ length l)%nat → (n < i + fuel)%nat →
  (∀ c, (0 < c < n)%nat → heap_parent c ≠ i → key_at l (heap_parent c) ≤ key_at l c) →
  (∀ c, (0 < c < n)%nat → heap_parent c = i → (0 < i)%nat → key_at l (heap_parent i) ≤ key_at l c) →
  heap_ordered (heap_down fuel l i n) n.
Proof.
  revert l i. induction fuel as [|fuel IH]; intros l i Hn Hf Ho Hc; cbn [heap_down].
  { intros c Hcn. apply Ho; [done|]. pose proof (heap_parent_lt c). lia. }
  destruct (Nat.leb_spec n (2 * i + 1)) as [Hend|Hin].
  { intros c Hcn. apply Ho; [done|]. intros Hp%heap_parent_iff; lia. }
  set (j := if _ && _ then _ else _).
  assert (Hj : (j < n)%nat ∧ (i < j)%nat ∧ heap_parent j = i ∧
    ∀ c, (0 < c < n)%nat → heap_parent c = i → key_at l j ≤ key_at l c).
  { subst j. unfold heap_Less. destruct (Nat.ltb_spec (2 * i + 1 + 1) n) as [H2|H2]; cbn [andb].
    - destruct (Z.ltb_spec (key_at l (2 * i + 1 + 1)) (key_at l (2 * i + 1))) as [Hk|Hk];
        (split_and!; [lia..|apply heap_parent_iff; lia|]);
        intros c Hcn [-> | ->]%heap_parent_iff; try lia; rewrite <- ?Nat.add_assoc in *; cbn in *; lia.
    - split_and!; [lia..|apply heap_parent_iff; lia|]. intros c Hcn [->| ->]%heap_parent_iff; lia. }
  destruct Hj as (Hjn & Hij & Hpj & Hmin). clearbody j. unfold heap_Less.
  destruct (Z.ltb_spec (key_at l j) (key_at l i)) as [Hlt|Hge]; cbn [negb].
  2: { intros c Hcn. destruct (decide (heap_parent c = i)) as [He|]; [|by apply Ho].
       rewrite He. etrans; [exact Hge|by apply Hmin]. }
  apply IH; rewrite ?length_heap_Swap; try lia.
  - intros c Hcn Hpc. pose proof (heap_parent_lt c). rewrite !heap_Swap_key by lia.
    rewrite (decide_False (P := heap_parent c = j)) by done.
    destruct (decide (c = j)) as [Ecj|Ecj]; [rewrite Ecj, Hpj, decide_True by done; lia|].
    destruct (decide (c = i)) as [Eci|Eci].
    + rewrite Eci, decide_False by (rewrite <- Eci; lia). apply Hc; lia.
    + destruct (decide (heap_parent c = i)); [by apply Hmin|by apply Ho].
  - intros c Hcn Hpar Hj0. pose proof (heap_parent_lt c). rewrite !heap_Swap_key by lia. rewrite Hpj.
    rewrite (decide_False (P := i = j)), (decide_True (P := i = i)) by lia.
    rewrite (decide_False (P := c = j)), (decide_False (P := c = i)) by lia. rewrite <- Hpar. apply Ho; lia.
Qed.

(** The elements behind the heap do not move. *)
Lemma heap_down_lookup fuel l i n k : (i < n)%nat → (n ≤ k)%nat → (n ≤ length l)%nat → heap_down fuel l i n !! k = l !! k.
Proof.
  revert l i. induction fuel as [|fuel IH]; intros l i Hi Hk Hn; cbn [heap_down]; [done|].
  destruct (Nat.leb_spec n (2 * i + 1)); [done|].
  set (j := if _ && _ then _ else _).
  assert (j < n)%nat by (subst j; destruct (Nat.ltb_spec (2 * i + 1 + 1) n); cbn [andb]; [destruct (heap_Less _ _ _)|]; lia).
  destruct (negb _); [done|]. rewrite IH by (rewrite ?length_heap_Swap; lia).
  rewrite heap_Swap_lookup by lia. by rewrite !decide_False by lia.
Qed.

(** ** Push and pop *)

Definition is_heap l : Prop := heap_ordered l (length l).

Lemma heap_nil : is_heap [].
Proof. intros c Hc. cbn in Hc. lia. Qed.

Lemma heap_Push_spec x l : is_heap l → is_heap (heap_Push x l) ∧ heap_Push x l ≡ₚ x :: l.
Proof.
  intros Hl. unfold heap_Push, is_heap. split.
  2: { rewrite heap_up_perm. symmetry. apply Permutation_cons_append. }
  rewrite (Permutation_length (heap_up_perm _ _ _)).
  apply heap_up_ordered; rewrite ?length_app; cbn [length]; try lia.
  - intros c Hcn Hne. pose proof (heap_parent_lt c). unfold key_at.
    rewrite !lookup_app_l by lia. apply Hl. lia.
  - intros c Hcn Hp. pose proof (heap_parent_lt c). lia.
Qed.

(** The root has the least key. *)
Lemma heap_root_least l n c : heap_ordered l n → (c < n)%nat → key_at l 0 ≤ key_at l c.
Proof.
  intros Hl. induction c as [c IH] using lt_wf_ind. intros Hc.
  destruct (decide (c = 0%nat)) as [->|Hne]; [done|]. pose proof (heap_parent_lt c ltac:(lia)).
  etrans; [apply (IH (heap_parent c)); lia|]. apply Hl. lia.
Qed.

Lemma heap_Pop_spec a l : is_heap (a :: l) →
  ∃ l', heap_Pop (a :: l) = Some (a, l') ∧ is_heap l' ∧ l' ≡ₚ l ∧ Forall (λ b, key a ≤ key b) l.
Proof.
  intros Hl. unfold heap_Pop. cbn [length pred]. set (n := length l).
  set (s := heap_Swap (a :: l) 0 n). set (d := heap_down (S n) s 0 n).
  assert (Hls : length s = S n) by apply length_heap_Swap.
  assert (Hld : length d = S n) by (rewrite <- Hls; apply Permutation_length, heap_down_perm).
  assert (Hlast : d !! n = Some a).
  { assert (Heq : d !! n = s !! n).
    { subst d. destruct (decide (n = 0%nat)) as [Hz|Hz]; [|apply heap_down_lookup; lia].
      cbn [heap_down]. destruct (Nat.leb_spec n (2 * 0 + 1)); [done|lia]. }
    rewrite Heq. subst s. rewrite heap_Swap_lookup by (cbn; lia). by rewrite decide_True. }
  rewrite last_lookup, Hld. cbn [pred]. rewrite Hlast. exists (take n d).
  assert (Hd : d = take n d ++ [a]).
  { rewrite <- (take_drop n d) at 1. f_equal. rewrite (drop_S _ a) by done. by rewrite drop_ge by lia. }
  assert (Hp : take n d ≡ₚ l).
  { apply (Permutation_cons_inv (a := a)). transitivity d.
    - rewrite Hd at 2. apply Permutation_cons_append.
    - subst d s. by rewrite heap_down_perm, heap_Swap_perm. }
  split_and!; [done| |done|].
  - unfold is_heap. rewrite length_take, Hld, Nat.min_l by lia.
    assert (Ho : heap_ordered d n).
    { apply heap_down_ordered; [lia|lia| |lia]. intros c Hc Hpc. subst s. pose proof (heap_parent_lt c).
      rewrite !heap_Swap_key by (cbn; lia). rewrite !decide_False by lia. apply Hl. cbn. lia. }
    intros c Hc. pose proof (heap_parent_lt c). unfold key_at. rewrite !lookup_take_lt by lia. by apply Ho.
  - apply Forall_forall. intros b (k & Hk)%list_elem_of_lookup.
    pose proof (heap_root_least (a :: l) (length (a :: l)) (S k) Hl) as Hr. unfold key_at in Hr.
    change ((a :: l) !! S k) with (l !! k) in Hr. rewrite Hk in Hr. apply Hr.
    apply lookup_lt_Some in Hk. cbn. lia.
Qed.
End heap.
