(* ===== verification/Errors.v ===== *)
(** * Errors of the derivation pipeline

    Models [op-node/rollup/derive/error.go]: the sentinel errors, the severity
    levels and the [Error] wrapper, with [errors.Is] as the derivation code
    uses it. *)

From S2P Require Import Prelude GoBytes.

(** Severity of an [Error]. *)
Inductive Level := LevelTemporary | LevelReset | LevelCritical.
#[export] Instance Level_eq_dec : EqDecision Level.
Proof. solve_decision. Defined.

(** Errors compared by identity. *)
Inductive sentinel :=
| IO (e : ioerr)
| SNotEnoughData
| SEngineELSyncing
| SDuplicateErr
| STooBigSpanBatchSize
| SEmptySpanBatch
| SEngineResetReq
| SNotFound
| SInvalidCommitment
| SCommitmentMismatch
| SPendingChallenge
| SExpiredChallenge
| SCommitmentTypeMismatch
| SMissingPastWindow
| SReorgRequired
| SDANotFound
| SNotEnabled
| SReorgFinalized
| SWrongChain
| STooDeepReorg.
#[export] Instance sentinel_eq_dec : EqDecision sentinel.
Proof. solve_decision. Defined.

(** A Go error value: a sentinel, the severity wrapper [Error{err, level}] with
    a possibly nil inner error, [fmt.Errorf("...%w", err)], a plain message, or an error of
    the RPC client with its code. *)
Inductive error :=
| Sentinel (s : sentinel)
| Error (err : option error) (level : Level)
| Errorf (msg : string) (err : error)
| ErrorsNew (msg : string)
| RpcError (code : Z).

Abbreviation Res := (res error).

Definition io_EOF : error := Sentinel (IO EOF).
Definition NotEnoughData : error := Sentinel SNotEnoughData.
Definition EngineELSyncing : error := Sentinel SEngineELSyncing.
Definition DuplicateErr : error := Sentinel SDuplicateErr.
Definition ErrTooBigSpanBatchSize : error := Sentinel STooBigSpanBatchSize.
Definition ErrEmptySpanBatch : error := Sentinel SEmptySpanBatch.
Definition ErrEngineResetReq : error := Sentinel SEngineResetReq.
(** [op-alt-da]: [commitment.go], [damgr.go], [dastate.go], [daclient.go] and [damock.go]. *)
Definition ErrInvalidCommitment : error := Sentinel SInvalidCommitment.
Definition ErrCommitmentMismatch : error := Sentinel SCommitmentMismatch.
Definition ErrPendingChallenge : error := Sentinel SPendingChallenge.
Definition ErrExpiredChallenge : error := Sentinel SExpiredChallenge.
Definition ErrCommitmentTypeMismatch : error := Sentinel SCommitmentTypeMismatch.
Definition ErrMissingPastWindow : error := Sentinel SMissingPastWindow.
Definition ErrReorgRequired : error := Sentinel SReorgRequired.
Definition ErrNotFound : error := Sentinel SDANotFound.
Definition ErrNotEnabled : error := Sentinel SNotEnabled.
(** [op-node/rollup/sync/start.go]. *)
Definition ReorgFinalizedErr : error := Sentinel SReorgFinalized.
Definition WrongChainErr : error := Sentinel SWrongChain.
Definition TooDeepReorgErr : error := Sentinel STooDeepReorg.
Definition ErrTemporary : error := Error None LevelTemporary.
Definition ErrReset : error := Error None LevelReset.
Definition ErrCritical : error := Error None LevelCritical.

Definition NewError (err : error) (level : Level) : error := Error (Some err) level.
Definition NewTemporaryError (err : error) : error := NewError err LevelTemporary.
Definition NewResetError (err : error) : error := NewError err LevelReset.
Definition NewCriticalError (err : error) : error := NewError err LevelCritical.

(** The comparison [err == s] with a sentinel: identity, no unwrapping. *)
Definition err_is_sentinel (s : sentinel) (e : error) : bool :=
  match e with Sentinel s' => bool_decide (s = s') | _ => false end.
Definition is_EOF (e : error) : bool := err_is_sentinel (IO EOF) e.

(** What [errors.Is] is asked to find: a sentinel, or one of the three
    [Error] values, which match by level only. *)
Inductive target := TSentinel (s : sentinel) | TLevel (l : Level).
#[export] Instance target_eq_dec : EqDecision target.
Proof. solve_decision. Defined.

(** [Error.Is] together with the unwrapping loop of [errors.Is]. *)
Fixpoint errors_Is (e : error) (t : target) : bool :=
  match e with
  | Sentinel s => bool_decide (t = TSentinel s)
  | Error None lvl => bool_decide (t = TLevel lvl)
  | Error (Some e') lvl => bool_decide (t = TLevel lvl) || errors_Is e' t
  | Errorf _ e' => errors_Is e' t
  | ErrorsNew _ | RpcError _ => false
  end.

(** [errors.As] with an [rpc.Error] as the target: the code of the first one in the chain. *)
Fixpoint errors_As_rpc (e : error) : option Z :=
  match e with
  | RpcError code => Some code
  | Error (Some e') _ | Errorf _ e' => errors_As_rpc e'
  | _ => None
  end.

(** The severity a consumer sees first: the outermost [Error] of the chain. *)
Fixpoint outer_level (e : error) : option Level :=
  match e with
  | Error _ lvl => Some lvl
  | Errorf _ e' => outer_level e'
  | _ => None
  end.

Lemma errors_Is_level e lvl : outer_level e = Some lvl → errors_Is e (TLevel lvl) = true.
Proof.
  induction e as [s|o l|m e IH|m|c]; cbn; try done.
  intros [= ->]. destruct o; cbn; by rewrite bool_decide_eq_true_2.
Qed.

Lemma errors_Is_Errorf m e t : errors_Is (Errorf m e) t = errors_Is e t.
Proof. done. Qed.

(** Lift a standard-library read error. *)
Definition io_err (e : ioerr) : error := Sentinel (IO e).

(** ** Fallible readers

    Code that pulls values off an [io.Reader] one after the other, stopping at
    the first error. *)
Definition Rd (A : Type) : Type := bytes → Res A * bytes.

#[export] Instance Rd_ret : MRet Rd := λ A a r, (Ok a, r).
#[export] Instance Rd_bind : MBind Rd := λ A B k m r,
  match m r with
  | (Ok a, r) => k a r
  | (Err e, r) => (Err e, r)
  | (Panic w, r) => (Panic w, r)
  end.
Definition rd_fail {A} (e : error) : Rd A := λ r, (Err e, r).
Definition rd_check (b : bool) (e : error) : Rd unit := λ r, (if b then Ok () else Err e, r).
(** Replace the error of a read. *)
Definition rd_err {E A} (f : E → error) (m : bytes → res E A * bytes) : Rd A := λ r,
  let '(v, r) := m r in (map_err f v, r).

Lemma rd_bind_ok {A B} (m : Rd A) (k : A → Rd B) r b r' :
  (m ≫= k) r = (Ok b, r') ↔ ∃ a r1, m r = (Ok a, r1) ∧ k a r1 = (Ok b, r').
Proof.
  unfold mbind, Rd_bind. destruct (m r) as [[a|e|w] r1]; naive_solver.
Qed.

Lemma rd_ret_ok {A} (a b : A) r r' :
  (mret a : Rd A) r = (Ok b, r') ↔ a = b ∧ r = r'.
Proof. unfold mret, Rd_ret. naive_solver. Qed.

Lemma rd_check_ok b e r u r' : rd_check b e r = (Ok u, r') ↔ b = true ∧ r = r'.
Proof. unfold rd_check. destruct b, u; naive_solver. Qed.

Lemma rd_err_ok {E A} (f : E → error) (m : bytes → res E A * bytes) r a r' :
  rd_err f m r = (Ok a, r') ↔ m r = (Ok a, r').
Proof. unfold rd_err. destruct (m r) as [[x|e|w] s]; cbn; naive_solver. Qed.

(** Readers that return a value or an error on every input. *)
Definition never_panics {E A} (m : bytes → res E A * bytes) : Prop := ∀ r w, (m r).1 ≠ Panic w.

Lemma never_panics_bind {A B} (m : Rd A) (k : A → Rd B) :
  never_panics m → (∀ a, never_panics (k a)) → never_panics (m ≫= k).
Proof.
  intros Hm Hk r w. unfold mbind, Rd_bind. specialize (Hm r w).
  destruct (m r) as [[a|e|w'] r1]; cbn in *; [apply Hk|done|congruence].
Qed.
Lemma never_panics_err {E A} (f : E → error) (m : bytes → res E A * bytes) :
  never_panics m → never_panics (rd_err f m).
Proof.
  intros Hm r w. unfold rd_err. specialize (Hm r w).
  destruct (m r) as [[a|e|w'] r1]; cbn in *; congruence.
Qed.
Lemma never_panics_ret {A} (a : A) : never_panics (mret a : Rd A).
Proof. done. Qed.
Lemma never_panics_check b e : never_panics (rd_check b e).
Proof. intros r w. by destruct b. Qed.
Lemma never_panics_ReadFull n : never_panics (ReadFull n).
Proof.
  intros r w. destruct (ReadFull n r) as [v r'] eqn:E. by apply ReadFull_not_panic with (w := w) in E.
Qed.
Lemma never_panics_ReadBE n : never_panics (ReadBE n).
Proof.
  intros r w. unfold ReadBE. pose proof (never_panics_ReadFull n r w) as Hr.
  destruct (ReadFull n r) as [[v|e|w'] r']; cbn in *; try done; congruence.
Qed.
Lemma never_panics_ReadByte : never_panics ReadByte.
Proof. by intros [|b r] w. Qed.
Create HintDb rd.
#[export] Hint Resolve never_panics_bind never_panics_err never_panics_ret never_panics_check
  never_panics_ReadFull never_panics_ReadBE never_panics_ReadByte : rd.

(** ** Reading back what was written *)

(** The reader returns what the writer wrote and leaves the rest. *)
Definition reads {A} (m : Rd A) (d : bytes) (x : A) : Prop := ∀ rest, m (d ++ rest) = (Ok x, rest).

Lemma reads_bind {A B} (m : Rd A) (k : A → Rd B) d1 d2 x y :
  reads m d1 x → reads (k x) d2 y → reads (m ≫= k) (d1 ++ d2) y.
Proof.
  intros H1 H2 rest. rewrite <- app_assoc, rd_bind_ok. exists x, (d2 ++ rest). auto.
Qed.
Lemma reads_ret {A} (x : A) : reads (mret x) [] x.
Proof. intros rest. done. Qed.
Lemma reads_err {E A} (f : E → error) (m : bytes → res E A * bytes) d x :
  (∀ rest, m (d ++ rest) = (Ok x, rest)) → reads (rd_err f m) d x.
Proof. intros Hm rest. by rewrite rd_err_ok. Qed.
Lemma reads_last {A B} (m : Rd A) (f : A → B) d x :
  reads m d x → reads (m ≫= λ a, mret (f a)) d (f x).
Proof.
  intros Hm. rewrite <- (app_nil_r d). eapply reads_bind; [done|apply reads_ret].
Qed.

Lemma reads_uvarint f n : is_u64 n → reads (rd_err f ReadUvarint) (PutUvarint n) n.
Proof. intros Hn. apply reads_err. intros rest. by apply ReadUvarint_app. Qed.
Lemma reads_full f n d : length d = n → reads (rd_err f (ReadFull n)) d d.
Proof. intros Hn. apply reads_err. intros rest. by apply ReadFull_app. Qed.
Lemma reads_be f n v : 0 ≤ v < 256 ^ Z.of_nat n → reads (rd_err f (ReadBE n)) (be_bytes n v) v.
Proof. intros Hv. apply reads_err. intros rest. by apply ReadBE_app. Qed.
Lemma reads_then {A} (m : Rd A) (x : A) d y :
  reads m d y → ∀ k : A → Rd A, (∀ rest, k y rest = (Ok x, rest)) → reads (m ≫= k) d x.
Proof. intros Hm k Hk. rewrite <- (app_nil_r d). eapply reads_bind; [done|]. exact Hk. Qed.
