(* ===== verification/Eth.v ===== *)
(** * Block identifiers, payloads and the system configuration

    Models the data types of [op-service/eth] the derivation pipeline passes
    around: [id.go] (block ids and references), the payload types and the
    L1 system configuration of [types.go]. Fixed-size byte arrays are byte
    lists; the well-formedness predicates fix their length. *)

From S2P Require Import Prelude GoBytes.

(** [common.Hash], [common.Address] and [hexutil.Bytes]. *)
Abbreviation Hash := bytes.
Abbreviation Address := bytes.
Abbreviation Data := bytes.
Definition zeroHash : Hash := replicate 32 x00.
Definition zeroAddress : Address := replicate 20 x00.

Record BlockID := mkBlockID { id_Hash : Hash; id_Number : Z }.
#[export] Instance BlockID_eq_dec : EqDecision BlockID.
Proof. solve_decision. Defined.

Record L1BlockRef := mkL1BlockRef {
  l1_Hash : Hash; l1_Number : Z; l1_ParentHash : Hash; l1_Time : Z }.
#[export] Instance L1BlockRef_eq_dec : EqDecision L1BlockRef.
Proof. solve_decision. Defined.

Record L2BlockRef := mkL2BlockRef {
  l2_Hash : Hash; l2_Number : Z; l2_ParentHash : Hash; l2_Time : Z;
  l2_L1Origin : BlockID; l2_SequenceNumber : Z }.
#[export] Instance L2BlockRef_eq_dec : EqDecision L2BlockRef.
Proof. solve_decision. Defined.

(** Go's zero values. *)
Definition zeroBlockID : BlockID := mkBlockID zeroHash 0.
Definition zeroL1 : L1BlockRef := mkL1BlockRef zeroHash 0 zeroHash 0.
Definition zeroL2 : L2BlockRef := mkL2BlockRef zeroHash 0 zeroHash 0 zeroBlockID 0.

Definition L1_ID (b : L1BlockRef) : BlockID := mkBlockID (l1_Hash b) (l1_Number b).
Definition L2_ID (b : L2BlockRef) : BlockID := mkBlockID (l2_Hash b) (l2_Number b).

(** The number saturates at zero. *)
Definition L1_ParentID (b : L1BlockRef) : BlockID :=
  let n := id_Number (L1_ID b) in
  mkBlockID (l1_ParentHash b) (if 0 <? n then n - 1 else n).
Definition L2_ParentID (b : L2BlockRef) : BlockID :=
  let n := id_Number (L2_ID b) in
  mkBlockID (l2_ParentHash b) (if 0 <? n then n - 1 else n).
Definition L2_BlockRef (b : L2BlockRef) : L1BlockRef :=
  mkL1BlockRef (l2_Hash b) (l2_Number b) (l2_ParentHash b) (l2_Time b).

(** Machine-integer well-formedness. *)
Definition BlockID_wf (b : BlockID) : Prop := is_u64 (id_Number b).
Definition L1_wf (b : L1BlockRef) : Prop := is_u64 (l1_Number b) ∧ is_u64 (l1_Time b).
Definition L2_wf (b : L2BlockRef) : Prop :=
  is_u64 (l2_Number b) ∧ is_u64 (l2_Time b) ∧ BlockID_wf (l2_L1Origin b).

(** ** L1 system configuration *)
Record SystemConfig := mkSystemConfig {
  sc_BatcherAddr : Address;
  sc_Overhead : bytes;
  sc_Scalar : bytes;
  sc_GasLimit : Z;
  sc_EIP1559Params : bytes;
  sc_OperatorFeeParams : bytes;
  sc_MinBaseFee : Z;
  sc_DAFootprintGasScalar : Z;
  sc_MarshalPreHolocene : bool }.
#[export] Instance SystemConfig_eq_dec : EqDecision SystemConfig.
Proof. solve_decision. Defined.
Definition zeroSystemConfig : SystemConfig :=
  mkSystemConfig zeroAddress (replicate 32 x00) (replicate 32 x00) 0
    (replicate 8 x00) (replicate 32 x00) 0 0 false.

(** ** Payload attributes

    Withdrawals only occur as nil or as a list the derivation never inspects
    element-wise, so a list of opaque byte strings stands for them. *)
Record PayloadAttributes := mkPayloadAttributes {
  pa_Timestamp : Z;
  pa_PrevRandao : bytes;
  pa_SuggestedFeeRecipient : Address;
  pa_Withdrawals : option (list bytes);
  pa_ParentBeaconBlockRoot : option Hash;
  pa_Transactions : list Data;
  pa_NoTxPool : bool;
  pa_GasLimit : option Z;
  pa_EIP1559Params : option bytes;
  pa_MinBaseFee : option Z }.
#[export] Instance PayloadAttributes_eq_dec : EqDecision PayloadAttributes.
Proof. solve_decision. Defined.

Definition pa_set_Transactions (txs : list Data) (a : PayloadAttributes) : PayloadAttributes :=
  mkPayloadAttributes (pa_Timestamp a) (pa_PrevRandao a) (pa_SuggestedFeeRecipient a)
    (pa_Withdrawals a) (pa_ParentBeaconBlockRoot a) txs (pa_NoTxPool a)
    (pa_GasLimit a) (pa_EIP1559Params a) (pa_MinBaseFee a).
Definition pa_set_NoTxPool (b : bool) (a : PayloadAttributes) : PayloadAttributes :=
  mkPayloadAttributes (pa_Timestamp a) (pa_PrevRandao a) (pa_SuggestedFeeRecipient a)
    (pa_Withdrawals a) (pa_ParentBeaconBlockRoot a) (pa_Transactions a) b
    (pa_GasLimit a) (pa_EIP1559Params a) (pa_MinBaseFee a).

(** Transaction type bytes of go-ethereum's [core/types]. *)
Definition DepositTxType : byte := x7e.
Definition SetCodeTxType : byte := x04.

Definition is_deposit_tx (tx : Data) : bool :=
  match tx with [] => false | b :: _ => bool_decide (b = DepositTxType) end.

Definition IsDepositsOnly (a : PayloadAttributes) : bool :=
  forallb is_deposit_tx (pa_Transactions a).

Definition WithDepositsOnly (a : PayloadAttributes) : PayloadAttributes :=
  pa_set_Transactions (List.filter is_deposit_tx (pa_Transactions a)) a.

Lemma IsDepositsOnly_spec a :
  IsDepositsOnly a = true ↔ Forall (λ tx, is_deposit_tx tx = true) (pa_Transactions a).
Proof. unfold IsDepositsOnly. rewrite forallb_forall, Forall_forall. by setoid_rewrite list_elem_of_In. Qed.

(** Stripping leaves only deposits, keeps every deposit in order, and is the
    identity on attributes that are deposits-only already. *)
Lemma WithDepositsOnly_only a : IsDepositsOnly (WithDepositsOnly a) = true.
Proof.
  unfold IsDepositsOnly, WithDepositsOnly. cbn.
  apply forallb_forall. intros x Hx. by apply filter_In in Hx as [_ ?].
Qed.

Lemma WithDepositsOnly_id a : IsDepositsOnly a = true → WithDepositsOnly a = a.
Proof.
  unfold IsDepositsOnly, WithDepositsOnly. destruct a; cbn. intros H.
  unfold pa_set_Transactions; cbn. f_equal.
  rewrite forallb_forall in H.
  by induction pa_Transactions0 as [|t l IH]; cbn; [|rewrite H by (by left); rewrite IH by (intros; apply H; by right)].
Qed.

(** ** Execution payloads: the fields the batch checks and conversions read. *)
Record ExecutionPayload := mkExecutionPayload {
  ep_ParentHash : Hash;
  ep_FeeRecipient : Address;
  ep_StateRoot : bytes;
  ep_ReceiptsRoot : bytes;
  ep_LogsBloom : bytes;
  ep_PrevRandao : bytes;
  ep_BlockNumber : Z;
  ep_GasLimit : Z;
  ep_GasUsed : Z;
  ep_Timestamp : Z;
  ep_ExtraData : bytes;
  ep_BaseFeePerGas : Z;
  ep_BlockHash : Hash;
  ep_Transactions : list Data;
  ep_Withdrawals : option (list bytes);
  ep_BlobGasUsed : option Z;
  ep_ExcessBlobGas : option Z;
  ep_WithdrawalsRoot : option Hash }.
#[export] Instance ExecutionPayload_eq_dec : EqDecision ExecutionPayload.
Proof. solve_decision. Defined.

Definition EP_ID (p : ExecutionPayload) : BlockID := mkBlockID (ep_BlockHash p) (ep_BlockNumber p).
Definition EP_ParentID (p : ExecutionPayload) : BlockID :=
  let n := ep_BlockNumber p in
  mkBlockID (ep_ParentHash p) (if 0 <? n then n - 1 else n).
Definition EP_BlockRef (p : ExecutionPayload) : L1BlockRef :=
  mkL1BlockRef (ep_BlockHash p) (ep_BlockNumber p) (ep_ParentHash p) (ep_Timestamp p).
