(* ===== verification/RollupConfig.v ===== *)
(** * Forks and the rollup configuration

    Models [op-core/forks/forks.go] (the fork names and their order) and
    [op-node/rollup/types.go]: the [Config] record, its validation [Check], the
    fork-activation predicates and the block-number arithmetic. *)

From S2P Require Import Prelude GoBytes Errors Eth.

(** ** Fork names

    The named constants of [forks.Name]; [NoFork] is the empty name [None]. *)
Inductive ForkName :=
| Bedrock | Regolith | Canyon | Delta | Ecotone | Fjord | Granite | Holocene
| Isthmus | Jovian | Karst | Interop
| PectraBlobSchedule
| NoFork.
#[export] Instance ForkName_eq_dec : EqDecision ForkName.
Proof. solve_decision. Defined.

Definition forks_All : list ForkName :=
  [Bedrock; Regolith; Canyon; Delta; Ecotone; Fjord; Granite; Holocene;
   Isthmus; Jovian; Karst; Interop].

(** The list of forks from [start] on; an unknown fork panics. *)
Fixpoint forks_From_loop (start : ForkName) (l : list ForkName) : Res (list ForkName) :=
  match l with
  | [] => Panic "invalid fork"
  | f :: l' => if decide (f = start) then Ok l else forks_From_loop start l'
  end.
Definition forks_From (start : ForkName) : Res (list ForkName) :=
  forks_From_loop start forks_All.

(** The successor map: the last fork maps to [NoFork], and a name that is not
    a key reads as the zero value, [NoFork] again. *)
Fixpoint next_map (l : list ForkName) (f : ForkName) : option ForkName :=
  match l with
  | [] => None
  | [g] => if decide (f = g) then Some NoFork else None
  | g :: ((h :: _) as l') => if decide (f = g) then Some h else next_map l' f
  end.
Definition forks_IsValid (f : ForkName) : bool := bool_decide (is_Some (next_map forks_All f)).
Definition forks_Next (f : ForkName) : ForkName := default NoFork (next_map forks_All f).

(** ** The configuration *)

Record Genesis := mkGenesis {
  gen_L1 : BlockID; gen_L2 : BlockID; gen_L2Time : Z; gen_SystemConfig : SystemConfig }.

Record AltDAConfig := mkAltDAConfig {
  ada_DAChallengeAddress : Address;
  ada_CommitmentType : string;
  ada_DAChallengeWindow : Z;
  ada_DAResolveWindow : Z }.

(** The activation-time pointers of [Config]; nil is [None]. *)
Record ForkTimes := mkForkTimes {
  RegolithTime : option Z;
  CanyonTime : option Z;
  DeltaTime : option Z;
  EcotoneTime : option Z;
  FjordTime : option Z;
  GraniteTime : option Z;
  HoloceneTime : option Z;
  IsthmusTime : option Z;
  JovianTime : option Z;
  KarstTime : option Z;
  InteropTime : option Z;
  PectraBlobScheduleTime : option Z }.

(** The fields of [params.OptimismConfig] the node reads. *)
Record OptimismConfig := mkOptimismConfig {
  EIP1559Elasticity : Z; EIP1559Denominator : Z; EIP1559DenominatorCanyon : option Z }.

Record Config := mkConfig {
  cfg_Genesis : Genesis;
  cfg_BlockTime : Z;
  cfg_MaxSequencerDrift : Z;
  cfg_SeqWindowSize : Z;
  cfg_ChannelTimeoutBedrock : Z;
  cfg_L1ChainID : option Z;
  cfg_L2ChainID : option Z;
  cfg_times : ForkTimes;
  cfg_BatchInboxAddress : Address;
  cfg_DepositContractAddress : Address;
  cfg_L1SystemConfigAddress : Address;
  cfg_ProtocolVersionsAddress : Address;
  cfg_ChainOpConfig : option OptimismConfig;
  cfg_AltDAConfig : option AltDAConfig }.

Definition cfg_set_times (t : ForkTimes) (c : Config) : Config :=
  mkConfig (cfg_Genesis c) (cfg_BlockTime c) (cfg_MaxSequencerDrift c) (cfg_SeqWindowSize c)
    (cfg_ChannelTimeoutBedrock c) (cfg_L1ChainID c) (cfg_L2ChainID c) t
    (cfg_BatchInboxAddress c) (cfg_DepositContractAddress c) (cfg_L1SystemConfigAddress c)
    (cfg_ProtocolVersionsAddress c) (cfg_ChainOpConfig c) (cfg_AltDAConfig c).

(** ** Block numbers and timestamps *)

Definition TimestampForBlock (cfg : Config) (blockNumber : Z) : Z :=
  gen_L2Time (cfg_Genesis cfg)
  +₆₄ ((blockNumber -₆₄ id_Number (gen_L2 (cfg_Genesis cfg))) *₆₄ cfg_BlockTime cfg).

(** Go's integer division by zero panics. *)
Definition TargetBlockNumber (cfg : Config) (timestamp : Z) : Res Z :=
  let genesisTimestamp := gen_L2Time (cfg_Genesis cfg) in
  if timestamp <? genesisTimestamp then Err (ErrorsNew "did not reach genesis time yet")
  else if cfg_BlockTime cfg =? 0 then Panic "integer divide by zero"
  else
    let wallClockGenesisDiff := timestamp -₆₄ genesisTimestamp in
    let blocksSinceGenesis := wallClockGenesisDiff / cfg_BlockTime cfg in
    Ok (id_Number (gen_L2 (cfg_Genesis cfg)) +₆₄ blocksSinceGenesis).

(** ** Fork activation *)

Definition ActivationTime (c : Config) (fork : ForkName) : Res (option Z) :=
  let t := cfg_times c in
  match fork with
  | Interop => Ok (InteropTime t)
  | Karst => Ok (KarstTime t)
  | Jovian => Ok (JovianTime t)
  | Isthmus => Ok (IsthmusTime t)
  | Holocene => Ok (HoloceneTime t)
  | Granite => Ok (GraniteTime t)
  | Fjord => Ok (FjordTime t)
  | Ecotone => Ok (EcotoneTime t)
  | Delta => Ok (DeltaTime t)
  | Canyon => Ok (CanyonTime t)
  | Regolith => Ok (RegolithTime t)
  | PectraBlobSchedule => Ok (PectraBlobScheduleTime t)
  | Bedrock | NoFork => Panic "unknown fork"
  end.

Definition SetActivationTime (c : Config) (fork : ForkName) (timestamp : option Z) : Res Config :=
  let t := cfg_times c in
  match fork with
  | Interop => Ok (cfg_set_times (mkForkTimes 
        (RegolithTime t) (CanyonTime t) (DeltaTime t) (EcotoneTime t) (FjordTime t)
        (GraniteTime t) (HoloceneTime t) (IsthmusTime t) (JovianTime t) (KarstTime t) timestamp (PectraBlobScheduleTime t)) c)
  | Karst => Ok (cfg_set_times (mkForkTimes 
        (RegolithTime t) (CanyonTime t) (DeltaTime t) (EcotoneTime t) (FjordTime t)
        (GraniteTime t) (HoloceneTime t) (IsthmusTime t) (JovianTime t) timestamp
        (InteropTime t) (PectraBlobScheduleTime t)) c)
  | Jovian => Ok (cfg_set_times (mkForkTimes 
        (RegolithTime t) (CanyonTime t) (DeltaTime t) (EcotoneTime t) (FjordTime t)
        (GraniteTime t) (HoloceneTime t) (IsthmusTime t) timestamp (KarstTime t)
        (InteropTime t) (PectraBlobScheduleTime t)) c)
  | Isthmus => Ok (cfg_set_times (mkForkTimes 
        (RegolithTime t) (CanyonTime t) (DeltaTime t) (EcotoneTime t) (FjordTime t)
        (GraniteTime t) (HoloceneTime t) timestamp (JovianTime t) (KarstTime t)
        (InteropTime t) (PectraBlobScheduleTime t)) c)
  | Holocene => Ok (cfg_set_times (mkForkTimes 
        (RegolithTime t) (CanyonTime t) (DeltaTime t) (EcotoneTime t) (FjordTime t)
        (GraniteTime t) timestamp (IsthmusTime t) (JovianTime t) (KarstTime t)
        (InteropTime t) (PectraBlobScheduleTime t)) c)
  | Granite => Ok (cfg_set_times (mkForkTimes 
        (RegolithTime t) (CanyonTime t) (DeltaTime t) (EcotoneTime t) (FjordTime t) timestamp (HoloceneTime t) (IsthmusTime t) (JovianTime t) (KarstTime t)
        (InteropTime t) (PectraBlobScheduleTime t)) c)
  | Fjord => Ok (cfg_set_times (mkForkTimes 
        (RegolithTime t) (CanyonTime t) (DeltaTime t) (EcotoneTime t) timestamp
        (GraniteTime t) (HoloceneTime t) (IsthmusTime t) (JovianTime t) (KarstTime t)
        (InteropTime t) (PectraBlobScheduleTime t)) c)
  | Ecotone => Ok (cfg_set_times (mkForkTimes 
        (RegolithTime t) (CanyonTime t) (DeltaTime t) timestamp (FjordTime t)
        (GraniteTime t) (HoloceneTime t) (IsthmusTime t) (JovianTime t) (KarstTime t)
        (InteropTime t) (PectraBlobScheduleTime t)) c)
  | Delta => Ok (cfg_set_times (mkForkTimes 
        (RegolithTime t) (CanyonTime t) timestamp (EcotoneTime t) (FjordTime t)
        (GraniteTime t) (HoloceneTime t) (IsthmusTime t) (JovianTime t) (KarstTime t)
        (InteropTime t) (PectraBlobScheduleTime t)) c)
  | Canyon => Ok (cfg_set_times (mkForkTimes 
        (RegolithTime t) timestamp (DeltaTime t) (EcotoneTime t) (FjordTime t)
        (GraniteTime t) (HoloceneTime t) (IsthmusTime t) (JovianTime t) (KarstTime t)
        (InteropTime t) (PectraBlobScheduleTime t)) c)
  | Regolith => Ok (cfg_set_times (mkForkTimes 
        timestamp (CanyonTime t) (DeltaTime t) (EcotoneTime t) (FjordTime t)
        (GraniteTime t) (HoloceneTime t) (IsthmusTime t) (JovianTime t) (KarstTime t)
        (InteropTime t) (PectraBlobScheduleTime t)) c)
  | PectraBlobSchedule => Ok (cfg_set_times (mkForkTimes 
        (RegolithTime t) (CanyonTime t) (DeltaTime t) (EcotoneTime t) (FjordTime t)
        (GraniteTime t) (HoloceneTime t) (IsthmusTime t) (JovianTime t) (KarstTime t)
        (InteropTime t) timestamp) c)
  | Bedrock | NoFork => Panic "unknown fork"
  end.

Definition IsForkActive (c : Config) (fork : ForkName) (timestamp : Z) : Res bool :=
  activationTime ← ActivationTime c fork;
  mret (match activationTime with None => false | Some a => a <=? timestamp end).

(** The value of a call that cannot panic for the given fork. *)
Definition fork_active (c : Config) (fork : ForkName) (timestamp : Z) : bool :=
  match IsForkActive c fork timestamp with Ok b => b | _ => false end.

Definition IsRegolith (c : Config) (timestamp : Z) : bool := fork_active c Regolith timestamp.
Definition IsCanyon (c : Config) (timestamp : Z) : bool := fork_active c Canyon timestamp.
Definition IsDelta (c : Config) (timestamp : Z) : bool := fork_active c Delta timestamp.
Definition IsEcotone (c : Config) (timestamp : Z) : bool := fork_active c Ecotone timestamp.
Definition IsFjord (c : Config) (timestamp : Z) : bool := fork_active c Fjord timestamp.
Definition IsGranite (c : Config) (timestamp : Z) : bool := fork_active c Granite timestamp.
Definition IsHolocene (c : Config) (timestamp : Z) : bool := fork_active c Holocene timestamp.
Definition IsIsthmus (c : Config) (timestamp : Z) : bool := fork_active c Isthmus timestamp.
Definition IsJovian (c : Config) (timestamp : Z) : bool := fork_active c Jovian timestamp.
Definition IsKarst (c : Config) (timestamp : Z) : bool := fork_active c Karst timestamp.
Definition IsInterop (c : Config) (timestamp : Z) : bool := fork_active c Interop timestamp.

Definition IsRegolithActivationBlock (c : Config) (l2BlockTime : Z) : bool :=
  IsRegolith c l2BlockTime && (cfg_BlockTime c <=? l2BlockTime)
  && negb (IsRegolith c (l2BlockTime -₆₄ cfg_BlockTime c)).
Definition IsCanyonActivationBlock (c : Config) (l2BlockTime : Z) : bool :=
  IsCanyon c l2BlockTime && (cfg_BlockTime c <=? l2BlockTime)
  && negb (IsCanyon c (l2BlockTime -₆₄ cfg_BlockTime c)).
Definition IsDeltaActivationBlock (c : Config) (l2BlockTime : Z) : bool :=
  IsDelta c l2BlockTime && (cfg_BlockTime c <=? l2BlockTime)
  && negb (IsDelta c (l2BlockTime -₆₄ cfg_BlockTime c)).
Definition IsEcotoneActivationBlock (c : Config) (l2BlockTime : Z) : bool :=
  IsEcotone c l2BlockTime && (cfg_BlockTime c <=? l2BlockTime)
  && negb (IsEcotone c (l2BlockTime -₆₄ cfg_BlockTime c)).
Definition IsFjordActivationBlock (c : Config) (l2BlockTime : Z) : bool :=
  IsFjord c l2BlockTime && (cfg_BlockTime c <=? l2BlockTime)
  && negb (IsFjord c (l2BlockTime -₆₄ cfg_BlockTime c)).
Definition IsGraniteActivationBlock (c : Config) (l2BlockTime : Z) : bool :=
  IsGranite c l2BlockTime && (cfg_BlockTime c <=? l2BlockTime)
  && negb (IsGranite c (l2BlockTime -₆₄ cfg_BlockTime c)).
Definition IsHoloceneActivationBlock (c : Config) (l2BlockTime : Z) : bool :=
  IsHolocene c l2BlockTime && (cfg_BlockTime c <=? l2BlockTime)
  && negb (IsHolocene c (l2BlockTime -₆₄ cfg_BlockTime c)).
Definition IsIsthmusActivationBlock (c : Config) (l2BlockTime : Z) : bool :=
  IsIsthmus c l2BlockTime && (cfg_BlockTime c <=? l2BlockTime)
  && negb (IsIsthmus c (l2BlockTime -₆₄ cfg_BlockTime c)).
Definition IsJovianActivationBlock (c : Config) (l2BlockTime : Z) : bool :=
  IsJovian c l2BlockTime && (cfg_BlockTime c <=? l2BlockTime)
  && negb (IsJovian c (l2BlockTime -₆₄ cfg_BlockTime c)).
Definition IsKarstActivationBlock (c : Config) (l2BlockTime : Z) : bool :=
  IsKarst c l2BlockTime && (cfg_BlockTime c <=? l2BlockTime)
  && negb (IsKarst c (l2BlockTime -₆₄ cfg_BlockTime c)).
(** [toggles.go]: the L2 contracts manager comes with Karst. *)
Definition IsL2CM (c : Config) (time : Z) : bool := IsKarst c time.
Definition IsL2CMActivationBlock (c : Config) (l2BlockTime : Z) : bool :=
  if negb (IsL2CM c l2BlockTime) then false else IsKarstActivationBlock c l2BlockTime.
Definition IsInteropActivationBlock (c : Config) (l2BlockTime : Z) : bool :=
  IsInterop c l2BlockTime && (cfg_BlockTime c <=? l2BlockTime)
  && negb (IsInterop c (l2BlockTime -₆₄ cfg_BlockTime c)).

(** [forks.From(forks.Regolith)], computed once at package initialisation. *)
Definition scheduleableForks : list ForkName :=
  match forks_From Regolith with Ok l => l | _ => [] end.

Fixpoint IsActivationBlock_loop (c : Config) (oldTime newTime : Z) (l : list ForkName) : ForkName :=
  match l with
  | [] => NoFork
  | fork :: l =>
    if fork_active c fork newTime && negb (fork_active c fork oldTime) then fork
    else IsActivationBlock_loop c oldTime newTime l
  end.
Definition IsActivationBlock (c : Config) (oldTime newTime : Z) : ForkName :=
  IsActivationBlock_loop c oldTime newTime scheduleableForks.

Definition IsActivationBlockForFork (c : Config) (l2BlockTime : Z) (fork : ForkName) : Res bool :=
  if l2BlockTime <? cfg_BlockTime c then Ok false
  else before ← IsForkActive c fork (l2BlockTime -₆₄ cfg_BlockTime c);
       if (before : bool) then Ok false else IsForkActive c fork l2BlockTime.

(** The loop of [ActivateAt]: [ts] is the pointer assigned to forks other than
    [fork], and becomes nil once [fork] has been passed. *)
Fixpoint ActivateAt_loop (fork : ForkName) (timestamp : Z) (ts : option Z)
    (l : list ForkName) (c : Config) : Res Config :=
  match l with
  | [] => Ok c
  | f :: l =>
    if decide (f = fork)
    then c' ← SetActivationTime c fork (Some timestamp); ActivateAt_loop fork timestamp None l c'
    else c' ← SetActivationTime c f ts; ActivateAt_loop fork timestamp ts l c'
  end.
Definition ActivateAt (c : Config) (fork : ForkName) (timestamp : Z) : Res Config :=
  if negb (forks_IsValid fork) then Panic "invalid fork"
  else
    let ts := if decide (fork = Bedrock) then None else Some 0 in
    ActivateAt_loop fork timestamp ts scheduleableForks c.
Definition ActivateAtGenesis (c : Config) (hardfork : ForkName) : Res Config :=
  ActivateAt c hardfork 0.

(** ** Validation *)

Definition KeccakCommitmentString : string := "KeccakCommitment".
Definition GenericCommitmentString : string := "GenericCommitment".

(** Fork [a] must be set and not later than fork [b] when [b] is set. *)
Definition checkFork (a b : option Z) : Res unit :=
  match a, b with
  | None, None => Ok ()
  | None, Some _ => Err (ErrorsNew "fork set, but prior fork missing")
  | Some _, None => Ok ()
  | Some a, Some b =>
    if b <? a then Err (ErrorsNew "fork set, but prior fork has higher offset") else Ok ()
  end.

Definition validateAltDAConfig (cfg : Config) : Res unit :=
  match cfg_AltDAConfig cfg with
  | None => Ok ()
  | Some a =>
    let keccak := bool_decide (ada_CommitmentType a = KeccakCommitmentString) in
    let generic := bool_decide (ada_CommitmentType a = GenericCommitmentString) in
    let noAddr := bool_decide (ada_DAChallengeAddress a = zeroAddress) in
    if negb (keccak || generic) then Err (ErrorsNew "invalid commitment type")
    else if keccak && noAddr then
      Err (ErrorsNew "Must set da_challenge_contract_address for keccak commitments")
    else if generic && negb noAddr then
      Err (ErrorsNew "Must set empty da_challenge_contract_address for generic commitments")
    else Ok ()
  end.

Definition require (b : bool) (msg : string) : Res unit :=
  if b then Ok () else Err (ErrorsNew msg).

Definition check_genesis (cfg : Config) : Res unit :=
  let g := cfg_Genesis cfg in
  let sys := gen_SystemConfig g in
  _ ← require (bool_decide (id_Hash (gen_L1 g) ≠ zeroHash)) "genesis L1 hash cannot be empty";
  _ ← require (bool_decide (id_Hash (gen_L2 g) ≠ zeroHash)) "genesis L2 hash cannot be empty";
  _ ← require (bool_decide (id_Hash (gen_L2 g) ≠ id_Hash (gen_L1 g)))
        "achievement get! rollup inception: L1 and L2 genesis cannot be the same";
  _ ← require (negb (gen_L2Time g =? 0)) "missing L2 genesis time";
  _ ← require (bool_decide (sc_BatcherAddr sys ≠ zeroAddress))
        "missing genesis system config batcher address";
  _ ← require (bool_decide (sc_Scalar sys ≠ replicate 32 x00)) "missing genesis system config scalar";
  require (negb (sc_GasLimit sys =? 0)) "missing genesis system config gas limit".

(** The nil checks come before the comparisons, so no nil pointer is read. *)
Definition check_chain_ids (cfg : Config) : Res unit :=
  match cfg_L1ChainID cfg, cfg_L2ChainID cfg with
  | None, _ => Err (ErrorsNew "L1 chain ID must not be nil")
  | _, None => Err (ErrorsNew "L2 chain ID must not be nil")
  | Some l1, Some l2 =>
    _ ← require (negb (l1 =? l2)) "L1 and L2 chain IDs must be different";
    _ ← require (1 <=? Z.sgn l1) "L1 chain ID must be non-zero and positive";
    require (1 <=? Z.sgn l2) "L2 chain ID must be non-zero and positive"
  end.

Definition Check (cfg : Config) : Res unit :=
  let t := cfg_times cfg in
  _ ← require (negb (cfg_BlockTime cfg =? 0)) "block time cannot be 0";
  _ ← require (negb (cfg_ChannelTimeoutBedrock cfg =? 0))
        "channel timeout must be set, this should cover at least a L1 block time";
  _ ← require (negb (cfg_SeqWindowSize cfg <? 2)) "sequencing window size must at least be 2";
  _ ← require (negb (cfg_MaxSequencerDrift cfg =? 0))
        "maximum sequencer drift must be greater than 0";
  _ ← check_genesis cfg;
  _ ← require (bool_decide (cfg_BatchInboxAddress cfg ≠ zeroAddress)) "missing batch inbox address";
  _ ← require (bool_decide (cfg_DepositContractAddress cfg ≠ zeroAddress))
        "missing deposit contract address";
  _ ← check_chain_ids cfg;
  _ ← validateAltDAConfig cfg;
  _ ← checkFork (RegolithTime t) (CanyonTime t);
  _ ← checkFork (CanyonTime t) (DeltaTime t);
  _ ← checkFork (DeltaTime t) (EcotoneTime t);
  _ ← checkFork (EcotoneTime t) (FjordTime t);
  _ ← checkFork (FjordTime t) (GraniteTime t);
  _ ← checkFork (GraniteTime t) (HoloceneTime t);
  checkFork (HoloceneTime t) (IsthmusTime t).

(** ** Engine API versions and look-back *)

Inductive EngineAPIMethod :=
| FCUV1 | FCUV2 | FCUV3
| NewPayloadV2 | NewPayloadV3 | NewPayloadV4
| GetPayloadV2 | GetPayloadV3 | GetPayloadV4.

Definition ForkchoiceUpdatedVersion (c : Config) (attr : option PayloadAttributes) : EngineAPIMethod :=
  match attr with
  | None => FCUV3
  | Some attr =>
    let ts := pa_Timestamp attr in
    if IsEcotone c ts then FCUV3 else if IsCanyon c ts then FCUV2 else FCUV1
  end.
Definition NewPayloadVersion (c : Config) (timestamp : Z) : EngineAPIMethod :=
  if IsIsthmus c timestamp then NewPayloadV4
  else if IsEcotone c timestamp then NewPayloadV3 else NewPayloadV2.
Definition GetPayloadVersion (c : Config) (timestamp : Z) : EngineAPIMethod :=
  if IsIsthmus c timestamp then GetPayloadV4
  else if IsEcotone c timestamp then GetPayloadV3 else GetPayloadV2.

Definition AltDAEnabled (c : Config) : bool := bool_decide (is_Some (cfg_AltDAConfig c)).
Definition SyncLookback (c : Config) : Z :=
  match cfg_AltDAConfig c with
  | Some a =>
    let win := ada_DAChallengeWindow a +₆₄ ada_DAResolveWindow a in
    if cfg_SeqWindowSize c <? win then win else cfg_SeqWindowSize c
  | None => cfg_SeqWindowSize c
  end.
Definition HasOptimismWithdrawalsRoot (c : Config) (timestamp : Z) : bool := IsIsthmus c timestamp.

(** ** Lemmas on activation *)

Lemma fork_active_spec c f t a :
  ActivationTime c f = Ok (Some a) → fork_active c f t = (a <=? t).
Proof. intros H. unfold fork_active, IsForkActive. by rewrite H. Qed.

Lemma fork_active_unset c f t :
  ActivationTime c f = Ok None → fork_active c f t = false.
Proof. intros H. unfold fork_active, IsForkActive. by rewrite H. Qed.

Lemma fork_active_mono c f t t' :
  t ≤ t' → fork_active c f t = true → fork_active c f t' = true.
Proof.
  intros Ht. unfold fork_active, IsForkActive.
  destruct (ActivationTime c f) as [[a|]| |]; cbn; try done.
  intros. bool2prop. apply Z.leb_le. lia.
Qed.

Lemma scheduleable_ActivationTime c f :
  f ∈ scheduleableForks → ∃ o, ActivationTime c f = Ok o.
Proof.
  intros H. assert (scheduleableForks =
    [Regolith; Canyon; Delta; Ecotone; Fjord; Granite; Holocene; Isthmus; Jovian; Karst; Interop])
    as E by done.
  rewrite E in H. set_unfold in H. destruct_or?; subst; cbn; eauto.
Qed.

Lemma IsForkActive_scheduleable c f t :
  f ∈ scheduleableForks → IsForkActive c f t = Ok (fork_active c f t).
Proof.
  intros [o H]%(scheduleable_ActivationTime c). unfold fork_active, IsForkActive.
  by rewrite H.
Qed.

Lemma require_ok b msg : require b msg = Ok () ↔ b = true.
Proof. by destruct b. Qed.

Lemma checkFork_ok a b :
  checkFork a b = Ok () ↔
  match a, b with None, Some _ => False | Some a, Some b => a ≤ b | _, _ => True end.
Proof.
  destruct a, b; cbn; try naive_solver. case_goal; bool2prop; split; try done; lia.
Qed.

(** The forks whose order [Check] validates. *)
Definition checked_forks : list ForkName :=
  [Regolith; Canyon; Delta; Ecotone; Fjord; Granite; Holocene; Isthmus].

Lemma checkFork_active c f g a b t :
  ActivationTime c f = Ok a → ActivationTime c g = Ok b → checkFork a b = Ok () →
  fork_active c g t = true → fork_active c f t = true.
Proof.
  intros Ha Hb Hc%checkFork_ok. unfold fork_active, IsForkActive. rewrite Ha, Hb. cbn.
  destruct a, b; try done. intros. bool2prop. apply Z.leb_le. lia.
Qed.

Lemma Check_adjacent cfg i f g t :
  Check cfg = Ok () → checked_forks !! i = Some f → checked_forks !! S i = Some g →
  fork_active cfg g t = true → fork_active cfg f t = true.
Proof.
  unfold Check. intros H. inv_bind H.
  do 7 (destruct i as [|i];
    [intros [= <-] [= <-]; eapply checkFork_active; [done..|eassumption]|]); done.
Qed.

(** a configuration that passes [Check] activates the forks from Regolith to
    Isthmus in order: at every timestamp, an active fork has all earlier ones of
    that range active too. *)
Theorem Check_forks_ordered cfg i j f g t :
  Check cfg = Ok () → (i ≤ j)%nat →
  checked_forks !! i = Some f → checked_forks !! j = Some g →
  fork_active cfg g t = true → fork_active cfg f t = true.
Proof.
  intros Hc Hij. revert g. induction Hij as [|j Hij IH]; intros g Hf Hg Hact.
  - naive_solver.
  - assert (is_Some (checked_forks !! j)) as [h Hh].
    { apply lookup_lt_is_Some. apply lookup_lt_Some in Hg. lia. }
    eapply IH; [done..|]. by eapply Check_adjacent.
Qed.

(** ** Block numbers and timestamps *)

(** The timestamps of the blocks up to [n] fit in 64 bits. *)
Definition no_time_overflow (cfg : Config) (n : Z) : Prop :=
  let g := cfg_Genesis cfg in
  id_Number (gen_L2 g) ≤ n ∧ is_u64 n ∧ is_u64 (id_Number (gen_L2 g)) ∧ 0 ≤ gen_L2Time g
  ∧ gen_L2Time g + (n - id_Number (gen_L2 g)) * cfg_BlockTime cfg < 2 ^ 64.

Lemma TimestampForBlock_exact cfg n :
  0 < cfg_BlockTime cfg → no_time_overflow cfg n →
  TimestampForBlock cfg n
  = gen_L2Time (cfg_Genesis cfg) + (n - id_Number (gen_L2 (cfg_Genesis cfg))) * cfg_BlockTime cfg.
Proof.
  intros Hbt (Hle & Hn & Hg & Hgt & Hov). unfold TimestampForBlock.
  rewrite (wrap_small 64 (n - _)) by uint_lia.
  assert (is_u64 ((n - id_Number (gen_L2 (cfg_Genesis cfg))) * cfg_BlockTime cfg)) by
    (unfold is_uint in *; split; nia).
  rewrite (wrap_small 64 (_ * _)) by done.
  apply wrap_small. unfold is_uint in *. split; nia.
Qed.

(** [TargetBlockNumber] inverts [TimestampForBlock] on every block whose
    timestamp fits in 64 bits. *)
Theorem TargetBlockNumber_TimestampForBlock cfg n :
  0 < cfg_BlockTime cfg → no_time_overflow cfg n →
  TargetBlockNumber cfg (TimestampForBlock cfg n) = Ok n.
Proof.
  intros Hbt Hov. rewrite TimestampForBlock_exact by done.
  destruct Hov as (Hle & Hn & Hg & Hgt & Hov).
  set (d := n - id_Number (gen_L2 (cfg_Genesis cfg))) in *.
  set (g := gen_L2Time (cfg_Genesis cfg)) in *.
  unfold TargetBlockNumber. fold g.
  rewrite (proj2 (Z.ltb_ge _ _)) by nia. rewrite (proj2 (Z.eqb_neq _ _)) by lia.
  replace (g + d * cfg_BlockTime cfg - g) with (d * cfg_BlockTime cfg) by lia.
  rewrite (wrap_small 64 (d * _)) by (unfold is_uint in *; split; nia).
  rewrite Z.div_mul by lia. f_equal.
  replace (id_Number (gen_L2 (cfg_Genesis cfg)) + d) with n by lia. by apply wrap_small.
Qed.

(** ** Activation blocks *)

(** a fork has at most one activation block on the grid of L2 block times,
    so its upgrade transactions are inserted at most once. *)
Theorem IsActivationBlockForFork_unique c f t1 t2 k :
  0 < cfg_BlockTime c → is_u64 t1 → is_u64 t2 → t2 = t1 + k * cfg_BlockTime c →
  IsActivationBlockForFork c t1 f = Ok true → IsActivationBlockForFork c t2 f = Ok true →
  t1 = t2.
Proof.
  intros Hbt H1 H2 Hk. unfold IsActivationBlockForFork.
  assert (Hfa : ∀ t b, IsForkActive c f t = Ok b → fork_active c f t = b)
    by (intros t b Hb; unfold fork_active; by rewrite Hb).
  repeat case_goal; try done; intros A B; bool2prop.
  inv_bind A. inv_bind B. destruct a, a0; try done.
  rewrite (wrap_small 64 (t1 - _)) in Hb by uint_lia.
  rewrite (wrap_small 64 (t2 - _)) in Hb0 by uint_lia.
  apply Hfa in A, B, Hb, Hb0.
  destruct (Z.lt_trichotomy k 0) as [Hlt|[->|Hgt]]; [|lia|].
  - pose proof (fork_active_mono c f t2 (t1 - cfg_BlockTime c) ltac:(nia) B). congruence.
  - pose proof (fork_active_mono c f t1 (t2 - cfg_BlockTime c) ltac:(nia) A). congruence.
Qed.

(** [ActivateAt] schedules the given fork at the given timestamp, every
    earlier fork at genesis, and unsets every later one. *)
Theorem ActivateAt_spec c f i ts :
  scheduleableForks !! i = Some f →
  ∃ c', ActivateAt c f ts = Ok c' ∧
    ∀ j g, scheduleableForks !! j = Some g →
      ActivationTime c' g =
      Ok (if (j <? i)%nat then Some 0 else if (j =? i)%nat then Some ts else None).
Proof.
  intros Hi. assert (i < 11)%nat by (apply lookup_lt_Some in Hi; exact Hi).
  do 11 (destruct i as [|i];
    [injection Hi as <-; eexists; split; [vm_compute; reflexivity|];
     intros j g Hj; assert (j < 11)%nat by (apply lookup_lt_Some in Hj; exact Hj);
     do 11 (destruct j as [|j]; [injection Hj as <-; reflexivity|]); lia|]); lia.
Qed.

(** ** A concrete configuration

    A chain with a two-second block time and the forks up to Isthmus active at
    genesis, used to evaluate the definitions. *)
Module ExampleConfig.
Definition hash (b : byte) : Hash := replicate 32 b.
Definition genesis : Genesis :=
  mkGenesis (mkBlockID (hash x01) 100) (mkBlockID (hash x02) 0) 1000
    (mkSystemConfig (replicate 20 x05) (hash x00) (hash x01) 30000000
       (replicate 8 x00) (hash x00) 0 0 false).
Definition times : ForkTimes :=
  mkForkTimes (Some 0) (Some 0) (Some 0) (Some 0) (Some 0) (Some 0) (Some 0) (Some 0)
    None None None None.
Definition with_times (t : ForkTimes) : Config :=
  mkConfig genesis 2 600 10 300 (Some 1) (Some 10) t
    (replicate 20 x0a) (replicate 20 x0b) (replicate 20 x0c) (replicate 20 x00) None None.
Definition cfg : Config := with_times times.
(** All forks off: the rules of Bedrock. *)
Definition bedrock : Config :=
  with_times (mkForkTimes None None None None None None None None None None None None).
End ExampleConfig.

Lemma Check_forks_ordered_witness :
  Check ExampleConfig.cfg = Ok () ∧ fork_active ExampleConfig.cfg Canyon 5 = true.
Proof.
  split; [vm_compute; reflexivity|].
  apply (Check_forks_ordered ExampleConfig.cfg 1 7 Canyon Isthmus 5); vm_compute; try done; lia.
Defined.

Lemma TargetBlockNumber_TimestampForBlock_witness :
  TargetBlockNumber ExampleConfig.cfg (TimestampForBlock ExampleConfig.cfg 7) = Ok 7.
Proof.
  apply (TargetBlockNumber_TimestampForBlock ExampleConfig.cfg 7);
    vm_compute; repeat split; done.
Defined.

Lemma IsActivationBlockForFork_unique_witness :
  let c := ExampleConfig.with_times (mkForkTimes (Some 0) (Some 1001) None None None None None
             None None None None None) in
  IsActivationBlockForFork c 1002 Canyon = Ok true ∧ 1002 = 1002.
Proof.
  split; [vm_compute; reflexivity|].
  apply (IsActivationBlockForFork_unique
    (ExampleConfig.with_times (mkForkTimes (Some 0) (Some 1001) None None None None None
       None None None None None)) Canyon 1002 1002 0); vm_compute; done.
Defined.

Lemma ActivateAt_spec_witness :
  ∃ c', ActivateAt ExampleConfig.bedrock Fjord 77 = Ok c' ∧
    ActivationTime c' Ecotone = Ok (Some 0) ∧ ActivationTime c' Fjord = Ok (Some 77) ∧
    ActivationTime c' Granite = Ok None.
Proof.
  destruct (ActivateAt_spec ExampleConfig.bedrock Fjord 4 77 eq_refl) as (c' & H & Hg).
  exists c'. split; [exact H|]. split; [apply (Hg 3%nat); reflexivity|].
  split; [apply (Hg 4%nat); reflexivity | apply (Hg 5%nat); reflexivity].
Defined.

(** [Check] does not compare the forks after Isthmus: a configuration that
    schedules Jovian before Isthmus passes. *)
Theorem Check_accepts_unordered_jovian :
  ∃ cfg t, Check cfg = Ok () ∧ IsJovian cfg t = true ∧ IsIsthmus cfg t = false.
Proof.
  exists (ExampleConfig.with_times (mkForkTimes (Some 0) (Some 0) (Some 0) (Some 0) (Some 0)
            (Some 0) (Some 0) (Some 50) (Some 10) None None None)), 20.
  by vm_compute.
Qed.

(** [Check] rejects a zero [MaxSequencerDrift] even when Fjord, which makes the
    drift a protocol constant, is active from genesis. *)
Theorem Check_rejects_empty_drift_at_fjord cfg :
  cfg_MaxSequencerDrift cfg = 0 → ∃ e, Check cfg = Err e.
Proof.
  intros H. unfold Check. rewrite H. cbn.
  destruct (cfg_BlockTime cfg =? 0), (cfg_ChannelTimeoutBedrock cfg =? 0),
    (cfg_SeqWindowSize cfg <? 2); cbn; eauto.
Qed.
