(* ===== verification/ChainSpec.v ===== *)
(** * Chain specification

    Models [op-node/rollup/chain_spec.go]: protocol constants that depend on the
    active fork, and the tracker [CheckForkActivation] that follows the chain
    from fork to fork. *)

From S2P Require Import Prelude GoBytes Errors Eth RollupConfig.

Definition maxChannelBankSizeBedrock : Z := 100000000.
Definition maxChannelBankSizeFjord : Z := 1000000000.
Definition maxRLPBytesPerChannelBedrock : Z := 10000000.
Definition maxRLPBytesPerChannelFjord : Z := 100000000.
Definition maxSequencerDriftFjord : Z := 1800.
Definition ChannelTimeoutGranite : Z := 50.

(** The empty [currentFork] of a new spec is [NoFork]. *)
Record ChainSpec := mkChainSpec { spec_config : Config; spec_currentFork : ForkName }.
Definition NewChainSpec (config : Config) : ChainSpec := mkChainSpec config NoFork.

Definition spec_IsCanyon (s : ChainSpec) (t : Z) : bool := IsCanyon (spec_config s) t.
Definition spec_IsHolocene (s : ChainSpec) (t : Z) : bool := IsHolocene (spec_config s) t.

Definition MaxChannelBankSize (s : ChainSpec) (t : Z) : Z :=
  if IsFjord (spec_config s) t then maxChannelBankSizeFjord else maxChannelBankSizeBedrock.
Definition ChannelTimeout (s : ChainSpec) (t : Z) : Z :=
  if IsGranite (spec_config s) t then ChannelTimeoutGranite
  else cfg_ChannelTimeoutBedrock (spec_config s).
Definition MaxRLPBytesPerChannel (s : ChainSpec) (t : Z) : Z :=
  if IsFjord (spec_config s) t then maxRLPBytesPerChannelFjord else maxRLPBytesPerChannelBedrock.
Definition IsFeatMaxSequencerDriftConstant (s : ChainSpec) (t : Z) : bool :=
  IsFjord (spec_config s) t.
Definition MaxSequencerDrift (s : ChainSpec) (t : Z) : Z :=
  if IsFeatMaxSequencerDriftConstant s t then maxSequencerDriftFjord
  else cfg_MaxSequencerDrift (spec_config s).

(** The initialisation of [CheckForkActivation]: the last fork of the ladder
    whose test holds, whatever the ones before it say. *)
Definition initialFork (c : Config) (t : Z) : ForkName :=
  let f := Bedrock in
  let f := if IsRegolith c t then Regolith else f in
  let f := if IsCanyon c t then Canyon else f in
  let f := if IsDelta c t then Delta else f in
  let f := if IsEcotone c t then Ecotone else f in
  let f := if IsFjord c t then Fjord else f in
  let f := if IsGranite c t then Granite else f in
  let f := if IsHolocene c t then Holocene else f in
  let f := if IsIsthmus c t then Isthmus else f in
  let f := if IsJovian c t then Jovian else f in
  let f := if IsKarst c t then Karst else f in
  if IsInterop c t then Interop else f.

Definition foundActivationBlock (c : Config) (next : ForkName) (t : Z) : bool :=
  match next with
  | Regolith => IsRegolithActivationBlock c t
  | Canyon => IsCanyonActivationBlock c t
  | Delta => IsDeltaActivationBlock c t
  | Ecotone => IsEcotoneActivationBlock c t
  | Fjord => IsFjordActivationBlock c t
  | Granite => IsGraniteActivationBlock c t
  | Holocene => IsHoloceneActivationBlock c t
  | Isthmus => IsIsthmusActivationBlock c t
  | Jovian => IsJovianActivationBlock c t
  | Karst => IsKarstActivationBlock c t
  | Interop => IsInteropActivationBlock c t
  | Bedrock | PectraBlobSchedule | NoFork => false
  end.

Definition CheckForkActivation (s : ChainSpec) (block : L2BlockRef) : ChainSpec :=
  let c := spec_config s in
  if decide (spec_currentFork s = NoFork) then mkChainSpec c (initialFork c (l2_Time block))
  else
    let next := forks_Next (spec_currentFork s) in
    if foundActivationBlock c next (l2_Time block) then mkChainSpec c next else s.

Lemma foundActivationBlock_eq c f t :
  f ∈ scheduleableForks →
  foundActivationBlock c f t =
  fork_active c f t && (cfg_BlockTime c <=? t) && negb (fork_active c f (t -₆₄ cfg_BlockTime c)).
Proof.
  intros H. assert (scheduleableForks =
    [Regolith; Canyon; Delta; Ecotone; Fjord; Granite; Holocene; Isthmus; Jovian; Karst; Interop])
    as E by done.
  rewrite E in H. set_unfold in H. destruct_or?; subst; reflexivity.
Qed.

(** Every limit is positive and the post-fork limits only grow, so data that was
    within the limits stays within them across the Fjord upgrade. *)
Lemma MaxChannelBankSize_mono s t t' :
  t ≤ t' → MaxChannelBankSize s t ≤ MaxChannelBankSize s t'.
Proof.
  intros Ht. unfold MaxChannelBankSize, IsFjord.
  pose proof (fork_active_mono (spec_config s) Fjord t t' Ht).
  unfold maxChannelBankSizeBedrock, maxChannelBankSizeFjord.
  do 2 case_goal; naive_solver lia.
Qed.
