(* ===== verification/Blob.v ===== *)
(** * Blobs

    Models the data encoding of [op-service/eth/blob.go]: [FromData] packs a byte
    string into the 4096 field elements of an EIP-4844 blob, leaving the two top
    bits of every field element empty, and [ToData] unpacks it. *)

From S2P Require Import Prelude GoBytes Errors.

Definition BlobSize : Z := 4096 * 32.
Definition MaxBlobDataSize : Z := (4 * 31 + 3) * 1024 - 4.
Definition EncodingVersion : byte := x00.
Definition VersionOffset : nat := 1.
Definition Rounds : Z := 1024.

Abbreviation Blob := bytes.

Definition ErrBlobInvalidFieldElement : error := ErrorsNew "invalid field element".
Definition ErrBlobInvalidEncodingVersion : error := ErrorsNew "invalid encoding version".
Definition ErrBlobInvalidLength : error := ErrorsNew "invalid length for blob".
Definition ErrBlobInputTooLarge : error := ErrorsNew "too much data to encode in one blob".
Definition ErrBlobExtraneousData : error :=
  ErrorsNew "non-zero data encountered where blob should be empty".
Definition ErrBlobExtraneousDataFieldElement : error :=
  ErrorsNew "non-zero data encountered where field element should be empty".

Definition Zlength (l : bytes) : Z := Z.of_nat (length l).

(** ** Encoding *)

(** Left-align in [n] bytes, padding with zeroes. *)
Definition pad_to (n : nat) (l : bytes) : bytes := take n l ++ replicate (n - length l) x00.

(** The input cursor is what is left of the data. *)
Definition read1 (rest : bytes) : byte * bytes :=
  match rest with [] => (x00, []) | b :: rest => (b, rest) end.
Definition read31 (rest : bytes) : bytes * bytes := (pad_to 31 rest, drop 31 rest).

(** The output cursor is the length of what was written; both writers assert
    their position, the first also that the value has six bits. *)
Definition write1 (v : byte) (out : bytes) : Res bytes :=
  if negb (Zlength out mod 32 =? 0) then Panic "blob encoding: invalid byte write offset"
  else if negb (Z.land (b2z v) 192 =? 0) then Panic "blob encoding: invalid 6 bit value"
  else Ok (out ++ [v]).
Definition write31 (buf31 : bytes) (out : bytes) : Res bytes :=
  if negb (Zlength out mod 32 =? 1) then Panic "blob encoding: invalid bytes31 write offset"
  else Ok (out ++ buf31).

Definition byte_and (b : byte) (m : Z) : Z := Z.land (b2z b) m.

(** The body of a round after its first 31 bytes were read into [buf]. *)
Definition encode_round (buf rest out : bytes) : Res (bytes * bytes) :=
  let '(x, rest) := read1 rest in
  let A := z2b (byte_and x 63) in
  out ← write1 A out;
  out ← write31 buf out;
  let '(buf, rest) := read31 rest in
  let '(y, rest) := read1 rest in
  let B := z2b (Z.lor (byte_and y 15) (Z.shiftr (byte_and x 192) 2)) in
  out ← write1 B out;
  out ← write31 buf out;
  let '(buf, rest) := read31 rest in
  let '(z, rest) := read1 rest in
  let C := z2b (byte_and z 63) in
  out ← write1 C out;
  out ← write31 buf out;
  let '(buf, rest) := read31 rest in
  let D := z2b (Z.lor (Z.shiftr (byte_and z 192) 2) (Z.shiftr (byte_and y 240) 4)) in
  out ← write1 D out;
  out ← write31 buf out;
  Ok (rest, out).

(** The version and the big-endian 24-bit length. *)
Definition blob_header (data : bytes) : bytes :=
  let ilen := wrap 32 (Zlength data) in
  [EncodingVersion; z2b (Z.shiftr ilen 16); z2b (Z.shiftr ilen 8); z2b ilen].

Fixpoint encode_rounds (rounds : nat) (first : bool) (data rest out : bytes) : Res (bytes * bytes) :=
  match rounds, rest with
  | O, _ | _, [] => Ok (rest, out)
  | S rounds, _ =>
    let '(buf, rest) :=
      if first then (blob_header data ++ pad_to 27 data, drop 27 data) else read31 rest in
    '(rest, out) ← encode_round buf rest out;
    encode_rounds rounds false data rest out
  end.

Definition FromData (data : bytes) : Res Blob :=
  if MaxBlobDataSize <? Zlength data then Err (Errorf "len" ErrBlobInputTooLarge)
  else
    '(rest, out) ← encode_rounds (Z.to_nat Rounds) true data data [];
    match rest with
    | [] => Ok (out ++ replicate (Z.to_nat BlobSize - length out) x00)
    | _ => Panic "expected to fit data but failed"
    end.

(** ** Decoding *)

(** [b[i]], for indices the code keeps in range. *)
Definition at_ (l : bytes) (i : nat) : byte := default x00 (l !! i).

(** [copy(dst[i:], src)] *)
Definition copy_at (i : nat) (src dst : bytes) : bytes :=
  take i dst ++ take (length dst - i) src ++ drop (i + length src) dst.

Definition decodeFieldElement (b : Blob) (opos ipos : nat) (output : bytes)
    : Res (byte * nat * nat * bytes) :=
  if negb (byte_and (at_ b ipos) 192 =? 0) then
    Err (Errorf "field element" ErrBlobInvalidFieldElement)
  else Ok (at_ b ipos, (opos + 32)%nat, (ipos + 32)%nat,
           copy_at opos (take 31 (drop (ipos + 1) b)) output).

Definition reassembleBytes (opos : nat) (e0 e1 e2 e3 : byte) (output : bytes) : nat * bytes :=
  let opos := (opos - 1)%nat in
  let x := z2b (Z.lor (byte_and e0 63) (Z.shiftl (byte_and e1 48) 2)) in
  let y := z2b (Z.lor (byte_and e1 15) (Z.shiftl (byte_and e3 15) 4)) in
  let z := z2b (Z.lor (byte_and e2 63) (Z.shiftl (byte_and e3 48) 2)) in
  (opos, <[(opos - 32 * 3)%nat := x]> (<[(opos - 32 * 2)%nat := y]> (<[(opos - 32)%nat := z]> output))).

(** The rounds after the first: four field elements, then the split bytes. *)
Fixpoint decode_rounds (rounds : nat) (b : Blob) (outputLen : Z) (opos ipos : nat) (output : bytes)
    : Res (nat * nat * bytes) :=
  match rounds with
  | O => Ok (opos, ipos, output)
  | S rounds =>
    if Z.of_nat opos <? outputLen then
      '(e0, opos, ipos, output) ← decodeFieldElement b opos ipos output;
      '(e1, opos, ipos, output) ← decodeFieldElement b opos ipos output;
      '(e2, opos, ipos, output) ← decodeFieldElement b opos ipos output;
      '(e3, opos, ipos, output) ← decodeFieldElement b opos ipos output;
      let '(opos, output) := reassembleBytes opos e0 e1 e2 e3 output in
      decode_rounds rounds b outputLen opos ipos output
    else Ok (opos, ipos, output)
  end.

Definition is_zero (l : bytes) : bool := forallb (λ b, bool_decide (b = x00)) l.

Definition ToData (b : Blob) : Res bytes :=
  if decide (at_ b VersionOffset ≠ EncodingVersion) then
    Err (Errorf "version" ErrBlobInvalidEncodingVersion)
  else
    let outputLen := Z.lor (Z.lor (Z.shiftl (b2z (at_ b 2)) 16) (Z.shiftl (b2z (at_ b 3)) 8))
                           (b2z (at_ b 4)) in
    if MaxBlobDataSize <? outputLen then Err (Errorf "length" ErrBlobInvalidLength)
    else
      let output := copy_at 0 (take 27 (drop 5 b)) (replicate (Z.to_nat MaxBlobDataSize) x00) in
      let e0 := at_ b 0 in
      '(e1, opos, ipos, output) ← decodeFieldElement b 28 32 output;
      '(e2, opos, ipos, output) ← decodeFieldElement b opos ipos output;
      '(e3, opos, ipos, output) ← decodeFieldElement b opos ipos output;
      let '(opos, output) := reassembleBytes opos e0 e1 e2 e3 output in
      '(opos, ipos, output) ←
        decode_rounds (Z.to_nat Rounds - 1) b outputLen opos ipos output;
      if negb (is_zero (drop (Z.to_nat outputLen) output)) then
        Err (Errorf "fe" ErrBlobExtraneousDataFieldElement)
      else if negb (is_zero (drop ipos b)) then Err (Errorf "pos" ErrBlobExtraneousData)
      else Ok (take (Z.to_nat outputLen) output).

(** ** Packing 127 bytes into four field elements *)

(** Four 31-byte runs and the three bytes between them. *)
Definition pack (c1 : bytes) (x : byte) (c2 : bytes) (y : byte) (c3 : bytes) (z : byte) (c4 : bytes)
    : bytes :=
  z2b (byte_and x 63) :: c1
  ++ z2b (Z.lor (byte_and y 15) (Z.shiftr (byte_and x 192) 2)) :: c2
  ++ z2b (byte_and z 63) :: c3
  ++ z2b (Z.lor (Z.shiftr (byte_and z 192) 2) (Z.shiftr (byte_and y 240) 4)) :: c4.

(** The four field elements that hold the first 127 bytes of the input. *)
Definition pack_chunk (rest : bytes) : bytes :=
  pack (pad_to 31 rest) (at_ rest 31) (pad_to 31 (drop 32 rest)) (at_ rest 63)
       (pad_to 31 (drop 64 rest)) (at_ rest 95) (pad_to 31 (drop 96 rest)).

Fixpoint packs (n : nat) (rest : bytes) : bytes :=
  match n with
  | O => []
  | S n => pack_chunk rest ++ packs n (drop 127 rest)
  end.

Lemma length_pad_to n l : length (pad_to n l) = n.
Proof. unfold pad_to. rewrite length_app, length_take, length_replicate. lia. Qed.

Lemma pad_to_nil n : pad_to n [] = replicate n x00.
Proof. unfold pad_to. rewrite take_nil. by rewrite Nat.sub_0_r. Qed.

Lemma pad_to_add a b l : pad_to (a + b) l = pad_to a l ++ pad_to b (drop a l).
Proof.
  unfold pad_to. destruct (decide (a ≤ length l)%nat).
  - rewrite <- take_take_drop, length_drop. replace (a - length l)%nat with 0%nat by lia.
    cbn. rewrite app_nil_r, <- app_assoc. do 3 f_equal. lia.
  - rewrite (drop_ge l) by lia. rewrite !take_ge by lia. rewrite take_nil. cbn.
    rewrite <- app_assoc, <- replicate_add. do 2 f_equal. lia.
Qed.

Lemma pad_to_1 l : pad_to 1 l = [at_ l 0].
Proof. by destruct l. Qed.

Lemma at_drop l n m : at_ (drop n l) m = at_ l (n + m).
Proof. unfold at_. by rewrite lookup_drop. Qed.

(** The bytes of a chunk, in order. *)
Lemma chunk_split rest :
  pad_to 127 rest =
  pad_to 31 rest ++ at_ rest 31 :: pad_to 31 (drop 32 rest) ++ at_ rest 63
  :: pad_to 31 (drop 64 rest) ++ at_ rest 95 :: pad_to 31 (drop 96 rest).
Proof.
  rewrite (pad_to_add 31 96), (pad_to_add 1 95), (pad_to_add 31 64), (pad_to_add 1 63),
    (pad_to_add 31 32), (pad_to_add 1 31), !pad_to_1, !drop_drop, !at_drop. done.
Qed.

Lemma length_pack_chunk rest : length (pack_chunk rest) = 128%nat.
Proof.
  unfold pack_chunk, pack. cbn [length]. rewrite !length_app. cbn [length].
  rewrite !length_app. cbn [length]. rewrite !length_app. cbn [length]. rewrite !length_pad_to. done.
Qed.

Lemma length_packs n rest : length (packs n rest) = (128 * n)%nat.
Proof.
  revert rest. induction n as [|n IH]; intros rest; cbn [packs]; [done|].
  rewrite length_app, length_pack_chunk, IH. lia.
Qed.

Lemma packs_nil n : packs n [] = replicate (128 * n) x00.
Proof.
  induction n as [|n IH]; [done|]. cbn [packs drop]. rewrite IH.
  replace (128 * S n)%nat with (128 + 128 * n)%nat by lia. by rewrite replicate_add.
Qed.

(** ** Bit arithmetic

    The two top bits of a byte travel in bits 4 and 5 of another one. Facts about
    one byte and one of the four values of those bits are checked case by case. *)

Definition all_bytes : list byte := z2b <$> seqZ 0 256.
Lemma bytes_forall (f : byte → bool) : forallb f all_bytes = true → ∀ x, f x = true.
Proof.
  intros H x. rewrite forallb_forall in H. apply H. rewrite <- list_elem_of_In.
  apply list_elem_of_fmap. exists (b2z x). rewrite z2b_b2z. split; [done|].
  apply elem_of_seqZ. pose proof (b2z_range x). lia.
Qed.

Definition top (x : byte) : Z := Z.shiftr (byte_and x 192) 2.
Definition enc_B (x y : byte) : byte := z2b (Z.lor (byte_and y 15) (top x)).
Definition enc_D (z y : byte) : byte := z2b (Z.lor (top z) (Z.shiftr (byte_and y 240) 4)).

Lemma top_cases x :
  (top x = 0 ∨ top x = 16 ∨ top x = 32 ∨ top x = 48) ∧
  byte_and (z2b (byte_and x 63)) 192 = 0 ∧
  z2b (Z.lor (byte_and (z2b (byte_and x 63)) 63) (Z.shiftl (top x) 2)) = x.
Proof.
  apply (bool_decide_unpack _), Is_true_true_2. revert x.
  apply (bytes_forall (λ x, bool_decide _)). vm_compute. reflexivity.
Qed.

Definition carries (y : byte) (h : Z) : Prop :=
  byte_and (z2b (Z.lor (byte_and y 15) h)) 192 = 0 ∧
  byte_and (z2b (Z.lor (byte_and y 15) h)) 15 = byte_and y 15 ∧
  byte_and (z2b (Z.lor (byte_and y 15) h)) 48 = h ∧
  byte_and (z2b (Z.lor h (Z.shiftr (byte_and y 240) 4))) 192 = 0 ∧
  byte_and (z2b (Z.lor h (Z.shiftr (byte_and y 240) 4))) 48 = h ∧
  z2b (Z.lor (byte_and y 15)
    (Z.shiftl (byte_and (z2b (Z.lor h (Z.shiftr (byte_and y 240) 4))) 15) 4)) = y.
#[local] Instance carries_dec y h : Decision (carries y h).
Proof. unfold carries. apply _. Defined.

Lemma carries_all y : Forall (carries y) [0; 16; 32; 48].
Proof.
  apply (bool_decide_unpack _), Is_true_true_2. revert y.
  apply (bytes_forall (λ y, bool_decide _)). vm_compute. reflexivity.
Qed.

Lemma low_top x y :
  byte_and (enc_B x y) 192 = 0 ∧ byte_and (enc_B x y) 15 = byte_and y 15 ∧
  byte_and (enc_B x y) 48 = top x ∧
  byte_and (enc_D x y) 192 = 0 ∧ byte_and (enc_D x y) 48 = top x ∧
  z2b (Z.lor (byte_and y 15) (Z.shiftl (byte_and (enc_D x y) 15) 4)) = y.
Proof.
  pose proof (carries_all y) as H. rewrite Forall_forall in H. apply (H (top x)).
  destruct (top_cases x) as [Ht _]. set_solver.
Qed.

(** What the decoder puts back together. *)
Lemma bits_B x y :
  byte_and (enc_B x y) 192 = 0 ∧ byte_and (enc_B x y) 15 = byte_and y 15 ∧
  z2b (Z.lor (byte_and (z2b (byte_and x 63)) 63) (Z.shiftl (byte_and (enc_B x y) 48) 2)) = x ∧
  byte_and (z2b (byte_and x 63)) 192 = 0.
Proof.
  destruct (low_top x y) as (? & ? & -> & _). destruct (top_cases x) as (_ & ? & ?). done.
Qed.
Lemma bits_D z y :
  byte_and (enc_D z y) 192 = 0 ∧
  z2b (Z.lor (byte_and y 15) (Z.shiftl (byte_and (enc_D z y) 15) 4)) = y ∧
  z2b (Z.lor (byte_and (z2b (byte_and z 63)) 63) (Z.shiftl (byte_and (enc_D z y) 48) 2)) = z.
Proof.
  destruct (low_top z y) as (_ & _ & _ & ? & -> & ?). destruct (top_cases z) as (_ & ? & ?). done.
Qed.

(** ** Encoding rounds *)

Lemma read1_spec rest : read1 rest = (at_ rest 0, drop 1 rest).
Proof. by destruct rest. Qed.

Lemma Zlength_app l k : Zlength (l ++ k) = Zlength l + Zlength k.
Proof. unfold Zlength. rewrite length_app. lia. Qed.

Lemma write_element {A} v buf out (k : bytes → Res A) :
  Zlength out mod 32 = 0 → byte_and v 192 = 0 →
  (o ← write1 v out; o ← write31 buf o; k o) = k (out ++ v :: buf).
Proof.
  intros Hm Hv. unfold write1, write31. rewrite Hm. unfold byte_and in Hv. rewrite Hv. cbn.
  rewrite Zlength_app. change (Zlength [v]) with 1.
  rewrite (proj2 (Z.eqb_eq ((Zlength out + 1) mod 32) 1)) by (Z.to_euclidean_division_equations; lia).
  cbn. by rewrite <- app_assoc.
Qed.

Lemma element_mod v buf out :
  Zlength out mod 32 = 0 → length buf = 31%nat → Zlength (out ++ v :: buf) mod 32 = 0.
Proof.
  intros Hm Hl. rewrite Zlength_app. unfold Zlength at 2. cbn [length].
  rewrite Hl. Z.to_euclidean_division_equations; lia.
Qed.

Lemma encode_round_spec buf rest out :
  length buf = 31%nat → Zlength out mod 32 = 0 →
  encode_round buf rest out = Ok (drop 96 rest, out ++
    pack buf (at_ rest 0) (pad_to 31 (drop 1 rest)) (at_ rest 32) (pad_to 31 (drop 33 rest))
      (at_ rest 64) (pad_to 31 (drop 65 rest))).
Proof.
  intros Hb Hm. unfold encode_round, read31. rewrite read1_spec.
  destruct (bits_B (at_ rest 0) (at_ rest 32)) as (HB & _ & _ & HA).
  destruct (bits_B (at_ rest 64) (at_ rest 32)) as (_ & _ & _ & HC).
  destruct (bits_D (at_ rest 64) (at_ rest 32)) as (HD & _ & _).
  rewrite write_element by done. rewrite read1_spec, !drop_drop, !at_drop.
  rewrite write_element by (try apply element_mod; done).
  rewrite read1_spec, !drop_drop, !at_drop.
  rewrite write_element by (repeat apply element_mod; try apply length_pad_to; done).
  rewrite write_element by (repeat apply element_mod; try apply length_pad_to; done).
  unfold pack. cbn [Nat.add app]. do 2 f_equal.
  rewrite <- !app_assoc. cbn [app]. rewrite <- ?app_assoc. cbn [app]. by rewrite <- ?app_assoc.
Qed.

Lemma pack_chunk_drop rest :
  pack (pad_to 31 rest) (at_ (drop 31 rest) 0) (pad_to 31 (drop 1 (drop 31 rest)))
    (at_ (drop 31 rest) 32) (pad_to 31 (drop 33 (drop 31 rest))) (at_ (drop 31 rest) 64)
    (pad_to 31 (drop 65 (drop 31 rest))) = pack_chunk rest.
Proof. unfold pack_chunk. by rewrite !drop_drop, !at_drop. Qed.

Lemma pack_chunk_mod out rest :
  Zlength out mod 32 = 0 → Zlength (out ++ pack_chunk rest) mod 32 = 0.
Proof.
  intros Hm. rewrite Zlength_app. unfold Zlength at 2. rewrite length_pack_chunk.
  Z.to_euclidean_division_equations; lia.
Qed.

(** The loop packs chunks until the input or the rounds are used up. *)
Lemma encode_rounds_spec n data rest out :
  Zlength out mod 32 = 0 →
  ∃ k, (k ≤ n)%nat ∧ (k = n ∨ drop (127 * k) rest = []) ∧
    encode_rounds n false data rest out = Ok (drop (127 * k) rest, out ++ packs k rest).
Proof.
  revert rest out. induction n as [|n IH]; intros rest out Hm.
  { exists 0%nat. cbn. rewrite app_nil_r. auto. }
  destruct rest as [|b rest].
  { exists 0%nat. cbn. rewrite app_nil_r. split_and!; auto with lia. }
  set (r := b :: rest).
  assert (Hstep : encode_rounds (S n) false data r out =
    encode_rounds n false data (drop 127 r) (out ++ pack_chunk r)).
  { change (encode_rounds (S n) false data r out) with
      ('(rest', out') ← encode_round (pad_to 31 r) (drop 31 r) out;
       encode_rounds n false data rest' out').
    rewrite encode_round_spec by (try apply length_pad_to; done).
    rewrite pack_chunk_drop, drop_drop. done. }
  rewrite Hstep. destruct (IH (drop 127 r) (out ++ pack_chunk r)) as (k & Hk & Hend & ->).
  { by apply pack_chunk_mod. }
  exists (S k). replace (127 * S k)%nat with (127 + 127 * k)%nat by lia.
  rewrite <- drop_drop. cbn [packs]. rewrite app_assoc. split_and!; [lia|naive_solver|done].
Qed.

Lemma packs_split k n rest :
  (k ≤ n)%nat → packs n rest = packs k rest ++ packs (n - k) (drop (127 * k) rest).
Proof.
  revert n rest. induction k as [|k IH]; intros n rest Hle; [by rewrite Nat.sub_0_r|].
  destruct n as [|n]; [lia|]. cbn [packs Nat.sub]. rewrite (IH n) by lia.
  rewrite <- app_assoc, drop_drop. by replace (127 * S k)%nat with (127 + 127 * k)%nat by lia.
Qed.

Lemma header_chunk data :
  pad_to 31 (blob_header data ++ data) = blob_header data ++ pad_to 27 data.
Proof. unfold blob_header. rewrite (pad_to_add 4 27). reflexivity. Qed.

(** The whole encoding: the header and the data, chunk by chunk. *)
Lemma FromData_packs data :
  Zlength data ≤ MaxBlobDataSize →
  FromData data = Ok (packs (Z.to_nat Rounds) (blob_header data ++ data)).
Proof.
  intros Hlen. unfold FromData. rewrite (proj2 (Z.ltb_ge _ _) Hlen).
  remember (Z.to_nat Rounds - 1)%nat as n eqn:En.
  assert (HR : Z.to_nat Rounds = S n) by (subst; reflexivity). rewrite HR.
  assert (HB : Z.to_nat BlobSize = (128 * S n)%nat) by (unfold BlobSize, Rounds in *; lia).
  set (s := blob_header data ++ data).
  assert (Hlens : length s = (4 + length data)%nat) by done.
  destruct data as [|b data].
  { cbn [encode_rounds mbind res_bind]. rewrite HB. cbn [length app]. rewrite Nat.sub_0_r.
    rewrite <- packs_nil. cbn [packs]. f_equal. }
  assert (Hstep : encode_rounds (S n) true (b :: data) (b :: data) [] =
    encode_rounds n false (b :: data) (drop 127 s) (pack_chunk s)).
  { change (encode_rounds (S n) true (b :: data) (b :: data) []) with
      ('(rest', out') ← encode_round (blob_header (b :: data) ++ pad_to 27 (b :: data))
          (drop 27 (b :: data)) [];
       encode_rounds n false (b :: data) rest' out').
    rewrite <- header_chunk. fold s.
    replace (drop 27 (b :: data)) with (drop 31 s) by reflexivity.
    rewrite encode_round_spec by (try apply length_pad_to; done).
    rewrite pack_chunk_drop, drop_drop. done. }
  rewrite Hstep. destruct (encode_rounds_spec n (b :: data) (drop 127 s) (pack_chunk s))
    as (k & Hk & Hend & ->).
  { apply (pack_chunk_mod []). done. }
  assert (Hnil : drop (127 * k) (drop 127 s) = []).
  { destruct Hend as [->|?]; [|done]. rewrite drop_drop. apply drop_ge.
    unfold Zlength, MaxBlobDataSize, Rounds in *. lia. }
  rewrite Hnil. cbn [mbind res_bind]. f_equal. cbn [packs].
  rewrite (packs_split k n) by done. rewrite Hnil, packs_nil, <- app_assoc. do 3 f_equal.
  rewrite HB, length_app, length_pack_chunk, length_packs. lia.
Qed.

(** ** Decoding rounds *)

Lemma at_app_l l k i : (i < length l)%nat → at_ (l ++ k) i = at_ l i.
Proof. intros. unfold at_. by rewrite lookup_app_l. Qed.
Lemma at_app_r l k i n : length l = n → at_ (l ++ k) (n + i) = at_ k i.
Proof. intros <-. unfold at_. rewrite lookup_app_r by lia. f_equal. f_equal. lia. Qed.

(** Copying over the zeroes after the part that is done. *)
Lemma copy_at_zeros o src k n :
  length o = n → (length src ≤ k)%nat →
  copy_at n src (o ++ replicate k x00) = o ++ src ++ replicate (k - length src) x00.
Proof.
  intros <- Hk. unfold copy_at. rewrite take_app_length, length_app, length_replicate.
  rewrite take_ge by lia. rewrite drop_app_ge by lia. rewrite drop_replicate. do 3 f_equal. lia.
Qed.

Lemma decodeFieldElement_ok b pre v c post opos ipos output o k :
  b = pre ++ v :: c ++ post → ipos = length pre → output = o ++ replicate k x00 →
  byte_and v 192 = 0 → length c = 31%nat → length o = opos → (31 ≤ k)%nat →
  decodeFieldElement b opos ipos output
  = Ok (v, (opos + 32)%nat, (ipos + 32)%nat, o ++ c ++ replicate (k - 31) x00).
Proof.
  intros -> -> -> Hv Hc Ho Hk. unfold decodeFieldElement.
  assert (Hat : at_ (pre ++ v :: c ++ post) (length pre) = v).
  { unfold at_. by rewrite list_lookup_middle. }
  rewrite Hat, Hv. cbn [negb Z.eqb]. do 2 f_equal.
  assert (Hsrc : take 31 (drop (length pre + 1) (pre ++ v :: c ++ post)) = c).
  { rewrite <- drop_drop, drop_app_length. rewrite skipn_cons, drop_0.
    rewrite take_app_le by lia. apply take_ge. lia. }
  rewrite Hsrc, copy_at_zeros by lia. by rewrite Hc.
Qed.

Lemma zeros_S k n : (n < k)%nat → replicate (k - n) x00 = x00 :: replicate (k - S n) x00.
Proof. intros. by replace (k - n)%nat with (S (k - S n)) by lia. Qed.

Lemma insert_mid (l1 l2 : bytes) x y n : n = length l1 → <[n := x]> (l1 ++ y :: l2) = l1 ++ x :: l2.
Proof. intros ->. rewrite insert_app_r_alt by lia. by rewrite Nat.sub_diag. Qed.

Lemma reassemble_ok o x c2 y c3 z c4 rest opos :
  length c2 = 31%nat → length c3 = 31%nat → opos = (length o + 97)%nat →
  reassembleBytes opos (z2b (byte_and x 63)) (enc_B x y) (z2b (byte_and z 63)) (enc_D z y)
    (o ++ x00 :: c2 ++ x00 :: c3 ++ x00 :: c4 ++ rest)
  = ((length o + 96)%nat, o ++ x :: c2 ++ y :: c3 ++ z :: c4 ++ rest).
Proof.
  intros H2 H3 ->. unfold reassembleBytes.
  destruct (bits_B x y) as (_ & -> & -> & _). destruct (bits_D z y) as (_ & -> & ->).
  f_equal; [lia|].
  replace (o ++ x00 :: c2 ++ x00 :: c3 ++ x00 :: c4 ++ rest)
    with ((o ++ x00 :: c2 ++ x00 :: c3) ++ x00 :: c4 ++ rest) by (by app_norm).
  rewrite insert_mid by (rewrite !length_app; cbn [length]; rewrite !length_app; cbn [length]; lia).
  replace ((o ++ x00 :: c2 ++ x00 :: c3) ++ z :: c4 ++ rest)
    with ((o ++ x00 :: c2) ++ x00 :: c3 ++ z :: c4 ++ rest) by (by app_norm).
  rewrite insert_mid by (rewrite !length_app; cbn [length]; lia).
  replace ((o ++ x00 :: c2) ++ y :: c3 ++ z :: c4 ++ rest)
    with (o ++ x00 :: c2 ++ y :: c3 ++ z :: c4 ++ rest) by (by app_norm).
  by rewrite insert_mid by lia.
Qed.

(** Three field elements in a row, as both loops read them. *)
Lemma three_elements {A} (f : byte → byte → byte → nat → nat → bytes → Res A)
    b pre x c2 y c3 z c4 post opos ipos o k :
  b = pre ++ enc_B x y :: c2 ++ z2b (byte_and z 63) :: c3 ++ enc_D z y :: c4 ++ post →
  ipos = length pre → length o = opos → (95 ≤ k)%nat →
  length c2 = 31%nat → length c3 = 31%nat → length c4 = 31%nat →
  ('(e1, opos, ipos, output) ← decodeFieldElement b opos ipos (o ++ replicate k x00);
   '(e2, opos, ipos, output) ← decodeFieldElement b opos ipos output;
   '(e3, opos, ipos, output) ← decodeFieldElement b opos ipos output;
   f e1 e2 e3 opos ipos output)
  = f (enc_B x y) (z2b (byte_and z 63)) (enc_D z y) (opos + 96)%nat (ipos + 96)%nat
      (o ++ c2 ++ x00 :: c3 ++ x00 :: c4 ++ replicate (k - 95) x00).
Proof.
  intros Hb Hi Ho Hk H2 H3 H4.
  destruct (bits_B x y) as (HB & _). destruct (bits_D z y) as (HD & _).
  destruct (bits_B z y) as (_ & _ & _ & HC).
  rewrite (decodeFieldElement_ok b pre (enc_B x y) c2 _ opos ipos _ o k Hb) by (done || lia).
  cbn [mbind res_bind]. rewrite zeros_S by lia.
  rewrite (decodeFieldElement_ok b (pre ++ enc_B x y :: c2) (z2b (byte_and z 63)) c3
    (enc_D z y :: c4 ++ post) _ _ _ (o ++ c2 ++ [x00]) (k - 32)).
  2: { by rewrite Hb; app_norm. }
  2: { rewrite length_app. cbn [length]. lia. }
  2: { by app_norm. }
  2: done. 2: done. 2: { rewrite !length_app. cbn [length]. lia. } 2: lia.
  cbn [mbind res_bind]. rewrite (zeros_S (k - 32)) by lia.
  rewrite (decodeFieldElement_ok b (pre ++ enc_B x y :: c2 ++ z2b (byte_and z 63) :: c3)
    (enc_D z y) c4 post _ _ _ (o ++ c2 ++ x00 :: c3 ++ [x00]) (k - 32 - 32)).
  2: { by rewrite Hb; app_norm. }
  2: { rewrite !length_app. cbn [length]. rewrite !length_app. cbn [length]. lia. }
  2: { by app_norm. }
  2: done. 2: done.
  2: { rewrite !length_app. cbn [length]. rewrite !length_app. cbn [length]. lia. } 2: lia.
  cbn [mbind res_bind]. f_equal; [lia|lia|].
  app_norm. by replace (k - 32 - 32 - 31)%nat with (k - 95)%nat by lia.
Qed.

(** One full round appends the next 127 bytes of the input. *)
Lemma decode_round_ok n b pre rest post outputLen opos ipos o k :
  b = pre ++ pack_chunk rest ++ post → ipos = length pre → length o = opos → (127 ≤ k)%nat →
  Z.of_nat opos < outputLen →
  decode_rounds (S n) b outputLen opos ipos (o ++ replicate k x00)
  = decode_rounds n b outputLen (opos + 127) (ipos + 128)
      ((o ++ pad_to 127 rest) ++ replicate (k - 127) x00).
Proof.
  intros Hb Hi Ho Hk Hlt. cbn [decode_rounds]. rewrite (proj2 (Z.ltb_lt _ _) Hlt).
  unfold pack_chunk, pack in Hb.
  change (z2b (Z.lor (byte_and (at_ rest 63) 15) (Z.shiftr (byte_and (at_ rest 31) 192) 2)))
    with (enc_B (at_ rest 31) (at_ rest 63)) in Hb.
  change (z2b (Z.lor (Z.shiftr (byte_and (at_ rest 95) 192) 2) (Z.shiftr (byte_and (at_ rest 63) 240) 4)))
    with (enc_D (at_ rest 95) (at_ rest 63)) in Hb.
  rewrite chunk_split.
  set (c1 := pad_to 31 rest) in *. set (c2 := pad_to 31 (drop 32 rest)) in *.
  set (c3 := pad_to 31 (drop 64 rest)) in *. set (c4 := pad_to 31 (drop 96 rest)) in *.
  set (x := at_ rest 31) in *. set (y := at_ rest 63) in *. set (z := at_ rest 95) in *.
  assert (H1 : length c1 = 31%nat) by apply length_pad_to.
  assert (H2 : length c2 = 31%nat) by apply length_pad_to.
  assert (H3 : length c3 = 31%nat) by apply length_pad_to.
  assert (H4 : length c4 = 31%nat) by apply length_pad_to.
  assert (Hb' : b = pre ++ z2b (byte_and x 63) :: c1 ++ enc_B x y :: c2 ++ z2b (byte_and z 63)
    :: c3 ++ enc_D z y :: c4 ++ post).
  { rewrite Hb. do 2 f_equal. by app_norm. }
  destruct (bits_B x y) as (_ & _ & _ & HA).
  rewrite (decodeFieldElement_ok b pre (z2b (byte_and x 63)) c1 _ opos ipos _ o k Hb') by (done || lia).
  cbn [mbind res_bind]. rewrite zeros_S by lia.
  replace (o ++ c1 ++ x00 :: replicate (k - 32) x00) with ((o ++ c1 ++ [x00]) ++ replicate (k - 32) x00)
    by (by app_norm).
  rewrite (three_elements (λ e1 e2 e3 opos ipos output,
      let '(opos, output) := reassembleBytes opos (z2b (byte_and x 63)) e1 e2 e3 output in
      decode_rounds n b outputLen opos ipos output)
    b (pre ++ z2b (byte_and x 63) :: c1) x c2 y c3 z c4 post); try done.
  2: { by rewrite Hb'; app_norm. }
  2: { rewrite length_app. cbn [length]. lia. }
  2: { rewrite !length_app. cbn [length]. lia. }
  2: lia.
  replace ((o ++ c1 ++ [x00]) ++ c2 ++ x00 :: c3 ++ x00 :: c4 ++ replicate (k - 32 - 95) x00)
    with ((o ++ c1) ++ x00 :: c2 ++ x00 :: c3 ++ x00 :: c4 ++ replicate (k - 127) x00).
  2: { app_norm. by replace (k - 32 - 95)%nat with (k - 127)%nat by lia. }
  rewrite reassemble_ok by (rewrite ?length_app; done || lia). rewrite length_app.
  f_equal; [lia|lia|].
  by app_norm.
Qed.

Lemma is_zero_replicate n : is_zero (replicate n x00) = true.
Proof. induction n; [done|]. cbn. done. Qed.

Lemma decode_rounds_ok n b pre rest outputLen opos ipos o :
  b = pre ++ packs n rest → ipos = length pre → length o = opos →
  (outputLen = Z.of_nat opos + Zlength rest ∨ (rest = [] ∧ outputLen ≤ Z.of_nat opos)) →
  ∃ opos' ipos',
    decode_rounds n b outputLen opos ipos (o ++ replicate (127 * n) x00)
    = Ok (opos', ipos', o ++ pad_to (127 * n) rest) ∧ is_zero (drop ipos' b) = true.
Proof.
  revert pre rest opos ipos o. induction n as [|n IH]; intros pre rest opos ipos o Hb Hi Ho Hlen.
  { exists opos, ipos. split; [done|]. rewrite Hb, Hi, drop_app_length. done. }
  destruct (Z.ltb_spec (Z.of_nat opos) outputLen) as [Hlt|Hge].
  - cbn [packs] in Hb.
    rewrite (decode_round_ok n b pre rest (packs n (drop 127 rest)) outputLen opos ipos o) by (done || lia).
    replace (127 * S n - 127)%nat with (127 * n)%nat by lia.
    destruct (IH (pre ++ pack_chunk rest) (drop 127 rest) (opos + 127)%nat (ipos + 128)%nat
      (o ++ pad_to 127 rest)) as (opos' & ipos' & -> & Hz).
    + by rewrite <- app_assoc.
    + rewrite length_app, length_pack_chunk. lia.
    + rewrite length_app, length_pad_to. lia.
    + unfold Zlength in *. rewrite length_drop. destruct Hlen as [Hlen|[-> Hlen]]; [|lia].
      destruct (decide (length rest ≤ 127)%nat); [right|left; lia].
      split; [by apply drop_ge|lia].
    + exists opos', ipos'. split; [|done]. rewrite <- app_assoc, <- pad_to_add.
      by replace (127 + 127 * n)%nat with (127 * S n)%nat by lia.
  - assert (rest = []) as ->.
    { destruct Hlen as [Hlen|[? _]]; [|done]. unfold Zlength in Hlen. destruct rest; [done|].
      cbn in Hlen. lia. }
    exists opos, ipos. cbn [decode_rounds]. rewrite (proj2 (Z.ltb_ge _ _) Hge).
    split; [by rewrite pad_to_nil|]. rewrite Hb, Hi, drop_app_length, packs_nil.
    apply is_zero_replicate.
Qed.

(** The length field reads back. *)
Lemma header_length l :
  0 ≤ l < 2 ^ 24 →
  Z.lor (Z.lor (Z.shiftl (b2z (z2b (Z.shiftr l 16))) 16) (Z.shiftl (b2z (z2b (Z.shiftr l 8))) 8))
    (b2z (z2b l)) = l.
Proof.
  intros Hl. rewrite !b2z_z2b, !Z.shiftr_div_pow2 by lia.
  rewrite Z.lor_comm, (Z.lor_comm (Z.shiftl _ 16)), Z.lor_assoc.
  change (2 ^ 24) with 16777216 in Hl.
  rewrite (lor_shiftl_add (l mod 256) _ 8) by (change (2 ^ 8) with 256; Z.to_euclidean_division_equations; lia).
  change (2 ^ 8) with 256. change (2 ^ 16) with 65536.
  rewrite lor_shiftl_add
    by (change (2 ^ 16) with 65536; Z.to_euclidean_division_equations; lia).
  change (2 ^ 16) with 65536. Z.to_euclidean_division_equations; lia.
Qed.

Lemma decodeFieldElement_total b opos ipos output w :
  decodeFieldElement b opos ipos output ≠ Panic w.
Proof. unfold decodeFieldElement. by case_goal. Qed.

Lemma decode_rounds_total n b l opos ipos output w : decode_rounds n b l opos ipos output ≠ Panic w.
Proof.
  revert opos ipos output. induction n as [|n IH]; intros opos ipos output; cbn [decode_rounds]; [done|].
  destruct (_ <? _); [|done].
  do 4 (match goal with |- (decodeFieldElement ?b ?o ?i ?out ≫= _) ≠ _ =>
    pose proof (decodeFieldElement_total b o i out) as Ht;
    destruct (decodeFieldElement b o i out) as [[[[? ?] ?] ?]| |]; cbn [mbind res_bind];
      [clear Ht|done|by destruct (Ht why)] end).
  destruct (reassembleBytes _ _ _ _ _ _). apply IH.
Qed.

(** Decoding never panics. *)
Lemma ToData_total b w : ToData b ≠ Panic w.
Proof.
  unfold ToData. case_decide; [done|]. destruct (_ <? _); [done|].
  do 3 (match goal with |- (decodeFieldElement ?b ?o ?i ?out ≫= _) ≠ _ =>
    pose proof (decodeFieldElement_total b o i out) as Ht;
    destruct (decodeFieldElement b o i out) as [[[[? ?] ?] ?]| |]; cbn [mbind res_bind];
      [clear Ht|done|by destruct (Ht why)] end).
  destruct (reassembleBytes _ _ _ _ _ _) as [opos out].
  match goal with |- (decode_rounds ?n ?b ?l ?o ?i ?out ≫= _) ≠ _ =>
    pose proof (decode_rounds_total n b l o i out) as Ht;
    destruct (decode_rounds n b l o i out) as [[[? ?] ?]| |]; cbn [mbind res_bind] end.
  - by repeat case_match.
  - done.
  - by destruct (Ht why).
Qed.

(** The layout of a blob: the header and the first 27 bytes of data come after the first
    shared byte, then the other three elements of the round and the other rounds. *)
Section layout.
Context (data : bytes) (n : nat).
Let s := blob_header data ++ data.
Let c2 := pad_to 31 (drop 32 s).
Let c3 := pad_to 31 (drop 64 s).
Let c4 := pad_to 31 (drop 96 s).
Let x := at_ s 31.
Let y := at_ s 63.
Let z := at_ s 95.

Lemma blob_layout :
  packs (S n) s = z2b (byte_and x 63) :: blob_header data ++ pad_to 27 data ++ enc_B x y :: c2
    ++ z2b (byte_and z 63) :: c3 ++ enc_D z y :: c4 ++ packs n (drop 127 s).
Proof.
  cbn [packs]. unfold pack_chunk, pack. fold c2 c3 c4 x y z. unfold s at 1. rewrite header_chunk. by app_norm.
Qed.

Lemma blob_header_fields : 0 ≤ Zlength data < 2 ^ 24 → let b := packs (S n) s in
  at_ b 0 = z2b (byte_and x 63) ∧ at_ b 1 = EncodingVersion ∧ at_ b 2 = z2b (Z.shiftr (Zlength data) 16) ∧
  at_ b 3 = z2b (Z.shiftr (Zlength data) 8) ∧ at_ b 4 = z2b (Zlength data) ∧
  take 27 (drop 5 b) = pad_to 27 data.
Proof.
  intros Hl b. unfold b. rewrite blob_layout. unfold blob_header.
  rewrite (wrap_small 32 (Zlength data)) by uint_lia. split_and!; [done..|].
  cbn [app drop]. apply take_app_length'. by rewrite length_pad_to.
Qed.

(** The first round carries the first 123 bytes. *)
Lemma first_round_data rest :
  pad_to 27 data ++ x :: c2 ++ y :: c3 ++ z :: c4 ++ rest = pad_to 123 data ++ rest.
Proof.
  pose proof (chunk_split s) as Hc. fold c2 c3 c4 x y z in Hc. unfold s in Hc at 1 2.
  rewrite header_chunk, (pad_to_add 4 123) in Hc.
  change (drop 4 (blob_header data ++ data)) with data in Hc.
  change (pad_to 4 (blob_header data ++ data)) with (blob_header data) in Hc.
  rewrite <- app_assoc in Hc. apply app_inv_head in Hc. rewrite Hc. by app_norm.
Qed.

(** Decoding the first round yields them. *)
Lemma first_round_decodes {A} (k : nat → nat → bytes → Res A) M : M = (123 + 127 * n)%nat →
  let b := packs (S n) s in
  ('(e1, opos, ipos, output) ← decodeFieldElement b 28 32 (copy_at 0 (pad_to 27 data) (replicate M x00));
   '(e2, opos, ipos, output) ← decodeFieldElement b opos ipos output;
   '(e3, opos, ipos, output) ← decodeFieldElement b opos ipos output;
   let '(opos, output) := reassembleBytes opos (z2b (byte_and x 63)) e1 e2 e3 output in
   k opos ipos output)
  = k 123%nat 128%nat (pad_to 123 data ++ replicate (127 * n) x00).
Proof.
  intros HM b. pose proof (copy_at_zeros [] (pad_to 27 data) M 0 eq_refl) as Hcp. cbn [app] in Hcp.
  rewrite length_pad_to in Hcp. rewrite Hcp by lia. rewrite zeros_S by lia.
  replace (pad_to 27 data ++ x00 :: replicate (M - 28) x00)
    with ((pad_to 27 data ++ [x00]) ++ replicate (M - 28) x00) by (by app_norm).
  refine (eq_trans (three_elements (λ e1 e2 e3 opos ipos output,
      let '(opos, output) := reassembleBytes opos (z2b (byte_and x 63)) e1 e2 e3 output in k opos ipos output)
    b (z2b (byte_and x 63) :: blob_header data ++ pad_to 27 data) x c2 y c3 z c4
    (packs n (drop 127 s)) 28 32 _ _ _ _ _ _ _ _ _) _); try apply length_pad_to.
  { unfold b. rewrite blob_layout. by app_norm. }
  { cbn [length]. rewrite length_app, length_pad_to. done. }
  { rewrite length_app, length_pad_to. done. }
  { lia. }
  replace ((pad_to 27 data ++ [x00]) ++ c2 ++ x00 :: c3 ++ x00 :: c4 ++ replicate (M - 28 - 95) x00)
    with (pad_to 27 data ++ x00 :: c2 ++ x00 :: c3 ++ x00 :: c4 ++ replicate (127 * n) x00).
  2: { app_norm. by replace (M - 28 - 95)%nat with (127 * n)%nat by lia. }
  rewrite reassemble_ok by (apply length_pad_to || (rewrite length_pad_to; lia)).
  by rewrite length_pad_to, first_round_data.
Qed.
End layout.

(** C40: every byte string of at most 130044 bytes can be encoded into a blob, the
    blob has 4096 field elements, and decoding it returns the string. *)
Theorem blob_roundtrip data :
  Zlength data ≤ MaxBlobDataSize →
  ∃ b, FromData data = Ok b ∧ Zlength b = BlobSize ∧ ToData b = Ok data.
Proof.
  intros Hmax. exists (packs (Z.to_nat Rounds) (blob_header data ++ data)).
  split; [by apply FromData_packs|].
  remember (Z.to_nat Rounds - 1)%nat as n eqn:En.
  assert (HR : Z.to_nat Rounds = S n) by (subst; reflexivity).
  split. { unfold Zlength. rewrite length_packs. unfold Rounds, BlobSize. lia. }
  assert (Hl : 0 ≤ Zlength data < 2 ^ 24) by (unfold Zlength, MaxBlobDataSize in *; lia).
  assert (HM : Z.to_nat MaxBlobDataSize = (123 + 127 * n)%nat) by (unfold MaxBlobDataSize, Rounds in *; lia).
  rewrite HR. unfold ToData. rewrite <- En. destruct (blob_header_fields data n Hl) as (-> & Hv & -> & -> & -> & ->).
  unfold VersionOffset. rewrite Hv, decide_False by tauto.
  rewrite header_length by done. rewrite (proj2 (Z.ltb_ge _ _) Hmax).
  rewrite (first_round_decodes data n (λ opos ipos output,
    '(opos, ipos, output) ← decode_rounds n (packs (S n) (blob_header data ++ data)) (Zlength data) opos ipos output;
    if negb (is_zero (drop (Z.to_nat (Zlength data)) output)) then
      Err (Errorf "fe" ErrBlobExtraneousDataFieldElement)
    else if negb (is_zero (drop ipos (packs (S n) (blob_header data ++ data)))) then
      Err (Errorf "pos" ErrBlobExtraneousData)
    else Ok (take (Z.to_nat (Zlength data)) output)) _ HM).
  destruct (decode_rounds_ok n (packs (S n) (blob_header data ++ data)) (pack_chunk (blob_header data ++ data))
    (drop 123 data) (Zlength data) 123 128 (pad_to 123 data)) as (opos' & ipos' & -> & Hz);
    [done|by rewrite length_pack_chunk|by rewrite length_pad_to| |].
  { unfold Zlength. rewrite length_drop.
    destruct (decide (length data ≤ 123)%nat); [right; split; [by apply drop_ge|lia]|left; lia]. }
  cbn [mbind res_bind]. rewrite <- pad_to_add, <- HM, Hz. unfold pad_to, Zlength. rewrite Nat2Z.id.
  rewrite (take_ge data) by (unfold Zlength in *; lia).
  rewrite drop_app_length, is_zero_replicate, take_app_length. done.
Qed.

(** the check that the two top bits of a field element are empty skips the
    first field element of the blob: a blob whose first byte has the second-highest
    bit set decodes like the canonical one, so two different blobs carry the
    same data. *)
Theorem ToData_first_element_unchecked :
  ∃ b b', b ≠ b' ∧ ToData b = Ok [x2a] ∧ ToData b' = Ok [x2a] ∧ FromData [x2a] = Ok b
  ∧ byte_and (at_ b' 0) 192 ≠ 0.
Proof.
  set (b := packs (Z.to_nat Rounds) (blob_header [x2a] ++ [x2a])).
  exists b, (x40 :: drop 1 b).
  assert (Hb : at_ b 0 = x00) by (vm_compute; reflexivity).
  split_and!.
  - intros Heq. rewrite Heq in Hb. done.
  - vm_compute. reflexivity.
  - vm_compute. reflexivity.
  - apply FromData_packs. done.
  - vm_compute. discriminate.
Qed.

Lemma blob_roundtrip_witness :
  ∃ b, FromData [x01; x02; xff] = Ok b ∧ ToData b = Ok [x01; x02; xff].
Proof.
  destruct (blob_roundtrip [x01; x02; xff]) as (b & H1 & _ & H2); [by vm_compute|].
  exists b. split; [exact H1|exact H2].
Defined.
