(* ===== verification/Geth.v ===== *)
(** * What the node takes from go-ethereum

    The functions of go-ethereum (op-geth) and its crypto packages that the
    modelled code calls are not part of the repository. They are the operations
    of one class, an argument of every definition that uses them; its laws are
    stated where a theorem needs them. [Transaction], [Log] and [Receipt] are the
    parts of [core/types] that the accessors used by the code return. *)

From S2P Require Import Prelude GoBytes Errors Eth RollupConfig.

Record Transaction := mkTransaction {
  tx_Type : Z;
  tx_To : option Address;
  tx_Data : Data;
  tx_BlobHashes : list Hash;
  (* the encoding the signature check works on *)
  tx_Raw : bytes }.
Definition LegacyTxType : Z := 0.
Definition BlobTxType : Z := 3.
Definition DepositTxTypeNum : Z := 126.

Record Log := mkLog {
  log_Address : Address; log_Topics : list Hash; log_Data : bytes; log_BlockHash : Hash; log_Index : Z;
  log_TxIndex : Z; log_TxHash : Hash }.
Record Receipt := mkReceipt { rcpt_Status : Z; rcpt_Logs : list Log }.
Definition ReceiptStatusSuccessful : Z := 1.

(** [types.DepositTx]. *)
Record DepositTx := mkDepositTx {
  dep_SourceHash : Hash;
  dep_From : Address;
  dep_To : option Address;
  dep_Mint : option Z;
  dep_Value : Z;
  dep_Gas : Z;
  dep_IsSystemTransaction : bool;
  dep_Data : bytes }.

Class Geth := {
  Keccak256Hash : bytes → Hash;
  (* [Transaction.Hash] *)
  TxHash : Transaction → Hash;
  (* [types.Signer.Sender] of the signer for the L1 chain id *)
  Sender : Z → Transaction → Res Address;
  (* [eip1559.ValidateHolocene1559Params] *)
  ValidateHolocene1559Params : bytes → option error;
  (* [types.NewTx] of a deposit and [MarshalBinary]; [UnmarshalBinary] of a transaction *)
  MarshalDepositTx : DepositTx → Res bytes;
  UnmarshalTx : bytes → Res Transaction;
  (* [eip4844.CalcBlobFee] with the default Cancun blob schedule *)
  CalcBlobFeeDefault : Z → Z;
  (* extra data of a block at a timestamp: denominator, elasticity, minimum base fee *)
  ValidateOptimismExtraData : Config → Z → bytes → option error;
  DecodeOptimismExtraData : Config → Z → bytes → Z * Z * option Z;
  EncodeHolocene1559Params : Z → Z → bytes;
  (* [crypto.CreateAddress]: the contract a sender deploys with a nonce *)
  CreateAddress : Address → Z → Address;
}.

Definition bytes_of_string (s : string) : bytes := String.list_byte_of_string s.

(** A concrete instance, to run the model on examples: a toy hash, and senders
    named in the transaction itself. *)
Module GethExample.
Definition pad32 (b : bytes) : Hash := take 32 (b ++ replicate 32 x00).
#[global] Instance geth : Geth := {
  Keccak256Hash b := pad32 (be_bytes 8 (Z.of_nat (length b)) ++ b);
  TxHash tx := pad32 (tx_Raw tx);
  Sender _ tx := Ok (take 20 (tx_Raw tx));
  ValidateHolocene1559Params p :=
    if (be_val (take 4 p) =? 0) && negb (be_val (drop 4 p) =? 0)
    then Some (ErrorsNew "holocene eip-1559 params denominator is 0") else None;
  MarshalDepositTx d := Ok (DepositTxType :: dep_Data d);
  UnmarshalTx b :=
    match b with
    | [] => Err (ErrorsNew "short transaction")
    | t :: d => Ok (mkTransaction (b2z t) None d [] b)
    end;
  CalcBlobFeeDefault excess := 1 + excess;
  ValidateOptimismExtraData _ _ d :=
    if (length d =? 17)%nat then None else Some (ErrorsNew "unexpected extra data length");
  DecodeOptimismExtraData _ _ d :=
    (be_val (take 4 (drop 1 d)), be_val (take 4 (drop 5 d)), Some (be_val (drop 9 d)));
  EncodeHolocene1559Params d e := be_bytes 4 d ++ be_bytes 4 e;
  CreateAddress a n := be_bytes 4 n ++ drop 4 a;
}.
End GethExample.
