(* ===== verification/Commitment.v ===== *)
(** * Alt-DA commitments

    Models [op-alt-da/commitment.go]: what a batcher posts instead of the data itself. *)

From S2P Require Import Prelude GoBytes Errors Eth RollupConfig Geth.

(** The type byte. *)
Definition Keccak256CommitmentType : Z := 0.
Definition GenericCommitmentType : Z := 1.
Definition CommitmentTypeFromString (s : string) : Res Z :=
  if decide (s = KeccakCommitmentString) then Ok Keccak256CommitmentType
  else if decide (s = GenericCommitmentString) then Ok GenericCommitmentType
  else Err (ErrorsNew "invalid commitment type").

(** The version byte in front of a commitment, as opposed to frames. *)
Definition DerivationVersion1 : byte := x01.

(** The implementations of the interface [CommitmentData]. *)
Inductive CommitmentData := Keccak256Commitment (c : bytes) | GenericCommitment (c : bytes).
#[export] Instance CommitmentData_eq_dec : EqDecision CommitmentData.
Proof. solve_decision. Defined.

Definition CommitmentType (c : CommitmentData) : Z :=
  match c with
  | Keccak256Commitment _ => Keccak256CommitmentType
  | GenericCommitment _ => GenericCommitmentType
  end.

Definition DecodeKeccak256 (commitment : bytes) : Res CommitmentData :=
  if (length commitment =? 0)%nat then Err ErrInvalidCommitment
  else if negb (length commitment =? 32)%nat then Err ErrInvalidCommitment
  else Ok (Keccak256Commitment commitment).
Definition DecodeGenericCommitment (commitment : bytes) : Res CommitmentData :=
  if (length commitment =? 0)%nat then Err ErrInvalidCommitment else Ok (GenericCommitment commitment).
Definition DecodeCommitmentData (input : bytes) : Res CommitmentData :=
  match input with
  | [] => Err ErrInvalidCommitment
  | t :: data =>
    if b2z t =? Keccak256CommitmentType then DecodeKeccak256 data
    else if b2z t =? GenericCommitmentType then DecodeGenericCommitment data
    else Err ErrInvalidCommitment
  end.

(** The bytes after the type. *)
Definition comm_bytes (c : CommitmentData) : bytes :=
  match c with Keccak256Commitment b | GenericCommitment b => b end.
Definition Encode (c : CommitmentData) : bytes := z2b (CommitmentType c) :: comm_bytes c.
Definition TxData (c : CommitmentData) : bytes := DerivationVersion1 :: Encode c.

Section hashing.
Context `{Geth}.
Definition NewKeccak256Commitment (input : bytes) : CommitmentData := Keccak256Commitment (Keccak256Hash input).
Definition NewGenericCommitment (input : bytes) : CommitmentData := GenericCommitment input.
(** An unknown type gives nil. *)
Definition NewCommitmentData (t : Z) (input : bytes) : option CommitmentData :=
  if t =? Keccak256CommitmentType then Some (NewKeccak256Commitment input)
  else if t =? GenericCommitmentType then Some (NewGenericCommitment input)
  else None.
Definition Verify (c : CommitmentData) (input : bytes) : Res unit :=
  match c with
  | Keccak256Commitment b =>
    if negb (bool_decide (b = Keccak256Hash input)) then Err ErrCommitmentMismatch else Ok ()
  | GenericCommitment _ => Ok ()
  end.

Lemma Verify_keccak b input : Verify (Keccak256Commitment b) input = Ok () ↔ b = Keccak256Hash input.
Proof. cbn. case_bool_decide; cbn; naive_solver. Qed.
End hashing.

(** ** Properties *)

Definition comm_wf (c : CommitmentData) : Prop :=
  match c with Keccak256Commitment b => length b = 32%nat | GenericCommitment b => b ≠ [] end.

Lemma decode_encode c : comm_wf c → DecodeCommitmentData (Encode c) = Ok c.
Proof.
  destruct c as [b|b]; cbn; unfold DecodeKeccak256, DecodeGenericCommitment; [by intros ->|by destruct b].
Qed.
Lemma decode_wf input c : DecodeCommitmentData input = Ok c → comm_wf c ∧ Encode c = input.
Proof.
  destruct input as [|t data]; cbn; [done|]. unfold DecodeKeccak256, DecodeGenericCommitment.
  assert (Ht : z2b (b2z t) = t) by apply z2b_b2z.
  destruct (Z.eqb_spec (b2z t) Keccak256CommitmentType) as [Hk|_].
  - destruct data as [|x data]; [done|]. destruct (Nat.eqb_spec (length (x :: data)) 32); [|done].
    intros [= <-]. unfold Encode. cbn [CommitmentType comm_bytes comm_wf]. by rewrite <-Hk, Ht.
  - destruct (Z.eqb_spec (b2z t) GenericCommitmentType) as [Hg|_]; [|done].
    destruct data as [|x data]; [done|]. intros [= <-]. unfold Encode.
    cbn [CommitmentType comm_bytes comm_wf]. by rewrite <-Hg, Ht.
Qed.

(** decoding and encoding of commitments are inverse to each other: exactly the
    well-formed commitments (a Keccak hash of 32 bytes, or at least one opaque byte)
    have an encoding that decodes, and it decodes to them. *)
Theorem commitment_roundtrip input c :
  DecodeCommitmentData input = Ok c ↔ comm_wf c ∧ Encode c = input.
Proof. split; [apply decode_wf|]. intros [Hw <-]. by apply decode_encode. Qed.
