(* ===== verification/AltDAState.v ===== *)
(** * The state of the alt-DA challenge game

    Models [op-alt-da/dastate.go]: the commitments whose inputs derivation has used and
    the challenges against them. Challenges are shared objects in the source: the queues
    and the map by key hold pointers to them, and resolving or expiring a challenge
    through one is seen through the other. They live in a heap here, and a pointer is a
    position in it. *)

From stdpp Require Import pretty.
From S2P Require Import Prelude GoBytes Errors Eth RollupConfig Geth Commitment.

(** [ChallengeStatus], a byte. *)
Definition ChallengeUninitialized : Z := 0.
Definition ChallengeActive : Z := 1.
Definition ChallengeResolved : Z := 2.
Definition ChallengeExpired : Z := 3.

(** [altda.Config]. *)
Record DAConfig := mkDAConfig {
  da_DAChallengeContractAddress : Address;
  da_CommitmentType : Z;
  da_ChallengeWindow : Z;
  da_ResolveWindow : Z }.

Definition GetOPAltDAConfig (c : Config) : Res DAConfig :=
  match cfg_AltDAConfig c with
  | None => Err (ErrorsNew "no altDA config")
  | Some a =>
    if ada_DAChallengeWindow a =? 0 then Err (ErrorsNew "missing DAChallengeWindow")
    else if ada_DAResolveWindow a =? 0 then Err (ErrorsNew "missing DAResolveWindow")
    else t ← CommitmentTypeFromString (ada_CommitmentType a);
      Ok (mkDAConfig (ada_DAChallengeAddress a) t (ada_DAChallengeWindow a) (ada_DAResolveWindow a))
  end.

Record Commitment := mkCommitment {
  co_data : CommitmentData; co_inclusionBlock : L1BlockRef; co_challengeWindowEnd : Z }.

Record Challenge := mkChallenge {
  ch_commData : CommitmentData;
  ch_commInclusionBlockNumber : Z;
  ch_resolveWindowEnd : Z;
  ch_input : bytes;
  ch_challengeStatus : Z }.

(** [fmt.Sprintf("%d%x", number, bytes)]. *)
Definition hex_digit (n : Z) : Ascii.ascii :=
  Ascii.ascii_of_N (Z.to_N (if n <? 10 then 48 + n else 87 + n)).
Fixpoint hex_string (b : bytes) : string :=
  match b with
  | [] => EmptyString
  | x :: b => String (hex_digit (b2z x / 16)) (String (hex_digit (b2z x mod 16)) (hex_string b))
  end.
Definition challengeKey (comm : CommitmentData) (inclusionBlockNumber : Z) : string :=
  pretty inclusionBlockNumber +:+ hex_string (Encode comm).
Definition key (c : Challenge) : string := challengeKey (ch_commData c) (ch_commInclusionBlockNumber c).

Record State := mkState {
  st_heap : list Challenge;
  st_commitments : list Commitment;
  st_expiredCommitments : list Commitment;
  st_challenges : list nat;
  st_expiredChallenges : list nat;
  st_challengesMap : gmap string nat;
  st_lastPrunedCommitment : L1BlockRef;
  st_cfg : DAConfig }.
Implicit Type s : State.

Definition NewState (cfg : DAConfig) : State := mkState [] [] [] [] [] ∅ zeroL1 cfg.

(** Updates of fields. *)
Definition st_set_commitments (l e : list Commitment) s : State :=
  mkState (st_heap s) l e (st_challenges s) (st_expiredChallenges s) (st_challengesMap s)
    (st_lastPrunedCommitment s) (st_cfg s).
Definition st_set_challenges (h : list Challenge) (l e : list nat) (m : gmap string nat) s : State :=
  mkState h (st_commitments s) (st_expiredCommitments s) l e m (st_lastPrunedCommitment s) (st_cfg s).
Definition st_set_pruned (r : L1BlockRef) s : State :=
  mkState (st_heap s) (st_commitments s) (st_expiredCommitments s) (st_challenges s) (st_expiredChallenges s)
    (st_challengesMap s) r (st_cfg s).

Definition ClearCommitments s : State := st_set_commitments [] [] s.
Definition State_Reset s : State := st_set_challenges (st_heap s) [] [] ∅ (st_set_commitments [] [] s).

Definition CreateChallenge (comm : CommitmentData) (inclusionBlock : BlockID) (commBlockNumber : Z) s : State :=
  let c := mkChallenge comm commBlockNumber (id_Number inclusionBlock +₆₄ da_ResolveWindow (st_cfg s)) []
             ChallengeActive in
  let a := length (st_heap s) in
  st_set_challenges (st_heap s ++ [c]) (st_challenges s ++ [a]) (st_expiredChallenges s)
    (<[key c := a]> (st_challengesMap s)) s.

(** The pointer to a challenge, and what it points to. *)
Definition challenge_ptr s (comm : CommitmentData) (commBlockNumber : Z) : option nat :=
  st_challengesMap s !! challengeKey comm commBlockNumber.
Definition GetChallenge s (comm : CommitmentData) (commBlockNumber : Z) : option Challenge :=
  a ← challenge_ptr s comm commBlockNumber; st_heap s !! a.
Definition GetChallengeStatus s (comm : CommitmentData) (commBlockNumber : Z) : Z :=
  match GetChallenge s comm commBlockNumber with
  | Some challenge => ch_challengeStatus challenge
  | None => ChallengeUninitialized
  end.

Definition set_status (st : Z) (c : Challenge) : Challenge :=
  mkChallenge (ch_commData c) (ch_commInclusionBlockNumber c) (ch_resolveWindowEnd c) (ch_input c) st.
Definition resolve (input : bytes) (c : Challenge) : Challenge :=
  mkChallenge (ch_commData c) (ch_commInclusionBlockNumber c) (ch_resolveWindowEnd c) input ChallengeResolved.

Definition ResolveChallenge (comm : CommitmentData) (commBlockNumber : Z) (input : bytes) s : Res unit * State :=
  match challenge_ptr s comm commBlockNumber with
  | None => (Err (ErrorsNew "challenge was not tracked"), s)
  | Some a =>
    (Ok (), st_set_challenges (alter (resolve input) a (st_heap s)) (st_challenges s) (st_expiredChallenges s)
              (st_challengesMap s) s)
  end.

Definition TrackCommitment (comm : CommitmentData) (inclusionBlock : L1BlockRef) s : State :=
  let c := mkCommitment comm inclusionBlock (l1_Number inclusionBlock +₆₄ da_ChallengeWindow (st_cfg s)) in
  st_set_commitments (st_commitments s ++ [c]) (st_expiredCommitments s) s.

Definition NoCommitments s : bool :=
  match st_challenges s, st_expiredChallenges s, st_commitments s, st_expiredCommitments s with
  | [], [], [], [] => true
  | _, _, _, _ => false
  end.

(** When a commitment can no longer be challenged, or its challenge resolved. *)
Definition expires_at s (c : Commitment) : Z :=
  match GetChallenge s (co_data c) (l1_Number (co_inclusionBlock c)) with
  | Some challenge => ch_resolveWindowEnd challenge
  | None => co_challengeWindowEnd c
  end.
(** Its challenge was not answered. *)
Definition unanswered s (c : Commitment) : bool :=
  match GetChallenge s (co_data c) (l1_Number (co_inclusionBlock c)) with
  | Some challenge => negb (ch_challengeStatus challenge =? ChallengeResolved)
  | None => false
  end.

(** The loop: what is left, what has expired, and whether a reorg is required. *)
Fixpoint expire_loop s (n : Z) (l : list Commitment) (err : bool) : list Commitment * list Commitment * bool :=
  match l with
  | [] => ([], [], err)
  | c :: l' =>
    if n <? expires_at s c then (l, [], err)
    else
      let '(rest, expired, err) := expire_loop s n l' (err || unanswered s c) in
      (rest, c :: expired, err)
  end.
Definition ExpireCommitments (origin : BlockID) s : Res unit * State :=
  let '(rest, expired, err) := expire_loop s (id_Number origin) (st_commitments s) false in
  (if (err : bool) then Err ErrReorgRequired else Ok (),
   st_set_commitments rest (st_expiredCommitments s ++ expired) s).

(** Mark a challenge that was not resolved. *)
Definition expire_challenge (c : Challenge) : Challenge :=
  if ch_challengeStatus c =? ChallengeActive then set_status ChallengeExpired c else c.

(** A queue without its expired front, and the heap after marking it; a pointer is never nil. *)
Fixpoint expire_challenges_loop (n : Z) (l : list nat) (h : list Challenge) : list nat * list nat * list Challenge :=
  match l with
  | [] => ([], [], h)
  | a :: l' =>
    match h !! a with
    | None => (l, [], h)
    | Some c =>
      if n <? ch_resolveWindowEnd c then (l, [], h)
      else
        let '(rest, expired, h) := expire_challenges_loop n l' (alter expire_challenge a h) in
        (rest, a :: expired, h)
    end
  end.
Definition ExpireChallenges (origin : BlockID) s : State :=
  let '(rest, expired, h) := expire_challenges_loop (id_Number origin) (st_challenges s) (st_heap s) in
  st_set_challenges h rest (st_expiredChallenges s ++ expired) (st_challengesMap s) s.

(** The commitments that are left, and the last one that was removed. *)
Fixpoint prune_commitments_loop s (n : Z) (l : list Commitment) (last : L1BlockRef) : list Commitment * L1BlockRef :=
  match l with
  | [] => ([], last)
  | c :: l' => if n <? expires_at s c then (l, last) else prune_commitments_loop s n l' (co_inclusionBlock c)
  end.
Definition pruneCommitments (origin : BlockID) s : State :=
  let '(rest, last) := prune_commitments_loop s (id_Number origin) (st_expiredCommitments s)
                         (st_lastPrunedCommitment s) in
  st_set_pruned last (st_set_commitments (st_commitments s) rest s).
Fixpoint prune_challenges_loop (n : Z) (h : list Challenge) (l : list nat) (m : gmap string nat)
    : list nat * gmap string nat :=
  match l with
  | [] => ([], m)
  | a :: l' =>
    match h !! a with
    | None => (l, m)
    | Some c => if n <? ch_resolveWindowEnd c then (l, m) else prune_challenges_loop n h l' (delete (key c) m)
    end
  end.
Definition pruneChallenges (origin : BlockID) s : State :=
  let '(rest, m) := prune_challenges_loop (id_Number origin) (st_heap s) (st_expiredChallenges s)
                      (st_challengesMap s) in
  st_set_challenges (st_heap s) (st_challenges s) rest m s.
Definition Prune (origin : BlockID) s : State := pruneChallenges origin (pruneCommitments origin s).

(** ** Keys *)

Lemma string_app_length_inj (s1 s2 t1 t2 : string) :
  s1 +:+ t1 = s2 +:+ t2 → String.length t1 = String.length t2 → s1 = s2 ∧ t1 = t2.
Proof.
  assert (Hlen : ∀ a b, String.length (a +:+ b) = (String.length a + String.length b)%nat).
  { induction a as [|x a IH]; intros b; [done|].
    change (S (String.length (a +:+ b)) = S (String.length a + String.length b)). f_equal. apply IH. }
  revert s2. induction s1 as [|x s1 IH]; intros [|y s2] Heq Ht.
  - done.
  - change (t1 = String y (s2 +:+ t2)) in Heq. subst t1. cbn [String.length] in Ht. rewrite Hlen in Ht. lia.
  - change (String x (s1 +:+ t1) = t2) in Heq. subst t2. cbn [String.length] in Ht. rewrite Hlen in Ht. lia.
  - change (String x (s1 +:+ t1) = String y (s2 +:+ t2)) in Heq.
    injection Heq as -> Heq. destruct (IH s2 Heq Ht) as [-> ->]. done.
Qed.

Lemma hex_digit_inj i j : 0 ≤ i < 16 → 0 ≤ j < 16 → hex_digit i = hex_digit j → i = j.
Proof.
  unfold hex_digit. intros Hi Hj Heq. apply (f_equal Ascii.N_of_ascii) in Heq.
  destruct (Z.ltb_spec i 10), (Z.ltb_spec j 10); rewrite !Ascii.N_ascii_embedding in Heq by lia; lia.
Qed.
Lemma hex_string_length b : String.length (hex_string b) = (2 * length b)%nat.
Proof. induction b as [|x b IH]; cbn; [done|]. rewrite IH. lia. Qed.
Lemma hex_string_inj b b' : hex_string b = hex_string b' → b = b'.
Proof.
  revert b'. induction b as [|x b IH]; intros [|y b']; cbn [hex_string]; [done..|].
  intros Heq. injection Heq as H1 H2 Ht. f_equal; [|by apply IH]. pose proof (b2z_range x). pose proof (b2z_range y).
  apply hex_digit_inj in H1; [|split; [apply Z.div_pos; lia|apply Z.div_lt_upper_bound; lia]..].
  apply hex_digit_inj in H2; [|apply Z.mod_pos_bound; lia..].
  rewrite <-(z2b_b2z x), <-(z2b_b2z y). f_equal.
  rewrite (Z.div_mod (b2z x) 16), (Z.div_mod (b2z y) 16) by lia. congruence.
Qed.

Lemma Encode_inj c c' : Encode c = Encode c' → c = c'.
Proof. destruct c, c'; cbn; naive_solver. Qed.

(** keys of challenges tell them apart: challenges with the same key are against the same
    commitment in the same block, as long as the encodings of the commitments have the
    same length, as those of Keccak commitments have. *)
Lemma challengeKey_inj c c' n n' :
  length (Encode c) = length (Encode c') → challengeKey c n = challengeKey c' n' → c = c' ∧ n = n'.
Proof.
  unfold challengeKey. intros Hl Heq. apply string_app_length_inj in Heq as [Hn Hc].
  - split; [by apply Encode_inj, hex_string_inj|by apply (inj pretty)].
  - by rewrite !hex_string_length, Hl.
Qed.

(** ** Loops *)

(** Expiry takes the longest front of the queue that has expired, and asks for a reorg
    exactly when one of these commitments has an unanswered challenge. *)
Lemma expire_loop_spec s n l err rest expired err' :
  expire_loop s n l err = (rest, expired, err') →
  l = expired ++ rest ∧ Forall (λ c, expires_at s c ≤ n) expired ∧
  (∀ c, head rest = Some c → n < expires_at s c) ∧
  err' = err || existsb (unanswered s) expired.
Proof.
  revert err rest expired. induction l as [|c l IH]; intros err rest expired; cbn [expire_loop].
  { intros [= <- <- <-]. split_and!; [done|by constructor|done|by rewrite orb_false_r]. }
  destruct (Z.ltb_spec n (expires_at s c)) as [Hlt|Hge].
  { intros [= <- <- <-]. split_and!; [done|by constructor|by intros ? [= <-]|by rewrite orb_false_r]. }
  destruct (expire_loop s n l (err || unanswered s c)) as [[r x] e] eqn:Hl. intros [= <- <- <-].
  destruct (IH _ _ _ Hl) as (-> & Hx & Hh & ->). split_and!; [done|by constructor|done|].
  cbn. by rewrite orb_assoc.
Qed.

Lemma expire_challenge_idem c : expire_challenge (expire_challenge c) = expire_challenge c.
Proof. unfold expire_challenge. destruct (Z.eqb_spec (ch_challengeStatus c) ChallengeActive) as [Ha|Ha]; cbn; [done|].
  by rewrite (proj2 (Z.eqb_neq _ _) Ha). Qed.
Lemma expire_challenge_end c : ch_resolveWindowEnd (expire_challenge c) = ch_resolveWindowEnd c.
Proof. unfold expire_challenge. by case_match. Qed.
Lemma expire_challenge_key c : key (expire_challenge c) = key c.
Proof. unfold expire_challenge. by case_match. Qed.
Lemma expire_challenge_inactive c : ch_challengeStatus (expire_challenge c) ≠ ChallengeActive.
Proof. unfold expire_challenge. destruct (Z.eqb_spec (ch_challengeStatus c) ChallengeActive); [by cbn|done]. Qed.

(** Expiry of challenges marks the expired front and nothing else. *)
Lemma expire_challenges_loop_spec n l h rest expired h' :
  expire_challenges_loop n l h = (rest, expired, h') →
  l = expired ++ rest ∧
  (∀ a c, head rest = Some a → h !! a = Some c → n < ch_resolveWindowEnd c) ∧
  (∀ a, h' !! a = if decide (a ∈ expired) then expire_challenge <$> h !! a else h !! a).
Proof.
  revert h rest expired. induction l as [|a l IH]; intros h rest expired; cbn [expire_challenges_loop].
  { intros [= <- <- <-]. split_and!; [done..|]. intros b. by rewrite decide_False by set_solver. }
  destruct (h !! a) as [c|] eqn:Ha.
  2: { intros [= <- <- <-]. split_and!; [done|by intros ? ? [= <-]; congruence|].
       intros b. by rewrite decide_False by set_solver. }
  destruct (Z.ltb_spec n (ch_resolveWindowEnd c)) as [Hlt|Hge].
  { intros [= <- <- <-]. split_and!; [done|by intros ? ? [= <-] ?; simplify_eq|].
    intros b. by rewrite decide_False by set_solver. }
  destruct (expire_challenges_loop n l (alter expire_challenge a h)) as [[r x] h1] eqn:Hl. intros [= <- <- <-].
  destruct (IH _ _ _ Hl) as (-> & Hh & Hs). split_and!; [done| |].
  - intros b cb Hb Hcb. destruct (decide (b = a)) as [->|Hne].
    + rewrite Ha in Hcb. injection Hcb as <-. specialize (Hh a (expire_challenge c) Hb).
      rewrite list_lookup_alter_eq, Ha in Hh. rewrite <-(expire_challenge_end c). by apply Hh.
    + apply (Hh b cb Hb). by rewrite list_lookup_alter_ne.
  - intros b. rewrite Hs. destruct (decide (b = a)) as [->|Hne].
    + rewrite list_lookup_alter_eq. rewrite (decide_True _ _ (P := a ∈ a :: x)) by set_solver.
      case_decide; [|done]. rewrite Ha. cbn. by rewrite expire_challenge_idem.
    + rewrite list_lookup_alter_ne by done.
      destruct (decide (b ∈ x)); [rewrite decide_True by set_solver|rewrite decide_False by set_solver]; done.
Qed.
