(* ===== verification/SysConfig.v ===== *)
(** * L1 system configuration updates

    Models [op-service/solabi/util.go] (the word readers and writers in use),
    [op-node/rollup/derive/system_config.go], and the scalar encodings of
    [op-service/eth/types.go]: how events of the system config contract change
    the configuration the derivation runs with. *)

From S2P Require Import Prelude GoBytes Errors Eth RollupConfig Geth.

(** ** Solidity ABI words *)

Definition padding_error : error := ErrorsNew "padding was not empty".
Definition number_error : error := ErrorsNew "expected number length to be 8 bytes".

(** [n] bytes of zero padding. *)
Definition ReadPadding (n : nat) : Rd unit :=
  p ← rd_err io_err (ReadFull n);
  rd_check (bool_decide (p = replicate n x00)) padding_error.

Definition ReadEthBytes32 : Rd bytes := rd_err io_err (ReadFull 32).
Definition ReadAddress : Rd Address :=
  ReadPadding 12 ≫= λ _, rd_err io_err (ReadFull 20).
Definition ReadUint64 : Rd Z :=
  ReadPadding 24 ≫= λ _, rd_err (λ _, number_error) (ReadBE 8).
Definition ReadUint16 : Rd Z :=
  ReadPadding 30 ≫= λ _, rd_err (λ _, number_error) (ReadBE 2).
Definition EmptyReader (r : bytes) : bool := bool_decide (r = []).

Definition WriteUint64 (n : Z) : bytes := replicate 24 x00 ++ be_bytes 8 n.
Definition WriteAddress (a : Address) : bytes := replicate 12 x00 ++ a.
Definition WriteEthBytes32 (b : bytes) : bytes := b.
(** Counterpart of [ReadUint16]; the repository has no writer for it. *)
Definition word16 (n : Z) : bytes := replicate 30 x00 ++ be_bytes 2 n.

Lemma ReadPadding_ok n r u r' : ReadPadding n r = (Ok u, r') ↔ r = replicate n x00 ++ r'.
Proof.
  unfold ReadPadding. rewrite rd_bind_ok. setoid_rewrite rd_err_ok. setoid_rewrite rd_check_ok.
  setoid_rewrite bool_decide_eq_true. split.
  - intros (p & r1 & [-> _]%ReadFull_ok & -> & ->). done.
  - intros ->. exists (replicate n x00), r'. rewrite ReadFull_app by apply length_replicate. done.
Qed.

Lemma ReadFull_iff n r v r' : ReadFull n r = (Ok v, r') ↔ r = v ++ r' ∧ length v = n.
Proof. split; [apply ReadFull_ok|]. intros [-> ?]. by apply ReadFull_app. Qed.

Lemma ReadBE_iff n r v r' :
  ReadBE n r = (Ok v, r') ↔ r = be_bytes n v ++ r' ∧ 0 ≤ v < 256 ^ Z.of_nat n.
Proof. split; [apply ReadBE_ok|]. intros [-> ?]. by apply ReadBE_app. Qed.

Lemma ReadEthBytes32_ok r v r' : ReadEthBytes32 r = (Ok v, r') ↔ r = v ++ r' ∧ length v = 32%nat.
Proof. unfold ReadEthBytes32. by rewrite rd_err_ok, ReadFull_iff. Qed.

Lemma ReadAddress_ok r v r' :
  ReadAddress r = (Ok v, r') ↔ r = WriteAddress v ++ r' ∧ length v = 20%nat.
Proof.
  unfold ReadAddress, WriteAddress. rewrite rd_bind_ok. setoid_rewrite ReadPadding_ok.
  setoid_rewrite rd_err_ok. setoid_rewrite ReadFull_iff. setoid_rewrite <- (assoc_L (++)).
  split; [by intros (? & ? & -> & -> & ?)|]. intros [-> ?]. by exists (), (v ++ r').
Qed.

Lemma ReadUint64_ok r v r' :
  ReadUint64 r = (Ok v, r') ↔ r = WriteUint64 v ++ r' ∧ is_u64 v.
Proof.
  unfold ReadUint64, WriteUint64. rewrite rd_bind_ok. setoid_rewrite ReadPadding_ok.
  setoid_rewrite rd_err_ok. setoid_rewrite ReadBE_iff. setoid_rewrite <- (assoc_L (++)).
  split; [by intros (? & ? & -> & -> & ?)|]. intros [-> ?]. by exists (), (be_bytes 8 v ++ r').
Qed.

Lemma ReadUint16_ok r v r' :
  ReadUint16 r = (Ok v, r') ↔ r = word16 v ++ r' ∧ is_uint 16 v.
Proof.
  unfold ReadUint16, word16. rewrite rd_bind_ok. setoid_rewrite ReadPadding_ok.
  setoid_rewrite rd_err_ok. setoid_rewrite ReadBE_iff. setoid_rewrite <- (assoc_L (++)).
  split; [by intros (? & ? & -> & -> & ?)|]. intros [-> ?]. by exists (), (be_bytes 2 v ++ r').
Qed.

(** ** Fee scalars *)

Definition L1ScalarBedrock : byte := x00.
Definition L1ScalarEcotone : byte := x01.
Record EcotoneScalars := mkEcotoneScalars { BlobBaseFeeScalar : Z; BaseFeeScalar : Z }.

Definition ErrBedrockScalarPaddingNotEmpty : error :=
  ErrorsNew "version 0 scalar value has non-empty padding".

(** [scalar] is a [32]byte: element 0 exists. *)
Definition CheckEcotoneL1SystemConfigScalar (scalar : bytes) : Res unit :=
  match scalar with
  | [] => Panic "index out of range"
  | versionByte :: _ =>
    if decide (versionByte = L1ScalarBedrock) then
      if decide (take 27 (drop 1 scalar) = replicate 27 x00) then Ok ()
      else Err ErrBedrockScalarPaddingNotEmpty
    else if decide (versionByte = L1ScalarEcotone) then
      if decide (take 23 (drop 1 scalar) = replicate 23 x00) then Ok ()
      else Err (ErrorsNew "invalid version 1 scalar padding")
    else Err (ErrorsNew "unrecognized scalar version")
  end.

Definition DecodeScalar (scalar : bytes) : Res EcotoneScalars :=
  match scalar with
  | [] => Panic "index out of range"
  | versionByte :: _ =>
    let base := be_val (take 4 (drop 28 scalar)) in
    if decide (versionByte = L1ScalarBedrock) then Ok (mkEcotoneScalars 0 base)
    else if decide (versionByte = L1ScalarEcotone) then
      Ok (mkEcotoneScalars (be_val (take 4 (drop 24 scalar))) base)
    else Err (ErrorsNew "unexpected system config scalar")
  end.

Definition EncodeScalar (s : EcotoneScalars) : bytes :=
  L1ScalarEcotone :: replicate 23 x00
    ++ be_bytes 4 (BlobBaseFeeScalar s) ++ be_bytes 4 (BaseFeeScalar s).

Definition sysCfg_EcotoneScalars (sc : SystemConfig) : Res EcotoneScalars :=
  match CheckEcotoneL1SystemConfigScalar (sc_Scalar sc) with
  | Ok () => DecodeScalar (sc_Scalar sc)
  | Panic w => Panic w
  | Err e =>
    match e with
    | ErrorsNew "version 0 scalar value has non-empty padding" =>
      Ok (mkEcotoneScalars 0 (2 ^ 32 - 1))
    | _ => Err e
    end
  end.

Record OperatorFeeParams := mkOperatorFeeParams { of_Scalar : Z; of_Constant : Z }.
Definition DecodeOperatorFeeParams (scalar : bytes) : OperatorFeeParams :=
  mkOperatorFeeParams (be_val (take 4 (drop 20 scalar))) (be_val (take 8 (drop 24 scalar))).
Definition EncodeOperatorFeeParams (p : OperatorFeeParams) : bytes :=
  replicate 20 x00 ++ be_bytes 4 (of_Scalar p) ++ be_bytes 8 (of_Constant p).
Definition sysCfg_OperatorFee (sc : SystemConfig) : OperatorFeeParams :=
  DecodeOperatorFeeParams (sc_OperatorFeeParams sc).

(** ** Parsing update events *)

Definition ErrParsingSystemConfig : error := ErrorsNew "error parsing system config".
Definition ErrUnknownEventVersion : error := ErrorsNew "unknown SystemConfig event version".
Definition ErrUnknownEventType : error := ErrorsNew "unknown SystemConfig event type".
Definition ErrInvalidEIP1559Params : error := ErrorsNew "invalid EIP-1559 parameters".
Definition parse_error (msg : string) : error := Errorf msg ErrParsingSystemConfig.

(** A word that must have a fixed value. *)
Definition expect_word (n : Z) (msg : string) : Rd unit :=
  rd_err (λ _, parse_error msg) (ReadUint64 ≫= λ v, rd_check (v =? n) ErrParsingSystemConfig).

(** The end of the data. *)
Definition rd_check_end {A} (v : A) : Rd A := λ r,
  (if EmptyReader r then Ok v else Err (parse_error "too many bytes"), r).

(** The layout all update events share: an offset of 32, the length of the
    payload, the payload, and nothing after it. *)
Definition parse_event {A} (len : Z) (payload : Rd A) (data : bytes) : Res A :=
  let parser : Rd A :=
    expect_word 32 "invalid pointer field" ≫= λ _,
    expect_word len "invalid length field" ≫= λ _,
    payload ≫= λ v,
    rd_check_end v in
  (parser data).1.

Definition parseSystemConfigUpdateBatcher (data : bytes) : Res Address :=
  parse_event 32 (rd_err (λ _, parse_error "could not read address") ReadAddress) data.

Definition parseSystemConfigUpdateFeeScalars (data : bytes) : Res (bytes * bytes) :=
  parse_event 64
    (overhead ← rd_err (λ _, parse_error "could not read overhead") ReadEthBytes32;
     scalar ← rd_err (λ _, parse_error "could not read scalar") ReadEthBytes32;
     mret (overhead, scalar)) data.

Definition parseSystemConfigUpdateGasLimit (data : bytes) : Res Z :=
  parse_event 32 (rd_err (λ _, parse_error "could not read gas limit") ReadUint64) data.

Definition parseSystemConfigUpdateEIP1559Params `{Geth} (data : bytes) : Res bytes :=
  params ← parse_event 32
    (rd_err (λ _, parse_error "could not read eip-1559 params") ReadEthBytes32) data;
  match ValidateHolocene1559Params (take 8 (drop 24 params)) with
  | Some err => Err (Errorf "invalid EIP-1559 parameters" err)
  | None => Ok params
  end.

Definition parseSystemConfigUpdateOperatorFeeParams (data : bytes) : Res bytes :=
  parse_event 32 (rd_err (λ _, parse_error "could not read operator fee params") ReadEthBytes32) data.

Definition parseSystemConfigUpdateMinBaseFee (data : bytes) : Res Z :=
  parse_event 32 (rd_err (λ _, parse_error "could not read minBaseFee") ReadUint64) data.

Definition parseSystemConfigUpdateDAFootprintGasScalar (data : bytes) : Res Z :=
  parse_event 32
    (rd_err (λ _, parse_error "could not read DA footprint gas scalar") ReadUint16) data.

(** ** Applying update events *)

(** The indexed update type: a hash whose last byte is the number. *)
Definition update_type (n : byte) : Hash := replicate 31 x00 ++ [n].
Definition SystemConfigUpdateBatcher : Hash := update_type x00.
Definition SystemConfigUpdateFeeScalars : Hash := update_type x01.
Definition SystemConfigUpdateGasLimit : Hash := update_type x02.
Definition SystemConfigUpdateUnsafeBlockSigner : Hash := update_type x03.
Definition SystemConfigUpdateEIP1559Params : Hash := update_type x04.
Definition SystemConfigUpdateOperatorFeeParams : Hash := update_type x05.
Definition SystemConfigUpdateMinBaseFee : Hash := update_type x06.
Definition SystemConfigUpdateDAFootprintGasScalar : Hash := update_type x07.

Definition sc_set_BatcherAddr (v : Address) (sc : SystemConfig) : SystemConfig :=
  mkSystemConfig v (sc_Overhead sc) (sc_Scalar sc) (sc_GasLimit sc) (sc_EIP1559Params sc)
    (sc_OperatorFeeParams sc) (sc_MinBaseFee sc) (sc_DAFootprintGasScalar sc) (sc_MarshalPreHolocene sc).
Definition sc_set_fees (overhead scalar : bytes) (sc : SystemConfig) : SystemConfig :=
  mkSystemConfig (sc_BatcherAddr sc) overhead scalar (sc_GasLimit sc) (sc_EIP1559Params sc)
    (sc_OperatorFeeParams sc) (sc_MinBaseFee sc) (sc_DAFootprintGasScalar sc) (sc_MarshalPreHolocene sc).
Definition sc_set_GasLimit (v : Z) (sc : SystemConfig) : SystemConfig :=
  mkSystemConfig (sc_BatcherAddr sc) (sc_Overhead sc) (sc_Scalar sc) v (sc_EIP1559Params sc)
    (sc_OperatorFeeParams sc) (sc_MinBaseFee sc) (sc_DAFootprintGasScalar sc) (sc_MarshalPreHolocene sc).
Definition sc_set_EIP1559Params (v : bytes) (sc : SystemConfig) : SystemConfig :=
  mkSystemConfig (sc_BatcherAddr sc) (sc_Overhead sc) (sc_Scalar sc) (sc_GasLimit sc) v
    (sc_OperatorFeeParams sc) (sc_MinBaseFee sc) (sc_DAFootprintGasScalar sc) (sc_MarshalPreHolocene sc).
Definition sc_set_OperatorFeeParams (v : bytes) (sc : SystemConfig) : SystemConfig :=
  mkSystemConfig (sc_BatcherAddr sc) (sc_Overhead sc) (sc_Scalar sc) (sc_GasLimit sc)
    (sc_EIP1559Params sc) v (sc_MinBaseFee sc) (sc_DAFootprintGasScalar sc) (sc_MarshalPreHolocene sc).
Definition sc_set_MinBaseFee (v : Z) (sc : SystemConfig) : SystemConfig :=
  mkSystemConfig (sc_BatcherAddr sc) (sc_Overhead sc) (sc_Scalar sc) (sc_GasLimit sc)
    (sc_EIP1559Params sc) (sc_OperatorFeeParams sc) v (sc_DAFootprintGasScalar sc)
    (sc_MarshalPreHolocene sc).
Definition sc_set_DAFootprintGasScalar (v : Z) (sc : SystemConfig) : SystemConfig :=
  mkSystemConfig (sc_BatcherAddr sc) (sc_Overhead sc) (sc_Scalar sc) (sc_GasLimit sc)
    (sc_EIP1559Params sc) (sc_OperatorFeeParams sc) (sc_MinBaseFee sc) v (sc_MarshalPreHolocene sc).

Section updates.
Context `{Geth}.

Definition ConfigUpdateEventABI : string := "ConfigUpdate(uint256,uint8,bytes)".
Definition ConfigUpdateEventABIHash : Hash := Keccak256Hash (bytes_of_string ConfigUpdateEventABI).
Definition ConfigUpdateEventVersion0 : Hash := zeroHash.

(** From Ecotone on an invalid scalar is ignored and the overhead is zeroed. *)
Definition update_fees (cfg : Config) (l1Time : Z) (overhead scalar : bytes) (sc : SystemConfig)
    : Res SystemConfig :=
  if IsEcotone cfg l1Time then
    match CheckEcotoneL1SystemConfigScalar scalar with
    | Ok () => Ok (sc_set_fees (replicate 32 x00) scalar sc)
    | Err _ => Ok sc
    | Panic w => Panic w
    end
  else Ok (sc_set_fees overhead scalar sc).

Definition ProcessSystemConfigUpdateLogEvent (dest : SystemConfig) (ev : Log) (cfg : Config)
    (l1Time : Z) : Res SystemConfig :=
  match log_Topics ev with
  | [topic0; version; updateType] =>
    if decide (topic0 ≠ ConfigUpdateEventABIHash) then
      Err (ErrorsNew "invalid SystemConfig update event")
    else if decide (version ≠ ConfigUpdateEventVersion0) then
      Err (Errorf "version" ErrUnknownEventVersion)
    else if decide (updateType = SystemConfigUpdateBatcher) then
      addr ← parseSystemConfigUpdateBatcher (log_Data ev); Ok (sc_set_BatcherAddr addr dest)
    else if decide (updateType = SystemConfigUpdateFeeScalars) then
      '(overhead, scalar) ← parseSystemConfigUpdateFeeScalars (log_Data ev);
      update_fees cfg l1Time overhead scalar dest
    else if decide (updateType = SystemConfigUpdateGasLimit) then
      gasLimit ← parseSystemConfigUpdateGasLimit (log_Data ev); Ok (sc_set_GasLimit gasLimit dest)
    else if decide (updateType = SystemConfigUpdateEIP1559Params) then
      params ← parseSystemConfigUpdateEIP1559Params (log_Data ev);
      Ok (sc_set_EIP1559Params (take 8 (drop 24 params)) dest)
    else if decide (updateType = SystemConfigUpdateOperatorFeeParams) then
      params ← parseSystemConfigUpdateOperatorFeeParams (log_Data ev);
      Ok (sc_set_OperatorFeeParams params dest)
    else if decide (updateType = SystemConfigUpdateUnsafeBlockSigner) then Ok dest
    else if decide (updateType = SystemConfigUpdateMinBaseFee) then
      minBaseFee ← parseSystemConfigUpdateMinBaseFee (log_Data ev);
      Ok (sc_set_MinBaseFee minBaseFee dest)
    else if decide (updateType = SystemConfigUpdateDAFootprintGasScalar) then
      scalar ← parseSystemConfigUpdateDAFootprintGasScalar (log_Data ev);
      Ok (sc_set_DAFootprintGasScalar scalar dest)
    else Err (Errorf "update type" ErrUnknownEventType)
  | _ => Err (ErrorsNew "expected 3 event topics")
  end.

(** A log of the system config contract that announces an update. *)
Definition is_config_update (cfg : Config) (ev : Log) : bool :=
  bool_decide (log_Address ev = cfg_L1SystemConfigAddress cfg)
  && match log_Topics ev with t :: _ => bool_decide (t = ConfigUpdateEventABIHash) | [] => false end.

(** One log: applied as a whole, or not at all and the error is kept. *)
Definition update_with_log (cfg : Config) (l1Time : Z) (st : Res (SystemConfig * list error)) (ev : Log)
    : Res (SystemConfig * list error) :=
  '(sysCfg, errs) ← st;
  if is_config_update cfg ev then
    match ProcessSystemConfigUpdateLogEvent sysCfg ev cfg l1Time with
    | Ok updated => Ok (updated, errs)
    | Err e => Ok (sysCfg, errs ++ [Errorf "malformatted L1 system sysCfg log" e])
    | Panic w => Panic w
    end
  else Ok (sysCfg, errs).

(** The configuration afterwards, and the joined errors. *)
Definition UpdateSystemConfigWithL1Receipts (sysCfg : SystemConfig) (receipts : list Receipt)
    (cfg : Config) (l1Time : Z) : Res (SystemConfig * list error) :=
  foldl (λ st rec,
    if negb (rcpt_Status rec =? ReceiptStatusSuccessful) then st
    else foldl (update_with_log cfg l1Time) st (rcpt_Logs rec))
  (Ok (sysCfg, [])) receipts.
End updates.

(** ** Specification *)

(** An update as the contract announces it. *)
Inductive update :=
| UBatcher (addr : Address)
| UFeeScalars (overhead scalar : bytes)
| UGasLimit (n : Z)
| UUnsafeBlockSigner (data : bytes)
| UEIP1559Params (params : bytes)
| UOperatorFeeParams (params : bytes)
| UMinBaseFee (n : Z)
| UDAFootprintGasScalar (n : Z).

Definition update_kind (u : update) : Hash :=
  match u with
  | UBatcher _ => SystemConfigUpdateBatcher
  | UFeeScalars _ _ => SystemConfigUpdateFeeScalars
  | UGasLimit _ => SystemConfigUpdateGasLimit
  | UUnsafeBlockSigner _ => SystemConfigUpdateUnsafeBlockSigner
  | UEIP1559Params _ => SystemConfigUpdateEIP1559Params
  | UOperatorFeeParams _ => SystemConfigUpdateOperatorFeeParams
  | UMinBaseFee _ => SystemConfigUpdateMinBaseFee
  | UDAFootprintGasScalar _ => SystemConfigUpdateDAFootprintGasScalar
  end.

(** ABI encoding of the [bytes] argument that holds the payload. *)
Definition abi_bytes (payload : bytes) : bytes :=
  WriteUint64 32 ++ WriteUint64 (Z.of_nat (length payload)) ++ payload.

Definition update_data (u : update) : bytes :=
  match u with
  | UBatcher addr => abi_bytes (WriteAddress addr)
  | UFeeScalars overhead scalar => abi_bytes (overhead ++ scalar)
  | UGasLimit n | UMinBaseFee n => abi_bytes (WriteUint64 n)
  | UUnsafeBlockSigner data => data
  | UEIP1559Params params | UOperatorFeeParams params => abi_bytes params
  | UDAFootprintGasScalar n => abi_bytes (word16 n)
  end.

Definition update_wf `{Geth} (u : update) : Prop :=
  match u with
  | UBatcher addr => length addr = 20%nat
  | UFeeScalars overhead scalar => length overhead = 32%nat ∧ length scalar = 32%nat
  | UGasLimit n | UMinBaseFee n => is_u64 n
  | UUnsafeBlockSigner _ => True
  | UEIP1559Params params =>
      length params = 32%nat ∧ ValidateHolocene1559Params (take 8 (drop 24 params)) = None
  | UOperatorFeeParams params => length params = 32%nat
  | UDAFootprintGasScalar n => is_uint 16 n
  end.

(** A scalar the Ecotone format knows, with empty padding. *)
Definition scalar_ok (scalar : bytes) : bool :=
  match scalar with
  | v :: _ => bool_decide (v = L1ScalarBedrock ∧ take 27 (drop 1 scalar) = replicate 27 x00)
              || bool_decide (v = L1ScalarEcotone ∧ take 23 (drop 1 scalar) = replicate 23 x00)
  | [] => false
  end.

Definition apply_update (cfg : Config) (l1Time : Z) (sc : SystemConfig) (u : update) : SystemConfig :=
  match u with
  | UBatcher addr => sc_set_BatcherAddr addr sc
  | UFeeScalars overhead scalar =>
    if IsEcotone cfg l1Time then
      if scalar_ok scalar then sc_set_fees (replicate 32 x00) scalar sc else sc
    else sc_set_fees overhead scalar sc
  | UGasLimit n => sc_set_GasLimit n sc
  | UUnsafeBlockSigner _ => sc
  | UEIP1559Params params => sc_set_EIP1559Params (take 8 (drop 24 params)) sc
  | UOperatorFeeParams params => sc_set_OperatorFeeParams params sc
  | UMinBaseFee n => sc_set_MinBaseFee n sc
  | UDAFootprintGasScalar n => sc_set_DAFootprintGasScalar n sc
  end.

(** The event carries exactly the encoding of the update. *)
Definition announces `{Geth} (ev : Log) (u : update) : Prop :=
  update_wf u ∧ log_Data ev = update_data u ∧
  log_Topics ev = [ConfigUpdateEventABIHash; ConfigUpdateEventVersion0; update_kind u].

Lemma expect_word_ok n msg r u r' :
  is_u64 n → expect_word n msg r = (Ok u, r') ↔ r = WriteUint64 n ++ r'.
Proof.
  intros Hn. unfold expect_word. rewrite rd_err_ok, rd_bind_ok. split.
  - intros (v & r1 & [-> _]%ReadUint64_ok & [Hv ->]%rd_check_ok). bool2prop. by subst.
  - intros ->. exists n, r'. rewrite ReadUint64_ok, rd_check_ok, Z.eqb_refl. done.
Qed.

Lemma parse_event_ok {A} (payload : Rd A) (enc : A → bytes) (wf : A → Prop) len data v :
  (∀ r v r', payload r = (Ok v, r') ↔ r = enc v ++ r' ∧ wf v) →
  (∀ v, wf v → Z.of_nat (length (enc v)) = len) → is_u64 len →
  parse_event len payload data = Ok v ↔ data = abi_bytes (enc v) ∧ wf v.
Proof.
  intros Hp Hlen Hu. unfold parse_event, abi_bytes.
  assert (Hiff : ∀ r', (expect_word 32 "invalid pointer field" ≫= λ _,
    expect_word len "invalid length field" ≫= λ _, payload ≫= λ v, rd_check_end v) data = (Ok v, r')
    ↔ r' = [] ∧ data = WriteUint64 32 ++ WriteUint64 len ++ enc v ∧ wf v).
  { intros r'. rewrite !rd_bind_ok. setoid_rewrite rd_bind_ok. setoid_rewrite rd_bind_ok.
    setoid_rewrite Hp. unfold rd_check_end, EmptyReader. split.
    - intros (_ & r1 & ->%expect_word_ok & _ & r2 & ->%expect_word_ok & v' & r3 & [-> Hv] & Hend);
        [|done..]. case_bool_decide as Hr; [|done]. subst r3. injection Hend as -> <-.
      by rewrite app_nil_r.
    - intros (-> & -> & Hv). exists (), (WriteUint64 len ++ enc v).
      rewrite expect_word_ok by done. split; [done|]. exists (), (enc v).
      rewrite expect_word_ok by done. split; [done|]. exists v, [].
      rewrite app_nil_r. done. }
  destruct ((expect_word 32 _ ≫= _) data) as [x r'] eqn:E. cbn [fst]. split.
  - intros ->. destruct (proj1 (Hiff r') eq_refl) as (_ & -> & Hv). by rewrite Hlen.
  - intros [Hd Hv]. rewrite (Hlen v Hv) in Hd.
    pose proof (proj2 (Hiff []) (conj eq_refl (conj Hd Hv))) as Heq. by injection Heq.
Qed.

Lemma never_panics_padding n : never_panics (ReadPadding n).
Proof. apply never_panics_bind; eauto with rd. Qed.
#[local] Hint Resolve never_panics_padding : rd.
Lemma never_panics_words :
  never_panics ReadUint64 ∧ never_panics ReadUint16 ∧ never_panics ReadAddress
  ∧ never_panics ReadEthBytes32.
Proof.
  split_and!; [..|by apply never_panics_err; auto with rd];
    apply never_panics_bind; auto with rd; intros; apply never_panics_err; auto with rd.
Qed.

Lemma parse_not_panic {A} (payload : Rd A) len data w :
  never_panics payload → parse_event len payload data ≠ Panic w.
Proof.
  intros Hp. destruct never_panics_words as (H64 & _).
  assert (Hw : ∀ n msg, never_panics (expect_word n msg))
    by (intros; apply never_panics_err, never_panics_bind; auto with rd).
  unfold parse_event. apply never_panics_bind; [done|]. intros _.
  apply never_panics_bind; [done|]. intros _. apply never_panics_bind; [done|].
  intros v r w'. unfold rd_check_end. by destruct (EmptyReader r).
Qed.

Lemma length_WriteUint64 n : length (WriteUint64 n) = 32%nat.
Proof. unfold WriteUint64. by rewrite length_app, length_be_bytes. Qed.

Lemma parse_batcher_ok data v :
  parseSystemConfigUpdateBatcher data = Ok v ↔ data = update_data (UBatcher v) ∧ length v = 20%nat.
Proof.
  unfold parseSystemConfigUpdateBatcher.
  apply (parse_event_ok _ WriteAddress (λ v, length v = 20%nat)); [|intros a Ha|done].
  - intros. by rewrite rd_err_ok, ReadAddress_ok.
  - unfold WriteAddress. rewrite length_app, length_replicate. lia.
Qed.

Lemma parse_word_ok msg data v :
  parse_event 32 (rd_err (λ _ : error, parse_error msg) ReadUint64) data = Ok v ↔
  data = abi_bytes (WriteUint64 v) ∧ is_u64 v.
Proof.
  apply (parse_event_ok _ WriteUint64 is_u64); [|intros a _; by rewrite length_WriteUint64|done].
  intros. by rewrite rd_err_ok, ReadUint64_ok.
Qed.

Lemma parse_bytes32_ok msg data v :
  parse_event 32 (rd_err (λ _ : error, parse_error msg) ReadEthBytes32) data = Ok v ↔
  data = abi_bytes v ∧ length v = 32%nat.
Proof.
  apply (parse_event_ok _ (λ v, v) (λ v, length v = 32%nat)); [|intros a Ha; by rewrite Ha|done].
  intros. by rewrite rd_err_ok, ReadEthBytes32_ok.
Qed.

Lemma parse_word16_ok data v :
  parseSystemConfigUpdateDAFootprintGasScalar data = Ok v ↔
  data = abi_bytes (word16 v) ∧ is_uint 16 v.
Proof.
  unfold parseSystemConfigUpdateDAFootprintGasScalar.
  apply (parse_event_ok _ word16 (is_uint 16)); [|intros a _|done].
  - intros. by rewrite rd_err_ok, ReadUint16_ok.
  - unfold word16. by rewrite length_app, length_be_bytes.
Qed.

Lemma parse_fees_ok data o s :
  parseSystemConfigUpdateFeeScalars data = Ok (o, s) ↔
  data = abi_bytes (o ++ s) ∧ length o = 32%nat ∧ length s = 32%nat.
Proof.
  unfold parseSystemConfigUpdateFeeScalars.
  apply (parse_event_ok _ (λ v, v.1 ++ v.2) (λ v, length v.1 = 32%nat ∧ length v.2 = 32%nat));
    [|intros [a b] [Ha Hb]; cbn in *; rewrite length_app; lia|done].
  intros r [a b] r'. rewrite !rd_bind_ok. split.
  - intros (x & r1 & Hx & Hy). rewrite rd_err_ok, ReadEthBytes32_ok in Hx. destruct Hx as [-> Hx].
    rewrite rd_bind_ok in Hy. destruct Hy as (y & r2 & Hy & [[= -> ->] ->]%rd_ret_ok).
    rewrite rd_err_ok, ReadEthBytes32_ok in Hy. destruct Hy as [-> Hy]. cbn. by rewrite <- app_assoc.
  - intros [-> [Ha Hb]]. cbn in *. exists a, (b ++ r').
    rewrite rd_err_ok, ReadEthBytes32_ok, <- app_assoc. split; [done|].
    rewrite rd_bind_ok. exists b, r'. by rewrite rd_err_ok, ReadEthBytes32_ok, rd_ret_ok.
Qed.

Lemma parse_eip1559_ok `{Geth} data v :
  parseSystemConfigUpdateEIP1559Params data = Ok v ↔
  data = abi_bytes v ∧ length v = 32%nat ∧ ValidateHolocene1559Params (take 8 (drop 24 v)) = None.
Proof.
  unfold parseSystemConfigUpdateEIP1559Params. rewrite bind_ok. setoid_rewrite parse_bytes32_ok.
  split.
  - intros (p & [-> Hp] & Hv). by destruct (ValidateHolocene1559Params _) eqn:E; simplify_eq.
  - intros (-> & Hl & Hv). exists v. by rewrite Hv.
Qed.

Lemma update_fees_spec cfg t o s sc :
  length s = 32%nat → update_fees cfg t o s sc = Ok (apply_update cfg t sc (UFeeScalars o s)).
Proof.
  intros Hs. unfold update_fees, CheckEcotoneL1SystemConfigScalar, apply_update.
  destruct (IsEcotone cfg t); [|done]. destruct s as [|v s]; [done|].
  unfold scalar_ok. repeat case_decide; repeat case_bool_decide; naive_solver.
Qed.

Section update_spec.
Context `{Geth}.

(** The dispatch on the update type, one case per kind of update. *)
Lemma process_kind sc ev cfg t :
  ∀ u, log_Topics ev = [ConfigUpdateEventABIHash; ConfigUpdateEventVersion0; update_kind u] →
  ProcessSystemConfigUpdateLogEvent sc ev cfg t =
  match u with
  | UBatcher _ =>
      addr ← parseSystemConfigUpdateBatcher (log_Data ev); Ok (sc_set_BatcherAddr addr sc)
  | UFeeScalars _ _ =>
      '(o, s) ← parseSystemConfigUpdateFeeScalars (log_Data ev); update_fees cfg t o s sc
  | UGasLimit _ => n ← parseSystemConfigUpdateGasLimit (log_Data ev); Ok (sc_set_GasLimit n sc)
  | UUnsafeBlockSigner _ => Ok sc
  | UEIP1559Params _ => p ← parseSystemConfigUpdateEIP1559Params (log_Data ev);
      Ok (sc_set_EIP1559Params (take 8 (drop 24 p)) sc)
  | UOperatorFeeParams _ => p ← parseSystemConfigUpdateOperatorFeeParams (log_Data ev);
      Ok (sc_set_OperatorFeeParams p sc)
  | UMinBaseFee _ => n ← parseSystemConfigUpdateMinBaseFee (log_Data ev); Ok (sc_set_MinBaseFee n sc)
  | UDAFootprintGasScalar _ => n ← parseSystemConfigUpdateDAFootprintGasScalar (log_Data ev);
      Ok (sc_set_DAFootprintGasScalar n sc)
  end.
Proof.
  intros u Ht. unfold ProcessSystemConfigUpdateLogEvent. rewrite Ht.
  rewrite (decide_False (P := ConfigUpdateEventABIHash ≠ _)) by tauto.
  rewrite (decide_False (P := ConfigUpdateEventVersion0 ≠ _)) by tauto.
  destruct u; cbn [update_kind];
    repeat (rewrite decide_False by (vm_compute; discriminate));
    rewrite decide_True by done; done.
Qed.

Lemma process_announced sc ev cfg t u :
  announces ev u →
  ProcessSystemConfigUpdateLogEvent sc ev cfg t = Ok (apply_update cfg t sc u).
Proof.
  intros (Hwf & Hd & Ht). rewrite (process_kind sc ev cfg t u Ht), Hd.
  unfold parseSystemConfigUpdateGasLimit, parseSystemConfigUpdateOperatorFeeParams,
    parseSystemConfigUpdateMinBaseFee in *.
  destruct u; cbn [update_wf update_data] in *.
  - by rewrite (proj2 (parse_batcher_ok _ _)) by done.
  - destruct Hwf. rewrite (proj2 (parse_fees_ok _ _ _)) by done. by apply update_fees_spec.
  - by rewrite (proj2 (parse_word_ok _ _ _)) by done.
  - done.
  - by rewrite (proj2 (parse_eip1559_ok _ _)) by done.
  - by rewrite (proj2 (parse_bytes32_ok _ _ _)) by done.
  - by rewrite (proj2 (parse_word_ok _ _ _)) by done.
  - by rewrite (proj2 (parse_word16_ok _ _)) by done.
Qed.

Lemma process_ok_topics sc ev cfg t sc' :
  ProcessSystemConfigUpdateLogEvent sc ev cfg t = Ok sc' →
  ∃ u, log_Topics ev = [ConfigUpdateEventABIHash; ConfigUpdateEventVersion0; update_kind u].
Proof.
  unfold ProcessSystemConfigUpdateLogEvent.
  destruct (log_Topics ev) as [|t0 tl]; [done|]. destruct tl as [|v tl]; [done|].
  destruct tl as [|k tl]; [done|]. destruct tl; [|done].
  destruct (decide (t0 ≠ _)) as [? | ->%dec_stable]; [done|].
  destruct (decide (v ≠ _)) as [? | ->%dec_stable]; [done|]. intros Hok.
  repeat match type of Hok with
  | (if decide (k = ?x) then _ else _) = _ => destruct (decide (k = x)) as [->|]
  end; [..|done]; clear Hok.
  - by exists (UBatcher []).
  - by exists (UFeeScalars [] []).
  - by exists (UGasLimit 0).
  - by exists (UEIP1559Params []).
  - by exists (UOperatorFeeParams []).
  - by exists (UUnsafeBlockSigner []).
  - by exists (UMinBaseFee 0).
  - by exists (UDAFootprintGasScalar 0).
Qed.

Lemma process_accepts sc ev cfg t sc' :
  ProcessSystemConfigUpdateLogEvent sc ev cfg t = Ok sc' → ∃ u, announces ev u.
Proof.
  intros Hok. destruct (process_ok_topics _ _ _ _ _ Hok) as [k Hk].
  rewrite (process_kind _ _ _ _ _ Hk) in Hok.
  unfold parseSystemConfigUpdateGasLimit, parseSystemConfigUpdateOperatorFeeParams,
    parseSystemConfigUpdateMinBaseFee in *.
  destruct k as [a0|o0 s0|n0|d0|p0|p0|n0|n0]; cbn [update_kind] in Hk.
  - apply bind_ok in Hok as (a & [Hd Hw]%parse_batcher_ok & _). by exists (UBatcher a).
  - apply bind_ok in Hok as ([o s] & [Hd Hw]%parse_fees_ok & _). by exists (UFeeScalars o s).
  - apply bind_ok in Hok as (n & [Hd Hw]%parse_word_ok & _). by exists (UGasLimit n).
  - by exists (UUnsafeBlockSigner (log_Data ev)).
  - apply bind_ok in Hok as (p & [Hd Hw]%parse_eip1559_ok & _). by exists (UEIP1559Params p).
  - apply bind_ok in Hok as (p & [Hd Hw]%parse_bytes32_ok & _). by exists (UOperatorFeeParams p).
  - apply bind_ok in Hok as (n & [Hd Hw]%parse_word_ok & _). by exists (UMinBaseFee n).
  - apply bind_ok in Hok as (n & [Hd Hw]%parse_word16_ok & _). by exists (UDAFootprintGasScalar n).
Qed.

Lemma process_not_panic sc ev cfg t w :
  ProcessSystemConfigUpdateLogEvent sc ev cfg t ≠ Panic w.
Proof.
  destruct never_panics_words as (H64 & H16 & Ha & H32).
  assert (Hb : ∀ A B (m : Res A) (k : A → Res B), (∀ v, m ≠ Panic v) →
    (∀ a, m = Ok a → k a ≠ Panic w) → m ≫= k ≠ Panic w).
  { clear. intros A B [a|e|v] k Hm Hk; cbn; [by apply Hk|done|]. by destruct (Hm v). }
  assert (Hp : ∀ A len (m : Rd A) d msg v,
    never_panics m → parse_event len (rd_err (λ _ : error, parse_error msg) m) d ≠ Panic v).
  { intros. apply parse_not_panic. by apply never_panics_err. }
  unfold ProcessSystemConfigUpdateLogEvent. repeat case_match; try done.
  - apply Hb; [intros; by apply Hp|done].
  - apply Hb.
    + intros v. apply parse_not_panic. repeat (apply never_panics_bind; intros);
        auto using never_panics_err, never_panics_ret.
    + intros [o s] Hs. apply parse_fees_ok in Hs as (_ & _ & Hs). by rewrite update_fees_spec.
  - apply Hb; [intros; by apply Hp|done].
  - apply Hb; [|done]. intros v. unfold parseSystemConfigUpdateEIP1559Params.
    destruct (parse_event _ _ _) eqn:E; cbn; [by case_match|done|]. by apply Hp in E.
  - apply Hb; [intros; by apply Hp|done].
  - apply Hb; [intros; by apply Hp|done].
  - apply Hb; [intros; by apply Hp|done].
Qed.

(** a log of the system config contract changes the configuration exactly when
    it carries the canonical ABI encoding of a known update (three topics, the
    known version, exact lengths and padding, nothing after the payload), and
    then the change is the one the update announces. *)
Theorem process_update_spec sc ev cfg t sc' :
  ProcessSystemConfigUpdateLogEvent sc ev cfg t = Ok sc' ↔
  ∃ u, announces ev u ∧ sc' = apply_update cfg t sc u.
Proof.
  split.
  - intros Hok. destruct (process_accepts _ _ _ _ _ Hok) as [u Hu]. exists u. split; [done|].
    rewrite (process_announced sc ev cfg t u Hu) in Hok. congruence.
  - intros (u & Hu & ->). by apply process_announced.
Qed.

(** The updates a sequence of logs announces, malformed ones left out; the number
    of malformed logs. *)
Inductive announced : list Log → list update → nat → Prop :=
| announced_nil : announced [] [] 0
| announced_ok ev u evs us n : announces ev u → announced evs us n →
    announced (ev :: evs) (u :: us) n
| announced_bad ev evs us n : (∀ u, ¬ announces ev u) → announced evs us n →
    announced (ev :: evs) us (S n).

Lemma update_logs_spec cfg t evs sc errs :
  ∃ us errs', announced (filter (λ ev, is_config_update cfg ev = true) evs) us (length errs') ∧
  foldl (update_with_log cfg t) (Ok (sc, errs)) evs
  = Ok (foldl (apply_update cfg t) sc us, errs ++ errs').
Proof.
  revert sc errs. induction evs as [|ev evs IH]; intros sc errs.
  { exists [], []. rewrite app_nil_r. split; [constructor|done]. }
  cbn [foldl]. rewrite filter_cons. unfold update_with_log at 2. cbn [mbind res_bind].
  destruct (is_config_update cfg ev) eqn:Ei;
    [rewrite decide_True by done|rewrite decide_False by done; apply IH].
  destruct (ProcessSystemConfigUpdateLogEvent sc ev cfg t) as [sc'|e|w] eqn:Ep.
  - destruct (process_accepts _ _ _ _ _ Ep) as [u Hu].
    rewrite (process_announced sc ev cfg t u Hu) in Ep. injection Ep as <-.
    destruct (IH (apply_update cfg t sc u) errs) as (us & errs' & Ha & Heq).
    exists (u :: us), errs'. split; [by constructor|done].
  - destruct (IH sc (errs ++ [Errorf "malformatted L1 system sysCfg log" e]))
      as (us & errs' & Ha & Heq).
    exists us, (Errorf "malformatted L1 system sysCfg log" e :: errs').
    split; [|by rewrite Heq, <- app_assoc]. constructor; [|done].
    intros u Hu. rewrite (process_announced sc ev cfg t u Hu) in Ep. done.
  - by apply process_not_panic in Ep.
Qed.

(** The logs that count: of successful receipts, by the contract, with the event. *)
Definition relevant_logs (cfg : Config) (receipts : list Receipt) : list Log :=
  filter (λ ev, is_config_update cfg ev = true)
    (mjoin (rcpt_Logs <$> filter (λ r, rcpt_Status r = ReceiptStatusSuccessful) receipts)).

Lemma announced_app evs1 us1 n1 evs2 us2 n2 :
  announced evs1 us1 n1 → announced evs2 us2 n2 →
  announced (evs1 ++ evs2) (us1 ++ us2) (n1 + n2).
Proof. induction 1; cbn; auto using announced. Qed.

Lemma update_config_total sc receipts cfg t :
  ∃ us errs, announced (relevant_logs cfg receipts) us (length errs) ∧
  UpdateSystemConfigWithL1Receipts sc receipts cfg t
  = Ok (foldl (apply_update cfg t) sc us, errs).
Proof.
  unfold UpdateSystemConfigWithL1Receipts, relevant_logs.
  assert (Hgen : ∀ sc errs, ∃ us errs',
    announced (filter (λ ev, is_config_update cfg ev = true)
      (mjoin (rcpt_Logs <$> filter (λ r, rcpt_Status r = ReceiptStatusSuccessful) receipts)))
      us (length errs') ∧
    foldl (λ st rec, if negb (rcpt_Status rec =? ReceiptStatusSuccessful) then st
      else foldl (update_with_log cfg t) st (rcpt_Logs rec)) (Ok (sc, errs)) receipts
    = Ok (foldl (apply_update cfg t) sc us, errs ++ errs')); [|apply (Hgen sc [])].
  clear sc. induction receipts as [|rec recs IH]; intros sc errs.
  { exists [], []. rewrite app_nil_r. split; [constructor|done]. }
  cbn [foldl]. rewrite filter_cons. destruct (Z.eqb_spec (rcpt_Status rec) ReceiptStatusSuccessful);
    cbn [negb]; [rewrite decide_True by done|rewrite decide_False by done; apply IH].
  destruct (update_logs_spec cfg t (rcpt_Logs rec) sc errs) as (us1 & errs1 & Ha1 & ->).
  destruct (IH (foldl (apply_update cfg t) sc us1) (errs ++ errs1)) as (us2 & errs2 & Ha2 & ->).
  exists (us1 ++ us2), (errs1 ++ errs2). rewrite length_app, foldl_app, <- app_assoc.
  split; [|done]. cbn. rewrite filter_app. by apply announced_app.
Qed.

Lemma announces_fun ev u u' : announces ev u → announces ev u' →
  ∀ sc cfg t, apply_update cfg t sc u = apply_update cfg t sc u'.
Proof.
  intros Hu Hu' sc cfg t. pose proof (process_announced sc ev cfg t u Hu) as H1.
  rewrite (process_announced sc ev cfg t u' Hu') in H1. congruence.
Qed.

Lemma announced_fun cfg t evs us n us' n' :
  announced evs us n → announced evs us' n' →
  n = n' ∧ ∀ sc, foldl (apply_update cfg t) sc us = foldl (apply_update cfg t) sc us'.
Proof.
  intros H1. revert us' n'. induction H1 as [|ev u evs us n Hu H1 IH|ev evs us n Hu H1 IH];
    intros us' n' H2; inversion H2 as [|? u' ? us1 ? Hu' H2'|? ? ? ? Hu' H2']; subst.
  - done.
  - destruct (IH us1 n') as [-> Hf]; [done|]. split; [done|]. intros sc. cbn.
    rewrite Hf. f_equal. by apply (announces_fun ev).
  - by destruct (Hu' u).
  - by destruct (Hu u').
  - edestruct IH as [-> Hf]; [done|]. done.
Qed.

(** C36: the system configuration after an L1 block is the old one with all
    well-formed updates of that block applied in order: only logs of the
    configured contract in successful receipts count, a malformed log is
    skipped without any effect and reported, and nothing panics. *)
Theorem update_system_config_spec sc receipts cfg t us n :
  announced (relevant_logs cfg receipts) us n →
  ∃ errs, length errs = n ∧
  UpdateSystemConfigWithL1Receipts sc receipts cfg t
  = Ok (foldl (apply_update cfg t) sc us, errs).
Proof.
  intros Ha. destruct (update_config_total sc receipts cfg t) as (us' & errs & Ha' & Heq).
  destruct (announced_fun cfg t _ _ _ _ _ Ha Ha') as [-> Hf]. exists errs. by rewrite Hf.
Qed.
End update_spec.

(** ** Scalar encodings *)

Lemma take_drop_middle' {A} (l1 l2 l3 : list A) n m :
  length l1 = n → length l2 = m → take m (drop n (l1 ++ l2 ++ l3)) = l2.
Proof. intros <- <-. by rewrite drop_app_length, take_app_length. Qed.

Lemma take_drop_end {A} (l1 l2 : list A) n m :
  length l1 = n → length l2 = m → take m (drop n (l1 ++ l2)) = l2.
Proof. intros <- <-. rewrite drop_app_length. by apply take_ge. Qed.

Lemma scalars_codec s p :
  is_uint 32 (BlobBaseFeeScalar s) → is_uint 32 (BaseFeeScalar s) →
  is_uint 32 (of_Scalar p) → is_u64 (of_Constant p) →
  length (EncodeScalar s) = 32%nat ∧ scalar_ok (EncodeScalar s) = true ∧
  CheckEcotoneL1SystemConfigScalar (EncodeScalar s) = Ok () ∧
  DecodeScalar (EncodeScalar s) = Ok s ∧
  length (EncodeOperatorFeeParams p) = 32%nat ∧
  DecodeOperatorFeeParams (EncodeOperatorFeeParams p) = p.
Proof.
  intros H1 H2 H3 H4. destruct s as [a b], p as [c d]. cbn [BlobBaseFeeScalar BaseFeeScalar of_Scalar
    of_Constant] in *.
  assert (Hpad : take 23 (drop 1 (EncodeScalar (mkEcotoneScalars a b))) = replicate 23 x00).
  { unfold EncodeScalar. change (drop 1 (?x :: ?l)) with l. rewrite take_app_le by done. done. }
  assert (Ha : take 4 (drop 24 (EncodeScalar (mkEcotoneScalars a b))) = be_bytes 4 a).
  { unfold EncodeScalar. apply (take_drop_middle' (L1ScalarEcotone :: replicate 23 x00));
      [done|apply length_be_bytes]. }
  assert (Hb : take 4 (drop 28 (EncodeScalar (mkEcotoneScalars a b))) = be_bytes 4 b).
  { unfold EncodeScalar. rewrite (app_assoc (replicate _ _)).
    apply (take_drop_end (L1ScalarEcotone :: replicate 23 x00 ++ be_bytes 4 a));
      [done|apply length_be_bytes]. }
  assert (Hcheck : CheckEcotoneL1SystemConfigScalar (EncodeScalar (mkEcotoneScalars a b)) = Ok ()).
  { unfold CheckEcotoneL1SystemConfigScalar. rewrite Hpad. reflexivity. }
  split_and!; [| |done| | |].
  - done.
  - unfold scalar_ok. rewrite Hpad. reflexivity.
  - unfold DecodeScalar. rewrite Ha, Hb. cbn [BlobBaseFeeScalar BaseFeeScalar].
    rewrite !be_val_be_bytes_small by done. reflexivity.
  - done.
  - unfold DecodeOperatorFeeParams, EncodeOperatorFeeParams. cbn [of_Scalar of_Constant]. f_equal.
    + rewrite take_drop_middle' by (try apply length_be_bytes; done).
      by apply be_val_be_bytes_small.
    + rewrite (app_assoc (replicate _ _)).
      rewrite take_drop_end by (rewrite ?length_app, ?length_be_bytes; done).
      by apply be_val_be_bytes_small.
Qed.

(** the two scalars survive the trip through the 32-byte form of the system
    config, which passes the check that the L1 event handler applies to it; the
    operator fee parameters survive theirs. *)
Theorem scalars_roundtrip s p :
  is_uint 32 (BlobBaseFeeScalar s) → is_uint 32 (BaseFeeScalar s) →
  is_uint 32 (of_Scalar p) → is_u64 (of_Constant p) →
  length (EncodeScalar s) = 32%nat ∧ scalar_ok (EncodeScalar s) = true ∧
  CheckEcotoneL1SystemConfigScalar (EncodeScalar s) = Ok () ∧
  DecodeScalar (EncodeScalar s) = Ok s ∧
  length (EncodeOperatorFeeParams p) = 32%nat ∧
  DecodeOperatorFeeParams (EncodeOperatorFeeParams p) = p.
Proof. apply scalars_codec. Qed.

(** ** Examples *)

Module SysConfigExample.
Definition ev (u : update) : Log :=
  mkLog (cfg_L1SystemConfigAddress ExampleConfig.cfg)
    [ConfigUpdateEventABIHash; ConfigUpdateEventVersion0; update_kind u] (update_data u) zeroHash 0 0 zeroHash.
Definition batcher : Address := replicate 20 xab.
(** A gas limit update, a truncated event, a batcher update; then a failed receipt. *)
Definition receipts : list Receipt :=
  [mkReceipt 1 [ev (UGasLimit 30000000);
                mkLog (cfg_L1SystemConfigAddress ExampleConfig.cfg)
                  [ConfigUpdateEventABIHash; ConfigUpdateEventVersion0; SystemConfigUpdateBatcher] [x01] zeroHash 1 0 zeroHash;
                ev (UBatcher batcher)];
   mkReceipt 0 [ev (UGasLimit 1)]].
End SysConfigExample.

Lemma update_system_config_spec_witness :
  ∃ errs, UpdateSystemConfigWithL1Receipts zeroSystemConfig SysConfigExample.receipts
    ExampleConfig.cfg 0
  = Ok (sc_set_BatcherAddr SysConfigExample.batcher (sc_set_GasLimit 30000000 zeroSystemConfig), errs)
  ∧ length errs = 1%nat.
Proof.
  destruct (update_system_config_spec zeroSystemConfig SysConfigExample.receipts ExampleConfig.cfg 0
    [UGasLimit 30000000; UBatcher SysConfigExample.batcher] 1) as (errs & Hl & Heq).
  - assert (E : relevant_logs ExampleConfig.cfg SysConfigExample.receipts
      = rcpt_Logs (mkReceipt 1 (default [] (rcpt_Logs <$> head SysConfigExample.receipts))))
      by (vm_compute; reflexivity).
    rewrite E. cbn [rcpt_Logs default head fmap SysConfigExample.receipts option_fmap option_map].
    apply announced_ok; [split_and!; by vm_compute|]. apply announced_bad.
    { intros u (Hw & Hd & Ht). cbn in Hd. apply (f_equal length) in Hd.
      destruct u; by vm_compute in Ht. }
    apply announced_ok; [split_and!; by vm_compute|]. apply announced_nil.
  - exists errs. split; [exact Heq|exact Hl].
Defined.

Lemma scalars_roundtrip_witness :
  DecodeScalar (EncodeScalar (mkEcotoneScalars 7 9)) = Ok (mkEcotoneScalars 7 9) ∧
  DecodeOperatorFeeParams (EncodeOperatorFeeParams (mkOperatorFeeParams 1 2))
  = mkOperatorFeeParams 1 2.
Proof.
  destruct (scalars_roundtrip (mkEcotoneScalars 7 9) (mkOperatorFeeParams 1 2))
    as (_ & _ & _ & H1 & _ & H2); [by vm_compute..|]. split; [exact H1|exact H2].
Defined.
