(* ===== verification/Deposits.v ===== *)
(** * Deposits

    Models [op-node/rollup/derive/deposit_source.go], [deposit_log.go] and
    [deposits.go]: the unique source hashes of deposit transactions, and the
    deposits that events of the deposit contract on L1 stand for. *)

From S2P Require Import Prelude GoBytes Errors Eth RollupConfig Geth.

Section deposits.
Context `{Geth}.

(** ** Source hashes *)

Definition UserDepositSourceDomain : Z := 0.
Definition L1InfoDepositSourceDomain : Z := 1.
Definition UpgradeDepositSourceDomain : Z := 2.
Definition InvalidatedBlockSourceDomain : Z := 4.

(** 32 zero bytes with a number in the last eight. *)
Definition word64 (n : Z) : bytes := replicate 24 x00 ++ be_bytes 8 n.
Definition domain_hash (domain : Z) (inner : Hash) : Hash := Keccak256Hash (word64 domain ++ inner).

(** The four kinds of sources. *)
Inductive DepositSource :=
| UserDepositSource (L1BlockHash : Hash) (LogIndex : Z)
| L1InfoDepositSource (L1BlockHash : Hash) (SeqNumber : Z)
| UpgradeDepositSource (Intent : bytes)
| InvalidatedBlockSource (OutputRoot : Hash).

Definition SourceHash (s : DepositSource) : Hash :=
  match s with
  | UserDepositSource h i => domain_hash UserDepositSourceDomain (Keccak256Hash (h ++ word64 i))
  | L1InfoDepositSource h n => domain_hash L1InfoDepositSourceDomain (Keccak256Hash (h ++ word64 n))
  | UpgradeDepositSource intent => domain_hash UpgradeDepositSourceDomain (Keccak256Hash intent)
  | InvalidatedBlockSource root => domain_hash InvalidatedBlockSourceDomain root
  end.

(** ** Deposit events *)

Definition DepositEventABI : string := "TransactionDeposited(address,address,uint256,bytes)".
Definition DepositEventABIHash : Hash := Keccak256Hash (bytes_of_string DepositEventABI).
Definition DepositEventVersion0 : Hash := zeroHash.

Definition AddressAsLeftPaddedHash (a : Address) : Hash := replicate 12 x00 ++ a.

Definition unmarshalDepositVersion0 (source : Hash) (from to : Address) (opaqueData : bytes)
    : Res DepositTx :=
  if (length opaqueData <? 73)%nat then Err (ErrorsNew "unexpected opaqueData length")
  else
    let mint := be_val (take 32 opaqueData) in
    let value := be_val (take 32 (drop 32 opaqueData)) in
    let gas := be_val (take 8 (drop 64 opaqueData)) in
    if negb (bool_decide (is_u64 gas)) then Err (ErrorsNew "bad gas value")
    else
      Ok (mkDepositTx source from
            (if decide (take 1 (drop 72 opaqueData) = [x00]) then Some to else None)
            (if mint =? 0 then None else Some mint) value gas false (drop 73 opaqueData)).

(** A topic is a 32-byte hash; its last 20 bytes are an address. *)
Definition UnmarshalDepositLogEvent (ev : Log) : Res DepositTx :=
  match log_Topics ev with
  | [id; from; to; version] =>
    if negb (bool_decide (id = DepositEventABIHash)) then
      Err (ErrorsNew "invalid deposit event selector")
    else if (length (log_Data ev) <? 64)%nat then Err (ErrorsNew "incomplate opaqueData slice header")
    else if negb (length (log_Data ev) mod 32 =? 0)%nat then
      Err (ErrorsNew "expected log data to be multiple of 32 bytes")
    else
      let offset := be_val (take 32 (log_Data ev)) in
      let len := be_val (take 32 (drop 32 (log_Data ev))) in
      let rest := Z.of_nat (length (log_Data ev) - 64) in
      if negb (offset =? 32) then Err (ErrorsNew "invalid opaqueData slice header offset")
      else if negb (bool_decide (is_u64 len)) || (rest <? len) || (len +₆₄ 32 <=? rest) then
        Err (ErrorsNew "invalid opaqueData slice header length")
      else
        let opaqueData := take (Z.to_nat len) (drop 64 (log_Data ev)) in
        let source := SourceHash (UserDepositSource (log_BlockHash ev) (log_Index ev)) in
        if decide (version = DepositEventVersion0) then
          map_err (Errorf "failed to decode deposit")
            (unmarshalDepositVersion0 source (drop 12 from) (drop 12 to) opaqueData)
        else Err (ErrorsNew "invalid deposit version")
  | _ => Err (ErrorsNew "expected 4 event topics")
  end.

(** [big.Int.FillBytes] writes the absolute value, after a check of [BitLen]. *)
Definition fill32 (msg : string) (n : Z) : Res bytes :=
  if 2 ^ 256 <=? Z.abs n then Err (ErrorsNew msg) else Ok (be_bytes 32 (Z.abs n)).

Definition marshalDepositVersion0 (deposit : DepositTx) : Res bytes :=
  mint ← match dep_Mint deposit with
         | None => Ok (replicate 32 x00)
         | Some m => fill32 "mint value exceeds 256 bits" m
         end;
  value ← fill32 "value value exceeds 256 bits" (dep_Value deposit);
  Ok (mint ++ value ++ be_bytes 8 (dep_Gas deposit)
      ++ [match dep_To deposit with None => x01 | Some _ => x00 end] ++ dep_Data deposit).

Definition MarshalDepositLogEvent (depositContractAddr : Address) (deposit : DepositTx) : Res Log :=
  let toBytes := match dep_To deposit with None => zeroHash | Some a => AddressAsLeftPaddedHash a end in
  opaqueData ← marshalDepositVersion0 deposit;
  let data := word64 32 ++ word64 (Z.of_nat (length opaqueData)) ++ opaqueData in
  let pad := if (length data mod 32 =? 0)%nat then [] else replicate (32 - length data mod 32) x00 in
  Ok (mkLog depositContractAddr
        [DepositEventABIHash; AddressAsLeftPaddedHash (dep_From deposit); toBytes; DepositEventVersion0]
        (data ++ pad) zeroHash 0 0 zeroHash).

(** ** Deposits of a block

    [errors.Join] collects the errors; the deposits that decode are returned
    with them. *)

Definition is_deposit_log (contract : Address) (l : Log) : bool :=
  bool_decide (log_Address l = contract)
  && match log_Topics l with [] => false | t :: _ => bool_decide (t = DepositEventABIHash) end.

Definition add_deposit (contract : Address) (acc : Res (list DepositTx * list error)) (l : Log)
    : Res (list DepositTx * list error) :=
  '(out, errs) ← acc;
  if is_deposit_log contract l then
    match UnmarshalDepositLogEvent l with
    | Ok d => Ok (out ++ [d], errs)
    | Err e => Ok (out, errs ++ [Errorf "malformatted L1 deposit log" e])
    | Panic w => Panic w
    end
  else acc.

Definition UserDeposits (receipts : list Receipt) (contract : Address)
    : Res (list DepositTx * list error) :=
  foldl (λ acc rec,
    if rcpt_Status rec =? ReceiptStatusSuccessful
    then foldl (add_deposit contract) acc (rcpt_Logs rec) else acc) (Ok ([], [])) receipts.

Definition encode_deposit (acc : Res (list Data * list error)) (d : DepositTx)
    : Res (list Data * list error) :=
  '(txs, errs) ← acc;
  match MarshalDepositTx d with
  | Ok tx => Ok (txs ++ [tx], errs)
  | Err e => Ok (txs, errs ++ [ErrorsNew "failed to encode user tx"])
  | Panic w => Panic w
  end.

Definition DeriveDeposits (receipts : list Receipt) (contract : Address)
    : Res (list Data * list error) :=
  '(deposits, errs) ← UserDeposits receipts contract;
  foldl encode_deposit (Ok ([], errs)) deposits.

(** ** Properties *)

Lemma length_word64 n : length (word64 n) = 32%nat.
Proof. unfold word64. by rewrite length_app, length_replicate, length_be_bytes. Qed.
Lemma be_val_zeros n b : be_val (replicate n x00 ++ b) = be_val b.
Proof.
  induction n as [|n IH]; [done|]. change (replicate (S n) x00) with (x00 :: replicate n x00).
  rewrite <- IH. cbn [app]. unfold be_val. cbn [foldl]. by replace (0 * 256 + b2z x00) with 0 by done.
Qed.
Lemma be_val_word64 n : is_u64 n → be_val (word64 n) = n.
Proof. intros Hn. unfold word64. rewrite be_val_zeros. by apply be_val_be_bytes_small. Qed.
Lemma word64_inj m n : is_u64 m → is_u64 n → word64 m = word64 n → m = n.
Proof. intros Hm Hn Heq. rewrite <- (be_val_word64 m), <- (be_val_word64 n) by done. by rewrite Heq. Qed.

Definition source_wf (s : DepositSource) : Prop :=
  match s with
  | UserDepositSource h i | L1InfoDepositSource h i => length h = 32%nat ∧ is_u64 i
  | UpgradeDepositSource _ => True
  | InvalidatedBlockSource h => length h = 32%nat
  end.
Definition source_domain (s : DepositSource) : Z :=
  match s with
  | UserDepositSource _ _ => UserDepositSourceDomain
  | L1InfoDepositSource _ _ => L1InfoDepositSourceDomain
  | UpgradeDepositSource _ => UpgradeDepositSourceDomain
  | InvalidatedBlockSource _ => InvalidatedBlockSourceDomain
  end.
Definition source_inner (s : DepositSource) : Hash :=
  match s with
  | UserDepositSource h i | L1InfoDepositSource h i => Keccak256Hash (h ++ word64 i)
  | UpgradeDepositSource intent => Keccak256Hash intent
  | InvalidatedBlockSource root => root
  end.

(** where the hash has no collisions, deposits of different kinds, blocks,
    log indices, sequence numbers, upgrade intents or output roots have different
    source hashes. *)
Theorem source_hash_inj s s' :
  (∀ a b, Keccak256Hash a = Keccak256Hash b → a = b) →
  source_wf s → source_wf s' → SourceHash s = SourceHash s' → s = s'.
Proof.
  intros Hinj Hs Hs' Heq.
  assert (Hsplit : ∀ s, SourceHash s = Keccak256Hash (word64 (source_domain s) ++ source_inner s)).
  { by intros []. }
  rewrite !Hsplit in Heq. apply Hinj, app_inj_1 in Heq as [Hdom Hin]; [|by rewrite !length_word64].
  assert (Hu : ∀ s, is_u64 (source_domain s)) by (by intros []).
  apply word64_inj in Hdom; [|done..].
  destruct s, s'; try done; cbn in Hin, Hs, Hs'.
  1,2: apply Hinj, app_inj_1 in Hin as [-> Hi]; [|lia]; apply word64_inj in Hi; naive_solver.
  - apply Hinj in Hin. by subst.
  - by subst.
Qed.

(** *** Round trip of the event *)

Record deposit_wf (d : DepositTx) : Prop := {
  dw_from : length (dep_From d) = 20%nat;
  dw_to : ∀ a, dep_To d = Some a → length a = 20%nat;
  dw_mint : ∀ m, dep_Mint d = Some m → 0 < m < 2 ^ 256;
  dw_value : 0 ≤ dep_Value d < 2 ^ 256;
  dw_gas : is_u64 (dep_Gas d);
  dw_data : Z.of_nat (length (dep_Data d)) < 2 ^ 63 - 200;
}.
(** The event as it appears on chain: at a position in a block. *)
Definition log_at (h : Hash) (i : Z) (l : Log) : Log :=
  mkLog (log_Address l) (log_Topics l) (log_Data l) h i (log_TxIndex l) (log_TxHash l).
Definition derived_from (h : Hash) (i : Z) (d : DepositTx) : DepositTx :=
  mkDepositTx (SourceHash (UserDepositSource h i)) (dep_From d) (dep_To d) (dep_Mint d)
    (dep_Value d) (dep_Gas d) false (dep_Data d).

Lemma marshal_opaque d :
  deposit_wf d → ∃ mint value,
  length mint = 32%nat ∧ length value = 32%nat ∧
  (if be_val mint =? 0 then None else Some (be_val mint)) = dep_Mint d ∧ be_val value = dep_Value d ∧
  marshalDepositVersion0 d = Ok (mint ++ value ++ be_bytes 8 (dep_Gas d)
    ++ [match dep_To d with None => x01 | Some _ => x00 end] ++ dep_Data d).
Proof.
  intros [_ _ Hm Hv _ _]. unfold marshalDepositVersion0, fill32.
  rewrite (proj2 (Z.leb_gt _ (Z.abs (dep_Value d)))) by lia.
  destruct (dep_Mint d) as [m|].
  - specialize (Hm m eq_refl). rewrite (proj2 (Z.leb_gt _ (Z.abs m))) by lia.
    exists (be_bytes 32 m), (be_bytes 32 (dep_Value d)). rewrite !Z.abs_eq by lia.
    rewrite !be_val_be_bytes_small, !length_be_bytes by (cbn; lia).
    by rewrite (proj2 (Z.eqb_neq _ _)) by lia.
  - exists (replicate 32 x00), (be_bytes 32 (dep_Value d)). rewrite !Z.abs_eq by lia.
    by rewrite be_val_be_bytes_small, length_be_bytes by (cbn; lia).
Qed.

Lemma unmarshal_opaque d source from to mint value :
  deposit_wf d → length mint = 32%nat → length value = 32%nat →
  unmarshalDepositVersion0 source from to (mint ++ value ++ be_bytes 8 (dep_Gas d)
    ++ [match dep_To d with None => x01 | Some _ => x00 end] ++ dep_Data d)
  = Ok (mkDepositTx source from (match dep_To d with None => None | Some _ => Some to end)
         (if be_val mint =? 0 then None else Some (be_val mint)) (be_val value) (dep_Gas d) false
         (dep_Data d)).
Proof.
  intros [_ _ _ _ Hg _] Hm Hv. unfold unmarshalDepositVersion0.
  pose proof (length_be_bytes 8 (dep_Gas d)) as Hb.
  assert (Hgas : be_val (be_bytes 8 (dep_Gas d)) = dep_Gas d) by (by apply be_val_be_bytes_small).
  revert Hb Hgas. generalize (be_bytes 8 (dep_Gas d)) as gas. intros gas Hb Hgas.
  rewrite (proj2 (Nat.ltb_ge _ _)) by (rewrite !length_app; cbn; lia).
  replace 73%nat with (32 + (32 + (8 + 1)))%nat by done. replace 72%nat with (32 + (32 + 8))%nat by done.
  replace 64%nat with (32 + 32)%nat by done. rewrite <- !drop_drop.
  rewrite (take_app_length' mint), (drop_app_length' mint) by done.
  rewrite (take_app_length' value), (drop_app_length' value) by done.
  rewrite (take_app_length' gas), (drop_app_length' gas) by done. rewrite Hgas.
  rewrite bool_decide_eq_true_2 by done. cbn [negb app take drop].
  by destruct (dep_To d).
Qed.

(** The padded data is the shortest multiple of 32 bytes. *)
Lemma pad_bounds n :
  let pad := if (n mod 32 =? 0)%nat then 0%nat else (32 - n mod 32)%nat in
  ((n + pad) mod 32 = 0 ∧ pad < 32)%nat.
Proof.
  cbn zeta. pose proof (Nat.mod_upper_bound n 32 ltac:(lia)).
  pose proof (Nat.div_mod_eq n 32) as Hd. destruct (Nat.eqb_spec (n mod 32) 0) as [He|He].
  - rewrite Nat.add_0_r. lia.
  - split; [|lia]. apply Nat.Div0.mod_divides. exists (n / 32 + 1)%nat. lia.
Qed.

(** C35: a deposit event decodes to the deposit it was made from, wherever the event
    occurs on chain: sender, recipient or contract creation, mint, value, gas and
    data come back, and the source hash is the one of the event's position. *)
Theorem deposit_log_roundtrip contract d :
  deposit_wf d →
  ∃ l, MarshalDepositLogEvent contract d = Ok l ∧ is_deposit_log contract l = true ∧
  ∀ h i, UnmarshalDepositLogEvent (log_at h i l) = Ok (derived_from h i d).
Proof.
  intros Hwf. destruct (marshal_opaque d Hwf) as (mint & value & Hm & Hv & Hmint & Hval & Hop).
  unfold MarshalDepositLogEvent. rewrite Hop. cbn [mbind res_bind].
  set (opaque := mint ++ _). eexists. split; [done|]. split.
  { unfold is_deposit_log. cbn. by rewrite !bool_decide_eq_true_2. }
  intros h i. unfold UnmarshalDepositLogEvent, log_at. cbn [log_Topics log_Data log_BlockHash log_Index].
  rewrite bool_decide_eq_true_2 by done. cbn [negb].
  assert (Hol : Z.of_nat (length opaque) = 73 + Z.of_nat (length (dep_Data d))).
  { unfold opaque. rewrite !length_app, length_be_bytes. cbn [length]. lia. }
  pose proof (dw_data d Hwf) as Hlen.
  set (data := word64 32 ++ word64 (Z.of_nat (length opaque)) ++ opaque) in *.
  assert (Hdl : length data = (64 + length opaque)%nat).
  { unfold data. rewrite !length_app, !length_word64. lia. }
  set (pad := if (length data mod 32 =? 0)%nat then [] else replicate (32 - length data mod 32) x00).
  assert (Hpl : length pad = if (length data mod 32 =? 0)%nat then 0%nat else (32 - length data mod 32)%nat).
  { unfold pad. destruct (_ =? 0)%nat; [done|]. by rewrite length_replicate. }
  destruct (pad_bounds (length data)) as [Hmod Hpad]. rewrite <- Hpl in Hmod, Hpad.
  rewrite length_app, Hmod. rewrite (proj2 (Nat.ltb_ge _ _)) by lia. cbn [Nat.eqb negb].
  assert (Hoff : take 32 (data ++ pad) = word64 32).
  { unfold data. rewrite <- app_assoc. by rewrite take_app_length' by (by rewrite length_word64). }
  assert (Hle : take 32 (drop 32 (data ++ pad)) = word64 (Z.of_nat (length opaque))).
  { unfold data. rewrite <- !app_assoc. rewrite drop_app_length' by (by rewrite length_word64).
    by rewrite take_app_length' by (by rewrite length_word64). }
  assert (Hcont : take (length opaque) (drop 64 (data ++ pad)) = opaque).
  { unfold data. rewrite <- !app_assoc. replace 64%nat with (32 + 32)%nat by done.
    rewrite <- drop_drop, !drop_app_length' by (by rewrite length_word64). by apply take_app_length'. }
  rewrite Hoff, Hle, !be_val_word64 by uint_lia. cbn [Z.eqb negb Pos.eqb].
  rewrite bool_decide_eq_true_2 by uint_lia. cbn [negb orb].
  rewrite (proj2 (Z.ltb_ge _ _)) by lia. cbn [orb].
  rewrite wrap_small by uint_lia. rewrite (proj2 (Z.leb_gt _ _)) by lia.
  rewrite Nat2Z.id, Hcont, decide_True by done. unfold opaque.
  rewrite (unmarshal_opaque d) by done. cbn [map_err]. rewrite Hmint, Hval. unfold derived_from.
  unfold AddressAsLeftPaddedHash. rewrite drop_app_length' by (by rewrite length_replicate).
  destruct (dep_To d); [|done]. by rewrite drop_app_length' by (by rewrite length_replicate).
Qed.

(** *** Deposits of a block *)

Definition deposit_logs (contract : Address) (receipts : list Receipt) : list Log :=
  filter (λ l, is_deposit_log contract l = true)
    (mjoin (rcpt_Logs <$> filter (λ r, rcpt_Status r = ReceiptStatusSuccessful) receipts)).
Definition decoded (l : Log) : option DepositTx :=
  match UnmarshalDepositLogEvent l with Ok d => Some d | _ => None end.

Lemma UnmarshalDepositLogEvent_total l : (∃ d, UnmarshalDepositLogEvent l = Ok d) ∨
  ∃ e, UnmarshalDepositLogEvent l = Err e.
Proof.
  unfold UnmarshalDepositLogEvent, unmarshalDepositVersion0. repeat case_match; simplify_eq; eauto.
Qed.

Lemma add_deposits contract ls out errs :
  ∃ errs', foldl (add_deposit contract) (Ok (out, errs)) ls
    = Ok (out ++ omap decoded (filter (λ l, is_deposit_log contract l = true) ls), errs ++ errs')
  ∧ (length errs' + length (omap decoded (filter (λ l, is_deposit_log contract l = true) ls))
     = length (filter (λ l, is_deposit_log contract l = true) ls))%nat.
Proof.
  revert out errs. induction ls as [|l ls IH]; intros out errs.
  { exists []. cbn. by rewrite !app_nil_r. }
  cbn [foldl]. rewrite filter_cons.
  change (add_deposit contract (Ok (out, errs)) l) with
    (if is_deposit_log contract l then
       match UnmarshalDepositLogEvent l return Res (list DepositTx * list error) with
       | Ok d => Ok (out ++ [d], errs)
       | Err e => Ok (out, errs ++ [Errorf "malformatted L1 deposit log" e])
       | Panic w => Panic w
       end
     else Ok (out, errs) : Res (list DepositTx * list error)).
  destruct (is_deposit_log contract l) eqn:Hl; [|rewrite decide_False by done; apply IH].
  rewrite decide_True by done. set (rest := filter _ ls) in *.
  change (omap decoded (l :: rest)) with
    (match decoded l with Some d => d :: omap decoded rest | None => omap decoded rest end).
  assert (Hdec : decoded l = match UnmarshalDepositLogEvent l with Ok d => Some d | _ => None end) by done.
  destruct (UnmarshalDepositLogEvent_total l) as [(d & Hd)|(e & Hd)]; rewrite Hd in *; rewrite Hdec.
  - destruct (IH (out ++ [d]) errs) as (errs' & -> & Hn). exists errs'. rewrite <- app_assoc.
    cbn [length app]. split; [done|]. lia.
  - destruct (IH out (errs ++ [Errorf "malformatted L1 deposit log" e])) as (errs' & -> & Hn).
    exists (Errorf "malformatted L1 deposit log" e :: errs'). rewrite <- app_assoc.
    cbn [length app]. split; [done|]. lia.
Qed.

Lemma user_deposits_total receipts contract :
  ∃ errs, UserDeposits receipts contract = Ok (omap decoded (deposit_logs contract receipts), errs) ∧
  (length errs + length (omap decoded (deposit_logs contract receipts))
   = length (deposit_logs contract receipts))%nat.
Proof.
  assert (Hgen : ∀ out errs, ∃ errs',
    foldl (λ acc rec, if rcpt_Status rec =? ReceiptStatusSuccessful
      then foldl (add_deposit contract) acc (rcpt_Logs rec) else acc) (Ok (out, errs)) receipts
    = Ok (out ++ omap decoded (deposit_logs contract receipts), errs ++ errs') ∧
    (length errs' + length (omap decoded (deposit_logs contract receipts))
     = length (deposit_logs contract receipts))%nat).
  { induction receipts as [|r receipts IH]; intros out errs.
    { exists []. cbn. by rewrite !app_nil_r. }
    cbn [foldl]. unfold deposit_logs. rewrite filter_cons.
    destruct (Z.eqb_spec (rcpt_Status r) ReceiptStatusSuccessful) as [Hs|Hs];
      [rewrite decide_True by done|rewrite decide_False by done; apply IH].
    cbn [fmap list_fmap mjoin list_join]. rewrite filter_app, omap_app.
    destruct (add_deposits contract (rcpt_Logs r) out errs) as (e1 & -> & H1).
    edestruct IH as (e2 & -> & H2). exists (e1 ++ e2). rewrite <- !app_assoc. split; [done|].
    rewrite !length_app. unfold deposit_logs in H2. unfold fmap, mjoin in *. lia. }
  destruct (Hgen [] []) as (errs & Heq & Hn). by exists errs.
Qed.
(** the deposits of an L1 block are those of the deposit events in its
    successful receipts, in order; every event that does not decode is reported,
    and there is no error exactly when all of them decode. *)
Theorem user_deposits_spec receipts contract :
  ∃ errs, UserDeposits receipts contract = Ok (omap decoded (deposit_logs contract receipts), errs) ∧
  (length errs + length (omap decoded (deposit_logs contract receipts))
   = length (deposit_logs contract receipts))%nat.
Proof. apply user_deposits_total. Qed.

Lemma omap_all {A B} (f : A → option B) l :
  length (omap f l) = length l → Forall2 (λ x y, f x = Some y) l (omap f l).
Proof.
  assert (Hle : ∀ l, (length (omap f l) ≤ length l)%nat).
  { clear. induction l as [|x l IH]; cbn; [done|]. destruct (f x); cbn; lia. }
  induction l as [|x l IH]; cbn; [constructor|].
  destruct (f x) as [y|] eqn:Hx; cbn; intros Hl.
  - constructor; [done|]. apply IH. lia.
  - specialize (Hle l). lia.
Qed.

Lemma encode_deposits_ok ds txs errs out :
  foldl encode_deposit (Ok (txs, errs)) ds = Ok (out, []) →
  errs = [] ∧ ∃ encs, out = txs ++ encs ∧ Forall2 (λ d enc, MarshalDepositTx d = Ok enc) ds encs.
Proof.
  revert txs errs. induction ds as [|d ds IH]; intros txs errs.
  { intros [= -> ->]. split; [done|]. exists []. by rewrite app_nil_r. }
  change (foldl encode_deposit (Ok (txs, errs)) (d :: ds)) with
    (foldl encode_deposit
       (match MarshalDepositTx d with
        | Ok tx => Ok (txs ++ [tx], errs)
        | Err e => Ok (txs, errs ++ [ErrorsNew "failed to encode user tx"])
        | Panic w => Panic w
        end) ds).
  destruct (MarshalDepositTx d) as [tx|e|w] eqn:Hd.
  - intros (He & encs & -> & Hf)%IH. split; [done|]. exists (tx :: encs).
    rewrite <- app_assoc. split; [done|]. by constructor.
  - intros (He & _)%IH. by apply app_nil in He as [_ ?].
  - intros Hp. exfalso. clear -Hp. by induction ds.
Qed.

(** Without an error, every deposit event of the block is decoded and encoded. *)
Lemma derive_deposits_ok receipts contract txs :
  DeriveDeposits receipts contract = Ok (txs, []) →
  Forall2 (λ l tx, ∃ d, UnmarshalDepositLogEvent l = Ok d ∧ MarshalDepositTx d = Ok tx)
    (deposit_logs contract receipts) txs.
Proof.
  unfold DeriveDeposits. destruct (user_deposits_total receipts contract) as (errs & -> & Hn).
  cbn [mbind res_bind]. intros (-> & encs & -> & Hf)%encode_deposits_ok. cbn [app].
  apply omap_all in Hn. revert Hf. generalize encs. clear encs.
  induction Hn as [|l d ls ds Hl Hls IH]; intros encs Hf; inversion_clear Hf; constructor; [|by apply IH].
  exists d. split; [|done]. unfold decoded in Hl. destruct (UnmarshalDepositLogEvent l); naive_solver.
Qed.

Lemma omap_short {A B} (f : A → option B) l :
  (length (omap f l) < length l)%nat → ∃ x, x ∈ l ∧ f x = None.
Proof.
  induction l as [|x l IH]; cbn; [lia|]. destruct (f x) eqn:Hx; cbn; intros Hl.
  - destruct IH as (y & ? & ?); [lia|]. exists y. split; [by right|done].
  - exists x. split; [by left|done].
Qed.

Lemma encode_deposits_total ds txs errs :
  (∀ d, ∃ enc, MarshalDepositTx d = Ok enc) →
  ∃ encs, foldl encode_deposit (Ok (txs, errs)) ds = Ok (txs ++ encs, errs).
Proof.
  intros Hm. revert txs. induction ds as [|d ds IH]; intros txs.
  { exists []. by rewrite app_nil_r. }
  destruct (Hm d) as (enc & Hd). destruct (IH (txs ++ [enc])) as (encs & Hf).
  exists (enc :: encs). cbn [foldl]. unfold encode_deposit at 2. cbn [mbind res_bind].
  rewrite Hd, Hf. by rewrite <- app_assoc.
Qed.

(** Where deposits can be encoded, an error means an event that does not decode. *)
Lemma derive_deposits_total receipts contract :
  (∀ d, ∃ enc, MarshalDepositTx d = Ok enc) →
  ∃ txs errs, DeriveDeposits receipts contract = Ok (txs, errs) ∧
    (errs ≠ [] → ∃ l, l ∈ deposit_logs contract receipts ∧ decoded l = None).
Proof.
  intros Hm. unfold DeriveDeposits.
  destruct (user_deposits_total receipts contract) as (errs & -> & Hn). cbn [mbind res_bind].
  destruct (encode_deposits_total (omap decoded (deposit_logs contract receipts)) [] errs Hm) as (encs & ->).
  exists encs, errs. split; [done|]. intros He. apply omap_short.
  destruct errs; [done|]. cbn in Hn. lia.
Qed.
End deposits.

(** ** Examples *)

Module DepositsExample.
(** A hash without collisions: the identity. *)
#[local] Instance geth : Geth := {
  Keccak256Hash b := b;
  TxHash := @TxHash GethExample.geth;
  Sender := @Sender GethExample.geth;
  ValidateHolocene1559Params := @ValidateHolocene1559Params GethExample.geth;
  MarshalDepositTx := @MarshalDepositTx GethExample.geth;
  UnmarshalTx := @UnmarshalTx GethExample.geth;
  CalcBlobFeeDefault := @CalcBlobFeeDefault GethExample.geth;
  ValidateOptimismExtraData := @ValidateOptimismExtraData GethExample.geth;
  DecodeOptimismExtraData := @DecodeOptimismExtraData GethExample.geth;
  EncodeHolocene1559Params := @EncodeHolocene1559Params GethExample.geth;
  CreateAddress := @CreateAddress GethExample.geth;
}.
Definition deposit : DepositTx :=
  mkDepositTx zeroHash (replicate 20 x0a) (Some (replicate 20 x0b)) (Some 1000) 7 21000 false [x01; x02].
Definition creation : DepositTx :=
  mkDepositTx zeroHash (replicate 20 x0a) None None 0 100000 false (replicate 40 xfe).
End DepositsExample.

Lemma source_hash_inj_witness :
  @SourceHash DepositsExample.geth (UserDepositSource (replicate 32 x01) 1)
  ≠ @SourceHash DepositsExample.geth (L1InfoDepositSource (replicate 32 x01) 1).
Proof.
  intros Heq. assert (is_u64 1) by uint_lia.
  apply (@source_hash_inj DepositsExample.geth) in Heq; by auto.
Defined.

Lemma deposit_log_roundtrip_witness :
  ∃ l l', @MarshalDepositLogEvent DepositsExample.geth zeroAddress DepositsExample.deposit = Ok l ∧
  @UnmarshalDepositLogEvent DepositsExample.geth (log_at (replicate 32 x03) 9 l)
  = Ok (@derived_from DepositsExample.geth (replicate 32 x03) 9 DepositsExample.deposit) ∧
  @MarshalDepositLogEvent DepositsExample.geth zeroAddress DepositsExample.creation = Ok l' ∧
  @UnmarshalDepositLogEvent DepositsExample.geth (log_at (replicate 32 x03) 9 l')
  = Ok (@derived_from DepositsExample.geth (replicate 32 x03) 9 DepositsExample.creation).
Proof.
  destruct (@deposit_log_roundtrip DepositsExample.geth zeroAddress DepositsExample.deposit)
    as (l & Hl & _ & Hd).
  { split; try done; try (cbn; uint_lia). intros a [= <-]. done. intros m [= <-]. lia. }
  destruct (@deposit_log_roundtrip DepositsExample.geth zeroAddress DepositsExample.creation)
    as (l' & Hl' & _ & Hd').
  { split; try done; cbn; uint_lia. }
  exists l, l'. auto.
Defined.
