(* ===== verification/L1BlockInfo.v ===== *)
(** * L1 block info

    Models [op-node/rollup/derive/l1_block_info.go], [payload_util.go] and
    [l2block_util.go]: every L2 block starts with a deposit that records the L1
    block it is derived from. The format of its data changed with the forks; the
    L2 block reference and the system configuration are read back from it. *)

From S2P Require Import Prelude GoBytes Errors Eth RollupConfig Geth SysConfig Deposits.

(** ** Words ([op-service/solabi]) *)

Definition ReadAndValidateSignature (expected : bytes) : Rd bytes :=
  sig ← rd_err io_err (ReadFull 4);
  rd_check (bool_decide (sig = expected)) (ErrorsNew "invalid function signature") ≫= λ _,
  mret sig.
Definition ReadHash : Rd Hash := rd_err io_err (ReadFull 32).
Definition ReadUint256 : Rd Z := rd_err io_err (ReadBE 32).
(** [FillBytes] writes the absolute value. *)
Definition WriteUint256 (n : Z) : Res bytes :=
  if 2 ^ 256 <=? Z.abs n then Err (ErrorsNew "big int exceeds 256 bits") else Ok (be_bytes 32 (Z.abs n)).

(** ** The record *)

Definition L1InfoBedrockLen : nat := 4 + 32 * 8.
Definition L1InfoEcotoneLen : nat := 4 + 32 * 5.
Definition L1InfoIsthmusLen : nat := 4 + 32 * 5 + 4 + 8.
Definition L1InfoJovianLen : nat := L1InfoIsthmusLen + 2.

Definition ErrInvalidEcotoneFormat : error := ErrorsNew "invalid ecotone l1 block info format".
Definition ErrInvalidIsthmusFormat : error := ErrorsNew "invalid isthmus l1 block info format".
Definition ErrInvalidJovianFormat : error := ErrorsNew "invalid jovian l1 block info format".
Definition RegolithSystemTxGas : Z := 1000000.
Definition DAFootprintGasScalarDefault : Z := 400.

Record L1BlockInfo := mkL1BlockInfo {
  li_Number : Z;
  li_Time : Z;
  li_BaseFee : Z;
  li_BlockHash : Hash;
  li_SequenceNumber : Z;
  li_BatcherAddr : Address;
  li_L1FeeOverhead : bytes;
  li_L1FeeScalar : bytes;
  li_BlobBaseFee : option Z;
  li_BaseFeeScalar : Z;
  li_BlobBaseFeeScalar : Z;
  li_OperatorFeeScalar : Z;
  li_OperatorFeeConstant : Z;
  li_DAFootprintGasScalar : Z }.

Definition DAFootprintGasScalarOrDefault (s : Z) : Z :=
  if s =? 0 then DAFootprintGasScalarDefault else s.

Definition zero32 : bytes := replicate 32 x00.

Section info.
Context `{Geth}.

Definition selector (sig : string) : bytes := take 4 (Keccak256Hash (bytes_of_string sig)).
Definition L1InfoFuncBedrockBytes4 : bytes :=
  selector "setL1BlockValues(uint64,uint64,uint256,bytes32,uint64,bytes32,uint256,uint256)".
Definition L1InfoFuncEcotoneBytes4 : bytes := selector "setL1BlockValuesEcotone()".
Definition L1InfoFuncIsthmusBytes4 : bytes := selector "setL1BlockValuesIsthmus()".
Definition L1InfoFuncJovianBytes4 : bytes := selector "setL1BlockValuesJovian()".

(** *** Bedrock *)

Definition marshalBinaryBedrock (info : L1BlockInfo) : Res bytes :=
  baseFee ← WriteUint256 (li_BaseFee info);
  Ok (L1InfoFuncBedrockBytes4 ++ WriteUint64 (li_Number info) ++ WriteUint64 (li_Time info)
      ++ baseFee ++ li_BlockHash info ++ WriteUint64 (li_SequenceNumber info)
      ++ WriteAddress (li_BatcherAddr info) ++ WriteEthBytes32 (li_L1FeeOverhead info)
      ++ WriteEthBytes32 (li_L1FeeScalar info)).

(** A read of the whole buffer, of fixed length. *)
Definition read_exactly (len : nat) (m : Rd L1BlockInfo) (data : bytes) : Res L1BlockInfo :=
  if negb (length data =? len)%nat then Err (ErrorsNew "data is unexpected length")
  else match m data with
       | (Ok info, r) => if EmptyReader r then Ok info else Err (ErrorsNew "too many bytes")
       | (Err e, _) => Err e
       | (Panic w, _) => Panic w
       end.

Definition unmarshalBinaryBedrock (data : bytes) : Res L1BlockInfo :=
  read_exactly L1InfoBedrockLen
    (ReadAndValidateSignature L1InfoFuncBedrockBytes4 ≫= λ _,
     number ← ReadUint64;
     time ← ReadUint64;
     baseFee ← ReadUint256;
     hash ← ReadHash;
     seq ← ReadUint64;
     batcher ← ReadAddress;
     overhead ← ReadEthBytes32;
     scalar ← ReadEthBytes32;
     mret (mkL1BlockInfo number time baseFee hash seq batcher overhead scalar None 0 0 0 0 0)) data.

(** *** Ecotone, Isthmus, Jovian: each extends the one before *)

Definition writeBinaryEcotone (info : L1BlockInfo) : Res bytes :=
  baseFee ← WriteUint256 (li_BaseFee info);
  blobBaseFee ← WriteUint256 (default 1 (li_BlobBaseFee info));
  Ok (be_bytes 4 (li_BaseFeeScalar info) ++ be_bytes 4 (li_BlobBaseFeeScalar info)
      ++ be_bytes 8 (li_SequenceNumber info) ++ be_bytes 8 (li_Time info) ++ be_bytes 8 (li_Number info)
      ++ baseFee ++ blobBaseFee ++ li_BlockHash info ++ WriteAddress (li_BatcherAddr info)).
Definition writeBinaryIsthmus (info : L1BlockInfo) : Res bytes :=
  d ← writeBinaryEcotone info;
  Ok (d ++ be_bytes 4 (li_OperatorFeeScalar info) ++ be_bytes 8 (li_OperatorFeeConstant info)).
Definition writeBinaryJovian (info : L1BlockInfo) : Res bytes :=
  d ← writeBinaryIsthmus info;
  Ok (d ++ be_bytes 2 (li_DAFootprintGasScalar info)).
Definition marshalBinaryEcotone (info : L1BlockInfo) : Res bytes :=
  d ← writeBinaryEcotone info; Ok (L1InfoFuncEcotoneBytes4 ++ d).
Definition marshalBinaryIsthmus (info : L1BlockInfo) : Res bytes :=
  d ← writeBinaryIsthmus info; Ok (L1InfoFuncIsthmusBytes4 ++ d).
Definition marshalBinaryJovian (info : L1BlockInfo) : Res bytes :=
  d ← writeBinaryJovian info; Ok (L1InfoFuncJovianBytes4 ++ d).

Definition readBinaryEcotone : Rd L1BlockInfo :=
  baseFeeScalar ← rd_err (λ _, ErrInvalidEcotoneFormat) (ReadBE 4);
  blobBaseFeeScalar ← rd_err (λ _, ErrInvalidEcotoneFormat) (ReadBE 4);
  seq ← rd_err (λ _, ErrInvalidEcotoneFormat) (ReadBE 8);
  time ← rd_err (λ _, ErrInvalidEcotoneFormat) (ReadBE 8);
  number ← rd_err (λ _, ErrInvalidEcotoneFormat) (ReadBE 8);
  baseFee ← ReadUint256;
  blobBaseFee ← ReadUint256;
  hash ← ReadHash;
  batcher ← ReadAddress;
  mret (mkL1BlockInfo number time baseFee hash seq batcher zero32 zero32 (Some blobBaseFee)
          baseFeeScalar blobBaseFeeScalar 0 0 0).
Definition li_set_operator (scalar constant : Z) (i : L1BlockInfo) : L1BlockInfo :=
  mkL1BlockInfo (li_Number i) (li_Time i) (li_BaseFee i) (li_BlockHash i) (li_SequenceNumber i)
    (li_BatcherAddr i) (li_L1FeeOverhead i) (li_L1FeeScalar i) (li_BlobBaseFee i) (li_BaseFeeScalar i)
    (li_BlobBaseFeeScalar i) scalar constant (li_DAFootprintGasScalar i).
Definition li_set_footprint (s : Z) (i : L1BlockInfo) : L1BlockInfo :=
  mkL1BlockInfo (li_Number i) (li_Time i) (li_BaseFee i) (li_BlockHash i) (li_SequenceNumber i)
    (li_BatcherAddr i) (li_L1FeeOverhead i) (li_L1FeeScalar i) (li_BlobBaseFee i) (li_BaseFeeScalar i)
    (li_BlobBaseFeeScalar i) (li_OperatorFeeScalar i) (li_OperatorFeeConstant i) s.
Definition readBinaryIsthmus : Rd L1BlockInfo :=
  info ← readBinaryEcotone;
  scalar ← rd_err (λ _, ErrInvalidIsthmusFormat) (ReadBE 4);
  constant ← rd_err (λ _, ErrInvalidIsthmusFormat) (ReadBE 8);
  mret (li_set_operator scalar constant info).
Definition readBinaryJovian : Rd L1BlockInfo :=
  info ← readBinaryIsthmus;
  s ← rd_err (λ _, ErrInvalidJovianFormat) (ReadBE 2);
  mret (li_set_footprint s info).
Definition unmarshalBinaryEcotone (data : bytes) : Res L1BlockInfo :=
  read_exactly L1InfoEcotoneLen
    (ReadAndValidateSignature L1InfoFuncEcotoneBytes4 ≫= λ _, readBinaryEcotone) data.
Definition unmarshalBinaryIsthmus (data : bytes) : Res L1BlockInfo :=
  read_exactly L1InfoIsthmusLen
    (ReadAndValidateSignature L1InfoFuncIsthmusBytes4 ≫= λ _, readBinaryIsthmus) data.
Definition unmarshalBinaryJovian (data : bytes) : Res L1BlockInfo :=
  read_exactly L1InfoJovianLen
    (ReadAndValidateSignature L1InfoFuncJovianBytes4 ≫= λ _, readBinaryJovian) data.

(** *** Choosing the format *)

Definition isEcotoneButNotFirstBlock (cfg : Config) (t : Z) : bool :=
  IsEcotone cfg t && negb (IsEcotoneActivationBlock cfg t).
Definition isIsthmusButNotFirstBlock (cfg : Config) (t : Z) : bool :=
  IsIsthmus cfg t && negb (IsIsthmusActivationBlock cfg t).
Definition isJovianButNotFirstBlock (cfg : Config) (t : Z) : bool :=
  IsJovian cfg t && negb (IsJovianActivationBlock cfg t).

Definition L1BlockInfoFromBytes (cfg : Config) (l2BlockTime : Z) (data : bytes) : Res L1BlockInfo :=
  if isJovianButNotFirstBlock cfg l2BlockTime then unmarshalBinaryJovian data
  else if isIsthmusButNotFirstBlock cfg l2BlockTime then unmarshalBinaryIsthmus data
  else if isEcotoneButNotFirstBlock cfg l2BlockTime then unmarshalBinaryEcotone data
  else unmarshalBinaryBedrock data.

(** What is used of an L1 header ([eth.BlockInfo]); [bi_BlobBaseFee] is the fee
    for the L1 chain configuration, nil before Cancun. *)
Record BlockInfo := mkBlockInfo {
  bi_Hash : Hash;
  bi_ParentHash : Hash;
  bi_Number : Z;
  bi_Time : Z;
  bi_MixDigest : Hash;
  bi_BaseFee : Z;
  bi_BlobBaseFee : option Z;
  bi_ExcessBlobGas : option Z;
  bi_ParentBeaconRoot : option Hash }.
Definition bi_ID (b : BlockInfo) : BlockID := mkBlockID (bi_Hash b) (bi_Number b).

Definition CalcBlobFeeCancun (excessBlobGas : Z) : Z := CalcBlobFeeDefault excessBlobGas.

(** The blob base fee of the L1 block: recomputed with the Cancun schedule before
    the configured time, and 1 where L1 has none. *)
Definition blob_base_fee (cfg : Config) (block : BlockInfo) : Z :=
  let fee :=
    match PectraBlobScheduleTime (cfg_times cfg) with
    | Some t =>
      if bi_Time block <? t then
        match bi_ExcessBlobGas block with Some e => Some (CalcBlobFeeCancun e) | None => None end
      else bi_BlobBaseFee block
    | None => bi_BlobBaseFee block
    end in
  default 1 fee.

Definition L1InfoDepositerAddress : Address :=
  mjoin (replicate 9 [xde; xad]) ++ [x00; x01].
Definition L1BlockAddress : Address := x42 :: replicate 18 x00 ++ [x15].

(** The record of a block, as set up before it is written. *)
Definition l1_block_info (cfg : Config) (sysCfg : SystemConfig) (seqNumber : Z) (block : BlockInfo)
    (l2Timestamp : Z) : Res L1BlockInfo :=
  let ecotone := isEcotoneButNotFirstBlock cfg l2Timestamp in
  scalars ← (if ecotone then sysCfg_EcotoneScalars sysCfg else Ok (mkEcotoneScalars 0 0));
  let fee := sysCfg_OperatorFee sysCfg in
  let isthmus := isIsthmusButNotFirstBlock cfg l2Timestamp in
  let jovian := isJovianButNotFirstBlock cfg l2Timestamp in
  Ok (mkL1BlockInfo (bi_Number block) (bi_Time block) (bi_BaseFee block) (bi_Hash block) seqNumber
        (sc_BatcherAddr sysCfg)
        (if ecotone then zero32 else sc_Overhead sysCfg)
        (if ecotone then zero32 else sc_Scalar sysCfg)
        (if ecotone then Some (blob_base_fee cfg block) else None)
        (BaseFeeScalar scalars) (BlobBaseFeeScalar scalars)
        (if isthmus then of_Scalar fee else 0) (if isthmus then of_Constant fee else 0)
        (if jovian then DAFootprintGasScalarOrDefault (sc_DAFootprintGasScalar sysCfg) else 0)).

Definition L1InfoDeposit (cfg : Config) (sysCfg : SystemConfig) (seqNumber : Z) (block : BlockInfo)
    (l2Timestamp : Z) : Res DepositTx :=
  info ← l1_block_info cfg sysCfg seqNumber block l2Timestamp;
  data ←
    (if isJovianButNotFirstBlock cfg l2Timestamp then
       map_err (Errorf "failed to marshal Jovian l1 block info") (marshalBinaryJovian info)
     else if isIsthmusButNotFirstBlock cfg l2Timestamp then
       map_err (Errorf "failed to marshal Isthmus l1 block info") (marshalBinaryIsthmus info)
     else if isEcotoneButNotFirstBlock cfg l2Timestamp then
       map_err (Errorf "failed to marshal Ecotone l1 block info") (marshalBinaryEcotone info)
     else map_err (Errorf "failed to marshal Bedrock l1 block info") (marshalBinaryBedrock info));
  let regolith := IsRegolith cfg l2Timestamp in
  Ok (mkDepositTx (SourceHash (L1InfoDepositSource (bi_Hash block) seqNumber)) L1InfoDepositerAddress
        (Some L1BlockAddress) None 0 (if regolith then RegolithSystemTxGas else 150000000)
        (negb regolith) data).

Definition L1InfoDepositBytes (cfg : Config) (sysCfg : SystemConfig) (seqNumber : Z)
    (block : BlockInfo) (l2Timestamp : Z) : Res bytes :=
  dep ← map_err (Errorf "failed to create L1 info tx")
    (L1InfoDeposit cfg sysCfg seqNumber block l2Timestamp);
  map_err (Errorf "failed to encode L1 info tx") (MarshalDepositTx dep).

(** ** L2 block references *)

(** The L1 info of a block that is not the genesis block. *)
Definition payload_l1_info (cfg : Config) (payload : ExecutionPayload) : Res L1BlockInfo :=
  match ep_Transactions payload with
  | [] => Err (ErrorsNew "l2 block is missing L1 info deposit tx")
  | raw :: _ =>
    tx ← map_err (Errorf "failed to decode first tx to read l1 info from") (UnmarshalTx raw);
    if negb (tx_Type tx =? DepositTxTypeNum) then Err (ErrorsNew "first payload tx has unexpected tx type")
    else map_err (Errorf "failed to parse L1 info deposit tx from L2 block")
           (L1BlockInfoFromBytes cfg (ep_Timestamp payload) (tx_Data tx))
  end.

Definition PayloadToBlockRef (cfg : Config) (payload : ExecutionPayload) : Res L2BlockRef :=
  '(l1Origin, seq) ←
    (if ep_BlockNumber payload =? id_Number (gen_L2 (cfg_Genesis cfg)) then
       if negb (bool_decide (ep_BlockHash payload = id_Hash (gen_L2 (cfg_Genesis cfg)))) then
         Err (ErrorsNew "expected L2 genesis hash to match L2 block at genesis block number")
       else Ok (gen_L1 (cfg_Genesis cfg), 0)
     else
       info ← payload_l1_info cfg payload;
       Ok (mkBlockID (li_BlockHash info) (li_Number info), li_SequenceNumber info));
  Ok (mkL2BlockRef (ep_BlockHash payload) (ep_BlockNumber payload) (ep_ParentHash payload)
        (ep_Timestamp payload) l1Origin seq).

(** The same for a block with decoded transactions. *)
Definition L2BlockToBlockRef (cfg : Config) (hash parent : Hash) (number time : Z)
    (txs : list Transaction) : Res L2BlockRef :=
  '(l1Origin, seq) ←
    (if number =? id_Number (gen_L2 (cfg_Genesis cfg)) then
       if negb (bool_decide (hash = id_Hash (gen_L2 (cfg_Genesis cfg)))) then
         Err (ErrorsNew "expected L2 genesis hash to match L2 block at genesis block number")
       else Ok (gen_L1 (cfg_Genesis cfg), 0)
     else
       match txs with
       | [] => Err (ErrorsNew "l2 block is missing L1 info deposit tx")
       | tx :: _ =>
         if negb (tx_Type tx =? DepositTxTypeNum) then
           Err (ErrorsNew "first payload tx has unexpected tx type")
         else
           info ← map_err (Errorf "failed to parse L1 info deposit tx from L2 block")
                    (L1BlockInfoFromBytes cfg time (tx_Data tx));
           Ok (mkBlockID (li_BlockHash info) (li_Number info), li_SequenceNumber info)
       end);
  Ok (mkL2BlockRef hash number parent time l1Origin seq).

(** [copy] into an 8-byte array: what fits, the rest stays zero. *)
Definition copy8 (b : bytes) : bytes := take 8 (b ++ replicate 8 x00).

Definition PayloadToSystemConfig (cfg : Config) (payload : ExecutionPayload) : Res SystemConfig :=
  if ep_BlockNumber payload =? id_Number (gen_L2 (cfg_Genesis cfg)) then
    if negb (bool_decide (ep_BlockHash payload = id_Hash (gen_L2 (cfg_Genesis cfg)))) then
      Err (ErrorsNew "expected L2 genesis hash to match L2 block at genesis block number")
    else Ok (gen_SystemConfig (cfg_Genesis cfg))
  else
    info ← payload_l1_info cfg payload;
    let t := ep_Timestamp payload in
    let scalar :=
      if isEcotoneButNotFirstBlock cfg t then
        x01 :: take 23 (drop 1 (li_L1FeeScalar info))
          ++ be_bytes 4 (li_BlobBaseFeeScalar info) ++ be_bytes 4 (li_BaseFeeScalar info)
      else li_L1FeeScalar info in
    match ValidateOptimismExtraData cfg t (ep_ExtraData payload) with
    | Some e => Err e
    | None =>
      let '(d, e, m) := DecodeOptimismExtraData cfg t (ep_ExtraData payload) in
      let r := mkSystemConfig (li_BatcherAddr info) (li_L1FeeOverhead info) scalar
                 (ep_GasLimit payload) (copy8 (EncodeHolocene1559Params d e))
                 (if IsIsthmus cfg t then EncodeOperatorFeeParams
                    (mkOperatorFeeParams (li_OperatorFeeScalar info) (li_OperatorFeeConstant info))
                  else replicate 32 x00) 0 0 false in
      if IsJovian cfg t then
        match m with
        | None => Panic "nil pointer dereference"
        | Some m => Ok (sc_set_DAFootprintGasScalar (li_DAFootprintGasScalar info) (sc_set_MinBaseFee m r))
        end
      else Ok r
    end.

(** ** Round trips *)

(** Which fields each format stores. *)
Inductive InfoFormat := FBedrock | FEcotone | FIsthmus | FJovian.
Definition info_format (cfg : Config) (t : Z) : InfoFormat :=
  if isJovianButNotFirstBlock cfg t then FJovian
  else if isIsthmusButNotFirstBlock cfg t then FIsthmus
  else if isEcotoneButNotFirstBlock cfg t then FEcotone else FBedrock.
Definition stored (f : InfoFormat) (i : L1BlockInfo) : L1BlockInfo :=
  let early := match f with FBedrock => true | _ => false end in
  let op := match f with FIsthmus | FJovian => true | _ => false end in
  mkL1BlockInfo (li_Number i) (li_Time i) (li_BaseFee i) (li_BlockHash i) (li_SequenceNumber i)
    (li_BatcherAddr i)
    (if early then li_L1FeeOverhead i else zero32) (if early then li_L1FeeScalar i else zero32)
    (if early then None else Some (default 1 (li_BlobBaseFee i)))
    (if early then 0 else li_BaseFeeScalar i) (if early then 0 else li_BlobBaseFeeScalar i)
    (if op then li_OperatorFeeScalar i else 0) (if op then li_OperatorFeeConstant i else 0)
    (match f with FJovian => li_DAFootprintGasScalar i | _ => 0 end).

Record info_wf (i : L1BlockInfo) : Prop := {
  iw_number : is_u64 (li_Number i);
  iw_time : is_u64 (li_Time i);
  iw_baseFee : 0 ≤ li_BaseFee i < 2 ^ 256;
  iw_hash : length (li_BlockHash i) = 32%nat;
  iw_seq : is_u64 (li_SequenceNumber i);
  iw_batcher : length (li_BatcherAddr i) = 20%nat;
  iw_overhead : length (li_L1FeeOverhead i) = 32%nat;
  iw_scalar : length (li_L1FeeScalar i) = 32%nat;
  iw_blobFee : 0 ≤ default 1 (li_BlobBaseFee i) < 2 ^ 256;
  iw_baseFeeScalar : is_uint 32 (li_BaseFeeScalar i);
  iw_blobScalar : is_uint 32 (li_BlobBaseFeeScalar i);
  iw_opScalar : is_uint 32 (li_OperatorFeeScalar i);
  iw_opConstant : is_u64 (li_OperatorFeeConstant i);
  iw_footprint : is_uint 16 (li_DAFootprintGasScalar i);
}.

Definition marshal_info (f : InfoFormat) (i : L1BlockInfo) : Res bytes :=
  match f with
  | FBedrock => marshalBinaryBedrock i | FEcotone => marshalBinaryEcotone i
  | FIsthmus => marshalBinaryIsthmus i | FJovian => marshalBinaryJovian i
  end.
Definition unmarshal_info (f : InfoFormat) (d : bytes) : Res L1BlockInfo :=
  match f with
  | FBedrock => unmarshalBinaryBedrock d | FEcotone => unmarshalBinaryEcotone d
  | FIsthmus => unmarshalBinaryIsthmus d | FJovian => unmarshalBinaryJovian d
  end.

Lemma FromBytes_format cfg t d : L1BlockInfoFromBytes cfg t d = unmarshal_info (info_format cfg t) d.
Proof. unfold L1BlockInfoFromBytes, info_format. by repeat case_match. Qed.

(** Words come back. *)
Lemma reads_word64 v : is_u64 v → reads ReadUint64 (WriteUint64 v) v.
Proof. intros Hv rest. by apply ReadUint64_ok. Qed.
Lemma reads_address a : length a = 20%nat → reads ReadAddress (WriteAddress a) a.
Proof. intros Ha rest. by apply ReadAddress_ok. Qed.
Lemma reads_bytes32 b : length b = 32%nat → reads ReadEthBytes32 b b.
Proof. intros Hb. by apply reads_full. Qed.
Lemma reads_hash b : length b = 32%nat → reads ReadHash b b.
Proof. intros Hb. by apply reads_full. Qed.
Lemma reads_u256 v : 0 ≤ v < 2 ^ 256 → reads ReadUint256 (be_bytes 32 v) v.
Proof. intros Hv. by apply reads_be. Qed.
Lemma WriteUint256_ok v : 0 ≤ v < 2 ^ 256 → WriteUint256 v = Ok (be_bytes 32 v).
Proof.
  intros Hv. unfold WriteUint256. rewrite Z.abs_eq by lia. by rewrite (proj2 (Z.leb_gt _ _)) by lia.
Qed.
Lemma reads_selector s {A} (m : Rd A) d x :
  length s = 4%nat → reads m d x → reads (ReadAndValidateSignature s ≫= λ _, m) (s ++ d) x.
Proof.
  intros Hs Hm. assert (Hr : reads (ReadAndValidateSignature s) (s ++ []) s).
  { unfold ReadAndValidateSignature. eapply reads_bind; [by apply reads_full|].
    intros rest. cbn [app]. rewrite rd_bind_ok. exists (), rest.
    by rewrite rd_check_ok, bool_decide_eq_true_2. }
  rewrite app_nil_r in Hr. by eapply reads_bind.
Qed.
Lemma read_exactly_ok len m d x : length d = len → reads m d x → read_exactly len m d = Ok x.
Proof.
  intros Hl Hm. unfold read_exactly. rewrite Hl, Nat.eqb_refl. cbn [negb].
  specialize (Hm []). rewrite app_nil_r in Hm. by rewrite Hm.
Qed.

Create HintDb words.
#[local] Hint Resolve reads_word64 reads_address reads_bytes32 reads_hash reads_u256 : words.

Lemma ecotone_written i :
  info_wf i → ∃ d, writeBinaryEcotone i = Ok d ∧ length d = 160%nat ∧
  reads readBinaryEcotone d (stored FEcotone i).
Proof.
  intros []. unfold writeBinaryEcotone. rewrite !WriteUint256_ok by done. cbn [mbind res_bind].
  eexists. split; [done|]. split.
  - unfold WriteAddress. rewrite !length_app, !length_be_bytes, length_replicate. lia.
  - unfold readBinaryEcotone.
    do 5 (eapply reads_bind; [by apply reads_be|]).
    do 3 (eapply reads_bind; [by auto with words|]).
    eapply (reads_last _ (λ a, mkL1BlockInfo _ _ _ _ _ a _ _ _ _ _ _ _ _)). by auto with words.
Qed.
Lemma isthmus_written i :
  info_wf i → ∃ d, writeBinaryIsthmus i = Ok d ∧ length d = 172%nat ∧
  reads readBinaryIsthmus d (stored FIsthmus i).
Proof.
  intros Hwf. destruct (ecotone_written i Hwf) as (d & Hd & Hl & Hr). destruct Hwf.
  unfold writeBinaryIsthmus. rewrite Hd. cbn [mbind res_bind]. eexists. split; [done|]. split.
  - rewrite !length_app, !length_be_bytes. lia.
  - unfold readBinaryIsthmus. eapply reads_bind; [done|]. eapply reads_bind; [by apply reads_be|].
    apply (reads_last _ (λ c, li_set_operator _ c (stored FEcotone i))). by apply reads_be.
Qed.
Lemma jovian_written i :
  info_wf i → ∃ d, writeBinaryJovian i = Ok d ∧ length d = 174%nat ∧
  reads readBinaryJovian d (stored FJovian i).
Proof.
  intros Hwf. destruct (isthmus_written i Hwf) as (d & Hd & Hl & Hr). destruct Hwf.
  unfold writeBinaryJovian. rewrite Hd. cbn [mbind res_bind]. eexists. split; [done|]. split.
  - rewrite !length_app, !length_be_bytes. lia.
  - unfold readBinaryJovian. eapply reads_bind; [done|].
    apply (reads_last _ (λ s, li_set_footprint s (stored FIsthmus i))). by apply reads_be.
Qed.

Lemma bedrock_roundtrip i :
  length L1InfoFuncBedrockBytes4 = 4%nat → info_wf i →
  ∃ d, marshalBinaryBedrock i = Ok d ∧ unmarshalBinaryBedrock d = Ok (stored FBedrock i).
Proof.
  intros Hs []. unfold marshalBinaryBedrock. rewrite WriteUint256_ok by done. cbn [mbind res_bind].
  eexists. split; [done|]. apply read_exactly_ok.
  - unfold WriteAddress, WriteUint64, WriteEthBytes32.
    rewrite !length_app, !length_be_bytes, !length_replicate. unfold L1InfoBedrockLen. lia.
  - apply reads_selector; [done|].
    do 7 (eapply reads_bind; [by auto with words|]).
    eapply (reads_last _ (λ s, mkL1BlockInfo _ _ _ _ _ _ _ s _ _ _ _ _ _)). by auto with words.
Qed.

(** The hash of go-ethereum is 32 bytes long. *)
Context (Hkeccak : ∀ b, length (Keccak256Hash b) = 32%nat).

Lemma length_selector s : length (selector s) = 4%nat.
Proof. unfold selector. rewrite length_take, Hkeccak. done. Qed.

Lemma info_roundtrip f i :
  info_wf i → ∃ d, marshal_info f i = Ok d ∧ unmarshal_info f d = Ok (stored f i).
Proof.
  intros Hwf. destruct f; cbn [marshal_info unmarshal_info].
  - by apply bedrock_roundtrip; [apply length_selector|].
  - destruct (ecotone_written i Hwf) as (d & Hd & Hl & Hr). unfold marshalBinaryEcotone. rewrite Hd.
    eexists. split; [done|]. apply read_exactly_ok; [|by apply reads_selector; [apply length_selector|]].
    unfold L1InfoFuncEcotoneBytes4. by rewrite length_app, length_selector, Hl.
  - destruct (isthmus_written i Hwf) as (d & Hd & Hl & Hr). unfold marshalBinaryIsthmus. rewrite Hd.
    eexists. split; [done|]. apply read_exactly_ok; [|by apply reads_selector; [apply length_selector|]].
    unfold L1InfoFuncIsthmusBytes4. by rewrite length_app, length_selector, Hl.
  - destruct (jovian_written i Hwf) as (d & Hd & Hl & Hr). unfold marshalBinaryJovian. rewrite Hd.
    eexists. split; [done|]. apply read_exactly_ok; [|by apply reads_selector; [apply length_selector|]].
    unfold L1InfoFuncJovianBytes4. by rewrite length_app, length_selector, Hl.
Qed.

(** ** Deposits of an L2 block *)

Record syscfg_wf (sc : SystemConfig) : Prop := {
  sw_batcher : length (sc_BatcherAddr sc) = 20%nat;
  sw_overhead : length (sc_Overhead sc) = 32%nat;
  sw_scalar : length (sc_Scalar sc) = 32%nat;
  sw_operator : length (sc_OperatorFeeParams sc) = 32%nat;
  sw_footprint : is_uint 16 (sc_DAFootprintGasScalar sc);
}.
Record block_wf (cfg : Config) (b : BlockInfo) : Prop := {
  bw_number : is_u64 (bi_Number b);
  bw_time : is_u64 (bi_Time b);
  bw_hash : length (bi_Hash b) = 32%nat;
  bw_baseFee : 0 ≤ bi_BaseFee b < 2 ^ 256;
  bw_blobFee : 0 ≤ blob_base_fee cfg b < 2 ^ 256;
}.

(** Updates by L1 events keep the configuration well-formed. *)
Lemma apply_update_wf cfg t sc u : syscfg_wf sc → update_wf u → syscfg_wf (apply_update cfg t sc u).
Proof. intros [] Hu. destruct u; cbn in Hu |- *; repeat case_match; by split; cbn; naive_solver. Qed.
Lemma announced_wf ls us n : announced ls us n → Forall update_wf us.
Proof. induction 1 as [|? ? ? ? ? [? _]|]; by try constructor. Qed.
Lemma update_config_wf sc receipts cfg t sc' errs :
  syscfg_wf sc → UpdateSystemConfigWithL1Receipts sc receipts cfg t = Ok (sc', errs) → syscfg_wf sc'.
Proof.
  intros Hsc. destruct (update_config_total sc receipts cfg t) as (us & errs' & Ha & ->).
  intros [= <- _]. apply announced_wf in Ha. revert sc Hsc.
  induction Ha as [|u us Hu _ IH]; intros sc Hsc; cbn; [done|]. by apply IH, apply_update_wf.
Qed.

Lemma be_val_uint32 b : is_uint 32 (be_val (take 4 b)).
Proof.
  pose proof (be_val_range (take 4 b)) as Hr. rewrite length_take in Hr.
  assert (256 ^ Z.of_nat (4 `min` length b) ≤ 256 ^ 4) by (apply Z.pow_le_mono_r; lia). uint_lia.
Qed.
Lemma be_val_uint64 b : is_u64 (be_val (take 8 b)).
Proof.
  pose proof (be_val_range (take 8 b)) as Hr. rewrite length_take in Hr.
  assert (256 ^ Z.of_nat (8 `min` length b) ≤ 256 ^ 8) by (apply Z.pow_le_mono_r; lia). uint_lia.
Qed.
(** The fee scalars by the version byte. *)
Lemma EcotoneScalars_cases sc :
  length (sc_Scalar sc) = 32%nat →
  (∃ blob base, (blob = 0 ∨ blob = be_val (take 4 (drop 24 (sc_Scalar sc)))) ∧
     (base = 2 ^ 32 - 1 ∨ base = be_val (take 4 (drop 28 (sc_Scalar sc)))) ∧
     sysCfg_EcotoneScalars sc = Ok (mkEcotoneScalars blob base)) ∨
  ∃ e, sysCfg_EcotoneScalars sc = Err e.
Proof.
  unfold sysCfg_EcotoneScalars, CheckEcotoneL1SystemConfigScalar, DecodeScalar.
  destruct (sc_Scalar sc) as [|v r]; [done|]. intros _.
  destruct (decide (v = L1ScalarBedrock)); [|destruct (decide (v = L1ScalarEcotone))].
  - destruct (decide (_ = replicate 27 x00)); left; eexists _, _; (split; [|split]); [..|done| | |done]; auto.
  - destruct (decide (_ = replicate 23 x00)); [left; eexists _, _; (split; [|split]); [..|done]; auto|].
    right. by eexists.
  - right. by eexists.
Qed.
Lemma EcotoneScalars_range sc s :
  length (sc_Scalar sc) = 32%nat → sysCfg_EcotoneScalars sc = Ok s →
  is_uint 32 (BaseFeeScalar s) ∧ is_uint 32 (BlobBaseFeeScalar s).
Proof.
  intros Hl Hs. destruct (EcotoneScalars_cases sc Hl) as [(blob & base & Hblob & Hbase & Heq)|[e Heq]];
    rewrite Heq in Hs; [|done]. injection Hs as <-. cbn [BaseFeeScalar BlobBaseFeeScalar].
  split; [destruct Hbase as [-> | ->]|destruct Hblob as [-> | ->]]; try apply be_val_uint32; uint_lia.
Qed.

Lemma l1_block_info_wf cfg sc seq block t info :
  syscfg_wf sc → block_wf cfg block → is_u64 seq →
  l1_block_info cfg sc seq block t = Ok info → info_wf info.
Proof.
  intros [] [] Hseq Hi. unfold l1_block_info in Hi. inv_bind Hi.
  assert (Hs : is_uint 32 (BaseFeeScalar a) ∧ is_uint 32 (BlobBaseFeeScalar a)).
  { destruct (isEcotoneButNotFirstBlock cfg t); [by apply (EcotoneScalars_range sc)|].
    simplify_eq/=. split; uint_lia. }
  destruct Hs. simplify_eq/=.
  assert (is_uint 32 0) by uint_lia. assert (is_uint 16 0) by uint_lia. assert (is_u64 0) by uint_lia.
  assert (length zero32 = 32%nat) by done.
  split; cbn [li_Number li_Time li_BaseFee li_BlockHash li_SequenceNumber li_BatcherAddr
    li_L1FeeOverhead li_L1FeeScalar li_BlobBaseFee li_BaseFeeScalar li_BlobBaseFeeScalar
    li_OperatorFeeScalar li_OperatorFeeConstant li_DAFootprintGasScalar]; try done.
  - by destruct (isEcotoneButNotFirstBlock cfg t).
  - by destruct (isEcotoneButNotFirstBlock cfg t).
  - destruct (isEcotoneButNotFirstBlock cfg t); cbn; [done|lia].
  - destruct (isIsthmusButNotFirstBlock cfg t); [apply be_val_uint32|done].
  - destruct (isIsthmusButNotFirstBlock cfg t); [apply be_val_uint64|done].
  - destruct (isJovianButNotFirstBlock cfg t); [|done]. unfold DAFootprintGasScalarOrDefault.
    destruct (_ =? 0); [by vm_compute|done].
Qed.

Lemma L1InfoDeposit_data cfg sc seq block t dep :
  syscfg_wf sc → block_wf cfg block → is_u64 seq →
  L1InfoDeposit cfg sc seq block t = Ok dep →
  ∃ info, l1_block_info cfg sc seq block t = Ok info ∧
    L1BlockInfoFromBytes cfg t (dep_Data dep) = Ok (stored (info_format cfg t) info).
Proof.
  intros Hsc Hb Hseq Hd. unfold L1InfoDeposit in Hd. inv_bind Hd. rename a into info.
  exists info. split; [done|]. inv_bind Hd. simplify_eq/=.
  assert (Hwf : info_wf info) by (by eapply l1_block_info_wf).
  destruct (info_roundtrip (info_format cfg t) info Hwf) as (d & Hm & Hu).
  rewrite FromBytes_format, <- Hu. f_equal. unfold info_format in Hm.
  destruct (isJovianButNotFirstBlock cfg t), (isIsthmusButNotFirstBlock cfg t),
    (isEcotoneButNotFirstBlock cfg t); cbn [marshal_info] in Hm;
    match goal with Heq : map_err _ _ = Ok _ |- _ => apply map_err_ok in Heq end; congruence.
Qed.

Lemma info_deposit_cases cfg sc seq block t :
  syscfg_wf sc → block_wf cfg block → is_u64 seq →
  match L1InfoDeposit cfg sc seq block t with
  | Ok dep => ∃ info, l1_block_info cfg sc seq block t = Ok info ∧
      L1BlockInfoFromBytes cfg t (dep_Data dep) = Ok (stored (info_format cfg t) info)
  | Err e => isEcotoneButNotFirstBlock cfg t = true ∧ sysCfg_EcotoneScalars sc = Err e
  | Panic _ => False
  end.
Proof.
  intros Hsc Hb Hseq. destruct (L1InfoDeposit cfg sc seq block t) as [dep|e|w] eqn:Hd;
    [by apply (L1InfoDeposit_data _ _ _ _ _ dep)|..].
  all: unfold L1InfoDeposit in Hd; destruct (l1_block_info cfg sc seq block t) as [info|e'|w'] eqn:Hi.
  1,4: exfalso; pose proof (l1_block_info_wf _ _ _ _ _ _ Hsc Hb Hseq Hi) as Hwf;
    destruct (info_roundtrip (info_format cfg t) info Hwf) as (d & Hm & _); unfold info_format in Hm;
    cbn [mbind res_bind] in Hd; repeat case_match; simplify_eq/=; rewrite Hm in *; done.
  all: unfold l1_block_info in Hi; destruct (isEcotoneButNotFirstBlock cfg t); [|done];
    destruct (sysCfg_EcotoneScalars sc) as [s|e''|w''] eqn:Hs; simplify_eq/=; try done.
  destruct (EcotoneScalars_cases sc (sw_scalar _ Hsc)) as [(? & ? & _ & _ & Heq)|[? Heq]];
    by rewrite Heq in Hs.
Qed.

(** C29: the record of the L1 block in an L2 block reads back: whatever the fork, the
    data of the deposit parses as the format of the block's time, and gives the
    number, time, hash, fees and scalars that went in. Making the deposit only
    fails where the fee scalars of the configuration are invalid. *)
Theorem l1_info_deposit_roundtrip cfg sc seq block t :
  syscfg_wf sc → block_wf cfg block → is_u64 seq →
  match L1InfoDeposit cfg sc seq block t with
  | Ok dep => ∃ info, l1_block_info cfg sc seq block t = Ok info ∧
      L1BlockInfoFromBytes cfg t (dep_Data dep) = Ok (stored (info_format cfg t) info)
  | Err e => isEcotoneButNotFirstBlock cfg t = true ∧ sysCfg_EcotoneScalars sc = Err e
  | Panic _ => False
  end.
Proof. apply info_deposit_cases. Qed.

(** ** The L2 block knows where it comes from *)

(** The first transaction of a payload is the L1 info deposit of a block; the
    transaction codec returns type and data of a deposit. *)
Record starts_with_info (cfg : Config) (sc : SystemConfig) (seq : Z) (block : BlockInfo)
    (payload : ExecutionPayload) : Prop := {
  si_genesis : ep_BlockNumber payload ≠ id_Number (gen_L2 (cfg_Genesis cfg));
  si_tx : ∃ raw rest, ep_Transactions payload = raw :: rest ∧
    L1InfoDepositBytes cfg sc seq block (ep_Timestamp payload) = Ok raw;
  si_codec : ∀ dep raw, MarshalDepositTx dep = Ok raw →
    ∃ tx, UnmarshalTx raw = Ok tx ∧ tx_Type tx = DepositTxTypeNum ∧ tx_Data tx = dep_Data dep;
}.

Lemma payload_info cfg sc seq block payload :
  syscfg_wf sc → block_wf cfg block → is_u64 seq → starts_with_info cfg sc seq block payload →
  ∃ info, l1_block_info cfg sc seq block (ep_Timestamp payload) = Ok info ∧
    payload_l1_info cfg payload = Ok (stored (info_format cfg (ep_Timestamp payload)) info).
Proof.
  intros Hsc Hb Hseq [Hg (raw & rest & Htx & Hraw) Hcodec]. unfold L1InfoDepositBytes in Hraw.
  inv_bind Hraw. rename a into dep. apply map_err_ok in Hb0, Hraw.
  destruct (L1InfoDeposit_data _ _ _ _ _ _ Hsc Hb Hseq Hb0) as (info & Hi & Hd).
  exists info. split; [done|]. unfold payload_l1_info. rewrite Htx.
  destruct (Hcodec _ _ Hraw) as (tx & -> & Ht & Hdata). cbn [map_err mbind res_bind].
  by rewrite Ht, Hdata, Hd.
Qed.

Lemma l1_block_info_fields cfg sc seq block t info :
  l1_block_info cfg sc seq block t = Ok info →
  li_Number info = bi_Number block ∧ li_BlockHash info = bi_Hash block ∧
  li_SequenceNumber info = seq ∧ li_BatcherAddr info = sc_BatcherAddr sc.
Proof. unfold l1_block_info. intros Hi. inv_bind Hi. by simplify_eq/=. Qed.

Lemma block_ref_of_info cfg sc seq block payload :
  syscfg_wf sc → block_wf cfg block → is_u64 seq → starts_with_info cfg sc seq block payload →
  PayloadToBlockRef cfg payload
  = Ok (mkL2BlockRef (ep_BlockHash payload) (ep_BlockNumber payload) (ep_ParentHash payload)
         (ep_Timestamp payload) (bi_ID block) seq).
Proof.
  intros Hsc Hb Hseq Hp. destruct (payload_info _ _ _ _ _ Hsc Hb Hseq Hp) as (info & Hi & Hl).
  unfold PayloadToBlockRef. rewrite (proj2 (Z.eqb_neq _ _)) by apply (si_genesis _ _ _ _ _ Hp).
  rewrite Hl. cbn [mbind res_bind stored li_BlockHash li_Number li_SequenceNumber].
  by destruct (l1_block_info_fields _ _ _ _ _ _ Hi) as (-> & -> & -> & _).
Qed.

(** the reference of an L2 block that starts with the L1 info deposit of an L1
    block names that block as its L1 origin, with the sequence number of the
    deposit. *)
Theorem payload_block_ref cfg sc seq block payload :
  syscfg_wf sc → block_wf cfg block → is_u64 seq → starts_with_info cfg sc seq block payload →
  PayloadToBlockRef cfg payload
  = Ok (mkL2BlockRef (ep_BlockHash payload) (ep_BlockNumber payload) (ep_ParentHash payload)
         (ep_Timestamp payload) (bi_ID block) seq).
Proof. apply block_ref_of_info. Qed.

Lemma scalars_of_encoded sc s :
  sc_Scalar sc = EncodeScalar s → is_uint 32 (BaseFeeScalar s) → is_uint 32 (BlobBaseFeeScalar s) →
  sysCfg_EcotoneScalars sc = Ok s.
Proof.
  intros Hsc H1 H2. destruct (scalars_codec s (mkOperatorFeeParams 0 0)) as (_ & _ & Hc & Hd & _);
    [done|done|cbn; uint_lia|cbn; uint_lia|].
  unfold sysCfg_EcotoneScalars. by rewrite Hsc, Hc.
Qed.
Lemma operator_of_encoded p :
  is_uint 32 (of_Scalar p) → is_u64 (of_Constant p) →
  DecodeOperatorFeeParams (EncodeOperatorFeeParams p) = p.
Proof.
  intros H1 H2. destruct (scalars_codec (mkEcotoneScalars 0 0) p) as (_ & _ & _ & _ & _ & Hp); try done;
    cbn; uint_lia.
Qed.

Lemma read_config cfg payload info d e m :
  ep_BlockNumber payload ≠ id_Number (gen_L2 (cfg_Genesis cfg)) → payload_l1_info cfg payload = Ok info →
  let t := ep_Timestamp payload in
  ValidateOptimismExtraData cfg t (ep_ExtraData payload) = None →
  DecodeOptimismExtraData cfg t (ep_ExtraData payload) = (d, e, Some m) →
  ∃ sc, PayloadToSystemConfig cfg payload = Ok sc ∧
    sc_BatcherAddr sc = li_BatcherAddr info ∧ sc_GasLimit sc = ep_GasLimit payload ∧
    sc_Overhead sc = li_L1FeeOverhead info ∧
    sc_Scalar sc = (if isEcotoneButNotFirstBlock cfg t
      then x01 :: take 23 (drop 1 (li_L1FeeScalar info))
        ++ be_bytes 4 (li_BlobBaseFeeScalar info) ++ be_bytes 4 (li_BaseFeeScalar info)
      else li_L1FeeScalar info) ∧
    (IsIsthmus cfg t = true → sc_OperatorFeeParams sc = EncodeOperatorFeeParams
       (mkOperatorFeeParams (li_OperatorFeeScalar info) (li_OperatorFeeConstant info))) ∧
    (IsJovian cfg t = true → sc_MinBaseFee sc = m ∧
       sc_DAFootprintGasScalar sc = li_DAFootprintGasScalar info).
Proof.
  intros Hg Hi t Hval Hdec. unfold PayloadToSystemConfig. rewrite (proj2 (Z.eqb_neq _ _)) by done.
  rewrite Hi. cbn [mbind res_bind]. fold t. rewrite Hval, Hdec.
  destruct (IsJovian cfg t), (IsIsthmus cfg t); eexists; split_and!; done.
Qed.

(** The Isthmus and Jovian formats are only in use after the one before. *)
Definition formats_ordered (cfg : Config) (t : Z) : Prop :=
  (isJovianButNotFirstBlock cfg t = true → isIsthmusButNotFirstBlock cfg t = true) ∧
  (isIsthmusButNotFirstBlock cfg t = true → isEcotoneButNotFirstBlock cfg t = true).

End info.

(** ** An example: a block after Jovian *)

Module L1InfoExample.
#[local] Existing Instance GethExample.geth.
Definition cfg : Config :=
  ExampleConfig.with_times (mkForkTimes (Some 0) (Some 0) (Some 0) (Some 0) (Some 0) (Some 0) (Some 0)
    (Some 0) (Some 0) None None None).
Definition sc : SystemConfig :=
  mkSystemConfig (replicate 20 x05) (replicate 32 x00) (EncodeScalar (mkEcotoneScalars 3 4)) 30000000
    (replicate 8 x00) (EncodeOperatorFeeParams (mkOperatorFeeParams 5 6)) 0 0 false.
Definition block : BlockInfo :=
  mkBlockInfo (replicate 32 x11) (replicate 32 x10) 105 1000 (replicate 32 x12) 7 (Some 1) (Some 0) None.
Definition raw : bytes :=
  match L1InfoDepositBytes cfg sc 2 block 1012 with Ok raw => raw | _ => [] end.
Definition payload : ExecutionPayload :=
  mkExecutionPayload (replicate 32 x20) zeroAddress [] [] [] [] 6 30000000 0 1012 (replicate 17 x00) 0
    (replicate 32 x21) [raw; [x02]] None None None None.
Lemma keccak_length b : length (Keccak256Hash b) = 32%nat.
Proof.
  change (length (GethExample.pad32 (be_bytes 8 (Z.of_nat (length b)) ++ b)) = 32%nat).
  unfold GethExample.pad32. rewrite length_take, !length_app, length_replicate. lia.
Qed.
Lemma sc_wf : syscfg_wf sc.
Proof. by split; vm_compute. Qed.
Lemma block_ok : block_wf cfg block.
Proof. by split; vm_compute. Qed.
Lemma payload_starts : starts_with_info cfg sc 2 block payload.
Proof.
  split; [done| |].
  - exists raw, [[x02]]. split; [done|]. by vm_compute.
  - intros dep r [= <-]. by eexists.
Qed.
End L1InfoExample.

Lemma l1_info_deposit_roundtrip_witness :
  ∃ dep info, @L1InfoDeposit GethExample.geth L1InfoExample.cfg L1InfoExample.sc 2 L1InfoExample.block 1012 = Ok dep ∧
  @L1BlockInfoFromBytes GethExample.geth L1InfoExample.cfg 1012 (dep_Data dep) = Ok info ∧ li_Number info = 105.
Proof.
  assert (Hu : is_u64 2) by uint_lia.
  pose proof (@l1_info_deposit_roundtrip GethExample.geth L1InfoExample.keccak_length L1InfoExample.cfg
    L1InfoExample.sc 2 L1InfoExample.block 1012 L1InfoExample.sc_wf L1InfoExample.block_ok Hu) as Hr.
  destruct (@L1InfoDeposit GethExample.geth L1InfoExample.cfg L1InfoExample.sc 2 L1InfoExample.block 1012)
    as [dep|e|w]; [|by destruct Hr as [_ Hr]|done].
  destruct Hr as (info & Hi & Hd). exists dep, (stored (info_format L1InfoExample.cfg 1012) info).
  split; [done|]. split; [done|]. vm_compute in Hi. injection Hi as <-. done.
Defined.

Lemma payload_block_ref_witness :
  @PayloadToBlockRef GethExample.geth L1InfoExample.cfg L1InfoExample.payload
  = Ok (mkL2BlockRef (replicate 32 x21) 6 (replicate 32 x20) 1012 (mkBlockID (replicate 32 x11) 105) 2).
Proof.
  assert (Hu : is_u64 2) by uint_lia.
  exact (@payload_block_ref GethExample.geth L1InfoExample.keccak_length L1InfoExample.cfg
    L1InfoExample.sc 2 L1InfoExample.block L1InfoExample.payload L1InfoExample.sc_wf
    L1InfoExample.block_ok Hu L1InfoExample.payload_starts).
Defined.

