(* ===== verification/UpgradeCode.v ===== *)
(** * Contract code of the network upgrades

    The creation code and addresses that the upgrade transactions of
    [op-node/rollup/derive/*_upgrade_transactions.go] carry, as hexadecimal
    constants cut into lines, and the predeploy addresses of
    [op-core/predeploys] they refer to. *)

From Stdlib Require Import Ascii String.
From S2P Require Import Prelude GoBytes Eth.

(** Hexadecimal constants ([common.FromHex], [common.HexToAddress]). *)
Definition hex_digit (c : ascii) : Z :=
  let n := Z.of_nat (nat_of_ascii c) in
  if (48 <=? n) && (n <=? 57) then n - 48
  else if (97 <=? n) && (n <=? 102) then n - 87
  else if (65 <=? n) && (n <=? 70) then n - 55
  else 0.
Fixpoint hex_bytes (s : string) : bytes :=
  match s with
  | String a (String b s) => z2b (hex_digit a * 16 + hex_digit b) :: hex_bytes s
  | _ => []
  end.
Definition FromHex (lines : list string) : bytes := lines ≫= hex_bytes.
Definition HexToAddress (s : string) : Address := hex_bytes s.

Example hex_digits : FromHex ["0aF9"; "ff"]%string = [x0a; xf9; xff].
Proof. reflexivity. Qed.

(** Predeploys. *)
Definition SequencerFeeVaultAddr : Address := HexToAddress "4200000000000000000000000000000000000011".
Definition GasPriceOracleAddr : Address := HexToAddress "420000000000000000000000000000000000000F".
Definition L1BlockAddr : Address := HexToAddress "4200000000000000000000000000000000000015".
Definition OperatorFeeVaultAddr : Address := HexToAddress "420000000000000000000000000000000000001b".
Definition CrossL2InboxAddr : Address := HexToAddress "4200000000000000000000000000000000000022".
Definition L2toL2CrossDomainMessengerAddr : Address := HexToAddress "4200000000000000000000000000000000000023".
Definition SuperchainETHBridgeAddr : Address := HexToAddress "4200000000000000000000000000000000000024".
Definition ETHLiquidityAddr : Address := HexToAddress "4200000000000000000000000000000000000025".
Definition EIP2935ContractDeployer : Address := HexToAddress "3462413Af4609098e1E27A490f554f260213D685".

(** Deployers: known addresses without transactions. *)
Definition L1BlockDeployerAddress : Address := HexToAddress "4210000000000000000000000000000000000000".
Definition GasPriceOracleDeployerAddress : Address := HexToAddress "4210000000000000000000000000000000000001".
Definition EIP4788From : Address := HexToAddress "0B799C86a49DEeb90402691F1041aa3AF2d3C875".
Definition GasPriceOracleFjordDeployerAddress : Address := HexToAddress "4210000000000000000000000000000000000002".
Definition fjordGasPriceOracleAddress : Address := HexToAddress "a919894851548179A0750865e7974DA599C0Fac7".
Definition L1BlockIsthmusDeployerAddress : Address := HexToAddress "4210000000000000000000000000000000000003".
Definition GasPriceOracleIsthmusDeployerAddress : Address := HexToAddress "4210000000000000000000000000000000000004".
Definition OperatorFeeVaultDeployerAddress : Address := HexToAddress "4210000000000000000000000000000000000005".
Definition L1BlockJovianDeployerAddress : Address := HexToAddress "4210000000000000000000000000000000000006".
Definition GasPriceOracleJovianDeployerAddress : Address := HexToAddress "4210000000000000000000000000000000000007".
Definition crossL2InboxDeployerAddress : Address := HexToAddress "4220000000000000000000000000000000000000".
Definition l2ToL2MessengerDeployerAddress : Address := HexToAddress "4220000000000000000000000000000000000001".
Definition superchainETHBridgeDeployerAddress : Address := HexToAddress "4220000000000000000000000000000000000002".
Definition ethLiquidityDeployerAddress : Address := HexToAddress "4220000000000000000000000000000000000003".

#[local] Open Scope string_scope.

(** Contract code of [ecotone_upgrade_transactions.go]. *)
Definition eip4788CreationData : bytes := FromHex
  ["60618060095f395ff33373fffffffffffffffffffffffffffffffffffffffe14604d57602036146024575f5ffd5b5f35";
   "801560495762001fff810690815414603c575f5ffd5b62001fff01545f5260205ff35b5f5ffd5b62001fff4206428155";
   "5f359062001fff015500"].
Definition l1BlockDeploymentBytecode : bytes := FromHex
  ["608060405234801561001057600080fd5b5061053e806100206000396000f3fe608060405234801561001057600080fd";
   "5b50600436106100f55760003560e01c80638381f58a11610097578063c598591811610066578063c598591814610229";
   "578063e591b28214610249578063e81b2c6d14610289578063f82061401461029257600080fd5b80638381f58a146101";
   "e35780638b239f73146101f75780639e8c496614610200578063b80777ea1461020957600080fd5b806354fd4d501161";
   "00d357806354fd4d50146101335780635cf249691461017c57806364ca23ef1461018557806368d5dca6146101b25760";
   "0080fd5b8063015d8eb9146100fa57806309bd5a601461010f578063440a5e201461012b575b600080fd5b61010d6101";
   "0836600461044c565b61029b565b005b61011860025481565b6040519081526020015b60405180910390f35b61010d61";
   "03da565b61016f6040518060400160405280600581526020017f312e322e300000000000000000000000000000000000";
   "0000000000000000000081525081565b60405161012291906104be565b61011860015481565b6003546101999067ffff";
   "ffffffffffff1681565b60405167ffffffffffffffff9091168152602001610122565b6003546101ce90680100000000";
   "00000000900463ffffffff1681565b60405163ffffffff9091168152602001610122565b6000546101999067ffffffff";
   "ffffffff1681565b61011860055481565b61011860065481565b6000546101999068010000000000000000900467ffff";
   "ffffffffffff1681565b6003546101ce906c01000000000000000000000000900463ffffffff1681565b61026473dead";
   "deaddeaddeaddeaddeaddeaddeaddead000181565b60405173ffffffffffffffffffffffffffffffffffffffff909116";
   "8152602001610122565b61011860045481565b61011860075481565b3373deaddeaddeaddeaddeaddeaddeaddeaddead";
   "000114610342576040517f08c379a0000000000000000000000000000000000000000000000000000000008152602060";
   "04820152603b60248201527f4c31426c6f636b3a206f6e6c7920746865206465706f7369746f72206163636f60448201";
   "527f756e742063616e20736574204c3120626c6f636b2076616c75657300000000006064820152608401604051809103";
   "90fd5b6000805467ffffffffffffffff98891668010000000000000000027fffffffffffffffffffffffffffffffff00";
   "000000000000000000000000000000909116998916999099179890981790975560019490945560029290925560038054";
   "919094167fffffffffffffffffffffffffffffffffffffffffffffffff00000000000000009190911617909255600491";
   "909155600555600655565b3373deaddeaddeaddeaddeaddeaddeaddeaddead00011461040357633cc50b456000526004";
   "601cfd5b60043560801c60035560143560801c600055602435600155604435600755606435600255608435600455565b";
   "803567ffffffffffffffff8116811461044757600080fd5b919050565b600080600080600080600080610100898b0312";
   "1561046957600080fd5b6104728961042f565b975061048060208a0161042f565b965060408901359550606089013594";
   "5061049c60808a0161042f565b979a969950949793969560a0850135955060c08501359460e001359350915050565b60";
   "0060208083528351808285015260005b818110156104eb578581018301518582016040015282016104cf565b81811115";
   "6104fd576000604083870101525b50601f017fffffffffffffffffffffffffffffffffffffffffffffffffffffffffff";
   "ffffe01692909201604001939250505056fea164736f6c634300080f000a"].
Definition gasPriceOracleDeploymentBytecode : bytes := FromHex
  ["608060405234801561001057600080fd5b50610fb5806100206000396000f3fe608060405234801561001057600080fd";
   "5b50600436106100f55760003560e01c806354fd4d5011610097578063de26c4a111610066578063de26c4a1146101da";
   "578063f45e65d8146101ed578063f8206140146101f5578063fe173b97146101cc57600080fd5b806354fd4d50146101";
   "6657806368d5dca6146101af5780636ef25c3a146101cc578063c5985918146101d257600080fd5b8063313ce5671161";
   "00d3578063313ce5671461012757806349948e0e1461012e5780634ef6e22414610141578063519b4bd31461015e5760";
   "0080fd5b80630c18c162146100fa57806322b90ab3146101155780632e0f26251461011f575b600080fd5b6101026101";
   "fd565b6040519081526020015b60405180910390f35b61011d61031e565b005b610102600681565b6006610102565b61";
   "010261013c366004610b73565b610541565b60005461014e9060ff1681565b604051901515815260200161010c565b61";
   "0102610565565b6101a26040518060400160405280600581526020017f312e322e300000000000000000000000000000";
   "0000000000000000000000000081525081565b60405161010c9190610c42565b6101b76105c6565b60405163ffffffff";
   "909116815260200161010c565b48610102565b6101b761064b565b6101026101e8366004610b73565b6106ac565b6101";
   "02610760565b610102610853565b6000805460ff1615610296576040517f08c379a00000000000000000000000000000";
   "0000000000000000000000000000815260206004820152602860248201527f47617350726963654f7261636c653a206f";
   "76657268656164282920697320646560448201527f707265636174656400000000000000000000000000000000000000";
   "000000000060648201526084015b60405180910390fd5b73420000000000000000000000000000000000001573ffffff";
   "ffffffffffffffffffffffffffffffffff16638b239f736040518163ffffffff1660e01b815260040160206040518083";
   "0381865afa1580156102f5573d6000803e3d6000fd5b505050506040513d601f19601f82011682018060405250810190";
   "6103199190610cb5565b905090565b73420000000000000000000000000000000000001573ffffffffffffffffffffff";
   "ffffffffffffffffff1663e591b2826040518163ffffffff1660e01b8152600401602060405180830381865afa158015";
   "61037d573d6000803e3d6000fd5b505050506040513d601f19601f820116820180604052508101906103a19190610cce";
   "565b73ffffffffffffffffffffffffffffffffffffffff163373ffffffffffffffffffffffffffffffffffffffff1614";
   "610481576040517f08c379a0000000000000000000000000000000000000000000000000000000008152602060048201";
   "52604160248201527f47617350726963654f7261636c653a206f6e6c7920746865206465706f73697460448201527f6f";
   "72206163636f756e742063616e2073657420697345636f746f6e6520666c6160648201527f6700000000000000000000";
   "000000000000000000000000000000000000000000608482015260a40161028d565b60005460ff161561051457604051";
   "7f08c379a000000000000000000000000000000000000000000000000000000000815260206004820152602660248201";
   "527f47617350726963654f7261636c653a2045636f746f6e6520616c72656164792060448201527f6163746976650000";
   "000000000000000000000000000000000000000000000000606482015260840161028d565b600080547fffffffffffff";
   "ffffffffffffffffffffffffffffffffffffffffffffffffff00166001179055565b6000805460ff161561055c576105";
   "56826108b4565b92915050565b61055682610958565b600073420000000000000000000000000000000000001573ffff";
   "ffffffffffffffffffffffffffffffffffff16635cf249696040518163ffffffff1660e01b8152600401602060405180";
   "830381865afa1580156102f5573d6000803e3d6000fd5b600073420000000000000000000000000000000000001573ff";
   "ffffffffffffffffffffffffffffffffffffff166368d5dca66040518163ffffffff1660e01b81526004016020604051";
   "80830381865afa158015610627573d6000803e3d6000fd5b505050506040513d601f19601f8201168201806040525081";
   "01906103199190610d04565b600073420000000000000000000000000000000000001573ffffffffffffffffffffffff";
   "ffffffffffffffff1663c59859186040518163ffffffff1660e01b8152600401602060405180830381865afa15801561";
   "0627573d6000803e3d6000fd5b6000806106b883610ab4565b60005490915060ff16156106cc5792915050565b734200";
   "00000000000000000000000000000000001573ffffffffffffffffffffffffffffffffffffffff16638b239f73604051";
   "8163ffffffff1660e01b8152600401602060405180830381865afa15801561072b573d6000803e3d6000fd5b50505050";
   "6040513d601f19601f8201168201806040525081019061074f9190610cb5565b6107599082610d59565b939250505056";
   "5b6000805460ff16156107f4576040517f08c379a0000000000000000000000000000000000000000000000000000000";
   "00815260206004820152602660248201527f47617350726963654f7261636c653a207363616c61722829206973206465";
   "707260448201527f65636174656400000000000000000000000000000000000000000000000000006064820152608401";
   "61028d565b73420000000000000000000000000000000000001573ffffffffffffffffffffffffffffffffffffffff16";
   "639e8c49666040518163ffffffff1660e01b8152600401602060405180830381865afa1580156102f5573d6000803e3d";
   "6000fd5b600073420000000000000000000000000000000000001573ffffffffffffffffffffffffffffffffffffffff";
   "1663f82061406040518163ffffffff1660e01b8152600401602060405180830381865afa1580156102f5573d6000803e";
   "3d6000fd5b6000806108c083610ab4565b905060006108cc610565565b6108d461064b565b6108df906010610d71565b";
   "63ffffffff166108ef9190610d9d565b905060006108fb610853565b6109036105c6565b63ffffffff16610913919061";
   "0d9d565b905060006109218284610d59565b61092b9085610d9d565b90506109396006600a610efa565b610944906010";
   "610d9d565b61094e9082610f06565b9695505050505050565b60008061096483610ab4565b9050600073420000000000";
   "000000000000000000000000001573ffffffffffffffffffffffffffffffffffffffff16639e8c49666040518163ffff";
   "ffff1660e01b8152600401602060405180830381865afa1580156109c7573d6000803e3d6000fd5b505050506040513d";
   "601f19601f820116820180604052508101906109eb9190610cb5565b6109f3610565565b734200000000000000000000";
   "00000000000000001573ffffffffffffffffffffffffffffffffffffffff16638b239f736040518163ffffffff1660e0";
   "1b8152600401602060405180830381865afa158015610a52573d6000803e3d6000fd5b505050506040513d601f19601f";
   "82011682018060405250810190610a769190610cb5565b610a809085610d59565b610a8a9190610d9d565b610a949190";
   "610d9d565b9050610aa26006600a610efa565b610aac9082610f06565b949350505050565b80516000908190815b8181";
   "1015610b3757848181518110610ad757610ad7610f41565b01602001517fff0000000000000000000000000000000000";
   "000000000000000000000000000016600003610b1757610b10600484610d59565b9250610b25565b610b22601084610d";
   "59565b92505b80610b2f81610f70565b915050610abd565b50610aac82610440610d59565b7f4e487b71000000000000";
   "00000000000000000000000000000000000000000000600052604160045260246000fd5b600060208284031215610b85";
   "57600080fd5b813567ffffffffffffffff80821115610b9d57600080fd5b818401915084601f830112610bb157600080";
   "fd5b813581811115610bc357610bc3610b44565b604051601f82017fffffffffffffffffffffffffffffffffffffffff";
   "ffffffffffffffffffffffe0908116603f01168101908382118183101715610c0957610c09610b44565b816040528281";
   "52876020848701011115610c2257600080fd5b8260208601602083013760009281016020019290925250959450505050";
   "50565b600060208083528351808285015260005b81811015610c6f57858101830151858201604001528201610c53565b";
   "81811115610c81576000604083870101525b50601f017fffffffffffffffffffffffffffffffffffffffffffffffffff";
   "ffffffffffffe016929092016040019392505050565b600060208284031215610cc757600080fd5b5051919050565b60";
   "0060208284031215610ce057600080fd5b815173ffffffffffffffffffffffffffffffffffffffff8116811461075957";
   "600080fd5b600060208284031215610d1657600080fd5b815163ffffffff8116811461075957600080fd5b7f4e487b71";
   "00000000000000000000000000000000000000000000000000000000600052601160045260246000fd5b600082198211";
   "15610d6c57610d6c610d2a565b500190565b600063ffffffff80831681851681830481118215151615610d9457610d94";
   "610d2a565b02949350505050565b6000817fffffffffffffffffffffffffffffffffffffffffffffffffffffffffffff";
   "ffff0483118215151615610dd557610dd5610d2a565b500290565b600181815b80851115610e3357817fffffffffffff";
   "ffffffffffffffffffffffffffffffffffffffffffffffffffff04821115610e1957610e19610d2a565b80851615610e";
   "2657918102915b93841c9390800290610ddf565b509250929050565b600082610e4a57506001610556565b81610e5757";
   "506000610556565b8160018114610e6d5760028114610e7757610e93565b6001915050610556565b60ff841115610e88";
   "57610e88610d2a565b50506001821b610556565b5060208310610133831016604e8410600b8410161715610eb6575081";
   "810a610556565b610ec08383610dda565b807fffffffffffffffffffffffffffffffffffffffffffffffffffffffffff";
   "ffffff04821115610ef257610ef2610d2a565b029392505050565b60006107598383610e3b565b600082610f3c577f4e";
   "487b7100000000000000000000000000000000000000000000000000000000600052601260045260246000fd5b500490";
   "565b7f4e487b7100000000000000000000000000000000000000000000000000000000600052603260045260246000fd";
   "5b60007fffffffffffffffffffffffffffffffffffffffffffffffffffffffffffffffff8203610fa157610fa1610d2a";
   "565b506001019056fea164736f6c634300080f000a"].
(** Contract code of [fjord_upgrade_transactions.go]. *)
Definition gasPriceOracleFjordDeploymentBytecode : bytes := FromHex
  ["608060405234801561001057600080fd5b506117f6806100206000396000f3fe608060405234801561001057600080fd";
   "5b50600436106101365760003560e01c80636ef25c3a116100b2578063de26c4a111610081578063f45e65d811610066";
   "578063f45e65d81461025b578063f820614014610263578063fe173b971461020d57600080fd5b8063de26c4a1146102";
   "35578063f1c7a58b1461024857600080fd5b80636ef25c3a1461020d5780638e98b10614610213578063960e3a231461";
   "021b578063c59859181461022d57600080fd5b806349948e0e11610109578063519b4bd3116100ee578063519b4bd314";
   "61019f57806354fd4d50146101a757806368d5dca6146101f057600080fd5b806349948e0e1461016f5780634ef6e224";
   "1461018257600080fd5b80630c18c1621461013b57806322b90ab3146101565780632e0f262514610160578063313ce5";
   "6714610168575b600080fd5b61014361026b565b6040519081526020015b60405180910390f35b61015e61038c565b00";
   "5b610143600681565b6006610143565b61014361017d3660046112a1565b610515565b60005461018f9060ff1681565b";
   "604051901515815260200161014d565b610143610552565b6101e36040518060400160405280600581526020017f312e";
   "332e3000000000000000000000000000000000000000000000000000000081525081565b60405161014d919061137056";
   "5b6101f86105b3565b60405163ffffffff909116815260200161014d565b48610143565b61015e610638565b60005461";
   "018f90610100900460ff1681565b6101f8610832565b6101436102433660046112a1565b610893565b61014361025636";
   "60046113e3565b61098d565b610143610a69565b610143610b5c565b6000805460ff1615610304576040517f08c379a0";
   "00000000000000000000000000000000000000000000000000000000815260206004820152602860248201527f476173";
   "50726963654f7261636c653a206f76657268656164282920697320646560448201527f70726563617465640000000000";
   "0000000000000000000000000000000000000060648201526084015b60405180910390fd5b7342000000000000000000";
   "0000000000000000001573ffffffffffffffffffffffffffffffffffffffff16638b239f736040518163ffffffff1660";
   "e01b8152600401602060405180830381865afa158015610363573d6000803e3d6000fd5b505050506040513d601f1960";
   "1f8201168201806040525081019061038791906113fc565b905090565b3373deaddeaddeaddeaddeaddeaddeaddeadde";
   "ad000114610455576040517f08c379a00000000000000000000000000000000000000000000000000000000081526020";
   "6004820152604160248201527f47617350726963654f7261636c653a206f6e6c7920746865206465706f736974604482";
   "01527f6f72206163636f756e742063616e2073657420697345636f746f6e6520666c6160648201527f67000000000000";
   "00000000000000000000000000000000000000000000000000608482015260a4016102fb565b60005460ff16156104e8";
   "576040517f08c379a0000000000000000000000000000000000000000000000000000000008152602060048201526026";
   "60248201527f47617350726963654f7261636c653a2045636f746f6e6520616c72656164792060448201527f61637469";
   "7665000000000000000000000000000000000000000000000000000060648201526084016102fb565b600080547fffff";
   "ffffffffffffffffffffffffffffffffffffffffffffffffffffffffff00166001179055565b60008054610100900460";
   "ff16156105355761052f82610bbd565b92915050565b60005460ff16156105495761052f82610bdc565b61052f82610c";
   "80565b600073420000000000000000000000000000000000001573ffffffffffffffffffffffffffffffffffffffff16";
   "635cf249696040518163ffffffff1660e01b8152600401602060405180830381865afa158015610363573d6000803e3d";
   "6000fd5b600073420000000000000000000000000000000000001573ffffffffffffffffffffffffffffffffffffffff";
   "166368d5dca66040518163ffffffff1660e01b8152600401602060405180830381865afa158015610614573d6000803e";
   "3d6000fd5b505050506040513d601f19601f820116820180604052508101906103879190611415565b3373deaddeadde";
   "addeaddeaddeaddeaddeaddead0001146106db576040517f08c379a00000000000000000000000000000000000000000";
   "0000000000000000815260206004820152603f60248201527f47617350726963654f7261636c653a206f6e6c79207468";
   "65206465706f73697460448201527f6f72206163636f756e742063616e20736574206973466a6f726420666c61670060";
   "648201526084016102fb565b60005460ff1661076d576040517f08c379a0000000000000000000000000000000000000";
   "00000000000000000000815260206004820152603960248201527f47617350726963654f7261636c653a20466a6f7264";
   "2063616e206f6e6c79206260448201527f65206163746976617465642061667465722045636f746f6e65000000000000";
   "0060648201526084016102fb565b600054610100900460ff1615610804576040517f08c379a000000000000000000000";
   "0000000000000000000000000000000000008152602060048201526024808201527f47617350726963654f7261636c65";
   "3a20466a6f726420616c726561647920616360448201527f746976650000000000000000000000000000000000000000";
   "000000000000000060648201526084016102fb565b600080547fffffffffffffffffffffffffffffffffffffffffffff";
   "ffffffffffffffff00ff16610100179055565b600073420000000000000000000000000000000000001573ffffffffff";
   "ffffffffffffffffffffffffffffff1663c59859186040518163ffffffff1660e01b8152600401602060405180830381";
   "865afa158015610614573d6000803e3d6000fd5b60008054610100900460ff16156108da57620f42406108c56108b484";
   "610dd4565b516108c090604461146a565b6110f1565b6108d0906010611482565b61052f91906114bf565b60006108e5";
   "83611150565b60005490915060ff16156108f95792915050565b73420000000000000000000000000000000000001573";
   "ffffffffffffffffffffffffffffffffffffffff16638b239f736040518163ffffffff1660e01b815260040160206040";
   "5180830381865afa158015610958573d6000803e3d6000fd5b505050506040513d601f19601f82011682018060405250";
   "81019061097c91906113fc565b610986908261146a565b9392505050565b60008054610100900460ff16610a25576040";
   "517f08c379a0000000000000000000000000000000000000000000000000000000008152602060048201526036602482";
   "01527f47617350726963654f7261636c653a206765744c314665655570706572426f7560448201527f6e64206f6e6c79";
   "20737570706f72747320466a6f72640000000000000000000060648201526084016102fb565b6000610a328360446114";
   "6a565b90506000610a4160ff836114bf565b610a4b908361146a565b610a5690601061146a565b9050610a61816111e0";
   "565b949350505050565b6000805460ff1615610afd576040517f08c379a0000000000000000000000000000000000000";
   "00000000000000000000815260206004820152602660248201527f47617350726963654f7261636c653a207363616c61";
   "722829206973206465707260448201527f65636174656400000000000000000000000000000000000000000000000000";
   "0060648201526084016102fb565b73420000000000000000000000000000000000001573ffffffffffffffffffffffff";
   "ffffffffffffffff16639e8c49666040518163ffffffff1660e01b8152600401602060405180830381865afa15801561";
   "0363573d6000803e3d6000fd5b600073420000000000000000000000000000000000001573ffffffffffffffffffffff";
   "ffffffffffffffffff1663f82061406040518163ffffffff1660e01b8152600401602060405180830381865afa158015";
   "610363573d6000803e3d6000fd5b600061052f610bcb83610dd4565b51610bd790604461146a565b6111e0565b600080";
   "610be883611150565b90506000610bf4610552565b610bfc610832565b610c079060106114fa565b63ffffffff16610c";
   "179190611482565b90506000610c23610b5c565b610c2b6105b3565b63ffffffff16610c3b9190611482565b90506000";
   "610c49828461146a565b610c539085611482565b9050610c616006600a611646565b610c6c906010611482565b610c76";
   "90826114bf565b9695505050505050565b600080610c8c83611150565b90506000734200000000000000000000000000";
   "00000000001573ffffffffffffffffffffffffffffffffffffffff16639e8c49666040518163ffffffff1660e01b8152";
   "600401602060405180830381865afa158015610cef573d6000803e3d6000fd5b505050506040513d601f19601f820116";
   "82018060405250810190610d1391906113fc565b610d1b610552565b7342000000000000000000000000000000000000";
   "1573ffffffffffffffffffffffffffffffffffffffff16638b239f736040518163ffffffff1660e01b81526004016020";
   "60405180830381865afa158015610d7a573d6000803e3d6000fd5b505050506040513d601f19601f8201168201806040";
   "5250810190610d9e91906113fc565b610da8908561146a565b610db29190611482565b610dbc9190611482565b905061";
   "0dca6006600a611646565b610a6190826114bf565b6060610f63565b818153600101919050565b600082840393505b83";
   "8110156109865782810151828201511860001a1590930292600101610dee565b825b60208210610e5b578251610e2660";
   "1f83610ddb565b52602092909201917fffffffffffffffffffffffffffffffffffffffffffffffffffffffffffffffe0";
   "90910190602101610e11565b8115610986578251610e706001840383610ddb565b520160010192915050565b60006001";
   "830392505b6101078210610ebc57610eae8360ff16610ea960fd610ea98760081c60e00189610ddb565b610ddb565b93";
   "5061010682039150610e84565b60078210610ee957610ee28360ff16610ea960078503610ea98760081c60e00189610d";
   "db565b9050610986565b610a618360ff16610ea98560081c8560051b0187610ddb565b610f5b828203610f3f610f2f84";
   "600081518060001a8160011a60081b178160021a60101b17915050919050565b639e3779b90260131c611fff1690565b";
   "8060021b6040510182815160e01c1860e01b8151188152505050565b600101919050565b618000386040513961800060";
   "4051016020830180600d8551820103826002015b81811015611096576000805b50508051604051600082901a60018390";
   "1a60081b1760029290921a60101b91909117639e3779b9810260111c617ffc16909101805160e081811c878603811890";
   "911b90911890915284019081830390848410610feb5750611026565b600184019350611fff8211611020578251600081";
   "901a600182901a60081b1760029190911a60101b1781036110205750611026565b50610f8f565b838310611034575050";
   "611096565b600183039250858311156110525761104f8787888603610e0f565b96505b61106660098501600385016003";
   "8501610de6565b9150611073878284610e7b565b96505061108b8461108686848601610f02565b610f02565b91505080";
   "9350610f83565b50506110a88383848851850103610e0f565b9250505060405191506180008201808203915081835260";
   "20830160005b838110156110dd5782810151828201526020016110c5565b506000920191825250602001604052919050";
   "565b60008061110183620cc394611482565b61112b907fffffffffffffffffffffffffffffffffffffffffffffffffff";
   "fffffffd763200611652565b905061113b6064620f42406116c6565b81121561052f576109866064620f42406116c656";
   "5b80516000908190815b818110156111d35784818151811061117357611173611782565b01602001517fff0000000000";
   "0000000000000000000000000000000000000000000000000000166000036111b3576111ac60048461146a565b925061";
   "11c1565b6111be60108461146a565b92505b806111cb816117b1565b915050611159565b50610a618261044061146a56";
   "5b6000806111ec836110f1565b905060006111f8610b5c565b6112006105b3565b63ffffffff16611210919061148256";
   "5b611218610552565b611220610832565b61122b9060106114fa565b63ffffffff1661123b9190611482565b61124591";
   "9061146a565b905061125360066002611482565b61125e90600a611646565b6112688284611482565b610a6191906114";
   "bf565b7f4e487b7100000000000000000000000000000000000000000000000000000000600052604160045260246000";
   "fd5b6000602082840312156112b357600080fd5b813567ffffffffffffffff808211156112cb57600080fd5b81840191";
   "5084601f8301126112df57600080fd5b8135818111156112f1576112f1611272565b604051601f82017fffffffffffff";
   "ffffffffffffffffffffffffffffffffffffffffffffffffffe0908116603f0116810190838211818310171561133757";
   "611337611272565b8160405282815287602084870101111561135057600080fd5b826020860160208301376000928101";
   "602001929092525095945050505050565b600060208083528351808285015260005b8181101561139d57858101830151";
   "858201604001528201611381565b818111156113af576000604083870101525b50601f017fffffffffffffffffffffff";
   "ffffffffffffffffffffffffffffffffffffffffe016929092016040019392505050565b6000602082840312156113f5";
   "57600080fd5b5035919050565b60006020828403121561140e57600080fd5b5051919050565b60006020828403121561";
   "142757600080fd5b815163ffffffff8116811461098657600080fd5b7f4e487b71000000000000000000000000000000";
   "00000000000000000000000000600052601160045260246000fd5b6000821982111561147d5761147d61143b565b5001";
   "90565b6000817fffffffffffffffffffffffffffffffffffffffffffffffffffffffffffffffff048311821515161561";
   "14ba576114ba61143b565b500290565b6000826114f5577f4e487b710000000000000000000000000000000000000000";
   "0000000000000000600052601260045260246000fd5b500490565b600063ffffffff8083168185168183048111821515";
   "161561151d5761151d61143b565b02949350505050565b600181815b8085111561157f57817fffffffffffffffffffff";
   "ffffffffffffffffffffffffffffffffffffffffffff048211156115655761156561143b565b80851615611572579181";
   "02915b93841c939080029061152b565b509250929050565b6000826115965750600161052f565b816115a35750600061";
   "052f565b81600181146115b957600281146115c3576115df565b600191505061052f565b60ff8411156115d4576115d4";
   "61143b565b50506001821b61052f565b5060208310610133831016604e8410600b8410161715611602575081810a6105";
   "2f565b61160c8383611526565b807fffffffffffffffffffffffffffffffffffffffffffffffffffffffffffffffff04";
   "82111561163e5761163e61143b565b029392505050565b60006109868383611587565b6000808212827f7fffffffffff";
   "ffffffffffffffffffffffffffffffffffffffffffffffffffff0384138115161561168c5761168c61143b565b827f80";
   "000000000000000000000000000000000000000000000000000000000000000384128116156116c0576116c061143b56";
   "5b50500190565b60007f7fffffffffffffffffffffffffffffffffffffffffffffffffffffffffffffff600084136000";
   "8413858304851182821616156117075761170761143b565b7f8000000000000000000000000000000000000000000000";
   "00000000000000000060008712868205881281841616156117425761174261143b565b60008712925087820587128484";
   "16161561175e5761175e61143b565b878505871281841616156117745761177461143b565b5050509290930293925050";
   "50565b7f4e487b7100000000000000000000000000000000000000000000000000000000600052603260045260246000";
   "fd5b60007fffffffffffffffffffffffffffffffffffffffffffffffffffffffffffffffff82036117e2576117e26114";
   "3b565b506001019056fea164736f6c634300080f000a"].
(** Contract code of [isthmus_upgrade_transactions.go]. *)
Definition l1BlockIsthmusDeploymentBytecode : bytes := FromHex
  ["608060405234801561001057600080fd5b506106ae806100206000396000f3fe608060405234801561001057600080fd";
   "5b50600436106101825760003560e01c806364ca23ef116100d8578063b80777ea1161008c578063e591b28211610066";
   "578063e591b282146103b0578063e81b2c6d146103d2578063f8206140146103db57600080fd5b8063b80777ea146103";
   "37578063c598591814610357578063d84447151461037757600080fd5b80638381f58a116100bd5780638381f58a1461";
   "03115780638b239f73146103255780639e8c49661461032e57600080fd5b806364ca23ef146102e157806368d5dca614";
   "6102f557600080fd5b80634397dfef1161013a57806354fd4d501161011457806354fd4d501461025d578063550fcdc9";
   "1461029f5780635cf24969146102d857600080fd5b80634397dfef146101fc578063440a5e20146102245780634d5d9a";
   "2a1461022c57600080fd5b806309bd5a601161016b57806309bd5a60146101a457806316d3bc7f146101c05780632132";
   "6849146101ed57600080fd5b8063015d8eb914610187578063098999be1461019c575b600080fd5b61019a6101953660";
   "046105bc565b6103e4565b005b61019a610523565b6101ad60025481565b6040519081526020015b60405180910390f3";
   "5b6008546101d49067ffffffffffffffff1681565b60405167ffffffffffffffff90911681526020016101b7565b6040";
   "51600081526020016101b7565b6040805173eeeeeeeeeeeeeeeeeeeeeeeeeeeeeeeeeeeeeeee81526012602082015201";
   "6101b7565b61019a61052d565b6008546102489068010000000000000000900463ffffffff1681565b60405163ffffff";
   "ff90911681526020016101b7565b60408051808201909152600581527f312e362e300000000000000000000000000000";
   "0000000000000000000000000060208201525b6040516101b7919061062e565b60408051808201909152600381527f45";
   "544800000000000000000000000000000000000000000000000000000000006020820152610292565b6101ad60015481";
   "565b6003546101d49067ffffffffffffffff1681565b6003546102489068010000000000000000900463ffffffff1681";
   "565b6000546101d49067ffffffffffffffff1681565b6101ad60055481565b6101ad60065481565b6000546101d49068";
   "010000000000000000900467ffffffffffffffff1681565b600354610248906c01000000000000000000000000900463";
   "ffffffff1681565b60408051808201909152600581527f45746865720000000000000000000000000000000000000000";
   "000000000000006020820152610292565b60405173deaddeaddeaddeaddeaddeaddeaddeaddead000181526020016101";
   "b7565b6101ad60045481565b6101ad60075481565b3373deaddeaddeaddeaddeaddeaddeaddeaddead00011461048b57";
   "6040517f08c379a000000000000000000000000000000000000000000000000000000000815260206004820152603b60";
   "248201527f4c31426c6f636b3a206f6e6c7920746865206465706f7369746f72206163636f60448201527f756e742063";
   "616e20736574204c3120626c6f636b2076616c7565730000000000606482015260840160405180910390fd5b60008054";
   "67ffffffffffffffff98891668010000000000000000027fffffffffffffffffffffffffffffffff0000000000000000";
   "0000000000000000909116998916999099179890981790975560019490945560029290925560038054919094167fffff";
   "ffffffffffffffffffffffffffffffffffffffffffff0000000000000000919091161790925560049190915560055560";
   "0655565b61052b610535565b565b61052b610548565b61053d610548565b60a43560a01c600855565b73deaddeaddead";
   "deaddeaddeaddeaddeaddead000133811461057257633cc50b456000526004601cfd5b60043560801c60035560143560";
   "801c60005560243560015560443560075560643560025560843560045550565b803567ffffffffffffffff8116811461";
   "05b757600080fd5b919050565b600080600080600080600080610100898b0312156105d957600080fd5b6105e2896105";
   "9f565b97506105f060208a0161059f565b9650604089013595506060890135945061060c60808a0161059f565b979a96";
   "9950949793969560a0850135955060c08501359460e001359350915050565b600060208083528351808285015260005b";
   "8181101561065b5785810183015185820160400152820161063f565b8181111561066d576000604083870101525b5060";
   "1f017fffffffffffffffffffffffffffffffffffffffffffffffffffffffffffffffe016929092016040019392505050";
   "56fea164736f6c634300080f000a"].
Definition gasPriceOracleIsthmusDeploymentBytecode : bytes := FromHex
  ["608060405234801561001057600080fd5b50611c3c806100206000396000f3fe608060405234801561001057600080fd";
   "5b50600436106101775760003560e01c806368d5dca6116100d8578063c59859181161008c578063f45e65d811610066";
   "578063f45e65d8146102ca578063f8206140146102d2578063fe173b971461026957600080fd5b8063c5985918146102";
   "9c578063de26c4a1146102a4578063f1c7a58b146102b757600080fd5b80638e98b106116100bd5780638e98b1061461";
   "026f578063960e3a2314610277578063b54501bc1461028957600080fd5b806368d5dca61461024c5780636ef25c3a14";
   "61026957600080fd5b8063313ce5671161012f5780634ef6e224116101145780634ef6e224146101de578063519b4bd3";
   "146101fb57806354fd4d501461020357600080fd5b8063313ce567146101c457806349948e0e146101cb57600080fd5b";
   "8063275aedd211610160578063275aedd2146101a1578063291b0383146101b45780632e0f2625146101bc57600080fd";
   "5b80630c18c1621461017c57806322b90ab314610197575b600080fd5b6101846102da565b6040519081526020015b60";
   "405180910390f35b61019f6103fb565b005b6101846101af36600461168e565b610584565b61019f61070f565b610184";
   "600681565b6006610184565b6101846101d93660046116d6565b610937565b6000546101eb9060ff1681565b60405190";
   "1515815260200161018e565b61018461096e565b61023f6040518060400160405280600581526020017f312e342e3000";
   "000000000000000000000000000000000000000000000000000081525081565b60405161018e91906117a5565b610254";
   "6109cf565b60405163ffffffff909116815260200161018e565b48610184565b61019f610a54565b6000546101eb9061";
   "0100900460ff1681565b6000546101eb9062010000900460ff1681565b610254610c4e565b6101846102b23660046116";
   "d6565b610caf565b6101846102c536600461168e565b610da9565b610184610e85565b610184610f78565b6000805460";
   "ff1615610373576040517f08c379a0000000000000000000000000000000000000000000000000000000008152602060";
   "04820152602860248201527f47617350726963654f7261636c653a206f76657268656164282920697320646560448201";
   "527f707265636174656400000000000000000000000000000000000000000000000060648201526084015b6040518091";
   "0390fd5b73420000000000000000000000000000000000001573ffffffffffffffffffffffffffffffffffffffff1663";
   "8b239f736040518163ffffffff1660e01b8152600401602060405180830381865afa1580156103d2573d6000803e3d60";
   "00fd5b505050506040513d601f19601f820116820180604052508101906103f69190611818565b905090565b3373dead";
   "deaddeaddeaddeaddeaddeaddeaddead0001146104c4576040517f08c379a00000000000000000000000000000000000";
   "0000000000000000000000815260206004820152604160248201527f47617350726963654f7261636c653a206f6e6c79";
   "20746865206465706f73697460448201527f6f72206163636f756e742063616e2073657420697345636f746f6e652066";
   "6c6160648201527f6700000000000000000000000000000000000000000000000000000000000000608482015260a401";
   "61036a565b60005460ff1615610557576040517f08c379a0000000000000000000000000000000000000000000000000";
   "00000000815260206004820152602660248201527f47617350726963654f7261636c653a2045636f746f6e6520616c72";
   "656164792060448201527f61637469766500000000000000000000000000000000000000000000000000006064820152";
   "60840161036a565b600080547fffffffffffffffffffffffffffffffffffffffffffffffffffffffffffffff00166001";
   "179055565b6000805462010000900460ff1661059d57506000919050565b610709620f42406106668473420000000000";
   "000000000000000000000000001573ffffffffffffffffffffffffffffffffffffffff16634d5d9a2a6040518163ffff";
   "ffff1660e01b8152600401602060405180830381865afa158015610607573d6000803e3d6000fd5b505050506040513d";
   "601f19601f8201168201806040525081019061062b9190611831565b63ffffffff167fffffffffffffffffffffffffff";
   "ffffffffffffffffffffffffffffffffffffff821583830293840490921491909117011790565b610670919061188656";
   "5b73420000000000000000000000000000000000001573ffffffffffffffffffffffffffffffffffffffff166316d3bc";
   "7f6040518163ffffffff1660e01b8152600401602060405180830381865afa1580156106cf573d6000803e3d6000fd5b";
   "505050506040513d601f19601f820116820180604052508101906106f391906118c1565b67ffffffffffffffff168101";
   "9081106000031790565b92915050565b3373deaddeaddeaddeaddeaddeaddeaddeaddead0001146107d8576040517f08";
   "c379a000000000000000000000000000000000000000000000000000000000815260206004820152604160248201527f";
   "47617350726963654f7261636c653a206f6e6c7920746865206465706f73697460448201527f6f72206163636f756e74";
   "2063616e20736574206973497374686d757320666c6160648201527f6700000000000000000000000000000000000000";
   "000000000000000000000000608482015260a40161036a565b600054610100900460ff1661086f576040517f08c379a0";
   "00000000000000000000000000000000000000000000000000000000815260206004820152603960248201527f476173";
   "50726963654f7261636c653a20497374686d75732063616e206f6e6c7960448201527f20626520616374697661746564";
   "20616674657220466a6f726400000000000000606482015260840161036a565b60005462010000900460ff1615610908";
   "576040517f08c379a0000000000000000000000000000000000000000000000000000000008152602060048201526026";
   "60248201527f47617350726963654f7261636c653a20497374686d757320616c72656164792060448201527f61637469";
   "76650000000000000000000000000000000000000000000000000000606482015260840161036a565b600080547fffff";
   "ffffffffffffffffffffffffffffffffffffffffffffffffffffff00ffff1662010000179055565b6000805461010090";
   "0460ff16156109515761070982610fd9565b60005460ff16156109655761070982610ff8565b6107098261109c565b60";
   "0073420000000000000000000000000000000000001573ffffffffffffffffffffffffffffffffffffffff16635cf249";
   "696040518163ffffffff1660e01b8152600401602060405180830381865afa1580156103d2573d6000803e3d6000fd5b";
   "600073420000000000000000000000000000000000001573ffffffffffffffffffffffffffffffffffffffff166368d5";
   "dca66040518163ffffffff1660e01b8152600401602060405180830381865afa158015610a30573d6000803e3d6000fd";
   "5b505050506040513d601f19601f820116820180604052508101906103f69190611831565b3373deaddeaddeaddeadde";
   "addeaddeaddeaddead000114610af7576040517f08c379a0000000000000000000000000000000000000000000000000";
   "00000000815260206004820152603f60248201527f47617350726963654f7261636c653a206f6e6c7920746865206465";
   "706f73697460448201527f6f72206163636f756e742063616e20736574206973466a6f726420666c6167006064820152";
   "60840161036a565b60005460ff16610b89576040517f08c379a000000000000000000000000000000000000000000000";
   "000000000000815260206004820152603960248201527f47617350726963654f7261636c653a20466a6f72642063616e";
   "206f6e6c79206260448201527f65206163746976617465642061667465722045636f746f6e6500000000000000606482";
   "015260840161036a565b600054610100900460ff1615610c20576040517f08c379a00000000000000000000000000000";
   "00000000000000000000000000008152602060048201526024808201527f47617350726963654f7261636c653a20466a";
   "6f726420616c726561647920616360448201527f74697665000000000000000000000000000000000000000000000000";
   "00000000606482015260840161036a565b600080547fffffffffffffffffffffffffffffffffffffffffffffffffffff";
   "ffffffff00ff16610100179055565b600073420000000000000000000000000000000000001573ffffffffffffffffff";
   "ffffffffffffffffffffff1663c59859186040518163ffffffff1660e01b8152600401602060405180830381865afa15";
   "8015610a30573d6000803e3d6000fd5b60008054610100900460ff1615610cf657620f4240610ce1610cd0846111f056";
   "5b51610cdc9060446118eb565b61150d565b610cec906010611903565b6107099190611886565b6000610d018361156c";
   "565b60005490915060ff1615610d155792915050565b73420000000000000000000000000000000000001573ffffffff";
   "ffffffffffffffffffffffffffffffff16638b239f736040518163ffffffff1660e01b81526004016020604051808303";
   "81865afa158015610d74573d6000803e3d6000fd5b505050506040513d601f19601f8201168201806040525081019061";
   "0d989190611818565b610da290826118eb565b9392505050565b60008054610100900460ff16610e41576040517f08c3";
   "79a000000000000000000000000000000000000000000000000000000000815260206004820152603660248201527f47";
   "617350726963654f7261636c653a206765744c314665655570706572426f7560448201527f6e64206f6e6c7920737570";
   "706f72747320466a6f726400000000000000000000606482015260840161036a565b6000610e4e8360446118eb565b90";
   "506000610e5d60ff83611886565b610e6790836118eb565b610e729060106118eb565b9050610e7d816115fc565b9493";
   "50505050565b6000805460ff1615610f19576040517f08c379a000000000000000000000000000000000000000000000";
   "000000000000815260206004820152602660248201527f47617350726963654f7261636c653a207363616c6172282920";
   "6973206465707260448201527f6563617465640000000000000000000000000000000000000000000000000000606482";
   "015260840161036a565b73420000000000000000000000000000000000001573ffffffffffffffffffffffffffffffff";
   "ffffffff16639e8c49666040518163ffffffff1660e01b8152600401602060405180830381865afa1580156103d2573d";
   "6000803e3d6000fd5b600073420000000000000000000000000000000000001573ffffffffffffffffffffffffffffff";
   "ffffffffff1663f82061406040518163ffffffff1660e01b8152600401602060405180830381865afa1580156103d257";
   "3d6000803e3d6000fd5b6000610709610fe7836111f0565b51610ff39060446118eb565b6115fc565b60008061100483";
   "61156c565b9050600061101061096e565b611018610c4e565b611023906010611940565b63ffffffff16611033919061";
   "1903565b9050600061103f610f78565b6110476109cf565b63ffffffff166110579190611903565b9050600061106582";
   "846118eb565b61106f9085611903565b905061107d6006600a611a8c565b611088906010611903565b61109290826118";
   "86565b9695505050505050565b6000806110a88361156c565b9050600073420000000000000000000000000000000000";
   "001573ffffffffffffffffffffffffffffffffffffffff16639e8c49666040518163ffffffff1660e01b815260040160";
   "2060405180830381865afa15801561110b573d6000803e3d6000fd5b505050506040513d601f19601f82011682018060";
   "40525081019061112f9190611818565b61113761096e565b73420000000000000000000000000000000000001573ffff";
   "ffffffffffffffffffffffffffffffffffff16638b239f736040518163ffffffff1660e01b8152600401602060405180";
   "830381865afa158015611196573d6000803e3d6000fd5b505050506040513d601f19601f820116820180604052508101";
   "906111ba9190611818565b6111c490856118eb565b6111ce9190611903565b6111d89190611903565b90506111e66006";
   "600a611a8c565b610e7d9082611886565b606061137f565b818153600101919050565b600082840393505b8381101561";
   "0da25782810151828201511860001a159093029260010161120a565b825b60208210611277578251611242601f836111";
   "f7565b52602092909201917fffffffffffffffffffffffffffffffffffffffffffffffffffffffffffffffe090910190";
   "60210161122d565b8115610da257825161128c60018403836111f7565b520160010192915050565b6000600183039250";
   "5b61010782106112d8576112ca8360ff166112c560fd6112c58760081c60e001896111f7565b6111f7565b9350610106";
   "820391506112a0565b60078210611305576112fe8360ff166112c5600785036112c58760081c60e001896111f7565b90";
   "50610da2565b610e7d8360ff166112c58560081c8560051b01876111f7565b61137782820361135b61134b8460008151";
   "8060001a8160011a60081b178160021a60101b17915050919050565b639e3779b90260131c611fff1690565b8060021b";
   "6040510182815160e01c1860e01b8151188152505050565b600101919050565b61800038604051396180006040510160";
   "20830180600d8551820103826002015b818110156114b2576000805b50508051604051600082901a600183901a60081b";
   "1760029290921a60101b91909117639e3779b9810260111c617ffc16909101805160e081811c878603811890911b9091";
   "18909152840190818303908484106114075750611442565b600184019350611fff821161143c578251600081901a6001";
   "82901a60081b1760029190911a60101b17810361143c5750611442565b506113ab565b8383106114505750506114b256";
   "5b6001830392508583111561146e5761146b878788860361122b565b96505b6114826009850160038501600385016112";
   "02565b915061148f878284611297565b9650506114a7846114a28684860161131e565b61131e565b9150508093506113";
   "9f565b50506114c4838384885185010361122b565b925050506040519150618000820180820391508183526020830160";
   "005b838110156114f95782810151828201526020016114e1565b506000920191825250602001604052919050565b6000";
   "8061151d83620cc394611903565b611547907ffffffffffffffffffffffffffffffffffffffffffffffffffffffffffd";
   "763200611a98565b90506115576064620f4240611b0c565b81121561070957610da26064620f4240611b0c565b805160";
   "00908190815b818110156115ef5784818151811061158f5761158f611bc8565b01602001517fff000000000000000000";
   "00000000000000000000000000000000000000000000166000036115cf576115c86004846118eb565b92506115dd565b";
   "6115da6010846118eb565b92505b806115e781611bf7565b915050611575565b50610e7d826104406118eb565b600080";
   "6116088361150d565b90506000611614610f78565b61161c6109cf565b63ffffffff1661162c9190611903565b611634";
   "61096e565b61163c610c4e565b611647906010611940565b63ffffffff166116579190611903565b61166191906118eb";
   "565b905061166f60066002611903565b61167a90600a611a8c565b6116848284611903565b610e7d9190611886565b60";
   "00602082840312156116a057600080fd5b5035919050565b7f4e487b7100000000000000000000000000000000000000";
   "000000000000000000600052604160045260246000fd5b6000602082840312156116e857600080fd5b813567ffffffff";
   "ffffffff8082111561170057600080fd5b818401915084601f83011261171457600080fd5b8135818111156117265761";
   "17266116a7565b604051601f82017fffffffffffffffffffffffffffffffffffffffffffffffffffffffffffffffe090";
   "8116603f0116810190838211818310171561176c5761176c6116a7565b81604052828152876020848701011115611785";
   "57600080fd5b826020860160208301376000928101602001929092525095945050505050565b60006020808352835180";
   "8285015260005b818110156117d2578581018301518582016040015282016117b6565b818111156117e4576000604083";
   "870101525b50601f017fffffffffffffffffffffffffffffffffffffffffffffffffffffffffffffffe0169290920160";
   "40019392505050565b60006020828403121561182a57600080fd5b5051919050565b6000602082840312156118435760";
   "0080fd5b815163ffffffff81168114610da257600080fd5b7f4e487b7100000000000000000000000000000000000000";
   "000000000000000000600052601160045260246000fd5b6000826118bc577f4e487b7100000000000000000000000000";
   "000000000000000000000000000000600052601260045260246000fd5b500490565b6000602082840312156118d35760";
   "0080fd5b815167ffffffffffffffff81168114610da257600080fd5b600082198211156118fe576118fe611857565b50";
   "0190565b6000817fffffffffffffffffffffffffffffffffffffffffffffffffffffffffffffffff0483118215151615";
   "61193b5761193b611857565b500290565b600063ffffffff808316818516818304811182151516156119635761196361";
   "1857565b02949350505050565b600181815b808511156119c557817fffffffffffffffffffffffffffffffffffffffff";
   "ffffffffffffffffffffffff048211156119ab576119ab611857565b808516156119b857918102915b93841c93908002";
   "90611971565b509250929050565b6000826119dc57506001610709565b816119e957506000610709565b816001811461";
   "19ff5760028114611a0957611a25565b6001915050610709565b60ff841115611a1a57611a1a611857565b5050600182";
   "1b610709565b5060208310610133831016604e8410600b8410161715611a48575081810a610709565b611a5283836119";
   "6c565b807fffffffffffffffffffffffffffffffffffffffffffffffffffffffffffffffff04821115611a8457611a84";
   "611857565b029392505050565b6000610da283836119cd565b6000808212827f7fffffffffffffffffffffffffffffff";
   "ffffffffffffffffffffffffffffffff03841381151615611ad257611ad2611857565b827f8000000000000000000000";
   "000000000000000000000000000000000000000000038412811615611b0657611b06611857565b50500190565b60007f";
   "7fffffffffffffffffffffffffffffffffffffffffffffffffffffffffffffff60008413600084138583048511828216";
   "1615611b4d57611b4d611857565b7f800000000000000000000000000000000000000000000000000000000000000060";
   "00871286820588128184161615611b8857611b88611857565b60008712925087820587128484161615611ba457611ba4";
   "611857565b87850587128184161615611bba57611bba611857565b505050929093029392505050565b7f4e487b710000";
   "0000000000000000000000000000000000000000000000000000600052603260045260246000fd5b60007fffffffffff";
   "ffffffffffffffffffffffffffffffffffffffffffffffffffffff8203611c2857611c28611857565b506001019056fe";
   "a164736f6c634300080f000a"].
Definition operatorFeeVaultDeploymentBytecode : bytes := FromHex
  ["60e060405234801561001057600080fd5b5073420000000000000000000000000000000000001960a052600060805260";
   "0160c05260805160a05160c0516107ef6100a7600039600081816101b3015281816102450152818161044b0152610486";
   "01526000818160b8015281816101800152818161039a01528181610429015281816104c201526105b701526000818161";
   "01ef01528181610279015261029d01526107ef6000f3fe60806040526004361061009a5760003560e01c806382356d8a";
   "1161006957806384411d651161004e57806384411d651461021d578063d0e12f9014610233578063d3e5792b14610267";
   "57600080fd5b806382356d8a146101a45780638312f149146101e057600080fd5b80630d9019e1146100a65780633ccf";
   "d60b1461010457806354fd4d501461011b57806366d003ac1461017157600080fd5b366100a157005b600080fd5b3480";
   "156100b257600080fd5b506100da7f000000000000000000000000000000000000000000000000000000000000000081";
   "565b60405173ffffffffffffffffffffffffffffffffffffffff90911681526020015b60405180910390f35b34801561";
   "011057600080fd5b5061011961029b565b005b34801561012757600080fd5b5061016460405180604001604052806005";
   "81526020017f312e302e3000000000000000000000000000000000000000000000000000000081525081565b60405161";
   "00fb9190610671565b34801561017d57600080fd5b507f00000000000000000000000000000000000000000000000000";
   "000000000000006100da565b3480156101b057600080fd5b507f00000000000000000000000000000000000000000000";
   "000000000000000000005b6040516100fb919061074e565b3480156101ec57600080fd5b507f00000000000000000000";
   "000000000000000000000000000000000000000000005b6040519081526020016100fb565b34801561022957600080fd";
   "5b5061020f60005481565b34801561023f57600080fd5b506101d37f0000000000000000000000000000000000000000";
   "00000000000000000000000081565b34801561027357600080fd5b5061020f7f00000000000000000000000000000000";
   "0000000000000000000000000000000081565b7f00000000000000000000000000000000000000000000000000000000";
   "00000000471015610376576040517f08c379a00000000000000000000000000000000000000000000000000000000081";
   "5260206004820152604a60248201527f4665655661756c743a207769746864726177616c20616d6f756e74206d757374";
   "60448201527f2062652067726561746572207468616e206d696e696d756d207769746864726160648201527f77616c20";
   "616d6f756e7400000000000000000000000000000000000000000000608482015260a4015b60405180910390fd5b6000";
   "4790508060008082825461038c9190610762565b9091555050604080518281527f000000000000000000000000000000";
   "000000000000000000000000000000000073ffffffffffffffffffffffffffffffffffffffff16602082015233818301";
   "5290517fc8a211cc64b6ed1b50595a9fcb1932b6d1e5a6e8ef15b60e5b1f988ea9086bba9181900360600190a17f38e0";
   "4cbeb8c10f8f568618aa75be0f10b6729b8b4237743b4de20cbcde2839ee817f00000000000000000000000000000000";
   "00000000000000000000000000000000337f000000000000000000000000000000000000000000000000000000000000";
   "000060405161047a94939291906107a1565b60405180910390a160017f00000000000000000000000000000000000000";
   "0000000000000000000000000060018111156104b6576104b66106e4565b0361057a5760006104e77f00000000000000";
   "0000000000000000000000000000000000000000000000000083610649565b905080610576576040517f08c379a00000";
   "0000000000000000000000000000000000000000000000000000815260206004820152603060248201527f4665655661";
   "756c743a206661696c656420746f2073656e642045544820746f2060448201527f4c322066656520726563697069656e";
   "7400000000000000000000000000000000606482015260840161036d565b5050565b6040517fc2b3e5ac000000000000";
   "00000000000000000000000000000000000000000000815273ffffffffffffffffffffffffffffffffffffffff7f0000";
   "00000000000000000000000000000000000000000000000000000000000016600482015262061a806024820152606060";
   "44820152600060648201527342000000000000000000000000000000000000169063c2b3e5ac90839060840160006040";
   "51808303818588803b15801561062d57600080fd5b505af1158015610641573d6000803e3d6000fd5b50505050505056";
   "5b6000610656835a8461065d565b9392505050565b6000806000806000858888f1949350505050565b60006020808352";
   "8351808285015260005b8181101561069e57858101830151858201604001528201610682565b818111156106b0576000";
   "604083870101525b50601f017fffffffffffffffffffffffffffffffffffffffffffffffffffffffffffffffe0169290";
   "92016040019392505050565b7f4e487b7100000000000000000000000000000000000000000000000000000000600052";
   "602160045260246000fd5b6002811061074a577f4e487b71000000000000000000000000000000000000000000000000";
   "00000000600052602160045260246000fd5b9052565b6020810161075c8284610713565b92915050565b600082198211";
   "1561079c577f4e487b710000000000000000000000000000000000000000000000000000000060005260116004526024";
   "6000fd5b500190565b84815273ffffffffffffffffffffffffffffffffffffffff848116602083015283166040820152";
   "608081016107d96060830184610713565b9594505050505056fea164736f6c634300080f000a"].
Definition blockHashDeploymentBytecode : bytes := FromHex
  ["60538060095f395ff33373fffffffffffffffffffffffffffffffffffffffe14604657602036036042575f3560014303";
   "8111604257611fff81430311604257611fff9006545f5260205ff35b5f5ffd5b5f35611fff60014303065500"].
(** Contract code of [jovian_upgrade_transactions.go]. *)
Definition l1BlockJovianDeploymentBytecode : bytes := FromHex
  ["608060405234801561001057600080fd5b50610715806100206000396000f3fe608060405234801561001057600080fd";
   "5b50600436106101985760003560e01c806364ca23ef116100e3578063c59859181161008c578063e81b2c6d11610066";
   "578063e81b2c6d146103f0578063f8206140146103f9578063fe3d57101461040257600080fd5b8063c5985918146103";
   "75578063d844471514610395578063e591b282146103ce57600080fd5b80638b239f73116100bd5780638b239f731461";
   "03435780639e8c49661461034c578063b80777ea1461035557600080fd5b806364ca23ef146102ff57806368d5dca614";
   "6103135780638381f58a1461032f57600080fd5b80634397dfef1161014557806354fd4d501161011f57806354fd4d50";
   "1461027b578063550fcdc9146102bd5780635cf24969146102f657600080fd5b80634397dfef1461021a578063440a5e";
   "20146102425780634d5d9a2a1461024a57600080fd5b806316d3bc7f1161017657806316d3bc7f146101d65780632132";
   "6849146102035780633db6be2b1461021257600080fd5b8063015d8eb91461019d578063098999be146101b257806309";
   "bd5a60146101ba575b600080fd5b6101b06101ab366004610623565b610433565b005b6101b0610572565b6101c36002";
   "5481565b6040519081526020015b60405180910390f35b6008546101ea9067ffffffffffffffff1681565b60405167ff";
   "ffffffffffffff90911681526020016101cd565b604051600081526020016101cd565b6101b0610585565b6040805173";
   "eeeeeeeeeeeeeeeeeeeeeeeeeeeeeeeeeeeeeeee815260126020820152016101cd565b6101b06105af565b6008546102";
   "669068010000000000000000900463ffffffff1681565b60405163ffffffff90911681526020016101cd565b60408051";
   "808201909152600581527f312e372e300000000000000000000000000000000000000000000000000000006020820152";
   "5b6040516101cd9190610695565b60408051808201909152600381527f45544800000000000000000000000000000000";
   "0000000000000000000000000060208201526102b0565b6101c360015481565b6003546101ea9067ffffffffffffffff";
   "1681565b6003546102669068010000000000000000900463ffffffff1681565b6000546101ea9067ffffffffffffffff";
   "1681565b6101c360055481565b6101c360065481565b6000546101ea9068010000000000000000900467ffffffffffff";
   "ffff1681565b600354610266906c01000000000000000000000000900463ffffffff1681565b60408051808201909152";
   "600581527f457468657200000000000000000000000000000000000000000000000000000060208201526102b0565b60";
   "405173deaddeaddeaddeaddeaddeaddeaddeaddead000181526020016101cd565b6101c360045481565b6101c3600754";
   "81565b600854610420906c01000000000000000000000000900461ffff1681565b60405161ffff909116815260200161";
   "01cd565b3373deaddeaddeaddeaddeaddeaddeaddeaddead0001146104da576040517f08c379a0000000000000000000";
   "00000000000000000000000000000000000000815260206004820152603b60248201527f4c31426c6f636b3a206f6e6c";
   "7920746865206465706f7369746f72206163636f60448201527f756e742063616e20736574204c3120626c6f636b2076";
   "616c7565730000000000606482015260840160405180910390fd5b6000805467ffffffffffffffff9889166801000000";
   "0000000000027fffffffffffffffffffffffffffffffff00000000000000000000000000000000909116998916999099";
   "179890981790975560019490945560029290925560038054919094167fffffffffffffffffffffffffffffffffffffff";
   "ffffffffff00000000000000009190911617909255600491909155600555600655565b61057a6105af565b60a43560a0";
   "1c600855565b61058d6105af565b6dffff00000000000000000000000060b03560901c1660a43560a01c17600855565b";
   "73deaddeaddeaddeaddeaddeaddeaddeaddead00013381146105d957633cc50b456000526004601cfd5b60043560801c";
   "60035560143560801c60005560243560015560443560075560643560025560843560045550565b803567ffffffffffff";
   "ffff8116811461061e57600080fd5b919050565b600080600080600080600080610100898b03121561064057600080fd";
   "5b61064989610606565b975061065760208a01610606565b9650604089013595506060890135945061067360808a0161";
   "0606565b979a969950949793969560a0850135955060c08501359460e001359350915050565b60006020808352835180";
   "8285015260005b818110156106c2578581018301518582016040015282016106a6565b818111156106d4576000604083";
   "870101525b50601f017fffffffffffffffffffffffffffffffffffffffffffffffffffffffffffffffe0169290920160";
   "4001939250505056fea164736f6c634300080f000a"].
Definition gasPriceOracleJovianDeploymentBytecode : bytes := FromHex
  ["608060405234801561001057600080fd5b50611ea8806100206000396000f3fe608060405234801561001057600080fd";
   "5b506004361061018d5760003560e01c806368d5dca6116100e3578063c59859181161008c578063f45e65d811610066";
   "578063f45e65d8146102fc578063f820614014610304578063fe173b971461029357600080fd5b8063c5985918146102";
   "ce578063de26c4a1146102d6578063f1c7a58b146102e957600080fd5b8063960e3a23116100bd578063960e3a231461";
   "02a1578063b3d72079146102b3578063b54501bc146102bb57600080fd5b806368d5dca6146102765780636ef25c3a14";
   "6102935780638e98b1061461029957600080fd5b80632e0f2625116101455780634ef6e2241161011f5780634ef6e224";
   "14610218578063519b4bd31461022557806354fd4d501461022d57600080fd5b80632e0f2625146101f6578063313ce5";
   "67146101fe57806349948e0e1461020557600080fd5b806322b90ab31161017657806322b90ab3146101d1578063275a";
   "edd2146101db578063291b0383146101ee57600080fd5b80630c18c16214610192578063105d0b81146101ad575b6000";
   "80fd5b61019a61030c565b6040519081526020015b60405180910390f35b6000546101c1906301000000900460ff1681";
   "565b60405190151581526020016101a4565b6101d961042d565b005b61019a6101e93660046118fa565b6105b6565b61";
   "01d9610776565b61019a600681565b600661019a565b61019a610213366004611942565b61099e565b6000546101c190";
   "60ff1681565b61019a6109db565b6102696040518060400160405280600581526020017f312e362e3000000000000000";
   "000000000000000000000000000000000000000081525081565b6040516101a49190611a11565b61027e610a3c565b60";
   "405163ffffffff90911681526020016101a4565b4861019a565b6101d9610ac1565b6000546101c190610100900460ff";
   "1681565b6101d9610cbb565b6000546101c19062010000900460ff1681565b61027e610ec2565b61019a6102e4366004";
   "611942565b610f23565b61019a6102f73660046118fa565b61101d565b61019a6110f1565b61019a6111e4565b600080";
   "5460ff16156103a5576040517f08c379a000000000000000000000000000000000000000000000000000000000815260";
   "206004820152602860248201527f47617350726963654f7261636c653a206f7665726865616428292069732064656044";
   "8201527f707265636174656400000000000000000000000000000000000000000000000060648201526084015b604051";
   "80910390fd5b73420000000000000000000000000000000000001573ffffffffffffffffffffffffffffffffffffffff";
   "16638b239f736040518163ffffffff1660e01b8152600401602060405180830381865afa158015610404573d6000803e";
   "3d6000fd5b505050506040513d601f19601f820116820180604052508101906104289190611a84565b905090565b3373";
   "deaddeaddeaddeaddeaddeaddeaddeaddead0001146104f6576040517f08c379a0000000000000000000000000000000";
   "00000000000000000000000000815260206004820152604160248201527f47617350726963654f7261636c653a206f6e";
   "6c7920746865206465706f73697460448201527f6f72206163636f756e742063616e2073657420697345636f746f6e65";
   "20666c6160648201527f6700000000000000000000000000000000000000000000000000000000000000608482015260";
   "a40161039c565b60005460ff1615610589576040517f08c379a000000000000000000000000000000000000000000000";
   "000000000000815260206004820152602660248201527f47617350726963654f7261636c653a2045636f746f6e652061";
   "6c72656164792060448201527f6163746976650000000000000000000000000000000000000000000000000000606482";
   "015260840161039c565b600080547fffffffffffffffffffffffffffffffffffffffffffffffffffffffffffffff0016";
   "6001179055565b6000805462010000900460ff166105cf57506000919050565b60007342000000000000000000000000";
   "0000000000001573ffffffffffffffffffffffffffffffffffffffff16634d5d9a2a6040518163ffffffff1660e01b81";
   "52600401602060405180830381865afa158015610630573d6000803e3d6000fd5b505050506040513d601f19601f8201";
   "16820180604052508101906106549190611a9d565b63ffffffff16905060007342000000000000000000000000000000";
   "0000001573ffffffffffffffffffffffffffffffffffffffff166316d3bc7f6040518163ffffffff1660e01b81526004";
   "01602060405180830381865afa1580156106bd573d6000803e3d6000fd5b505050506040513d601f19601f8201168201";
   "80604052508101906106e19190611ac3565b67ffffffffffffffff169050600060039054906101000a900460ff161561";
   "072a578061070d8386611b1c565b610718906064611b1c565b6107229190611b59565b949350505050565b610722620f";
   "424083860286810485148715177fffffffffffffffffffffffffffffffffffffffffffffffffffffffffffffffff0117";
   "6107699190611b71565b8281019081106000031790565b3373deaddeaddeaddeaddeaddeaddeaddeaddead0001146108";
   "3f576040517f08c379a00000000000000000000000000000000000000000000000000000000081526020600482015260";
   "4160248201527f47617350726963654f7261636c653a206f6e6c7920746865206465706f73697460448201527f6f7220";
   "6163636f756e742063616e20736574206973497374686d757320666c6160648201527f67000000000000000000000000";
   "00000000000000000000000000000000000000608482015260a40161039c565b600054610100900460ff166108d65760";
   "40517f08c379a00000000000000000000000000000000000000000000000000000000081526020600482015260396024";
   "8201527f47617350726963654f7261636c653a20497374686d75732063616e206f6e6c7960448201527f206265206163";
   "7469766174656420616674657220466a6f726400000000000000606482015260840161039c565b600054620100009004";
   "60ff161561096f576040517f08c379a00000000000000000000000000000000000000000000000000000000081526020";
   "6004820152602660248201527f47617350726963654f7261636c653a20497374686d757320616c726561647920604482";
   "01527f6163746976650000000000000000000000000000000000000000000000000000606482015260840161039c565b";
   "600080547fffffffffffffffffffffffffffffffffffffffffffffffffffffffffff00ffff1662010000179055565b60";
   "008054610100900460ff16156109be576109b882611245565b92915050565b60005460ff16156109d2576109b8826112";
   "64565b6109b882611308565b600073420000000000000000000000000000000000001573ffffffffffffffffffffffff";
   "ffffffffffffffff16635cf249696040518163ffffffff1660e01b8152600401602060405180830381865afa15801561";
   "0404573d6000803e3d6000fd5b600073420000000000000000000000000000000000001573ffffffffffffffffffffff";
   "ffffffffffffffffff166368d5dca66040518163ffffffff1660e01b8152600401602060405180830381865afa158015";
   "610a9d573d6000803e3d6000fd5b505050506040513d601f19601f820116820180604052508101906104289190611a9d";
   "565b3373deaddeaddeaddeaddeaddeaddeaddeaddead000114610b64576040517f08c379a00000000000000000000000";
   "0000000000000000000000000000000000815260206004820152603f60248201527f47617350726963654f7261636c65";
   "3a206f6e6c7920746865206465706f73697460448201527f6f72206163636f756e742063616e20736574206973466a6f";
   "726420666c616700606482015260840161039c565b60005460ff16610bf6576040517f08c379a0000000000000000000";
   "00000000000000000000000000000000000000815260206004820152603960248201527f47617350726963654f726163";
   "6c653a20466a6f72642063616e206f6e6c79206260448201527f65206163746976617465642061667465722045636f74";
   "6f6e6500000000000000606482015260840161039c565b600054610100900460ff1615610c8d576040517f08c379a000";
   "0000000000000000000000000000000000000000000000000000008152602060048201526024808201527f4761735072";
   "6963654f7261636c653a20466a6f726420616c726561647920616360448201527f746976650000000000000000000000";
   "0000000000000000000000000000000000606482015260840161039c565b600080547fffffffffffffffffffffffffff";
   "ffffffffffffffffffffffffffffffffff00ff16610100179055565b3373deaddeaddeaddeaddeaddeaddeaddeaddead";
   "000114610d6057604080517f08c379a00000000000000000000000000000000000000000000000000000000081526020";
   "600482015260248101919091527f47617350726963654f7261636c653a206f6e6c7920746865206465706f7369746044";
   "8201527f6f72206163636f756e742063616e207365742069734a6f7669616e20666c6167606482015260840161039c56";
   "5b60005462010000900460ff16610df8576040517f08c379a00000000000000000000000000000000000000000000000";
   "0000000000815260206004820152603a60248201527f47617350726963654f7261636c653a204a6f7669616e2063616e";
   "206f6e6c792060448201527f62652061637469766174656420616674657220497374686d757300000000000060648201";
   "5260840161039c565b6000546301000000900460ff1615610e92576040517f08c379a000000000000000000000000000";
   "000000000000000000000000000000815260206004820152602560248201527f47617350726963654f7261636c653a20";
   "4a6f7669616e20616c7265616479206160448201527f6374697665000000000000000000000000000000000000000000";
   "000000000000606482015260840161039c565b600080547fffffffffffffffffffffffffffffffffffffffffffffffff";
   "ffffffff00ffffff166301000000179055565b600073420000000000000000000000000000000000001573ffffffffff";
   "ffffffffffffffffffffffffffffff1663c59859186040518163ffffffff1660e01b8152600401602060405180830381";
   "865afa158015610a9d573d6000803e3d6000fd5b60008054610100900460ff1615610f6a57620f4240610f55610f4484";
   "61145c565b51610f50906044611b59565b611779565b610f60906010611b1c565b6109b89190611b71565b6000610f75";
   "836117d8565b60005490915060ff1615610f895792915050565b73420000000000000000000000000000000000001573";
   "ffffffffffffffffffffffffffffffffffffffff16638b239f736040518163ffffffff1660e01b815260040160206040";
   "5180830381865afa158015610fe8573d6000803e3d6000fd5b505050506040513d601f19601f82011682018060405250";
   "81019061100c9190611a84565b6110169082611b59565b9392505050565b60008054610100900460ff166110b5576040";
   "517f08c379a0000000000000000000000000000000000000000000000000000000008152602060048201526036602482";
   "01527f47617350726963654f7261636c653a206765744c314665655570706572426f7560448201527f6e64206f6e6c79";
   "20737570706f72747320466a6f726400000000000000000000606482015260840161039c565b60006110c2836044611b";
   "59565b905060006110d160ff83611b71565b6110db9083611b59565b6110e6906010611b59565b905061072281611868";
   "565b6000805460ff1615611185576040517f08c379a00000000000000000000000000000000000000000000000000000";
   "0000815260206004820152602660248201527f47617350726963654f7261636c653a207363616c617228292069732064";
   "65707260448201527f656361746564000000000000000000000000000000000000000000000000000060648201526084";
   "0161039c565b73420000000000000000000000000000000000001573ffffffffffffffffffffffffffffffffffffffff";
   "16639e8c49666040518163ffffffff1660e01b8152600401602060405180830381865afa158015610404573d6000803e";
   "3d6000fd5b600073420000000000000000000000000000000000001573ffffffffffffffffffffffffffffffffffffff";
   "ff1663f82061406040518163ffffffff1660e01b8152600401602060405180830381865afa158015610404573d600080";
   "3e3d6000fd5b60006109b86112538361145c565b5161125f906044611b59565b611868565b600080611270836117d856";
   "5b9050600061127c6109db565b611284610ec2565b61128f906010611bac565b63ffffffff1661129f9190611b1c565b";
   "905060006112ab6111e4565b6112b3610a3c565b63ffffffff166112c39190611b1c565b905060006112d18284611b59";
   "565b6112db9085611b1c565b90506112e96006600a611cf8565b6112f4906010611b1c565b6112fe9082611b71565b96";
   "95505050505050565b600080611314836117d8565b9050600073420000000000000000000000000000000000001573ff";
   "ffffffffffffffffffffffffffffffffffffff16639e8c49666040518163ffffffff1660e01b81526004016020604051";
   "80830381865afa158015611377573d6000803e3d6000fd5b505050506040513d601f19601f8201168201806040525081";
   "019061139b9190611a84565b6113a36109db565b73420000000000000000000000000000000000001573ffffffffffff";
   "ffffffffffffffffffffffffffff16638b239f736040518163ffffffff1660e01b815260040160206040518083038186";
   "5afa158015611402573d6000803e3d6000fd5b505050506040513d601f19601f82011682018060405250810190611426";
   "9190611a84565b6114309085611b59565b61143a9190611b1c565b6114449190611b1c565b90506114526006600a611c";
   "f8565b6107229082611b71565b60606115eb565b818153600101919050565b600082840393505b838110156110165782";
   "810151828201511860001a1590930292600101611476565b825b602082106114e35782516114ae601f83611463565b52";
   "602092909201917fffffffffffffffffffffffffffffffffffffffffffffffffffffffffffffffe09091019060210161";
   "1499565b81156110165782516114f86001840383611463565b520160010192915050565b60006001830392505b610107";
   "8210611544576115368360ff1661153160fd6115318760081c60e00189611463565b611463565b935061010682039150";
   "61150c565b600782106115715761156a8360ff16611531600785036115318760081c60e00189611463565b9050611016";
   "565b6107228360ff166115318560081c8560051b0187611463565b6115e38282036115c76115b784600081518060001a";
   "8160011a60081b178160021a60101b17915050919050565b639e3779b90260131c611fff1690565b8060021b60405101";
   "82815160e01c1860e01b8151188152505050565b600101919050565b6180003860405139618000604051016020830180";
   "600d8551820103826002015b8181101561171e576000805b50508051604051600082901a600183901a60081b17600292";
   "90921a60101b91909117639e3779b9810260111c617ffc16909101805160e081811c878603811890911b909118909152";
   "8401908183039084841061167357506116ae565b600184019350611fff82116116a8578251600081901a600182901a60";
   "081b1760029190911a60101b1781036116a857506116ae565b50611617565b8383106116bc57505061171e565b600183";
   "039250858311156116da576116d78787888603611497565b96505b6116ee60098501600385016003850161146e565b91";
   "506116fb878284611503565b9650506117138461170e8684860161158a565b61158a565b91505080935061160b565b50";
   "506117308383848851850103611497565b925050506040519150618000820180820391508183526020830160005b8381";
   "101561176557828101518282015260200161174d565b506000920191825250602001604052919050565b600080611789";
   "83620cc394611b1c565b6117b3907ffffffffffffffffffffffffffffffffffffffffffffffffffffffffffd76320061";
   "1d04565b90506117c36064620f4240611d78565b8112156109b8576110166064620f4240611d78565b80516000908190";
   "815b8181101561185b578481815181106117fb576117fb611e34565b01602001517fff00000000000000000000000000";
   "0000000000000000000000000000000000001660000361183b57611834600484611b59565b9250611849565b61184660";
   "1084611b59565b92505b8061185381611e63565b9150506117e1565b5061072282610440611b59565b60008061187483";
   "611779565b905060006118806111e4565b611888610a3c565b63ffffffff166118989190611b1c565b6118a06109db56";
   "5b6118a8610ec2565b6118b3906010611bac565b63ffffffff166118c39190611b1c565b6118cd9190611b59565b9050";
   "6118db60066002611b1c565b6118e690600a611cf8565b6118f08284611b1c565b6107229190611b71565b6000602082";
   "8403121561190c57600080fd5b5035919050565b7f4e487b710000000000000000000000000000000000000000000000";
   "0000000000600052604160045260246000fd5b60006020828403121561195457600080fd5b813567ffffffffffffffff";
   "8082111561196c57600080fd5b818401915084601f83011261198057600080fd5b813581811115611992576119926119";
   "13565b604051601f82017fffffffffffffffffffffffffffffffffffffffffffffffffffffffffffffffe0908116603f";
   "011681019083821181831017156119d8576119d8611913565b816040528281528760208487010111156119f157600080";
   "fd5b826020860160208301376000928101602001929092525095945050505050565b6000602080835283518082850152";
   "60005b81811015611a3e57858101830151858201604001528201611a22565b81811115611a5057600060408387010152";
   "5b50601f017fffffffffffffffffffffffffffffffffffffffffffffffffffffffffffffffe016929092016040019392";
   "505050565b600060208284031215611a9657600080fd5b5051919050565b600060208284031215611aaf57600080fd5b";
   "815163ffffffff8116811461101657600080fd5b600060208284031215611ad557600080fd5b815167ffffffffffffff";
   "ff8116811461101657600080fd5b7f4e487b710000000000000000000000000000000000000000000000000000000060";
   "0052601160045260246000fd5b6000817fffffffffffffffffffffffffffffffffffffffffffffffffffffffffffffff";
   "ff0483118215151615611b5457611b54611aed565b500290565b60008219821115611b6c57611b6c611aed565b500190";
   "565b600082611ba7577f4e487b7100000000000000000000000000000000000000000000000000000000600052601260";
   "045260246000fd5b500490565b600063ffffffff80831681851681830481118215151615611bcf57611bcf611aed565b";
   "02949350505050565b600181815b80851115611c3157817fffffffffffffffffffffffffffffffffffffffffffffffff";
   "ffffffffffffffff04821115611c1757611c17611aed565b80851615611c2457918102915b93841c9390800290611bdd";
   "565b509250929050565b600082611c48575060016109b8565b81611c55575060006109b8565b8160018114611c6b5760";
   "028114611c7557611c91565b60019150506109b8565b60ff841115611c8657611c86611aed565b50506001821b6109b8";
   "565b5060208310610133831016604e8410600b8410161715611cb4575081810a6109b8565b611cbe8383611bd8565b80";
   "7fffffffffffffffffffffffffffffffffffffffffffffffffffffffffffffffff04821115611cf057611cf0611aed56";
   "5b029392505050565b60006110168383611c39565b6000808212827f7fffffffffffffffffffffffffffffffffffffff";
   "ffffffffffffffffffffffff03841381151615611d3e57611d3e611aed565b827f800000000000000000000000000000";
   "0000000000000000000000000000000000038412811615611d7257611d72611aed565b50500190565b60007f7fffffff";
   "ffffffffffffffffffffffffffffffffffffffffffffffffffffffff600084136000841385830485118282161615611d";
   "b957611db9611aed565b7f80000000000000000000000000000000000000000000000000000000000000006000871286";
   "820588128184161615611df457611df4611aed565b60008712925087820587128484161615611e1057611e10611aed56";
   "5b87850587128184161615611e2657611e26611aed565b505050929093029392505050565b7f4e487b71000000000000";
   "00000000000000000000000000000000000000000000600052603260045260246000fd5b60007fffffffffffffffffff";
   "ffffffffffffffffffffffffffffffffffffffffffffff8203611e9457611e94611aed565b506001019056fea164736f";
   "6c634300080f000a"].
(** Contract code of [interop_upgrade_transactions.go]. *)
Definition crossL2InboxDeploymentBytecode : bytes := FromHex
  ["6080604052348015600e575f80fd5b506106828061001c5f395ff3fe608060405234801561000f575f80fd5b50600436";
   "1061003f575f3560e01c8063331b637f1461004357806354fd4d5014610069578063ab4d6f75146100b2575b5f80fd5b";
   "610056610051366004610512565b6100c7565b6040519081526020015b60405180910390f35b6100a560405180604001";
   "60405280600581526020017f312e302e3100000000000000000000000000000000000000000000000000000081525081";
   "565b604051610060919061053b565b6100c56100c036600461058e565b61039e565b005b5f67ffffffffffffffff8016";
   "83602001511115610110576040517fd1f79e820000000000000000000000000000000000000000000000000000000081";
   "5260040160405180910390fd5b604083015163ffffffff1015610152576040517f94338eba0000000000000000000000";
   "0000000000000000000000000000000000815260040160405180910390fd5b606083015167ffffffffffffffff101561";
   "0198576040517f596a19a900000000000000000000000000000000000000000000000000000000815260040160405180";
   "910390fd5b82516040515f916101dd91859060200160609290921b7fffffffffffffffffffffffffffffffffffffffff";
   "000000000000000000000000168252601482015260340190565b604080518083037fffffffffffffffffffffffffffff";
   "ffffffffffffffffffffffffffffffffffe00181528282528051602091820120878201516060890151898501515f9487";
   "018590527fffffffffffffffff00000000000000000000000000000000000000000000000060c084811b8216602c8a01";
   "5283901b1660348801527fffffffff0000000000000000000000000000000000000000000000000000000060e082901b";
   "16603c88015292965090949093919291016040516020818303038152906040526102ac906105bc565b90505f85826040";
   "516020016102cb929190918252602082015260400190565b604080517fffffffffffffffffffffffffffffffffffffff";
   "ffffffffffffffffffffffffe0818403018152828252805160209182012060808d01519184018190529183015291505f";
   "90606001604080517fffffffffffffffffffffffffffffffffffffffffffffffffffffffffffffffe081840301815291";
   "905280516020909101207effffffffffffffffffffffffffffffffffffffffffffffffffffffffffffff167f03000000";
   "00000000000000000000000000000000000000000000000000000000179a9950505050505050505050565b5f6103b761";
   "03b136859003850185610601565b836100c7565b90505f6103c38261043b565b509050806103fd576040517fe3c00816";
   "00000000000000000000000000000000000000000000000000000000815260040160405180910390fd5b827f5c37832d";
   "2e8d10e346e55ad62071a6a2f9fa5130614ef2ec6617555c6f467ba78560405161042d9190610622565b604051809103";
   "90a250505050565b5f805a835491505a6103e891031115939092509050565b803573ffffffffffffffffffffffffffff";
   "ffffffffffff81168114610475575f80fd5b919050565b5f60a0828403121561048a575f80fd5b60405160a081018181";
   "1067ffffffffffffffff821117156104d2577f4e487b7100000000000000000000000000000000000000000000000000";
   "0000005f52604160045260245ffd5b6040529050806104e183610452565b815260208301356020820152604083013560";
   "4082015260608301356060820152608083013560808201525092915050565b5f8060c08385031215610523575f80fd5b";
   "61052d848461047a565b9460a0939093013593505050565b602081525f82518060208401528060208501604085015e5f";
   "6040828501015260407fffffffffffffffffffffffffffffffffffffffffffffffffffffffffffffffe0601f83011684";
   "010191505092915050565b5f8082840360c08112156105a0575f80fd5b60a08112156105ad575f80fd5b50919360a085";
   "01359350915050565b805160208083015191908110156105fb577fffffffffffffffffffffffffffffffffffffffffff";
   "ffffffffffffffffffffff8160200360031b1b821691505b50919050565b5f60a08284031215610611575f80fd5b6106";
   "1b838361047a565b9392505050565b60a0810173ffffffffffffffffffffffffffffffffffffffff6106448461045256";
   "5b1682526020830135602083015260408301356040830152606083013560608301526080830135608083015292915050";
   "56fea164736f6c6343000819000a"].
Definition superchainETHBridgeDeploymentBytecode : bytes := FromHex
  ["608060405234801561001057600080fd5b5061078b806100206000396000f3fe60806040526004361061003457600035";
   "60e01c80634f0edcc91461003957806354fd4d501461005b57806364a197f3146100ba575b600080fd5b348015610045";
   "57600080fd5b506100596100543660046105ae565b6100db565b005b34801561006757600080fd5b506100a460405180";
   "60400160405280600581526020017f312e302e3100000000000000000000000000000000000000000000000000000081";
   "525081565b6040516100b1919061065a565b60405180910390f35b6100cd6100c8366004610674565b610340565b6040";
   "519081526020016100b1565b3373420000000000000000000000000000000000002314610128576040517f82b4290000";
   "000000000000000000000000000000000000000000000000000000815260040160405180910390fd5b60008073420000";
   "000000000000000000000000000000002373ffffffffffffffffffffffffffffffffffffffff16637936cbee60405181";
   "63ffffffff1660e01b81526004016040805180830381865afa158015610189573d6000803e3d6000fd5b505050506040";
   "513d601f19601f820116820180604052508101906101ad91906106a0565b909250905073ffffffffffffffffffffffff";
   "ffffffffffffffff82163014610201576040517fbc22e2aa000000000000000000000000000000000000000000000000";
   "00000000815260040160405180910390fd5b6040517fa0712d6800000000000000000000000000000000000000000000";
   "0000000000008152600481018490527342000000000000000000000000000000000000259063a0712d68906024016000";
   "60405180830381600087803b15801561026757600080fd5b505af115801561027b573d6000803e3d6000fd5b50505050";
   "828460405161028d9061057d565b73ffffffffffffffffffffffffffffffffffffffff90911681526020016040518091";
   "039082f09050801580156102c7573d6000803e3d6000fd5b50508373ffffffffffffffffffffffffffffffffffffffff";
   "168573ffffffffffffffffffffffffffffffffffffffff167fe5479bb8ebad3b9ac81f55f424a6289cf0a54ff2641708";
   "f41dcb2b26f264d3598584604051610331929190918252602082015260400190565b60405180910390a3505050505056";
   "5b600073ffffffffffffffffffffffffffffffffffffffff831661038f576040517fd92e233d00000000000000000000";
   "000000000000000000000000000000000000815260040160405180910390fd5b73420000000000000000000000000000";
   "000000002573ffffffffffffffffffffffffffffffffffffffff166344df8e70346040518263ffffffff1660e01b8152";
   "6004016000604051808303818588803b1580156103eb57600080fd5b505af11580156103ff573d6000803e3d6000fd5b";
   "50506040805133602482015273ffffffffffffffffffffffffffffffffffffffff881660448201523460648083019190";
   "915282518083039091018152608490910182526020810180517bffffffffffffffffffffffffffffffffffffffffffff";
   "ffffffffffff167f4f0edcc90000000000000000000000000000000000000000000000000000000017905290517f7056";
   "f41f00000000000000000000000000000000000000000000000000000000815273420000000000000000000000000000";
   "00000000239450637056f41f93506104de9250869130916004016106ce565b6020604051808303816000875af1158015";
   "6104fd573d6000803e3d6000fd5b505050506040513d601f19601f82011682018060405250810190610521919061070c";
   "565b604080513481526020810185905291925073ffffffffffffffffffffffffffffffffffffffff85169133917fed98";
   "a2ff78833375c368471a747cdf0633024dde3f870feb08a934ac5be83402910160405180910390a392915050565b6059";
   "8061072683390190565b73ffffffffffffffffffffffffffffffffffffffff811681146105ab57600080fd5b50565b60";
   "00806000606084860312156105c357600080fd5b83356105ce81610589565b925060208401356105de81610589565b92";
   "9592945050506040919091013590565b6000815180845260005b81811015610615576020818501810151868301820152";
   "016105f9565b81811115610627576000602083870101525b50601f017fffffffffffffffffffffffffffffffffffffff";
   "ffffffffffffffffffffffffe0169290920160200192915050565b60208152600061066d60208301846105ef565b9392";
   "505050565b6000806040838503121561068757600080fd5b823561069281610589565b94602093909301359350505056";
   "5b600080604083850312156106b357600080fd5b82516106be81610589565b6020939093015192949293505050565b83";
   "815273ffffffffffffffffffffffffffffffffffffffff83166020820152606060408201526000610703606083018461";
   "05ef565b95945050505050565b60006020828403121561071e57600080fd5b505191905056fe60806040526040516059";
   "3803806059833981016040819052601e91602a565b806001600160a01b0316ff5b600060208284031215603b57600080";
   "fd5b81516001600160a01b0381168114605157600080fd5b939250505056fea164736f6c634300080f000a"].
Definition ethLiquidityDeploymentBytecode : bytes := FromHex
  ["608060405234801561001057600080fd5b50610393806100206000396000f3fe60806040526004361061003f57600035";
   "60e01c806344df8e701461004457806354fd4d501461004e578063a0712d68146100ad578063b60d4288146100cd575b";
   "600080fd5b61004c6100d5565b005b34801561005a57600080fd5b506100976040518060400160405280600581526020";
   "017f312e312e3000000000000000000000000000000000000000000000000000000081525081565b6040516100a49190";
   "6102a1565b60405180910390f35b3480156100b957600080fd5b5061004c6100c8366004610314565b61015a565b6100";
   "4c610229565b3373420000000000000000000000000000000000002414610122576040517f82b4290000000000000000";
   "000000000000000000000000000000000000000000815260040160405180910390fd5b60405134815233907f875e07af";
   "d7ce17c6531b1a6b7b34829dcd8b7e6639448afbd6a8e29fa1422b82906020015b60405180910390a2565b3373420000";
   "0000000000000000000000000000000024146101a7576040517f82b42900000000000000000000000000000000000000";
   "00000000000000000000815260040160405180910390fd5b80336040516101b590610295565b73ffffffffffffffffff";
   "ffffffffffffffffffffff90911681526020016040518091039082f09050801580156101ef573d6000803e3d6000fd5b";
   "505060405181815233907f85719716ac5bd2744ae7ed3d16702129383049b97123b506320e7a5826ebbbba9060200160";
   "405180910390a250565b34600003610263576040517f2c5211c600000000000000000000000000000000000000000000";
   "000000000000815260040160405180910390fd5b60405134815233907fbb9e497a5b82d1a37f9496dd70c6efb97ba0d9";
   "8c66c3422d05010105d063359890602001610150565b60598061032e83390190565b6000602080835283518082850152";
   "60005b818110156102ce578581018301518582016040015282016102b2565b818111156102e057600060408387010152";
   "5b50601f017fffffffffffffffffffffffffffffffffffffffffffffffffffffffffffffffe016929092016040019392";
   "505050565b60006020828403121561032657600080fd5b503591905056fe608060405260405160593803806059833981";
   "016040819052601e91602a565b806001600160a01b0316ff5b600060208284031215603b57600080fd5b815160016001";
   "60a01b0381168114605157600080fd5b939250505056fea164736f6c634300080f000a"].
Definition l2ToL2MessengerDeploymentBytecode : bytes := FromHex
  ["6080604052348015600e575f80fd5b506111928061001c5f395ff3fe6080604052600436106100b8575f3560e01c8063";
   "7056f41f116100715780638d1d298f1161004c5780638d1d298f14610253578063b1b1b20914610266578063ecc70428";
   "14610294575f80fd5b80637056f41f146101b65780637936cbee146101d557806382e3702d14610215575f80fd5b8063";
   "52617f3c116100a157806352617f3c1461011c57806354fd4d50146101425780636b0c3c5e14610197575f80fd5b8063";
   "24794462146100bc57806338ffde18146100e3575b5f80fd5b3480156100c7575f80fd5b506100d06102c8565b604051";
   "9081526020015b60405180910390f35b3480156100ee575f80fd5b506100f7610347565b60405173ffffffffffffffff";
   "ffffffffffffffffffffffff90911681526020016100da565b348015610127575f80fd5b5061012f5f81565b60405161";
   "ffff90911681526020016100da565b34801561014d575f80fd5b5061018a604051806040016040528060058152602001";
   "7f312e322e3000000000000000000000000000000000000000000000000000000081525081565b6040516100da919061";
   "0ca9565b3480156101a2575f80fd5b506100d06101b1366004610d2b565b6103c6565b3480156101c1575f80fd5b5061";
   "00d06101d0366004610da2565b6104b2565b3480156101e0575f80fd5b506101e96106e5565b6040805173ffffffffff";
   "ffffffffffffffffffffffffffffff90931683526020830191909152016100da565b348015610220575f80fd5b506102";
   "4361022f366004610dfa565b60026020525f908152604090205460ff1681565b60405190151581526020016100da565b";
   "61018a610261366004610e11565b610789565b348015610271575f80fd5b50610243610280366004610dfa565b5f6020";
   "819052908152604090205460ff1681565b34801561029f575f80fd5b506001547dffffffffffffffffffffffffffffff";
   "ffffffffffffffffffffffffffffff166100d0565b5f7ff13569814868ede994184d5a425471fb19e869768a33421cb7";
   "01a2ba3d420c0a5c610321576040517fbca35af600000000000000000000000000000000000000000000000000000000";
   "815260040160405180910390fd5b507f711dfa3259c842fffc17d6e1f1e0fc5927756133a2345ca56b4cb8178589fee7";
   "5c90565b5f7ff13569814868ede994184d5a425471fb19e869768a33421cb701a2ba3d420c0a5c6103a0576040517fbc";
   "a35af600000000000000000000000000000000000000000000000000000000815260040160405180910390fd5b507fb8";
   "3444d07072b122e2e72a669ce32857d892345c19856f4e7142d06a167ab3f35c90565b5f61040a874688888888888080";
   "601f0160208091040260200160405190810160405280939291908181526020018383808284375f92019190915250610b";
   "0c92505050565b5f8181526002602052604090205490915060ff16610454576040517f6eca2e4b000000000000000000";
   "00000000000000000000000000000000000000815260040160405180910390fd5b858473ffffffffffffffffffffffff";
   "ffffffffffffffff16887f382409ac69001e11931a28435afef442cbfd20d9891907e8fa373ba7d351f3208887876040";
   "516104a093929190610e67565b60405180910390a49695505050505050565b5f4685036104ec576040517f8ed9a95d00";
   "000000000000000000000000000000000000000000000000000000815260040160405180910390fd5b7fffffffffffff";
   "ffffffffffffbdffffffffffffffffffffffffffffffffffffdd73ffffffffffffffffffffffffffffffffffffffff85";
   "160161055b576040517f4faa250900000000000000000000000000000000000000000000000000000000815260040160";
   "405180910390fd5b5f6105856001547dffffffffffffffffffffffffffffffffffffffffffffffffffffffffffff1690";
   "565b90506105ca864683338989898080601f016020809104026020016040519081016040528093929190818152602001";
   "8383808284375f92019190915250610b0c92505050565b5f81815260026020526040812080547fffffffffffffffffff";
   "ffffffffffffffffffffffffffffffffffffffffffff0016600190811790915580549294507dffffffffffffffffffff";
   "ffffffffffffffffffffffffffffffffffffffff909216919061063583610ed0565b91906101000a8154817dffffffff";
   "ffffffffffffffffffffffffffffffffffffffffffffffffffff02191690837dffffffffffffffffffffffffffffffff";
   "ffffffffffffffffffffffffffff16021790555050808573ffffffffffffffffffffffffffffffffffffffff16877f38";
   "2409ac69001e11931a28435afef442cbfd20d9891907e8fa373ba7d351f3203388886040516106d493929190610e6756";
   "5b60405180910390a450949350505050565b5f807ff13569814868ede994184d5a425471fb19e869768a33421cb701a2";
   "ba3d420c0a5c61073f576040517fbca35af6000000000000000000000000000000000000000000000000000000008152";
   "60040160405180910390fd5b50507fb83444d07072b122e2e72a669ce32857d892345c19856f4e7142d06a167ab3f35c";
   "907f711dfa3259c842fffc17d6e1f1e0fc5927756133a2345ca56b4cb8178589fee75c90565b60607ff13569814868ed";
   "e994184d5a425471fb19e869768a33421cb701a2ba3d420c0a5c156107e4576040517f37ed32e8000000000000000000";
   "00000000000000000000000000000000000000815260040160405180910390fd5b60017ff13569814868ede994184d5a";
   "425471fb19e869768a33421cb701a2ba3d420c0a5d73420000000000000000000000000000000000002361082a602086";
   "0186610f31565b73ffffffffffffffffffffffffffffffffffffffff1614610877576040517f7987c157000000000000";
   "00000000000000000000000000000000000000000000815260040160405180910390fd5b734200000000000000000000";
   "00000000000000002273ffffffffffffffffffffffffffffffffffffffff1663ab4d6f758585856040516108b8929190";
   "610f4c565b6040519081900381207fffffffff0000000000000000000000000000000000000000000000000000000060";
   "e085901b1682526108f79291600401610f5b565b5f604051808303815f87803b15801561090e575f80fd5b505af11580";
   "15610920573d5f803e3d5ffd5b505050505f805f805f6109338888610b4a565b94509450945094509450468514610976";
   "576040517f31ac2211000000000000000000000000000000000000000000000000000000008152600401604051809103";
   "90fd5b60808901355f61098a878387878a88610b0c565b5f8181526020819052604090205490915060ff16156109d557";
   "6040517f9ca9480b00000000000000000000000000000000000000000000000000000000815260040160405180910390";
   "fd5b5f81815260208190526040902080547fffffffffffffffffffffffffffffffffffffffffffffffffffffffffffff";
   "ff00166001179055610a158285610c13565b5f8673ffffffffffffffffffffffffffffffffffffffff16348560405161";
   "0a3c9190610fb4565b5f6040518083038185875af1925050503d805f8114610a76576040519150601f19603f3d011682";
   "016040523d82523d5f602084013e610a7b565b606091505b509950905080610a8d57885189602001fd5b8186847fc270";
   "d73e26d2d39dee7ef92093555927e344e243415547ecc350b2b5385b68a28c80519060200120604051610ac891815260";
   "200190565b60405180910390a4610ada5f80610c13565b50505050505050505f7ff13569814868ede994184d5a425471";
   "fb19e869768a33421cb701a2ba3d420c0a5d9392505050565b5f868686868686604051602001610b2896959493929190";
   "610fca565b6040516020818303038152906040528051906020012090509695505050505050565b5f808080606081610b";
   "5e602082898b611020565b810190610b6b9190610dfa565b90507f382409ac69001e11931a28435afef442cbfd20d989";
   "1907e8fa373ba7d351f3208114610bc6576040517fdf1eb5860000000000000000000000000000000000000000000000";
   "0000000000815260040160405180910390fd5b610bd460806020898b611020565b810190610be19190611047565b9197";
   "5095509350610bf5876080818b611020565b810190610c0291906110a9565b969995985093965092949392505050565b";
   "817f711dfa3259c842fffc17d6e1f1e0fc5927756133a2345ca56b4cb8178589fee75d807fb83444d07072b122e2e72a";
   "669ce32857d892345c19856f4e7142d06a167ab3f35d5050565b5f81518084528060208401602086015e5f6020828601";
   "015260207fffffffffffffffffffffffffffffffffffffffffffffffffffffffffffffffe0601f830116850101915050";
   "92915050565b602081525f610cbb6020830184610c5d565b9392505050565b73ffffffffffffffffffffffffffffffff";
   "ffffffff81168114610ce3575f80fd5b50565b5f8083601f840112610cf6575f80fd5b50813567ffffffffffffffff81";
   "1115610d0d575f80fd5b602083019150836020828501011115610d24575f80fd5b9250929050565b5f805f805f8060a0";
   "8789031215610d40575f80fd5b86359550602087013594506040870135610d5981610cc2565b93506060870135610d69";
   "81610cc2565b9250608087013567ffffffffffffffff811115610d84575f80fd5b610d9089828a01610ce6565b979a96";
   "99509497509295939492505050565b5f805f8060608587031215610db5575f80fd5b843593506020850135610dc78161";
   "0cc2565b9250604085013567ffffffffffffffff811115610de2575f80fd5b610dee87828801610ce6565b9598949750";
   "9550505050565b5f60208284031215610e0a575f80fd5b5035919050565b5f805f83850360c0811215610e24575f80fd";
   "5b60a0811215610e31575f80fd5b5083925060a084013567ffffffffffffffff811115610e4e575f80fd5b610e5a8682";
   "8701610ce6565b9497909650939450505050565b73ffffffffffffffffffffffffffffffffffffffff84168152604060";
   "20820152816040820152818360608301375f818301606090810191909152601f9092017fffffffffffffffffffffffff";
   "ffffffffffffffffffffffffffffffffffffffe016010192915050565b5f7dffffffffffffffffffffffffffffffffff";
   "ffffffffffffffffffffffffff808316818103610f27577f4e487b710000000000000000000000000000000000000000";
   "00000000000000005f52601160045260245ffd5b6001019392505050565b5f60208284031215610f41575f80fd5b8135";
   "610cbb81610cc2565b818382375f9101908152919050565b60c081018335610f6a81610cc2565b73ffffffffffffffff";
   "ffffffffffffffffffffffff168252602084810135908301526040808501359083015260608085013590830152608093";
   "8401359382019390935260a0015290565b5f82518060208501845e5f920191825250919050565b868152856020820152";
   "8460408201525f73ffffffffffffffffffffffffffffffffffffffff808616606084015280851660808401525060c060";
   "a083015261101460c0830184610c5d565b98975050505050505050565b5f808585111561102e575f80fd5b8386111561";
   "103a575f80fd5b5050820193919092039150565b5f805f60608486031215611059575f80fd5b83359250602084013561";
   "106b81610cc2565b929592945050506040919091013590565b7f4e487b71000000000000000000000000000000000000";
   "000000000000000000005f52604160045260245ffd5b5f80604083850312156110ba575f80fd5b82356110c581610cc2";
   "565b9150602083013567ffffffffffffffff808211156110e1575f80fd5b818501915085601f8301126110f4575f80fd";
   "5b8135818111156111065761110661107c565b604051601f82017fffffffffffffffffffffffffffffffffffffffffff";
   "ffffffffffffffffffffe0908116603f0116810190838211818310171561114c5761114c61107c565b81604052828152";
   "886020848701011115611164575f80fd5b826020860160208301375f6020848301015280955050505050509250929050";
   "56fea164736f6c6343000819000a"].
