(* ===== verification/UpgradeTxs.v ===== *)
(** * Network upgrade transactions

    Models [op-node/rollup/derive/*_upgrade_transactions.go] and
    [upgrade_transaction.go]: the deposits that the node inserts into the first
    block of a fork, either from code or from an embedded bundle (NUT). *)

From stdpp Require Import pretty.
From Stdlib Require Ascii.
From S2P Require Import Prelude GoBytes Errors Eth RollupConfig Geth SysConfig Deposits L1BlockInfo UpgradeCode.

Section upgrades.
Context `{Geth}.

Definition selector (sig : string) : bytes := take 4 (Keccak256Hash (bytes_of_string sig)).
Definition UpgradeToFuncBytes4 : bytes := selector "upgradeTo(address)".

Definition upgradeToCalldata (addr : Address) : bytes := UpgradeToFuncBytes4 ++ WriteAddress addr.

(** An upgrade deposit; it is no system transaction. *)
Definition upgrade_tx (intent : string) (from : Address) (to : option Address) (amount gas : Z)
    (data : bytes) : DepositTx :=
  mkDepositTx (SourceHash (UpgradeDepositSource (bytes_of_string intent))) from to (Some amount) amount
    gas false data.

(** Deposits are encoded one after the other, up to the first error. *)
Fixpoint marshal_all (ds : list DepositTx) : Res (list Data) :=
  match ds with
  | [] => Ok []
  | d :: ds => tx ← MarshalDepositTx d; txs ← marshal_all ds; Ok (tx :: txs)
  end.

(** ** Ecotone *)
Definition newL1BlockAddress : Address := CreateAddress L1BlockDeployerAddress 0.
Definition newGasPriceOracleAddress : Address := CreateAddress GasPriceOracleDeployerAddress 0.

Definition ecotone_deposits : list DepositTx :=
  [upgrade_tx "Ecotone: L1 Block Deployment" L1BlockDeployerAddress None 0 375000 l1BlockDeploymentBytecode;
   upgrade_tx "Ecotone: Gas Price Oracle Deployment" GasPriceOracleDeployerAddress None 0 1000000
     gasPriceOracleDeploymentBytecode;
   upgrade_tx "Ecotone: L1 Block Proxy Update" zeroAddress (Some L1BlockAddr) 0 50000
     (upgradeToCalldata newL1BlockAddress);
   upgrade_tx "Ecotone: Gas Price Oracle Proxy Update" zeroAddress (Some GasPriceOracleAddr) 0 50000
     (upgradeToCalldata newGasPriceOracleAddress);
   upgrade_tx "Ecotone: Gas Price Oracle Set Ecotone" L1InfoDepositerAddress (Some GasPriceOracleAddr) 0
     80000 (selector "setEcotone()");
   upgrade_tx "Ecotone: beacon block roots contract deployment" EIP4788From None 0 250000
     eip4788CreationData].
Definition EcotoneNetworkUpgradeTransactions : Res (list Data) := marshal_all ecotone_deposits.

(** ** Fjord *)
Definition fjord_deposits : list DepositTx :=
  [upgrade_tx "Fjord: Gas Price Oracle Deployment" GasPriceOracleFjordDeployerAddress None 0 1450000
     gasPriceOracleFjordDeploymentBytecode;
   upgrade_tx "Fjord: Gas Price Oracle Proxy Update" zeroAddress (Some GasPriceOracleAddr) 0 50000
     (upgradeToCalldata fjordGasPriceOracleAddress);
   upgrade_tx "Fjord: Gas Price Oracle Set Fjord" L1InfoDepositerAddress (Some GasPriceOracleAddr) 0 90000
     (selector "setFjord()")].
Definition FjordNetworkUpgradeTransactions : Res (list Data) := marshal_all fjord_deposits.

(** ** Isthmus *)
Definition isthmusL1BlockAddress : Address := CreateAddress L1BlockIsthmusDeployerAddress 0.
Definition isthmusGasPriceOracleAddress : Address := CreateAddress GasPriceOracleIsthmusDeployerAddress 0.
Definition OperatorFeeVaultAddress : Address := CreateAddress OperatorFeeVaultDeployerAddress 0.

Definition isthmus_deposits : list DepositTx :=
  [upgrade_tx "Isthmus: L1 Block Deployment" L1BlockIsthmusDeployerAddress None 0 425000
     l1BlockIsthmusDeploymentBytecode;
   upgrade_tx "Isthmus: Gas Price Oracle Deployment" GasPriceOracleIsthmusDeployerAddress None 0 1625000
     gasPriceOracleIsthmusDeploymentBytecode;
   upgrade_tx "Isthmus: Operator Fee Vault Deployment" OperatorFeeVaultDeployerAddress None 0 500000
     operatorFeeVaultDeploymentBytecode;
   upgrade_tx "Isthmus: L1 Block Proxy Update" zeroAddress (Some L1BlockAddr) 0 50000
     (upgradeToCalldata isthmusL1BlockAddress);
   upgrade_tx "Isthmus: Gas Price Oracle Proxy Update" zeroAddress (Some GasPriceOracleAddr) 0 50000
     (upgradeToCalldata isthmusGasPriceOracleAddress);
   upgrade_tx "Isthmus: Operator Fee Vault Proxy Update" zeroAddress (Some OperatorFeeVaultAddr) 0 50000
     (upgradeToCalldata OperatorFeeVaultAddress);
   upgrade_tx "Isthmus: Gas Price Oracle Set Isthmus" L1InfoDepositerAddress (Some GasPriceOracleAddr) 0
     90000 (selector "setIsthmus()");
   upgrade_tx "Isthmus: EIP-2935 Contract Deployment" EIP2935ContractDeployer None 0 250000
     blockHashDeploymentBytecode].
Definition IsthmusNetworkUpgradeTransactions : Res (list Data) := marshal_all isthmus_deposits.

(** ** Jovian *)
Definition jovianL1BlockAddress : Address := CreateAddress L1BlockJovianDeployerAddress 0.
Definition jovianGasPriceOracleAddress : Address := CreateAddress GasPriceOracleJovianDeployerAddress 0.

Definition jovian_deploy_l1block : DepositTx :=
  upgrade_tx "Jovian: L1 Block Deployment" L1BlockJovianDeployerAddress None 0 447315
    l1BlockJovianDeploymentBytecode.
Definition jovian_update_l1block : DepositTx :=
  upgrade_tx "Jovian: L1 Block Proxy Update" zeroAddress (Some L1BlockAddr) 0 50000
    (upgradeToCalldata jovianL1BlockAddress).
Definition DAFootprintNetworkUpgradeTransactions : Res (list Data) :=
  deployL1Block ← map_err (Errorf "build tx to deploy L1 block transaction")
    (MarshalDepositTx jovian_deploy_l1block);
  updateL1BlockProxy ← map_err (Errorf "build tx to the update L1 block proxy")
    (MarshalDepositTx jovian_update_l1block);
  Ok [deployL1Block; updateL1BlockProxy].

Definition operator_fee_fix_deposits : list DepositTx :=
  [upgrade_tx "Jovian: Gas Price Oracle Deployment" GasPriceOracleJovianDeployerAddress None 0 1750714
     gasPriceOracleJovianDeploymentBytecode;
   upgrade_tx "Jovian: Gas Price Oracle Proxy Update" zeroAddress (Some GasPriceOracleAddr) 0 50000
     (upgradeToCalldata jovianGasPriceOracleAddress);
   upgrade_tx "Jovian: Gas Price Oracle Set Jovian" L1InfoDepositerAddress (Some GasPriceOracleAddr) 0 90000
     (selector "setJovian()")].
Definition OperatorFeeFixUpgradeTransactions : Res (list Data) := marshal_all operator_fee_fix_deposits.

Definition JovianNetworkUpgradeTransactions : Res (list Data) :=
  da ← DAFootprintNetworkUpgradeTransactions;
  operator ← OperatorFeeFixUpgradeTransactions;
  Ok (da ++ operator).

(** ** Interop *)
Definition CrossL2InboxAddress : Address := CreateAddress crossL2InboxDeployerAddress 0.
Definition SuperchainETHBridgeAddress : Address := CreateAddress superchainETHBridgeDeployerAddress 0.
Definition ETHLiquidityAddress : Address := CreateAddress ethLiquidityDeployerAddress 0.
Definition L2ToL2MessengerAddress : Address := CreateAddress l2ToL2MessengerDeployerAddress 0.

Definition InteropETHLiquidityFundingAmount : Z := 0xffffffffffffffffffffffffffffffff.

Definition interop_deposits : list DepositTx :=
  [upgrade_tx "Interop: L2ToL2CrossDomainMessenger Deployment" l2ToL2MessengerDeployerAddress None 0 1100000
     l2ToL2MessengerDeploymentBytecode;
   upgrade_tx "Interop: L2ToL2CrossDomainMessenger Proxy Update" zeroAddress
     (Some L2toL2CrossDomainMessengerAddr) 0 50000 (upgradeToCalldata L2ToL2MessengerAddress);
   upgrade_tx "Interop: SuperchainETHBridge Deployment" superchainETHBridgeDeployerAddress None 0 500000
     superchainETHBridgeDeploymentBytecode;
   upgrade_tx "Interop: SuperchainETHBridge Proxy Update" zeroAddress (Some SuperchainETHBridgeAddr) 0 50000
     (upgradeToCalldata SuperchainETHBridgeAddress);
   upgrade_tx "Interop: ETHLiquidity Deployment" ethLiquidityDeployerAddress None 0 375000
     ethLiquidityDeploymentBytecode;
   upgrade_tx "Interop: ETHLiquidity Proxy Update" zeroAddress (Some ETHLiquidityAddr) 0 50000
     (upgradeToCalldata ETHLiquidityAddress);
   upgrade_tx "Interop: ETHLiquidity Funding" L1InfoDepositerAddress (Some ETHLiquidityAddr)
     InteropETHLiquidityFundingAmount 50000 (selector "fund()")].
Definition InteropNetworkUpgradeTransactions : Res (list Data) := marshal_all interop_deposits.

Definition cross_l2_inbox_deposits : list DepositTx :=
  [upgrade_tx "Interop: CrossL2Inbox Deployment" crossL2InboxDeployerAddress None 0 420000
     crossL2InboxDeploymentBytecode;
   upgrade_tx "Interop: CrossL2Inbox Proxy Update" zeroAddress (Some CrossL2InboxAddr) 0 50000
     (upgradeToCalldata CrossL2InboxAddress)].
Definition InteropActivateCrossL2InboxTransactions : Res (list Data) := marshal_all cross_l2_inbox_deposits.
End upgrades.

(** ** Bundles of upgrade transactions *)

Record networkUpgradeTransaction := mkNUT {
  nut_Intent : string;
  nut_From : Address;
  nut_To : option Address;
  nut_Data : Data;
  nut_GasLimit : Z }.
Record nutBundle := mkBundle {
  nb_ForkName : string;
  nb_Version : string;
  nb_Transactions : list networkUpgradeTransaction }.
Definition nutBundleVersion : string := "1.0.0".

(** The bundle file is embedded at build time and parsed by [encoding/json]. *)
Class NUTBundles := {
  KarstNUTBundleJSON : bytes;
  json_Decode : bytes → Res nutBundle;
}.

Section bundles.
Context `{Geth}.

Definition readNUTBundle `{NUTBundles} (fork : string) (r : bytes) : Res nutBundle :=
  bundle ← map_err (Errorf "failed to parse NUT bundle") (json_Decode r);
  if negb (bool_decide (nb_Version bundle = nutBundleVersion))
  then Err (ErrorsNew "unsupported NUT bundle version")
  else Ok (mkBundle fork (nb_Version bundle) (nb_Transactions bundle)).

Definition totalGas (b : nutBundle) : Z :=
  foldl (λ total tx, total +₆₄ nut_GasLimit tx) 0 (nb_Transactions b).

(** [fmt.Sprintf("%s %d: %s", b.ForkName, i, nutTx.Intent)] *)
Definition qualifiedIntent (fork : string) (i : nat) (intent : string) : string :=
  fork +:+ " " +:+ pretty i +:+ ": " +:+ intent.
Definition nut_deposit (fork : string) (i : nat) (tx : networkUpgradeTransaction) : DepositTx :=
  mkDepositTx (SourceHash (UpgradeDepositSource (bytes_of_string (qualifiedIntent fork i (nut_Intent tx)))))
    (nut_From tx) (nut_To tx) (Some 0) 0 (nut_GasLimit tx) false (nut_Data tx).

Fixpoint nut_deposits_from (fork : string) (i : nat) (txs : list networkUpgradeTransaction)
    : Res (list Data) :=
  match txs with
  | [] => Ok []
  | tx :: txs =>
    if decide (nut_Intent tx = "") then Err (ErrorsNew "missing intent")
    else
      encoded ← map_err (Errorf "failed to marshal deposit tx") (MarshalDepositTx (nut_deposit fork i tx));
      rest ← nut_deposits_from fork (S i) txs;
      Ok (encoded :: rest)
  end.
Definition toDepositTransactions (b : nutBundle) : Res (list Data) :=
  nut_deposits_from (nb_ForkName b) 0 (nb_Transactions b).

Definition UpgradeTransactions `{NUTBundles} (fork : ForkName) : Res (list Data * Z) :=
  match fork with
  | Karst =>
    bundle ← map_err (Errorf "reading NUT bundle") (readNUTBundle "karst" KarstNUTBundleJSON);
    txs ← map_err (Errorf "converting NUT bundle to deposit txs") (toDepositTransactions bundle);
    Ok (txs, totalGas bundle)
  | _ => Err (ErrorsNew "no NUT bundle for fork")
  end.
End bundles.

(** ** Every upgrade transaction has a source of its own *)

Fixpoint no_colon (s : string) : bool :=
  match s with
  | EmptyString => true
  | String c s => negb (bool_decide (c = Ascii.ascii_of_nat 58)) && no_colon s
  end.

Lemma split_colon s1 s2 t1 t2 :
  no_colon s1 = true → no_colon s2 = true → s1 +:+ String (Ascii.ascii_of_nat 58) t1 = s2 +:+ String (Ascii.ascii_of_nat 58) t2 → s1 = s2.
Proof.
  revert s2. induction s1 as [|c s1 IH]; intros [|d s2] H1 H2 Heq; cbn in H1, H2, Heq; simplify_eq; [done..|].
  apply andb_true_iff in H1 as [_ H1], H2 as [_ H2]. f_equal. by eapply IH.
Qed.

Lemma pretty_N_go_no_colon x s : no_colon s = true → no_colon (pretty_N_go x s) = true.
Proof.
  revert s. induction (N.lt_wf_0 x) as [x _ IH]; intros s Hs.
  destruct (decide (0 < x)%N) as [Hx|Hx].
  - rewrite pretty_N_go_step by done. apply IH; [by apply N.div_lt|].
    cbn [no_colon]. rewrite Hs, andb_true_r. unfold pretty_N_char. by repeat case_match.
  - assert (x = 0%N) as -> by lia. done.
Qed.
Lemma pretty_no_colon (n : nat) : no_colon (pretty n) = true.
Proof.
  unfold pretty, pretty_nat, pretty, pretty_N. case_decide; [done|]. by apply pretty_N_go_no_colon.
Qed.

Lemma bytes_of_string_inj s s' : bytes_of_string s = bytes_of_string s' → s = s'.
Proof.
  intros Heq. rewrite <- (String.string_of_list_byte_of_string s), <- (String.string_of_list_byte_of_string s').
  unfold bytes_of_string in Heq. by rewrite Heq.
Qed.

Lemma qualifiedIntent_inj fork i j a b :
  qualifiedIntent fork i a = qualifiedIntent fork j b → i = j.
Proof.
  unfold qualifiedIntent. intros Heq. apply (inj (String.append fork)) in Heq.
  cbn in Heq. injection Heq as Heq. apply split_colon in Heq; try apply pretty_no_colon. by apply (inj pretty).
Qed.

(** The deposits that come from code, of all forks. *)
Definition code_deposits `{Geth} : list DepositTx :=
  ecotone_deposits ++ fjord_deposits ++ isthmus_deposits
  ++ [jovian_deploy_l1block; jovian_update_l1block] ++ operator_fee_fix_deposits
  ++ interop_deposits ++ cross_l2_inbox_deposits.
Definition code_intents : list string :=
  ["Ecotone: L1 Block Deployment"; "Ecotone: Gas Price Oracle Deployment"; "Ecotone: L1 Block Proxy Update";
   "Ecotone: Gas Price Oracle Proxy Update"; "Ecotone: Gas Price Oracle Set Ecotone";
   "Ecotone: beacon block roots contract deployment";
   "Fjord: Gas Price Oracle Deployment"; "Fjord: Gas Price Oracle Proxy Update";
   "Fjord: Gas Price Oracle Set Fjord";
   "Isthmus: L1 Block Deployment"; "Isthmus: Gas Price Oracle Deployment";
   "Isthmus: Operator Fee Vault Deployment"; "Isthmus: L1 Block Proxy Update";
   "Isthmus: Gas Price Oracle Proxy Update"; "Isthmus: Operator Fee Vault Proxy Update";
   "Isthmus: Gas Price Oracle Set Isthmus"; "Isthmus: EIP-2935 Contract Deployment";
   "Jovian: L1 Block Deployment"; "Jovian: L1 Block Proxy Update"; "Jovian: Gas Price Oracle Deployment";
   "Jovian: Gas Price Oracle Proxy Update"; "Jovian: Gas Price Oracle Set Jovian";
   "Interop: L2ToL2CrossDomainMessenger Deployment"; "Interop: L2ToL2CrossDomainMessenger Proxy Update";
   "Interop: SuperchainETHBridge Deployment"; "Interop: SuperchainETHBridge Proxy Update";
   "Interop: ETHLiquidity Deployment"; "Interop: ETHLiquidity Proxy Update"; "Interop: ETHLiquidity Funding";
   "Interop: CrossL2Inbox Deployment"; "Interop: CrossL2Inbox Proxy Update"]%string.

Section sources.
Context `{Geth}.

Definition intent_source (s : string) : Hash := SourceHash (UpgradeDepositSource (bytes_of_string s)).
Lemma intent_source_inj s s' :
  (∀ a b, Keccak256Hash a = Keccak256Hash b → a = b) → intent_source s = intent_source s' → s = s'.
Proof.
  intros Hinj Heq. apply Hinj, app_inv_head, Hinj in Heq. by apply bytes_of_string_inj.
Qed.

(** The deposits of a bundle and the intents that tell them apart. *)
Definition nut_deposits (fork : string) (txs : list networkUpgradeTransaction) : list DepositTx :=
  imap (nut_deposit fork) txs.
Definition nut_intents (fork : string) (txs : list networkUpgradeTransaction) : list string :=
  imap (λ i tx, qualifiedIntent fork i (nut_Intent tx)) txs.

Lemma all_sources txs :
  dep_SourceHash <$> (code_deposits ++ nut_deposits "karst" txs)
  = intent_source <$> (code_intents ++ nut_intents "karst" txs).
Proof.
  rewrite !fmap_app. apply (f_equal2 app); [reflexivity|].
  unfold nut_deposits, nut_intents. by rewrite !fmap_imap.
Qed.

Lemma all_intents_NoDup txs : NoDup (code_intents ++ nut_intents "karst" txs).
Proof.
  apply NoDup_app. split_and!.
  - apply (bool_decide_eq_true_1 (NoDup code_intents)). by vm_compute.
  - intros s Hs Hn. unfold nut_intents in Hn. apply elem_of_lookup_imap in Hn as (i & tx & -> & _).
    repeat (apply elem_of_cons in Hs as [Hs|Hs]; [by inversion Hs|]). by apply elem_of_nil in Hs.
  - apply NoDup_alt. intros i j s Hi Hj. unfold nut_intents in *.
    rewrite list_lookup_imap in Hi, Hj.
    destruct (txs !! i) as [a|], (txs !! j) as [b|]; try done; cbn in Hi, Hj.
    apply (qualifiedIntent_inj "karst" i j (nut_Intent a) (nut_Intent b)). congruence.
Qed.

Lemma nut_deposits_encoded fork i txs out :
  nut_deposits_from fork i txs = Ok out →
  Forall2 (λ d enc, MarshalDepositTx d = Ok enc) (imap (λ j, nut_deposit fork (i + j)) txs) out.
Proof.
  revert i out. induction txs as [|tx txs IH]; intros i out; cbn [nut_deposits_from imap].
  { by intros [= <-]. }
  case_decide; [done|]. intros Hout. inv_bind Hout. apply map_err_ok in Hb. simplify_eq.
  constructor; [by rewrite Nat.add_0_r|].
  erewrite imap_ext; [by apply (IH (S i))|]. intros j x _. cbn. by rewrite Nat.add_succ_r.
Qed.

Lemma totalGas_sum fork b :
  totalGas b = wrap64 (foldr Z.add 0 (dep_Gas <$> nut_deposits fork (nb_Transactions b))).
Proof.
  unfold totalGas, nut_deposits. rewrite fmap_imap. cbn [dep_Gas nut_deposit].
  rewrite (imap_ext _ (λ _, nut_GasLimit)), (imap_const nut_GasLimit) by done.
  assert (Hgen : ∀ l a, foldl (λ total tx, total +₆₄ nut_GasLimit tx) (wrap64 a) l
    = wrap64 (a + foldr Z.add 0 (nut_GasLimit <$> l))).
  { induction l as [|tx l IH]; intros a; cbn; [by rewrite Z.add_0_r|].
    unfold wrap. rewrite Zplus_mod_idemp_l. fold (wrap64 (a + nut_GasLimit tx)). rewrite IH.
    unfold wrap. f_equal. lia. }
  apply (Hgen _ 0).
Qed.

(** where the hash has no collisions, no two upgrade transactions of any forks
    have the same source hash: neither those that come from code nor those of the
    bundle, even where two transactions of a bundle state the same intent. The
    transactions of the bundle are encoded in order, and the gas that is added to the
    block is the sum of their limits. *)
Theorem upgrade_sources_distinct `{!NUTBundles} txs gas :
  (∀ a b, Keccak256Hash a = Keccak256Hash b → a = b) →
  UpgradeTransactions Karst = Ok (txs, gas) →
  ∃ nuts, Forall2 (λ d enc, MarshalDepositTx d = Ok enc) nuts txs ∧
    gas = wrap64 (foldr Z.add 0 (dep_Gas <$> nuts)) ∧
    NoDup (dep_SourceHash <$> (code_deposits ++ nuts)).
Proof.
  intros Hinj Hup. unfold UpgradeTransactions in Hup. inv_bind Hup. simplify_eq.
  apply map_err_ok in Hb. unfold readNUTBundle in Hb. inv_bind Hb. apply map_err_ok in Hb0.
  case_match; simplify_eq. unfold toDepositTransactions in Hb0. cbn in Hb0.
  exists (nut_deposits "karst" (nb_Transactions a0)). split_and!.
  - by apply nut_deposits_encoded in Hb0.
  - apply (totalGas_sum "karst" (mkBundle _ _ _)).
  - rewrite all_sources. apply NoDup_fmap_2_strong; [|apply all_intents_NoDup].
    intros s s' _ _. by apply intent_source_inj.
Qed.
End sources.

(** ** An example: a bundle with the same intent twice *)

Module BundleExample.
#[local] Existing Instance DepositsExample.geth.
Definition tx : networkUpgradeTransaction := mkNUT "Deploy" zeroAddress None [x01] 100.
#[local] Instance bundles : NUTBundles := {
  KarstNUTBundleJSON := [];
  json_Decode _ := Ok (mkBundle "" "1.0.0" [tx; tx]);
}.
End BundleExample.

Lemma upgrade_sources_distinct_witness :
  ∃ nuts, length nuts = 2%nat ∧
    NoDup (@dep_SourceHash <$> (@code_deposits DepositsExample.geth ++ nuts)).
Proof.
  destruct (@upgrade_sources_distinct DepositsExample.geth BundleExample.bundles
    [[DepositTxType; x01]; [DepositTxType; x01]] 200 ltac:(done) ltac:(by vm_compute))
    as (nuts & Hn & _ & Hd).
  exists nuts. split; [|exact Hd]. by apply Forall2_length in Hn.
Defined.
