(* ===== verification/SpanBatchTxs.v ===== *)
(** * Transactions of a span batch

    Models [op-node/rollup/derive/span_batch_util.go], [span_batch_tx.go] and
    [span_batch_txs.go]: the column-wise encoding of the transactions of a span
    batch. The RLP codec and the transaction type of go-ethereum are the
    operations of a class. *)

From S2P Require Import Prelude GoBytes Errors Eth.

Definition MaxSpanBatchElementCount : Z := 10000000.

(** ** Bit lists ([big.Int] used as a set of bits) *)

Definition BitLen (z : Z) : Z := if z =? 0 then 0 else Z.log2 z + 1.
Definition SetBit (z : Z) (i : nat) (b : bool) : Z :=
  if b then Z.setbit z (Z.of_nat i) else Z.clearbit z (Z.of_nat i).
Definition Bit (z : Z) (i : nat) : bool := Z.testbit z (Z.of_nat i).

(** Bytes needed for a number of bits, rounding up. *)
Definition bits_bufLen (bitLength : Z) : nat :=
  Z.to_nat (bitLength / 8 + (if bitLength mod 8 =? 0 then 0 else 1)).

Definition decodeSpanBatchBits (bitLength : Z) : Rd Z :=
  buf ← rd_err (λ e, Errorf "failed to read bits" (io_err e)) (ReadFull (bits_bufLen bitLength));
  let out := be_val buf in
  rd_check (BitLen out <=? bitLength) (ErrorsNew "bitfield has more bits than expected") ≫= λ _,
  mret out.

Definition encodeSpanBatchBits (bitLength : Z) (bits : Z) : Res bytes :=
  if bitLength <? BitLen bits then Err (ErrorsNew "bitfield is larger than bitLength")
  else Ok (be_bytes (bits_bufLen bitLength) bits).

(** ** Transactions

    [types.Transaction] by its kinds, with the fields of [core/types]. *)
Abbreviation AccessList := (list (Address * list Hash)).
Record SetCodeAuthorization := mkSetCodeAuthorization {
  auth_ChainID : Z; auth_Address : Address; auth_Nonce : Z; auth_V : Z; auth_R : Z; auth_S : Z }.

Definition LegacyTxType : Z := 0.
Definition AccessListTxType : Z := 1.
Definition DynamicFeeTxType : Z := 2.
Definition SetCodeTxTypeNum : Z := 4.

(** [spanBatchTxData]: what is left of a transaction once nonce, gas, recipient
    and signature are stored elsewhere. *)
Inductive spanBatchTxData :=
| spanBatchLegacyTxData (Value GasPrice : Z) (Data : bytes)
| spanBatchAccessListTxData (Value GasPrice : Z) (Data : bytes) (AL : AccessList)
| spanBatchDynamicFeeTxData (Value GasTipCap GasFeeCap : Z) (Data : bytes) (AL : AccessList)
| spanBatchSetCodeTxData (Value GasTipCap GasFeeCap : Z) (Data : bytes) (AL : AccessList)
    (Auth : list SetCodeAuthorization).

Definition txType (t : spanBatchTxData) : Z :=
  match t with
  | spanBatchLegacyTxData _ _ _ => LegacyTxType
  | spanBatchAccessListTxData _ _ _ _ => AccessListTxType
  | spanBatchDynamicFeeTxData _ _ _ _ _ => DynamicFeeTxType
  | spanBatchSetCodeTxData _ _ _ _ _ _ => SetCodeTxTypeNum
  end.

(** A full transaction: the kinds a span batch can carry, or another one. The
    chain id is a field of all kinds but the legacy one. *)
Inductive TxData :=
| LegacyTx (Nonce GasPrice Gas : Z) (To : option Address) (Value : Z) (Data : bytes) (V R S : Z)
| AccessListTx (ChainID Nonce GasPrice Gas : Z) (To : option Address) (Value : Z) (Data : bytes)
    (AL : AccessList) (V R S : Z)
| DynamicFeeTx (ChainID Nonce GasTipCap GasFeeCap Gas : Z) (To : option Address) (Value : Z)
    (Data : bytes) (AL : AccessList) (V R S : Z)
| SetCodeTx (ChainID Nonce GasTipCap GasFeeCap Gas : Z) (To : Address) (Value : Z) (Data : bytes)
    (AL : AccessList) (Auth : list SetCodeAuthorization) (V R S : Z)
| OtherTx (Type_ : Z) (raw : bytes).

(** Accessors of [types.Transaction]. *)
Definition full_Type (t : TxData) : Z :=
  match t with
  | LegacyTx _ _ _ _ _ _ _ _ _ => LegacyTxType
  | AccessListTx _ _ _ _ _ _ _ _ _ _ _ => AccessListTxType
  | DynamicFeeTx _ _ _ _ _ _ _ _ _ _ _ _ => DynamicFeeTxType
  | SetCodeTx _ _ _ _ _ _ _ _ _ _ _ _ _ => SetCodeTxTypeNum
  | OtherTx n _ => n
  end.
Definition full_Nonce (t : TxData) : Z :=
  match t with
  | LegacyTx n _ _ _ _ _ _ _ _ | AccessListTx _ n _ _ _ _ _ _ _ _ _
  | DynamicFeeTx _ n _ _ _ _ _ _ _ _ _ _ | SetCodeTx _ n _ _ _ _ _ _ _ _ _ _ _ => n
  | OtherTx _ _ => 0
  end.
Definition full_Gas (t : TxData) : Z :=
  match t with
  | LegacyTx _ _ g _ _ _ _ _ _ | AccessListTx _ _ _ g _ _ _ _ _ _ _
  | DynamicFeeTx _ _ _ _ g _ _ _ _ _ _ _ | SetCodeTx _ _ _ _ g _ _ _ _ _ _ _ _ => g
  | OtherTx _ _ => 0
  end.
Definition full_To (t : TxData) : option Address :=
  match t with
  | LegacyTx _ _ _ to _ _ _ _ _ | AccessListTx _ _ _ _ to _ _ _ _ _ _
  | DynamicFeeTx _ _ _ _ _ to _ _ _ _ _ _ => to
  | SetCodeTx _ _ _ _ _ to _ _ _ _ _ _ _ => Some to
  | OtherTx _ _ => None
  end.
Definition RawSignatureValues (t : TxData) : Z * Z * Z :=
  match t with
  | LegacyTx _ _ _ _ _ _ v r s | AccessListTx _ _ _ _ _ _ _ _ v r s
  | DynamicFeeTx _ _ _ _ _ _ _ _ _ v r s | SetCodeTx _ _ _ _ _ _ _ _ _ _ v r s => (v, r, s)
  | OtherTx _ _ => (0, 0, 0)
  end.

(** What is used of go-ethereum: transaction encoding, chain id and replay
    protection of a transaction, RLP of the inner data and of a list item at the
    front of a stream with a size limit. *)
Class TxLib := {
  tx_MarshalBinary : TxData → Res bytes;
  tx_UnmarshalBinary : bytes → Res TxData;
  tx_Protected : TxData → bool;
  tx_ChainId : TxData → Z;
  rlp_EncodeToBytes : spanBatchTxData → bytes;
  rlp_DecodeBytes : Z → bytes → Res spanBatchTxData;
  (* [Kind] of a fresh stream with a size limit is a list, then [Raw]; its errors are the
     ones the caller reports for them *)
  rlp_RawList : Z → Rd bytes;
}.

Definition ErrTypedTxTooShort : error := ErrorsNew "typed transaction too short".
Definition ErrTxTypeNotSupported : error := ErrorsNew "transaction type not supported".

Section tx.
Context `{TxLib}.

Definition spanBatchTx_MarshalBinary (tx : spanBatchTxData) : bytes :=
  if txType tx =? LegacyTxType then rlp_EncodeToBytes tx
  else z2b (txType tx) :: rlp_EncodeToBytes tx.

Definition spanBatchTx_decodeTyped (b : bytes) : Res spanBatchTxData :=
  match b with
  | t :: (_ :: _) as rest =>
    if decide (b2z t = AccessListTxType ∨ b2z t = DynamicFeeTxType ∨ b2z t = SetCodeTxTypeNum)
    then map_err (Errorf "failed to decode span batch tx data") (rlp_DecodeBytes (b2z t) rest)
    else Err ErrTxTypeNotSupported
  | _ => Err (Errorf "failed to decode span batch" ErrTypedTxTooShort)
  end.

Definition spanBatchTx_UnmarshalBinary (b : bytes) : Res spanBatchTxData :=
  match b with
  | t :: _ =>
    if 127 <? b2z t
    then map_err (Errorf "failed to decode spanBatchLegacyTxData") (rlp_DecodeBytes LegacyTxType b)
    else spanBatchTx_decodeTyped b
  | [] => spanBatchTx_decodeTyped b
  end.

Definition convertToFullTx (tx : spanBatchTxData) (nonce gas : Z) (to : option Address)
    (chainID V R S : Z) : Res TxData :=
  match tx with
  | spanBatchLegacyTxData value price data =>
    Ok (LegacyTx nonce price gas to value data V R S)
  | spanBatchAccessListTxData value price data al =>
    Ok (AccessListTx chainID nonce price gas to value data al V R S)
  | spanBatchDynamicFeeTxData value tip cap data al =>
    Ok (DynamicFeeTx chainID nonce tip cap gas to value data al V R S)
  | spanBatchSetCodeTxData value tip cap data al auth =>
    match to with
    | None => Err (ErrorsNew "to address is required for SetCodeTx")
    | Some to => Ok (SetCodeTx chainID nonce tip cap gas to value data al auth V R S)
    end
  end.

Definition newSpanBatchTx (tx : TxData) : Res spanBatchTxData :=
  match tx with
  | LegacyTx _ price _ _ value data _ _ _ => Ok (spanBatchLegacyTxData value price data)
  | AccessListTx _ _ price _ _ value data al _ _ _ =>
    Ok (spanBatchAccessListTxData value price data al)
  | DynamicFeeTx _ _ tip cap _ _ value data al _ _ _ =>
    Ok (spanBatchDynamicFeeTxData value tip cap data al)
  | SetCodeTx _ _ tip cap _ _ value data al auth _ _ _ =>
    Ok (spanBatchSetCodeTxData value tip cap data al auth)
  | OtherTx _ _ => Err (ErrorsNew "invalid tx type")
  end.

(** ** The columns *)

Record spanBatchSignature := mkSig { sig_v : Z; sig_r : Z; sig_s : Z }.

(** [protectedBits] and [contractCreationBits] are nil until they are set. *)
Record spanBatchTxs := mkSpanBatchTxs {
  totalBlockTxCount : Z;
  contractCreationBits : Z;
  yParityBits : Z;
  txSigs : list spanBatchSignature;
  txNonces : list Z;
  txGases : list Z;
  txTos : list Address;
  txDatas : list bytes;
  protectedBits : Z;
  txTypes : list Z;
  totalLegacyTxCount : Z }.

Definition isProtectedV (v : Z) (typ : Z) : bool :=
  if typ =? LegacyTxType then negb (v =? 27) && negb (v =? 28) else true.

(** [bigs.Uint64Strict] panics on a value that does not fit; the parity is used
    as a bit, which [SetBit] panics on when it is neither 0 nor 1. *)
Definition Uint64Strict (v : Z) : Res Z :=
  if decide (is_u64 v) then Ok v else Panic "bigs.Uint64Strict: value does not fit in uint64".
Definition convertVToYParity (v : Z) (typ : Z) : Res Z :=
  if typ =? LegacyTxType then
    if isProtectedV v typ then Ok (if Z.testbit (v - 35) 0 then 1 else 0)
    else n ← Uint64Strict v; Ok (n -₆₄ 27)
  else if (typ =? AccessListTxType) || (typ =? DynamicFeeTxType) || (typ =? SetCodeTxTypeNum)
  then Uint64Strict v
  else Err (ErrorsNew "invalid tx type").
Definition SetBitUint (z : Z) (i : nat) (b : Z) : Res Z :=
  if b =? 0 then Ok (SetBit z i false)
  else if b =? 1 then Ok (SetBit z i true)
  else Panic "set bit is not 0 or 1".

(** One transaction of [AddTxs]; [i] is its index among all transactions. The parts
    of the signature are cut to 256 bits by [uint256.FromBig]. An error is final:
    callers drop the batch, so the columns it leaves behind are not kept. *)
Definition AddTx (chainID : Z) (i : nat) (sb : spanBatchTxs) (raw : bytes) : Res spanBatchTxs :=
  match tx_UnmarshalBinary raw with
  | Panic w => Panic w
  | Err _ => Err (ErrorsNew "failed to decode tx")
  | Ok tx =>
    let legacy := full_Type tx =? LegacyTxType in
    let protectedBits' :=
      if legacy then SetBit (protectedBits sb) (Z.to_nat (totalLegacyTxCount sb)) (tx_Protected tx)
      else protectedBits sb in
    let legacyCount := if legacy then totalLegacyTxCount sb + 1 else totalLegacyTxCount sb in
    if tx_Protected tx && negb (tx_ChainId tx =? chainID) then
      Err (ErrorsNew "protected tx has unexpected chain ID")
    else
      let '(v, r, s) := RawSignatureValues tx in
      let tos := match full_To tx with Some to => txTos sb ++ [to] | None => txTos sb end in
      let creation := SetBit (contractCreationBits sb) i (bool_decide (full_To tx = None)) in
      yParityBit ← convertVToYParity v (full_Type tx);
      parity ← SetBitUint (yParityBits sb) i yParityBit;
      stx ← newSpanBatchTx tx;
      Ok (mkSpanBatchTxs (totalBlockTxCount sb) creation parity
            (txSigs sb ++ [mkSig v (r mod 2 ^ 256) (s mod 2 ^ 256)])
            (txNonces sb ++ [full_Nonce tx]) (txGases sb ++ [full_Gas tx]) tos
            (txDatas sb ++ [spanBatchTx_MarshalBinary stx]) protectedBits'
            (txTypes sb ++ [full_Type tx]) legacyCount)
  end.

Fixpoint AddTxs_loop (chainID : Z) (i : nat) (sb : spanBatchTxs) (txs : list bytes)
    : Res spanBatchTxs :=
  match txs with
  | [] => Ok sb
  | raw :: txs => sb ← AddTx chainID i sb raw; AddTxs_loop chainID (S i) sb txs
  end.
Definition set_totalBlockTxCount (n : Z) (sb : spanBatchTxs) : spanBatchTxs :=
  mkSpanBatchTxs n (contractCreationBits sb) (yParityBits sb) (txSigs sb) (txNonces sb)
    (txGases sb) (txTos sb) (txDatas sb) (protectedBits sb) (txTypes sb) (totalLegacyTxCount sb).
Definition AddTxs (sb : spanBatchTxs) (txs : list bytes) (chainID : Z) : Res spanBatchTxs :=
  sb' ← AddTxs_loop chainID (Z.to_nat (totalBlockTxCount sb)) sb txs;
  Ok (set_totalBlockTxCount (totalBlockTxCount sb +₆₄ Z.of_nat (length txs)) sb').

Definition emptySpanBatchTxs : spanBatchTxs := mkSpanBatchTxs 0 0 0 [] [] [] [] [] 0 [] 0.
Definition newSpanBatchTxs (txs : list bytes) (chainID : Z) : Res spanBatchTxs :=
  AddTxs emptySpanBatchTxs txs chainID.

(** *** Encoding *)

Definition encodeTxSigsRS (sb : spanBatchTxs) : bytes :=
  mjoin ((λ sig, be_bytes 32 (sig_r sig) ++ be_bytes 32 (sig_s sig)) <$> txSigs sb).
Definition encodeTxNonces (sb : spanBatchTxs) : bytes := mjoin (PutUvarint <$> txNonces sb).
Definition encodeTxGases (sb : spanBatchTxs) : bytes := mjoin (PutUvarint <$> txGases sb).
Definition encodeTxTos (sb : spanBatchTxs) : bytes := mjoin (txTos sb).
Definition encodeTxDatas (sb : spanBatchTxs) : bytes := mjoin (txDatas sb).

Definition spanBatchTxs_encode (sb : spanBatchTxs) : Res bytes :=
  creation ← map_err (Errorf "failed to encode contract creation bits")
    (encodeSpanBatchBits (totalBlockTxCount sb) (contractCreationBits sb));
  parity ← map_err (Errorf "failed to encode y-parity bits")
    (encodeSpanBatchBits (totalBlockTxCount sb) (yParityBits sb));
  protected ← map_err (Errorf "failed to encode protected bits")
    (encodeSpanBatchBits (totalLegacyTxCount sb) (protectedBits sb));
  Ok (creation ++ parity ++ encodeTxSigsRS sb ++ encodeTxTos sb ++ encodeTxDatas sb
      ++ encodeTxNonces sb ++ encodeTxGases sb ++ protected).

(** *** Decoding *)

(** [n] values in a row. *)
Fixpoint read_n {A} (n : nat) (m : Rd A) : Rd (list A) :=
  match n with
  | O => mret []
  | S n => x ← m; xs ← read_n n m; mret (x :: xs)
  end.

Definition decodeContractCreationBits (total : Z) : Rd Z :=
  if MaxSpanBatchElementCount <? total then rd_fail ErrTooBigSpanBatchSize
  else rd_err (Errorf "failed to decode contract creation bits") (decodeSpanBatchBits total).
Definition decodeYParityBits (total : Z) : Rd Z :=
  rd_err (Errorf "failed to decode y-parity bits") (decodeSpanBatchBits total).
Definition decodeProtectedBits (total : Z) : Rd Z :=
  if MaxSpanBatchElementCount <? total then rd_fail ErrTooBigSpanBatchSize
  else rd_err (Errorf "failed to decode protected bits") (decodeSpanBatchBits total).

Definition decodeTxSig : Rd spanBatchSignature :=
  r ← rd_err (λ e, Errorf "failed to read tx sig r" (io_err e)) (ReadBE 32);
  s ← rd_err (λ e, Errorf "failed to read tx sig s" (io_err e)) (ReadBE 32);
  mret (mkSig 0 r s).
Definition decodeTxSigsRS (total : Z) : Rd (list spanBatchSignature) :=
  read_n (Z.to_nat total) decodeTxSig.
Definition decodeTxNonces (total : Z) : Rd (list Z) :=
  read_n (Z.to_nat total) (rd_err (λ e, Errorf "failed to read tx nonce" (io_err e)) ReadUvarint).
Definition decodeTxGases (total : Z) : Rd (list Z) :=
  read_n (Z.to_nat total) (rd_err (λ e, Errorf "failed to read tx gas" (io_err e)) ReadUvarint).

Definition contractCreationCount (total : Z) (bits : Z) : Z :=
  Z.of_nat (length (filter (λ i, Bit bits i = true) (seq 0 (Z.to_nat total)))).
Definition decodeTxTos (total : Z) (creation : Z) : Rd (list Address) :=
  read_n (Z.to_nat (total - contractCreationCount total creation))
    (rd_err (λ e, Errorf "failed to read tx to address" (io_err e)) (ReadFull 20)).

(** The raw data of a transaction: a type byte up to 0x7f followed by an RLP list,
    or just the list for a legacy transaction. *)
Definition ReadTxData : Rd (bytes * Z) := λ r,
  match r with
  | [] => (Err (Errorf "failed to read tx initial byte" io_EOF), [])
  | b :: rest =>
    if b2z b <=? 127
    then (payload ← rlp_RawList MaxSpanBatchElementCount; mret (b :: payload, b2z b)) rest
    else (payload ← rlp_RawList MaxSpanBatchElementCount; mret (payload, 0)) r
  end.
Definition decodeTxDatas (total : Z) : Rd (list (bytes * Z)) := read_n (Z.to_nat total) ReadTxData.

Definition spanBatchTxs_decode (total : Z) : Rd spanBatchTxs :=
  creation ← decodeContractCreationBits total;
  parity ← decodeYParityBits total;
  sigs ← decodeTxSigsRS total;
  tos ← decodeTxTos total creation;
  datas ← decodeTxDatas total;
  nonces ← decodeTxNonces total;
  gases ← decodeTxGases total;
  let legacy := Z.of_nat (length (filter (λ d, d.2 = LegacyTxType) datas)) in
  protected ← decodeProtectedBits legacy;
  mret (mkSpanBatchTxs total creation parity sigs nonces gases tos datas.*1 protected datas.*2 legacy).

(** *** Recovering full transactions *)

Fixpoint recoverV_loop (chainID : Z) (parity protected : Z) (idx protIdx : nat) (types : list Z)
    (sigs : list spanBatchSignature) : Res (list spanBatchSignature) :=
  match types, sigs with
  | typ :: types, sig :: sigs =>
    let bit := if Bit parity idx then 1 else 0 in
    '(v, protIdx) ←
      (if typ =? LegacyTxType then
         Ok (if Bit protected protIdx then chainID * 2 + 35 + bit else 27 + bit, S protIdx)
       else if (typ =? AccessListTxType) || (typ =? DynamicFeeTxType) || (typ =? SetCodeTxTypeNum)
       then Ok (bit, protIdx)
       else Err (ErrorsNew "invalid tx type"));
    rest ← recoverV_loop chainID parity protected (S idx) protIdx types sigs;
    Ok (mkSig v (sig_r sig) (sig_s sig) :: rest)
  | _, _ => Ok []
  end.
Definition set_txSigs (sigs : list spanBatchSignature) (sb : spanBatchTxs) : spanBatchTxs :=
  mkSpanBatchTxs (totalBlockTxCount sb) (contractCreationBits sb) (yParityBits sb) sigs
    (txNonces sb) (txGases sb) (txTos sb) (txDatas sb) (protectedBits sb) (txTypes sb)
    (totalLegacyTxCount sb).
Definition recoverV (sb : spanBatchTxs) (chainID : Z) : Res spanBatchTxs :=
  if negb (length (txTypes sb) =? length (txSigs sb))%nat then
    Err (ErrorsNew "tx type length and tx sigs length mismatch")
  else
    sigs ← recoverV_loop chainID (yParityBits sb) (protectedBits sb) 0 0 (txTypes sb) (txSigs sb);
    Ok (set_txSigs sigs sb).

(** Transaction [idx] of the columns; indexing past a column is a panic. *)
Definition fullTx (sb : spanBatchTxs) (chainID : Z) (idx : nat) (to : option Address) : Res bytes :=
  match txDatas sb !! idx, txNonces sb !! idx, txGases sb !! idx, txSigs sb !! idx with
  | Some data, Some nonce, Some gas, Some sig =>
    stx ← spanBatchTx_UnmarshalBinary data;
    tx ← convertToFullTx stx nonce gas to chainID (sig_v sig) (sig_r sig) (sig_s sig);
    tx_MarshalBinary tx
  | _, _, _, _ => Panic "index out of range"
  end.

Fixpoint fullTxs_loop (n : nat) (sb : spanBatchTxs) (chainID : Z) (idx : nat) (tos : list Address)
    : Res (list bytes) :=
  match n with
  | O => Ok []
  | S n =>
    if Bit (contractCreationBits sb) idx then
      tx ← fullTx sb chainID idx None;
      rest ← fullTxs_loop n sb chainID (S idx) tos;
      Ok (tx :: rest)
    else
      match tos with
      | [] =>
        (* the inner data is decoded before the recipient is looked up *)
        match txDatas sb !! idx with
        | None => Panic "index out of range"
        | Some data => _ ← spanBatchTx_UnmarshalBinary data; Err (ErrorsNew "tx to not enough")
        end
      | to :: tos =>
        tx ← fullTx sb chainID idx (Some to);
        rest ← fullTxs_loop n sb chainID (S idx) tos;
        Ok (tx :: rest)
      end
  end.
Definition fullTxs (sb : spanBatchTxs) (chainID : Z) : Res (list bytes) :=
  fullTxs_loop (Z.to_nat (totalBlockTxCount sb)) sb chainID 0 (txTos sb).
End tx.
