(* ===== verification/SpanBatch.v ===== *)
(** * Batches

    Models [op-node/rollup/derive/singular_batch.go] and [span_batch.go]: batches
    of one L2 block, and span batches, which describe a range of L2 blocks. A
    span batch is built from singular batches, turned into its raw form, encoded,
    decoded, and derived back into a list of blocks. *)

From S2P Require Import Prelude GoBytes Errors Eth SpanBatchTxs.

(** ** Singular batches *)

Record SingularBatch := mkSingularBatch {
  sb_ParentHash : Hash;
  sb_EpochNum : Z;
  sb_EpochHash : Hash;
  sb_Timestamp : Z;
  sb_Transactions : list Data }.
#[export] Instance SingularBatch_eq_dec : EqDecision SingularBatch.
Proof. solve_decision. Defined.
Definition sb_Epoch (b : SingularBatch) : BlockID := mkBlockID (sb_EpochHash b) (sb_EpochNum b).

(** ** Span batches, raw form *)

Record spanBatchPrefix := mkSpanBatchPrefix {
  relTimestamp : Z; l1OriginNum : Z; parentCheck : bytes; l1OriginCheck : bytes }.
Record spanBatchPayload := mkSpanBatchPayload {
  blockCount : Z; originBits : Z; blockTxCounts : list Z; payloadTxs : spanBatchTxs }.
Record RawSpanBatch := mkRawSpanBatch { prefix : spanBatchPrefix; payload : spanBatchPayload }.

(** ** Span batches, derived form

    The last three fields cache what is needed for the raw form. *)
Record SpanBatchElement := mkSpanBatchElement {
  el_EpochNum : Z; el_Timestamp : Z; el_Transactions : list Data }.
#[export] Instance SpanBatchElement_eq_dec : EqDecision SpanBatchElement.
Proof. solve_decision. Defined.

Record SpanBatch := mkSpanBatch {
  span_ParentCheck : bytes;
  span_L1OriginCheck : bytes;
  span_GenesisTimestamp : Z;
  span_ChainID : Z;
  span_Batches : list SpanBatchElement;
  span_originBits : Z;
  span_blockTxCounts : list Z;
  span_sbtxs : option spanBatchTxs }.

Definition singularBatchToElement (b : SingularBatch) : SpanBatchElement :=
  mkSpanBatchElement (sb_EpochNum b) (sb_Timestamp b) (sb_Transactions b).

(** Indexing the blocks; an index out of range is a panic. *)
Definition span_at (b : SpanBatch) (i : nat) : Res SpanBatchElement :=
  match span_Batches b !! i with Some e => Ok e | None => Panic "index out of range" end.
Definition span_peek (b : SpanBatch) (n : nat) : Res SpanBatchElement :=
  match last (take (length (span_Batches b) - n) (span_Batches b)) with
  | Some e => Ok e
  | None => Panic "index out of range"
  end.
Definition GetTimestamp (b : SpanBatch) : Res Z := e ← span_at b 0; Ok (el_Timestamp e).
Definition GetLastTimestamp (b : SpanBatch) : Res Z := e ← span_peek b 0; Ok (el_Timestamp e).
Definition GetStartEpochNum (b : SpanBatch) : Res Z := e ← span_at b 0; Ok (el_EpochNum e).
Definition GetLastEpochNum (b : SpanBatch) : Res Z := e ← span_peek b 0; Ok (el_EpochNum e).
Definition GetBlockEpochNum (b : SpanBatch) (i : nat) : Res Z := e ← span_at b i; Ok (el_EpochNum e).
Definition GetBlockTimestamp (b : SpanBatch) (i : nat) : Res Z := e ← span_at b i; Ok (el_Timestamp e).
Definition GetBlockTransactions (b : SpanBatch) (i : nat) : Res (list Data) :=
  e ← span_at b i; Ok (el_Transactions e).
Definition GetBlockCount (b : SpanBatch) : nat := length (span_Batches b).
Definition CheckOriginHash (b : SpanBatch) (hash : Hash) : bool :=
  bool_decide (span_L1OriginCheck b = take 20 hash).
Definition CheckParentHash (b : SpanBatch) (hash : Hash) : bool :=
  bool_decide (span_ParentCheck b = take 20 hash).
Definition TxCount (b : SpanBatch) : Z := foldl (λ c n, c +₆₄ n) 0 (span_blockTxCounts b).

Section span.
Context `{TxLib}.

(** *** Prefix and payload encoding *)

Definition encodePrefix (p : spanBatchPrefix) : bytes :=
  PutUvarint (relTimestamp p) ++ PutUvarint (l1OriginNum p) ++ parentCheck p ++ l1OriginCheck p.

Definition decodeRelTimestamp : Rd Z :=
  rd_err (λ e, Errorf "failed to read rel timestamp" (io_err e)) ReadUvarint.
Definition decodeL1OriginNum : Rd Z :=
  rd_err (λ e, Errorf "failed to read l1 origin num" (io_err e)) ReadUvarint.
Definition decodeParentCheck : Rd bytes :=
  rd_err (λ e, Errorf "failed to read parent check" (io_err e)) (ReadFull 20).
Definition decodeL1OriginCheck : Rd bytes :=
  rd_err (λ e, Errorf "failed to read l1 origin check" (io_err e)) (ReadFull 20).
Definition decodePrefix : Rd spanBatchPrefix :=
  rel ← decodeRelTimestamp;
  num ← decodeL1OriginNum;
  parent ← decodeParentCheck;
  origin ← decodeL1OriginCheck;
  mret (mkSpanBatchPrefix rel num parent origin).

Definition encodeBlockTxCounts (p : spanBatchPayload) : bytes := mjoin (PutUvarint <$> blockTxCounts p).
Definition encodePayload (p : spanBatchPayload) : Res bytes :=
  bits ← map_err (Errorf "failed to encode origin bits")
    (encodeSpanBatchBits (blockCount p) (originBits p));
  txs ← spanBatchTxs_encode (payloadTxs p);
  Ok (PutUvarint (blockCount p) ++ bits ++ encodeBlockTxCounts p ++ txs).

Definition decodeBlockCount : Rd Z :=
  n ← rd_err (λ e, Errorf "failed to read block count" (io_err e)) ReadUvarint;
  if MaxSpanBatchElementCount <? n then rd_fail ErrTooBigSpanBatchSize
  else if n =? 0 then rd_fail ErrEmptySpanBatch
  else mret n.
Definition decodeOriginBits (count : Z) : Rd Z :=
  if MaxSpanBatchElementCount <? count then rd_fail ErrTooBigSpanBatchSize
  else rd_err (Errorf "failed to decode origin bits") (decodeSpanBatchBits count).
Definition decodeBlockTxCount : Rd Z :=
  n ← rd_err (λ e, Errorf "failed to read block tx count" (io_err e)) ReadUvarint;
  if MaxSpanBatchElementCount <? n then rd_fail ErrTooBigSpanBatchSize else mret n.
Definition decodeBlockTxCounts (count : Z) : Rd (list Z) := read_n (Z.to_nat count) decodeBlockTxCount.

(** [math.SafeAdd] of the counts; [None] on overflow. *)
Definition total_tx_count (counts : list Z) : option Z :=
  foldl (λ acc n, a ← acc; if a + n <? 2 ^ 64 then Some (a + n) else None) (Some 0) counts.
Definition decodeTxs (counts : list Z) : Rd spanBatchTxs :=
  match total_tx_count counts with
  | None => rd_fail ErrTooBigSpanBatchSize
  | Some total =>
    if MaxSpanBatchElementCount <? total then rd_fail ErrTooBigSpanBatchSize
    else spanBatchTxs_decode total
  end.
Definition decodePayload : Rd spanBatchPayload :=
  count ← decodeBlockCount;
  bits ← decodeOriginBits count;
  counts ← decodeBlockTxCounts count;
  txs ← decodeTxs counts;
  mret (mkSpanBatchPayload count bits counts txs).

Definition RawSpanBatch_encode (b : RawSpanBatch) : Res bytes :=
  p ← encodePayload (payload b); Ok (encodePrefix (prefix b) ++ p).
Definition RawSpanBatch_decode : Rd RawSpanBatch :=
  p ← rd_err (Errorf "failed to decode span batch prefix") decodePrefix;
  q ← rd_err (Errorf "failed to decode span batch payload") decodePayload;
  mret (mkRawSpanBatch p q).

(** *** Deriving blocks *)

(** The loop from the last block to the first; [n] blocks are left. *)
Fixpoint origin_nums (n : nat) (bits : Z) (origin : Z) (acc : list Z) : list Z :=
  match n with
  | O => acc
  | S i =>
    let origin' := if Bit bits i && (0 <? i)%nat then origin -₆₄ 1 else origin in
    origin_nums i bits origin' (origin :: acc)
  end.

(** Take the transactions of each block from the list of all transactions. *)
Fixpoint derive_blocks (blockTime first : Z) (i : nat) (origins : list Z) (counts : list Z)
    (txs : list bytes) : Res (list SpanBatchElement) :=
  match origins with
  | [] => Ok []
  | origin :: origins =>
    match counts with
    | [] => Panic "index out of range"
    | n :: counts =>
      if (length txs <? Z.to_nat n)%nat then Panic "index out of range"
      else
        rest ← derive_blocks blockTime first (S i) origins counts (drop (Z.to_nat n) txs);
        Ok (mkSpanBatchElement origin (first +₆₄ (blockTime *₆₄ Z.of_nat i)) (take (Z.to_nat n) txs)
            :: rest)
    end
  end.

Definition RawSpanBatch_derive (b : RawSpanBatch) (blockTime genesisTimestamp chainID : Z)
    : Res SpanBatch :=
  if blockCount (payload b) =? 0 then Err ErrEmptySpanBatch
  else
    let origins := origin_nums (Z.to_nat (blockCount (payload b))) (originBits (payload b))
                     (l1OriginNum (prefix b)) [] in
    txs ← recoverV (payloadTxs (payload b)) chainID;
    full ← fullTxs txs chainID;
    blocks ← derive_blocks blockTime (genesisTimestamp +₆₄ relTimestamp (prefix b)) 0 origins
               (blockTxCounts (payload b)) full;
    Ok (mkSpanBatch (parentCheck (prefix b)) (l1OriginCheck (prefix b)) 0 0 blocks 0 [] None).

Definition ToSpanBatch (b : RawSpanBatch) (blockTime genesisTimestamp chainID : Z) : Res SpanBatch :=
  RawSpanBatch_derive b blockTime genesisTimestamp chainID.

(** *** Building a span batch *)

Definition NewSpanBatch (genesisTimestamp chainID : Z) : SpanBatch :=
  mkSpanBatch (replicate 20 x00) (replicate 20 x00) genesisTimestamp chainID [] 0 []
    (Some emptySpanBatchTxs).

Definition AppendSingularBatch (b : SpanBatch) (s : SingularBatch) (seqNum : Z) : Res SpanBatch :=
  if match last (span_Batches b) with Some e => sb_Timestamp s <? el_Timestamp e | None => false end
  then Panic "span batch is not ordered"
  else
    let batches := span_Batches b ++ [singularBatchToElement s] in
    let n := length (span_Batches b) in
    let first := (n =? 0)%nat in
    let epochBit :=
      if first then seqNum =? 0
      else match last (span_Batches b) with
           | Some e => el_EpochNum e <? sb_EpochNum s
           | None => false
           end in
    match span_sbtxs b with
    | None => Panic "nil sbtxs"
    | Some sbtxs =>
      sbtxs ← AddTxs sbtxs (sb_Transactions s) (span_ChainID b);
      Ok (mkSpanBatch
            (if first then take 20 (sb_ParentHash s) else span_ParentCheck b)
            (take 20 (sb_EpochHash s)) (span_GenesisTimestamp b) (span_ChainID b) batches
            (SetBit (span_originBits b) n epochBit)
            (span_blockTxCounts b ++ [Z.of_nat (length (sb_Transactions s))]) (Some sbtxs))
    end.

Definition ToRawSpanBatch (b : SpanBatch) : Res RawSpanBatch :=
  match head (span_Batches b), last (span_Batches b), span_sbtxs b with
  | Some span_start, Some span_end, Some sbtxs =>
    Ok (mkRawSpanBatch
          (mkSpanBatchPrefix (el_Timestamp span_start -₆₄ span_GenesisTimestamp b)
             (el_EpochNum span_end) (span_ParentCheck b) (span_L1OriginCheck b))
          (mkSpanBatchPayload (Z.of_nat (length (span_Batches b))) (span_originBits b)
             (span_blockTxCounts b) sbtxs))
  | _, _, _ => Err (ErrorsNew "cannot merge empty singularBatch list")
  end.
End span.

(** *** Splitting a span batch into singular batches *)

(** The first L1 block with the number, from index [i] on. *)
Fixpoint find_origin (num : Z) (i : nat) (l1Origins : list L1BlockRef) : option (nat * L1BlockRef) :=
  match l1Origins with
  | [] => None
  | b :: l1Origins => if l1_Number b =? num then Some (i, b) else find_origin num (S i) l1Origins
  end.

Fixpoint singular_batches (l1Origins : list L1BlockRef) (l2SafeHead : L2BlockRef) (originIdx : nat)
    (batches : list SpanBatchElement) : Res (list SingularBatch) :=
  match batches with
  | [] => Ok []
  | e :: batches =>
    if el_Timestamp e <=? l2_Time l2SafeHead
    then singular_batches l1Origins l2SafeHead originIdx batches
    else if el_EpochNum e <? id_Number (l2_L1Origin l2SafeHead)
    then Err (ErrorsNew "future batch L1 origin behind safe head origin")
    else
      match find_origin (el_EpochNum e) originIdx (drop originIdx l1Origins) with
      | None => Err (ErrorsNew "unable to find L1 origin for batch")
      | Some (i, o) =>
        rest ← singular_batches l1Origins l2SafeHead i batches;
        Ok (mkSingularBatch zeroHash (el_EpochNum e) (l1_Hash o) (el_Timestamp e) (el_Transactions e)
            :: rest)
      end
  end.
Definition GetSingularBatches (b : SpanBatch) (l1Origins : list L1BlockRef) (l2SafeHead : L2BlockRef)
    : Res (list SingularBatch) :=
  singular_batches l1Origins l2SafeHead 0 (span_Batches b).

(** ** Typed batches *)

Inductive Batch := Singular (b : SingularBatch) | Span (b : SpanBatch).
(** [InnerBatchData]: what the channel holds. *)
Inductive BatchData := InnerSingular (b : SingularBatch) | InnerSpan (b : RawSpanBatch).

Definition Batch_GetTimestamp (b : Batch) : Res Z :=
  match b with Singular s => Ok (sb_Timestamp s) | Span s => GetTimestamp s end.

(** [rlp.Encode] and [rlp.Decode] of a singular batch. *)
Class BatchRLP := {
  rlp_EncodeSingular : SingularBatch → bytes;
  rlp_DecodeSingular : bytes → Res SingularBatch;
}.

Definition SingularBatchType : byte := x00.
Definition SpanBatchType : byte := x01.

Section typed.
Context `{TxLib} `{BatchRLP}.

Definition encodeTyped (b : BatchData) : Res bytes :=
  match b with
  | InnerSingular s => Ok (SingularBatchType :: rlp_EncodeSingular s)
  | InnerSpan s => d ← RawSpanBatch_encode s; Ok (SpanBatchType :: d)
  end.

(** Bytes after the batch are not looked at. *)
Definition decodeTyped (data : bytes) : Res BatchData :=
  match data with
  | [] => Err (ErrorsNew "batch too short")
  | t :: r =>
    if decide (t = SingularBatchType) then s ← rlp_DecodeSingular r; Ok (InnerSingular s)
    else if decide (t = SpanBatchType) then s ← (RawSpanBatch_decode r).1; Ok (InnerSpan s)
    else Err (ErrorsNew "unrecognized batch type")
  end.

Definition GetSingularBatch (b : BatchData) : Res SingularBatch :=
  match b with
  | InnerSingular s => Ok s
  | InnerSpan _ => Err (NewCriticalError (ErrorsNew "failed type assertion to SingularBatch"))
  end.
Definition DeriveSpanBatch (b : BatchData) (blockTime genesisTimestamp chainID : Z) : Res SpanBatch :=
  match b with
  | InnerSpan s => ToSpanBatch s blockTime genesisTimestamp chainID
  | InnerSingular _ => Err (NewCriticalError (ErrorsNew "failed type assertion to SpanBatch"))
  end.
End typed.
