(* ===== verification/SpanBatchCodec.v ===== *)
(** * Span batches survive the trip through a channel

    Properties of the definitions of [SpanBatchTxs] and [SpanBatch]: the bit
    lists, the columns of transactions and the raw span batch decode to what was
    encoded, and a span batch built from singular batches derives back to the
    same blocks. *)

From S2P Require Import Prelude GoBytes Errors Eth SpanBatchTxs SpanBatch.

(** ** Bit lists *)

Lemma BitLen_le z n : 0 ≤ z → 0 ≤ n → BitLen z ≤ n ↔ z < 2 ^ n.
Proof.
  intros Hz Hn. unfold BitLen. destruct (Z.eqb_spec z 0) as [->|Hne].
  - split; [intros; apply Z.pow_pos_nonneg; lia|done].
  - rewrite (Z.log2_lt_pow2 z n) by lia. lia.
Qed.

Lemma bits_fit n : 0 ≤ n → 2 ^ n ≤ 256 ^ Z.of_nat (bits_bufLen n).
Proof.
  intros Hn. unfold bits_bufLen. change 256 with (2 ^ 8). rewrite <- Z.pow_mul_r by lia.
  apply Z.pow_le_mono_r; [lia|].
  destruct (Z.eqb_spec (n mod 8) 0); Z.to_euclidean_division_equations; lia.
Qed.

(** a bit list is written in the least number of bytes, and reading that many
    bytes back returns it and leaves the rest of the stream; an encoding with a
    bit beyond the length is rejected on both sides. *)
Theorem span_bits_roundtrip n bits rest :
  0 ≤ n → 0 ≤ bits →
  (bits < 2 ^ n → ∃ buf, encodeSpanBatchBits n bits = Ok buf ∧
     Z.of_nat (length buf) = (n + 7) / 8 ∧ decodeSpanBatchBits n (buf ++ rest) = (Ok bits, rest)) ∧
  (2 ^ n ≤ bits → (∃ e, encodeSpanBatchBits n bits = Err e) ∧
     ∀ buf v rest', be_val buf = bits → length buf = bits_bufLen n →
     decodeSpanBatchBits n (buf ++ rest) ≠ (Ok v, rest')).
Proof.
  intros Hn Hb. pose proof (BitLen_le bits n Hb Hn) as Hle. split.
  - intros Hlt. unfold encodeSpanBatchBits, decodeSpanBatchBits.
    rewrite (proj2 (Z.ltb_ge _ _)) by (by apply Hle). eexists. split; [done|]. split.
    + rewrite length_be_bytes. unfold bits_bufLen.
      destruct (Z.eqb_spec (n mod 8) 0); Z.to_euclidean_division_equations; lia.
    + rewrite rd_bind_ok. exists (be_bytes (bits_bufLen n) bits), rest.
      rewrite rd_err_ok, ReadFull_app by apply length_be_bytes. split; [done|].
      rewrite be_val_be_bytes_small by (pose proof (bits_fit n Hn); lia).
      rewrite rd_bind_ok. exists (), rest. rewrite rd_check_ok, rd_ret_ok.
      rewrite (proj2 (Z.leb_le _ _)) by (by apply Hle). done.
  - intros Hge. split.
    + unfold encodeSpanBatchBits. rewrite (proj2 (Z.ltb_lt _ _)); [by eexists|].
      apply Z.nle_gt. rewrite Hle. lia.
    + intros buf v rest' Hv Hl Hd. unfold decodeSpanBatchBits in Hd.
      apply rd_bind_ok in Hd as (b & r1 & Hr & Hd). rewrite rd_err_ok, ReadFull_app in Hr by done.
      injection Hr as <- <-. apply rd_bind_ok in Hd as (u & r2 & [Hc _]%rd_check_ok & _).
      bool2prop. rewrite Hv, Hle in Hc. lia.
Qed.

Lemma span_bits_roundtrip_witness :
  ∃ buf, encodeSpanBatchBits 10 513 = Ok buf ∧ Z.of_nat (length buf) = 2 ∧
  decodeSpanBatchBits 10 (buf ++ [xff]) = (Ok 513, [xff]).
Proof.
  destruct (span_bits_roundtrip 10 513 [xff] ltac:(lia) ltac:(lia)) as [Hgood _].
  exact (Hgood eq_refl).
Defined.

Lemma decode_bits n bits rest :
  0 ≤ n → 0 ≤ bits < 2 ^ n →
  decodeSpanBatchBits n (be_bytes (bits_bufLen n) bits ++ rest) = (Ok bits, rest).
Proof.
  intros Hn [Hb Hlt]. unfold decodeSpanBatchBits. rewrite rd_bind_ok.
  exists (be_bytes (bits_bufLen n) bits), rest.
  rewrite rd_err_ok, ReadFull_app by apply length_be_bytes. split; [done|].
  rewrite be_val_be_bytes_small by (pose proof (bits_fit n Hn); lia).
  rewrite rd_bind_ok. exists (), rest. rewrite rd_check_ok, rd_ret_ok.
  rewrite (proj2 (Z.leb_le _ _)) by (by apply BitLen_le). done.
Qed.

Lemma encode_bits n bits :
  0 ≤ n → 0 ≤ bits < 2 ^ n → encodeSpanBatchBits n bits = Ok (be_bytes (bits_bufLen n) bits).
Proof.
  intros Hn [Hb Hlt]. unfold encodeSpanBatchBits.
  by rewrite (proj2 (Z.ltb_ge _ _)) by (by apply BitLen_le).
Qed.

(** ** Lists of values *)

Lemma reads_n {A B} (m : Rd B) (enc : A → bytes) (dec : A → B) xs :
  Forall (λ x, reads m (enc x) (dec x)) xs →
  reads (read_n (length xs) m) (mjoin (enc <$> xs)) (dec <$> xs).
Proof.
  induction 1 as [|x xs Hx Hxs IH]; cbn [length read_n]; [apply reads_ret|].
  cbn. eapply reads_bind; [done|]. apply (reads_last _ (λ l, dec x :: l)), IH.
Qed.

(** ** Columns *)

Section columns.
Context `{TxLib}.

(** Consistent columns: one entry per transaction, everything in range, and the
    data entries readable one by one. *)
Record columns_wf (sb : spanBatchTxs) : Prop := {
  cw_total : 0 ≤ totalBlockTxCount sb ≤ MaxSpanBatchElementCount;
  cw_creation : 0 ≤ contractCreationBits sb < 2 ^ totalBlockTxCount sb;
  cw_parity : 0 ≤ yParityBits sb < 2 ^ totalBlockTxCount sb;
  cw_sigs : length (txSigs sb) = Z.to_nat (totalBlockTxCount sb);
  cw_sig : Forall (λ sig, 0 ≤ sig_r sig < 2 ^ 256 ∧ 0 ≤ sig_s sig < 2 ^ 256) (txSigs sb);
  cw_nonces : length (txNonces sb) = Z.to_nat (totalBlockTxCount sb);
  cw_nonce : Forall is_u64 (txNonces sb);
  cw_gases : length (txGases sb) = Z.to_nat (totalBlockTxCount sb);
  cw_gas : Forall is_u64 (txGases sb);
  cw_tos : length (txTos sb) = Z.to_nat (totalBlockTxCount sb
             - contractCreationCount (totalBlockTxCount sb) (contractCreationBits sb));
  cw_to : Forall (λ a, length a = 20%nat) (txTos sb);
  cw_types : length (txTypes sb) = Z.to_nat (totalBlockTxCount sb);
  cw_datas : Forall2 (λ d t, reads ReadTxData d (d, t)) (txDatas sb) (txTypes sb);
  cw_legacy : totalLegacyTxCount sb = Z.of_nat (length (filter (λ t, t = LegacyTxType) (txTypes sb)));
  cw_protected : 0 ≤ protectedBits sb < 2 ^ totalLegacyTxCount sb;
}.

(** The recovery value of a signature is not stored. *)
Definition drop_v (sig : spanBatchSignature) : spanBatchSignature := mkSig 0 (sig_r sig) (sig_s sig).
Definition drop_vs (sb : spanBatchTxs) : spanBatchTxs := set_txSigs (drop_v <$> txSigs sb) sb.

Lemma reads_bits f n bits :
  0 ≤ n → 0 ≤ bits < 2 ^ n →
  reads (rd_err f (decodeSpanBatchBits n)) (be_bytes (bits_bufLen n) bits) bits.
Proof. intros Hn Hb. apply reads_err. intros rest. by apply decode_bits. Qed.

Lemma reads_sig sig :
  0 ≤ sig_r sig < 2 ^ 256 → 0 ≤ sig_s sig < 2 ^ 256 →
  reads decodeTxSig (be_bytes 32 (sig_r sig) ++ be_bytes 32 (sig_s sig)) (drop_v sig).
Proof.
  intros Hr Hs. eapply reads_bind; [apply reads_err; intros rest; by apply ReadBE_app|].
  apply (reads_last _ (λ s, mkSig 0 (sig_r sig) s)). apply reads_err.
  intros rest. by apply ReadBE_app.
Qed.

Lemma legacy_count_datas (datas : list bytes) types :
  length datas = length types →
  length (filter (λ d, d.2 = LegacyTxType) (zip datas types))
  = length (filter (λ t, t = LegacyTxType) types).
Proof.
  revert types. induction datas as [|d datas IH]; intros [|t types] Hl; try done.
  cbn [zip_with]. rewrite !filter_cons. cbn [snd].
  destruct (decide (t = LegacyTxType)); cbn [length]; by rewrite IH by (cbn in Hl; lia).
Qed.

Lemma columns_roundtrip sb :
  columns_wf sb → ∃ d, spanBatchTxs_encode sb = Ok d ∧
  reads (spanBatchTxs_decode (totalBlockTxCount sb)) d (drop_vs sb).
Proof.
  intros [Htot Hcr Hpa Hsl Hs Hnl Hn Hgl Hg Htl Ht Hyl Hd Hleg Hpr].
  assert (Hlt : MaxSpanBatchElementCount <? totalBlockTxCount sb = false) by (apply Z.ltb_ge; lia).
  assert (Hdl : length (txDatas sb) = length (txTypes sb)) by by eapply Forall2_length.
  assert (Hleg0 : 0 ≤ totalLegacyTxCount sb) by lia.
  assert (Hleg1 : MaxSpanBatchElementCount <? totalLegacyTxCount sb = false).
  { apply Z.ltb_ge. pose proof (length_filter (λ t, t = LegacyTxType) (txTypes sb)). lia. }
  unfold spanBatchTxs_encode. rewrite !encode_bits by (done || lia). cbn.
  eexists. split; [done|].
  unfold spanBatchTxs_decode, decodeContractCreationBits. rewrite Hlt.
  eapply reads_bind; [apply reads_bits; [lia|done]|].
  eapply reads_bind; [apply reads_bits; [lia|done]|].
  eapply reads_bind.
  { unfold decodeTxSigsRS, encodeTxSigsRS. rewrite <- Hsl. apply reads_n.
    eapply Forall_impl; [exact Hs|]. cbn. intros sig [? ?]. by apply reads_sig. }
  eapply reads_bind.
  { unfold decodeTxTos, encodeTxTos. rewrite <- Htl. rewrite <- (list_fmap_id (txTos sb)) at 2.
    apply (reads_n _ id id). eapply Forall_impl; [exact Ht|]. intros a Ha. by apply reads_full. }
  eapply reads_bind.
  { unfold decodeTxDatas, encodeTxDatas. rewrite <- Hyl, <- Hdl.
    rewrite <- (fst_zip (txDatas sb) (txTypes sb)) at 2 by lia.
    assert (Hz : length (txDatas sb) = length (zip (txDatas sb) (txTypes sb)))
      by (rewrite length_zip_with; lia).
    rewrite Hz. apply (reads_n ReadTxData fst id).
    apply Forall_forall. intros [d t] [i Hi]%list_elem_of_lookup.
    apply lookup_zip_with_Some in Hi as (d' & t' & [= <- <-] & H1 & H2).
    exact (Forall2_lookup_lr _ _ _ _ _ _ Hd H1 H2). }
  eapply reads_bind.
  { unfold decodeTxNonces, encodeTxNonces. rewrite <- Hnl. apply (reads_n _ PutUvarint id).
    eapply Forall_impl; [exact Hn|]. intros n ?. by apply reads_uvarint. }
  eapply reads_bind.
  { unfold decodeTxGases, encodeTxGases. rewrite <- Hgl. apply (reads_n _ PutUvarint id).
    eapply Forall_impl; [exact Hg|]. intros n ?. by apply reads_uvarint. }
  rewrite !list_fmap_id. rewrite legacy_count_datas, <- Hleg by done.
  rewrite fst_zip, snd_zip by lia. unfold decodeProtectedBits. rewrite Hleg1.
  assert (Heq : drop_vs sb = mkSpanBatchTxs (totalBlockTxCount sb) (contractCreationBits sb)
    (yParityBits sb) (drop_v <$> txSigs sb) (txNonces sb) (txGases sb) (txTos sb) (txDatas sb)
    (protectedBits sb) (txTypes sb) (totalLegacyTxCount sb)) by done.
  rewrite Heq. apply (reads_last _ (λ p, mkSpanBatchTxs _ _ _ _ _ _ _ _ p _ _)).
  by apply reads_bits.
Qed.

(** ** Raw span batches *)

Record raw_wf (b : RawSpanBatch) : Prop := {
  rw_rel : is_u64 (relTimestamp (prefix b));
  rw_num : is_u64 (l1OriginNum (prefix b));
  rw_parent : length (parentCheck (prefix b)) = 20%nat;
  rw_origin : length (l1OriginCheck (prefix b)) = 20%nat;
  rw_count : 0 < blockCount (payload b) ≤ MaxSpanBatchElementCount;
  rw_bits : 0 ≤ originBits (payload b) < 2 ^ blockCount (payload b);
  rw_counts : length (blockTxCounts (payload b)) = Z.to_nat (blockCount (payload b));
  rw_counts_pos : Forall (λ n, 0 ≤ n) (blockTxCounts (payload b));
  rw_total : foldr Z.add 0 (blockTxCounts (payload b)) = totalBlockTxCount (payloadTxs (payload b));
  rw_txs : columns_wf (payloadTxs (payload b));
}.

Lemma counts_le l : Forall (λ n, 0 ≤ n) l → ∀ n, n ∈ l → n ≤ foldr Z.add 0 l.
Proof.
  induction 1 as [|m l Hm Hl IH]; intros n Hn; [set_solver|]. cbn.
  assert (0 ≤ foldr Z.add 0 l) by (clear -Hl; induction Hl; cbn; lia).
  apply list_elem_of_In in Hn as [->|Hn]; [lia|]. apply list_elem_of_In in Hn. specialize (IH n Hn). lia.
Qed.

Lemma total_tx_count_sum l :
  Forall (λ n, 0 ≤ n) l → foldr Z.add 0 l < 2 ^ 64 → total_tx_count l = Some (foldr Z.add 0 l).
Proof.
  intros Hl Hs. unfold total_tx_count.
  assert (Hgen : ∀ a, 0 ≤ a → a + foldr Z.add 0 l < 2 ^ 64 →
    foldl (λ acc n, x ← acc; if x + n <? 2 ^ 64 then Some (x + n) else None) (Some a) l
    = Some (a + foldr Z.add 0 l)).
  { clear Hs. induction Hl as [|n l Hn Hl IH]; intros a Ha Hs.
    - cbn [foldl foldr]. f_equal. lia.
    - cbn [foldr] in Hs. assert (0 ≤ foldr Z.add 0 l) by (clear -Hl; induction Hl; cbn; lia).
      cbn [foldl mbind option_bind]. rewrite (proj2 (Z.ltb_lt _ _)) by lia.
      rewrite IH by lia. cbn [foldr]. f_equal. lia. }
  by rewrite Hgen by lia.
Qed.

Lemma reads_prefix p :
  is_u64 (relTimestamp p) → is_u64 (l1OriginNum p) → length (parentCheck p) = 20%nat →
  length (l1OriginCheck p) = 20%nat → reads decodePrefix (encodePrefix p) p.
Proof.
  destruct p as [rel num parent origin]. cbn. intros Hrel Hnum Hpar Hori.
  unfold encodePrefix, decodePrefix. cbn [relTimestamp l1OriginNum parentCheck l1OriginCheck].
  eapply reads_bind; [by apply reads_uvarint|]. eapply reads_bind; [by apply reads_uvarint|].
  eapply reads_bind; [by apply reads_full|].
  apply (reads_last _ (mkSpanBatchPrefix rel num parent)). by apply reads_full.
Qed.

Definition with_txs (f : spanBatchTxs → spanBatchTxs) (b : RawSpanBatch) : RawSpanBatch :=
  mkRawSpanBatch (prefix b) (mkSpanBatchPayload (blockCount (payload b)) (originBits (payload b))
    (blockTxCounts (payload b)) (f (payloadTxs (payload b)))).

Lemma raw_roundtrip b :
  raw_wf b → ∃ d, RawSpanBatch_encode b = Ok d ∧ reads RawSpanBatch_decode d (with_txs drop_vs b).
Proof.
  intros [Hrel Hnum Hpar Hori Hcnt Hbits Hcl Hcp Htot Htxs].
  destruct (columns_roundtrip _ Htxs) as (dt & Het & Hdt).
  pose proof (cw_total _ Htxs) as Ht. unfold MaxSpanBatchElementCount in *.
  unfold RawSpanBatch_encode, encodePayload. rewrite encode_bits, Het by lia.
  cbn [mbind res_bind map_err].
  eexists. split; [done|]. unfold RawSpanBatch_decode.
  eapply reads_bind.
  { apply reads_err. by apply reads_prefix. }
  apply (reads_last _ (mkRawSpanBatch (prefix b))). apply reads_err.
  unfold decodePayload. eapply reads_bind.
  { unfold decodeBlockCount. rewrite <- (app_nil_r (PutUvarint _)).
    eapply reads_bind; [apply reads_uvarint; uint_lia|].
    rewrite (proj2 (Z.ltb_ge _ _)), (proj2 (Z.eqb_neq _ _)) by (unfold MaxSpanBatchElementCount; lia).
    apply reads_ret. }
  eapply reads_bind.
  { unfold decodeOriginBits. rewrite (proj2 (Z.ltb_ge _ _)) by (unfold MaxSpanBatchElementCount; lia).
    apply reads_bits; [lia|done]. }
  eapply reads_bind.
  { unfold decodeBlockTxCounts, encodeBlockTxCounts. rewrite <- Hcl. apply (reads_n _ PutUvarint id).
    apply Forall_forall. intros n Hn. pose proof (counts_le _ Hcp n Hn) as Hle.
    rewrite Forall_forall in Hcp. specialize (Hcp n Hn).
    unfold decodeBlockTxCount. rewrite <- (app_nil_r (PutUvarint _)).
    eapply reads_bind; [apply reads_uvarint; uint_lia|].
    rewrite (proj2 (Z.ltb_ge _ _)) by (unfold MaxSpanBatchElementCount; lia). apply reads_ret. }
  rewrite list_fmap_id.
  apply (reads_last _ (mkSpanBatchPayload (blockCount (payload b)) (originBits (payload b))
    (blockTxCounts (payload b)))).
  unfold decodeTxs. rewrite total_tx_count_sum, Htot by (done || lia).
  rewrite (proj2 (Z.ltb_ge _ _)) by (unfold MaxSpanBatchElementCount; lia). done.
Qed.
End columns.
