(* ===== verification/SpanBatchRoundtrip.v ===== *)
(** * From singular batches to a span batch and back

    A span batch that is built from singular batches ([NewSpanBatch] and
    [AppendSingularBatch]), turned into its raw form, encoded, decoded and derived
    yields the same L2 blocks. The proof describes the columns of a list of
    transactions in one go ([columns_of]) and shows that adding transactions,
    recovering signatures and rebuilding transactions follow that description. *)

From S2P Require Import Prelude GoBytes Errors Eth SpanBatchTxs SpanBatch SpanBatchCodec.

(** ** Lists of bits *)

Definition bits_of (l : list bool) : Z := foldr (λ b acc, 2 * acc + Z.b2z b) 0 l.

Lemma bits_of_range l : 0 ≤ bits_of l < 2 ^ Z.of_nat (length l).
Proof.
  induction l as [|b l IH]; [cbn; lia|]. cbn [bits_of foldr length]. fold (bits_of l).
  rewrite Nat2Z.inj_succ, Z.pow_succ_r by lia. destruct b; cbn; lia.
Qed.
Lemma Bit_bits_of l i : Bit (bits_of l) i = default false (l !! i).
Proof.
  revert i. induction l as [|b l IH]; intros i.
  - unfold Bit. cbn. by rewrite Z.testbit_0_l.
  - unfold Bit. cbn [bits_of foldr]. fold (bits_of l). destruct i as [|i].
    + apply Z.testbit_0_r.
    + rewrite Nat2Z.inj_succ, Z.testbit_succ_r by lia. apply IH.
Qed.
Lemma testbit_bits_of l k : 0 ≤ k → Z.testbit (bits_of l) k = default false (l !! Z.to_nat k).
Proof. intros Hk. rewrite <- Bit_bits_of. unfold Bit. by rewrite Z2Nat.id. Qed.
Lemma SetBit_bits_of l b : SetBit (bits_of l) (length l) b = bits_of (l ++ [b]).
Proof.
  apply Z.bits_inj'. intros k Hk. rewrite testbit_bits_of by done.
  destruct (decide (k = Z.of_nat (length l))) as [->|Hne].
  - rewrite Nat2Z.id, list_lookup_middle by done. cbn [default].
    unfold SetBit. destruct b; [apply Z.setbit_eq; lia|apply Z.clearbit_eq].
  - unfold SetBit. destruct b; [rewrite Z.setbit_neq by lia|rewrite Z.clearbit_neq by lia].
    all: rewrite testbit_bits_of by done.
    all: destruct (decide (k < Z.of_nat (length l)));
      [rewrite lookup_app_l by lia; done|].
    all: rewrite !lookup_ge_None_2 by (rewrite ?length_app; cbn; lia); done.
Qed.

(** ** Columns of a list of transactions *)

Section roundtrip.
Context `{TxLib}.

Definition sig_of (tx : TxData) : spanBatchSignature :=
  let '(v, r, s) := RawSignatureValues tx in mkSig v r s.
Definition is_legacy (tx : TxData) : Prop := full_Type tx = LegacyTxType.
#[local] Instance is_legacy_dec tx : Decision (is_legacy tx) := _.
Definition creates (tx : TxData) : bool := bool_decide (full_To tx = None).
Definition parity_of (tx : TxData) : bool :=
  match convertVToYParity (sig_v (sig_of tx)) (full_Type tx) with Ok n => n =? 1 | _ => false end.
Definition data_of (tx : TxData) : bytes :=
  match newSpanBatchTx tx with Ok stx => spanBatchTx_MarshalBinary stx | _ => [] end.

Definition columns_of (txs : list TxData) : spanBatchTxs :=
  let legacy := filter is_legacy txs in
  mkSpanBatchTxs (Z.of_nat (length txs)) (bits_of (creates <$> txs)) (bits_of (parity_of <$> txs))
    (sig_of <$> txs) (full_Nonce <$> txs) (full_Gas <$> txs) (omap full_To txs) (data_of <$> txs)
    (bits_of (tx_Protected <$> legacy)) (full_Type <$> txs) (Z.of_nat (length legacy)).

(** What go-ethereum's codecs do on one transaction and its inner data: decoding
    inverts encoding, the inner data is an RLP list and is found at the front of a
    stream. *)
Record codec_ok (raw : bytes) (tx : TxData) (stx : spanBatchTxData) : Prop := {
  co_unmarshal : tx_UnmarshalBinary raw = Ok tx;
  co_marshal : tx_MarshalBinary tx = Ok raw;
  co_decode : rlp_DecodeBytes (txType stx) (rlp_EncodeToBytes stx) = Ok stx;
  co_list : ∃ b d, rlp_EncodeToBytes stx = b :: d ∧ 192 ≤ b2z b;
  co_raw : reads (rlp_RawList MaxSpanBatchElementCount) (rlp_EncodeToBytes stx) (rlp_EncodeToBytes stx);
}.

(** A signed transaction of the chain that a span batch can carry: for a legacy
    transaction either replay protected with the chain's id or with v = 27, 28;
    for the other kinds the chain's id and v = 0, 1. *)
Definition sig_shape (chainID : Z) (tx : TxData) : Prop :=
  let v := sig_v (sig_of tx) in
  match tx with
  | LegacyTx _ _ _ _ _ _ _ _ _ =>
    if tx_Protected tx then tx_ChainId tx = chainID ∧ (v = 2 * chainID + 35 ∨ v = 2 * chainID + 36)
    else v = 27 ∨ v = 28
  | AccessListTx c _ _ _ _ _ _ _ _ _ _ | DynamicFeeTx c _ _ _ _ _ _ _ _ _ _ _
  | SetCodeTx c _ _ _ _ _ _ _ _ _ _ _ _ =>
    c = chainID ∧ (tx_Protected tx = true → tx_ChainId tx = chainID) ∧ (v = 0 ∨ v = 1)
  | OtherTx _ _ => False
  end.
Record tx_ok (chainID : Z) (raw : bytes) (tx : TxData) : Prop := {
  to_codec : ∃ stx, newSpanBatchTx tx = Ok stx ∧ codec_ok raw tx stx;
  to_sig : sig_shape chainID tx;
  to_r : 0 ≤ sig_r (sig_of tx) < 2 ^ 256;
  to_s : 0 ≤ sig_s (sig_of tx) < 2 ^ 256;
  to_nonce : is_u64 (full_Nonce tx);
  to_gas : is_u64 (full_Gas tx);
  to_to : ∀ a, full_To tx = Some a → length a = 20%nat;
}.

Lemma parity_bit chainID tx :
  sig_shape chainID tx →
  convertVToYParity (sig_v (sig_of tx)) (full_Type tx) = Ok (Z.b2z (parity_of tx)).
Proof.
  intros Hs. unfold parity_of, sig_shape in *. cbv zeta in Hs.
  set (v := sig_v (sig_of tx)) in *. clearbody v.
  assert (Hu : v = 0 ∨ v = 1 → Uint64Strict v = Ok v ∧ Z.b2z (v =? 1) = v).
  { by intros [-> | ->]. }
  destruct tx; cbn [full_Type] in *; unfold convertVToYParity; cbn -[isProtectedV Uint64Strict];
    try done.
  2,3,4: destruct Hs as (_ & _ & Hs); apply Hu in Hs as [-> Hb]; by rewrite Hb.
  destruct (isProtectedV v LegacyTxType) eqn:Hp; [by destruct (Z.odd (v - 35))|].
  unfold isProtectedV in Hp. cbn in Hp. apply andb_false_iff in Hp.
  rewrite !negb_false_iff, !Z.eqb_eq in Hp. by destruct Hp as [-> | ->].
Qed.

Lemma AddTx_columns chainID n raw tx txs :
  tx_ok chainID raw tx →
  AddTx chainID (length txs) (set_totalBlockTxCount n (columns_of txs)) raw
  = Ok (set_totalBlockTxCount n (columns_of (txs ++ [tx]))).
Proof.
  intros [(stx & Hstx & [Hum _ _ _ _]) Hsig Hr Hs _ _ _]. unfold AddTx. rewrite Hum.
  pose proof (parity_bit _ _ Hsig) as Hpar.
  assert (Hchain : tx_Protected tx && negb (tx_ChainId tx =? chainID) = false).
  { destruct (tx_Protected tx) eqn:Hp; [|done]. cbn. apply negb_false_iff, Z.eqb_eq.
    unfold sig_shape in Hsig. destruct tx; try done; rewrite ?Hp in Hsig; naive_solver. }
  rewrite Hchain. clear Hchain. unfold sig_of in Hpar, Hr, Hs.
  destruct (RawSignatureValues tx) as [[v r] s] eqn:Hrv.
  cbn [sig_v sig_r sig_s] in Hpar, Hr, Hs. rewrite Hpar. cbn [mbind res_bind].
  assert (Hset : SetBitUint (yParityBits (set_totalBlockTxCount n (columns_of txs))) (length txs) (Z.b2z (parity_of tx))
    = Ok (bits_of ((parity_of <$> txs) ++ [parity_of tx]))).
  { rewrite <- SetBit_bits_of, length_fmap. by destruct (parity_of tx). }
  rewrite Hset, Hstx. cbn [mbind res_bind]. f_equal. unfold set_totalBlockTxCount, columns_of.
  cbn [totalBlockTxCount contractCreationBits yParityBits txSigs txNonces txGases txTos txDatas
    protectedBits txTypes totalLegacyTxCount].
  rewrite !fmap_app, omap_app, filter_app. cbn [fmap list_fmap omap list_omap].
  f_equal.
  - fold (creates tx). rewrite <- SetBit_bits_of. by rewrite length_fmap.
  - assert (Hsg : sig_of tx = mkSig v r s) by (unfold sig_of; by rewrite Hrv).
    by rewrite Hsg, !Z.mod_small.
  - destruct (full_To tx); [done|]. by rewrite app_nil_r.
  - assert (Hdt : data_of tx = spanBatchTx_MarshalBinary stx) by (unfold data_of; by rewrite Hstx).
    by rewrite Hdt.
  - rewrite filter_cons, filter_nil. destruct (decide (is_legacy tx)) as [Hl|Hl].
    + unfold is_legacy in Hl. rewrite (proj2 (Z.eqb_eq _ _) Hl). rewrite fmap_app. cbn [fmap list_fmap].
      rewrite <- SetBit_bits_of. by rewrite length_fmap, Nat2Z.id.
    + unfold is_legacy in Hl. rewrite (proj2 (Z.eqb_neq _ _) Hl). by rewrite app_nil_r.
  - rewrite filter_cons, filter_nil. destruct (decide (is_legacy tx)) as [Hl|Hl].
    + unfold is_legacy in Hl. rewrite (proj2 (Z.eqb_eq _ _) Hl). rewrite length_app. cbn. lia.
    + unfold is_legacy in Hl. rewrite (proj2 (Z.eqb_neq _ _) Hl). by rewrite app_nil_r.
Qed.
Lemma AddTxs_loop_columns chainID n raws new txs :
  Forall2 (tx_ok chainID) raws new →
  AddTxs_loop chainID (length txs) (set_totalBlockTxCount n (columns_of txs)) raws
  = Ok (set_totalBlockTxCount n (columns_of (txs ++ new))).
Proof.
  intros Hok. revert txs. induction Hok as [|raw tx raws new Hraw Hok IH]; intros txs.
  - by rewrite app_nil_r.
  - cbn [AddTxs_loop]. rewrite (AddTx_columns _ _ _ tx) by done. cbn [mbind res_bind].
    specialize (IH (txs ++ [tx])). rewrite length_app, Nat.add_1_r in IH. rewrite IH.
    by rewrite <- app_assoc.
Qed.

(** Adding transactions extends the list the columns describe. *)
Lemma AddTxs_columns chainID raws new txs :
  Forall2 (tx_ok chainID) raws new → is_u64 (Z.of_nat (length (txs ++ new))) →
  AddTxs (columns_of txs) raws chainID = Ok (columns_of (txs ++ new)).
Proof.
  intros Hok Hlen. unfold AddTxs.
  change (totalBlockTxCount (columns_of txs)) with (Z.of_nat (length txs)). rewrite Nat2Z.id.
  pose proof (AddTxs_loop_columns chainID (Z.of_nat (length txs)) _ _ txs Hok) as Hl.
  change (set_totalBlockTxCount (Z.of_nat (length txs)) (columns_of txs)) with (columns_of txs) in Hl.
  rewrite Hl. cbn [mbind res_bind]. f_equal.
  assert (Hn : Z.of_nat (length txs) +₆₄ Z.of_nat (length raws) = Z.of_nat (length (txs ++ new))).
  { rewrite (Forall2_length _ _ _ Hok), length_app, Nat2Z.inj_add.
    rewrite length_app, Nat2Z.inj_add in Hlen. apply wrap_small, Hlen. }
  by rewrite Hn.
Qed.

(** *** The columns are consistent *)

Lemma ReadTxData_data chainID raw tx :
  tx_ok chainID raw tx → reads ReadTxData (data_of tx) (data_of tx, full_Type tx).
Proof.
  intros [(stx & Hstx & [_ _ _ (b & d & Hbd & Hb) Hraw]) _ _ _ _ _ _].
  unfold data_of. rewrite Hstx. unfold spanBatchTx_MarshalBinary.
  assert (Ht : txType stx = full_Type tx) by (destruct tx; by simplify_eq/=). rewrite Ht.
  destruct (Z.eqb_spec (full_Type tx) LegacyTxType) as [Hl|Hl].
  - intros rest. unfold ReadTxData. rewrite Hbd in *. cbn [app].
    rewrite (proj2 (Z.leb_gt _ _)) by lia.
    pose proof (reads_last _ (λ p, (p, 0)) _ _ Hraw rest) as Hgo. cbn [app] in Hgo.
    rewrite Hl. exact Hgo.
  - assert (Hz : b2z (z2b (full_Type tx)) = full_Type tx ∧ full_Type tx <= 127).
    { destruct tx; simplify_eq/=; rewrite ?b2z_z2b; done. }
    intros rest. unfold ReadTxData. cbn [app]. destruct Hz as [Hz Hz'].
    rewrite Hz, (proj2 (Z.leb_le _ _)) by lia.
    exact (reads_last _ (λ p, (z2b (full_Type tx) :: p, full_Type tx)) _ _ Hraw rest).
Qed.

Lemma creation_count txs :
  contractCreationCount (Z.of_nat (length txs)) (bits_of (creates <$> txs))
  = Z.of_nat (length txs) - Z.of_nat (length (omap full_To txs)).
Proof.
  unfold contractCreationCount. rewrite Nat2Z.id.
  induction txs as [|tx txs IH] using rev_ind; [done|].
  rewrite fmap_app, omap_app, !length_app. cbn [length fmap list_fmap].
  rewrite seq_app, filter_app, !length_app. cbn [seq Nat.add].
  rewrite (filter_ext_in _ (λ i, Bit (bits_of (creates <$> txs)) i = true)).
  2: { intros i Hi%elem_of_seq.
       by rewrite !Bit_bits_of, lookup_app_l by (rewrite length_fmap; lia). }
  rewrite filter_cons, filter_nil, Bit_bits_of.
  assert (Hnth : ((creates <$> txs) ++ [creates tx]) !! length txs = Some (creates tx)).
  { rewrite lookup_app_r, length_fmap, Nat.sub_diag by (rewrite length_fmap; lia). done. }
  rewrite Hnth. cbn [default from_option id omap list_omap].
  destruct (full_To tx) eqn:Hto.
  - rewrite decide_False by (unfold creates; by rewrite Hto). cbn [length]. lia.
  - rewrite decide_True by (unfold creates; by rewrite Hto). cbn [length]. lia.
Qed.

Definition txs_ok (chainID : Z) (raws : list bytes) (txs : list TxData) : Prop :=
  Forall2 (tx_ok chainID) raws txs ∧ Z.of_nat (length txs) ≤ MaxSpanBatchElementCount.

Lemma Forall_of_ok (P : TxData → Prop) chainID raws txs :
  Forall2 (tx_ok chainID) raws txs → (∀ raw tx, tx_ok chainID raw tx → P tx) → Forall P txs.
Proof. induction 1; constructor; eauto. Qed.

Lemma legacy_types txs :
  length (filter (λ t, t = LegacyTxType) (full_Type <$> txs)) = length (filter is_legacy txs).
Proof.
  induction txs as [|tx txs IH]; [done|]. rewrite fmap_cons, !filter_cons.
  destruct (decide (full_Type tx = LegacyTxType)), (decide (is_legacy tx)); try done.
  cbn [length]. by rewrite IH.
Qed.

Lemma columns_of_wf chainID raws txs : txs_ok chainID raws txs → columns_wf (columns_of txs).
Proof.
  intros [Hok Hlen].
  assert (Hb : ∀ l : list bool, length l = length txs → 0 ≤ bits_of l < 2 ^ Z.of_nat (length txs)).
  { intros l <-. apply bits_of_range. }
  unfold columns_of. split;
    cbn [totalBlockTxCount contractCreationBits yParityBits txSigs txNonces txGases txTos txDatas
      protectedBits txTypes totalLegacyTxCount];
    rewrite ?Nat2Z.id, ?length_fmap; try done; try (by apply Hb; rewrite length_fmap).
  - lia.
  - apply Forall_fmap, (Forall_of_ok _ _ _ _ Hok). intros raw tx [_ _ Hr Hs _ _ _]. by cbn.
  - apply Forall_fmap, (Forall_of_ok _ _ _ _ Hok). intros raw tx Ht. apply (to_nonce _ _ _ Ht).
  - apply Forall_fmap, (Forall_of_ok _ _ _ _ Hok). intros raw tx Ht. apply (to_gas _ _ _ Ht).
  - pose proof (creation_count txs) as Hc.
    assert (0 ≤ contractCreationCount (Z.of_nat (length txs)) (bits_of (creates <$> txs)))
      by (unfold contractCreationCount; lia). lia.
  - apply Forall_forall. intros a (tx & Htx & Ha)%list_elem_of_omap.
    pose proof (Forall_of_ok _ _ _ _ Hok (λ raw tx Ht, to_to _ _ _ Ht)) as Hf.
    rewrite Forall_forall in Hf. eauto.
  - clear Hlen Hb. induction Hok as [|raw tx raws txs Ht Hok IH]; [constructor|].
    cbn. constructor; [by eapply ReadTxData_data|exact IH].
  - by rewrite legacy_types.
  - pose proof (bits_of_range (tx_Protected <$> filter is_legacy txs)) as Hr.
    by rewrite length_fmap in Hr.
Qed.

(** *** Recovering the transactions *)

Lemma bit_at (f : TxData → bool) pre tx suf :
  Bit (bits_of (f <$> pre ++ tx :: suf)) (length pre) = f tx.
Proof.
  rewrite Bit_bits_of, fmap_app, fmap_cons, list_lookup_middle by (by rewrite length_fmap). done.
Qed.
Lemma legacy_bit_at pre tx suf :
  is_legacy tx →
  Bit (bits_of (tx_Protected <$> filter is_legacy (pre ++ tx :: suf))) (length (filter is_legacy pre))
  = tx_Protected tx.
Proof. intros Hl. rewrite filter_app, filter_cons_True by done. by apply bit_at. Qed.

(** The recovery value is determined by kind, chain id, parity and protection. *)
Lemma recovered_v chainID tx :
  sig_shape chainID tx →
  sig_v (sig_of tx)
  = if full_Type tx =? LegacyTxType
    then if tx_Protected tx then chainID * 2 + 35 + Z.b2z (parity_of tx) else 27 + Z.b2z (parity_of tx)
    else Z.b2z (parity_of tx).
Proof.
  intros Hs. pose proof (parity_bit _ _ Hs) as Hp. revert Hs Hp. generalize (parity_of tx) as b.
  unfold sig_shape. cbv zeta. generalize (sig_v (sig_of tx)) as v. intros v b Hs Hp.
  destruct tx; cbn [full_Type] in *; unfold convertVToYParity in Hp; try done; cbn -[isProtectedV] in *.
  2,3,4: destruct Hs as (_ & _ & [-> | ->]); unfold Uint64Strict in Hp;
    rewrite decide_True in Hp by uint_lia; destruct b; by simplify_eq/=.
  destruct (tx_Protected _); [destruct Hs as [_ Hs]|].
  - destruct (isProtectedV v LegacyTxType) eqn:Hv.
    + assert (Ho : v = 2 * chainID + 35 + Z.b2z (Z.odd (v - 35))).
      { destruct Hs as [-> | ->].
        - replace (2 * chainID + 35 - 35) with (2 * chainID) by lia. rewrite Z.odd_mul. cbn. lia.
        - replace (2 * chainID + 36 - 35) with (1 + 2 * chainID) by lia.
          rewrite Z.odd_add_mul_2. cbn. lia. }
      destruct (Z.odd (v - 35)), b; simplify_eq/=; lia.
    + unfold isProtectedV in Hv. cbn in Hv. apply andb_false_iff in Hv.
      rewrite !negb_false_iff, !Z.eqb_eq in Hv.
      destruct Hv as [-> | ->]; destruct b; simplify_eq/=; lia.
  - destruct Hs as [-> | ->]; destruct b; by simplify_eq/=.
Qed.

Lemma recoverV_loop_columns chainID pre suf :
  Forall (sig_shape chainID) suf →
  recoverV_loop chainID (bits_of (parity_of <$> pre ++ suf))
    (bits_of (tx_Protected <$> filter is_legacy (pre ++ suf))) (length pre)
    (length (filter is_legacy pre)) (full_Type <$> suf) (drop_v <$> (sig_of <$> suf))
  = Ok (sig_of <$> suf).
Proof.
  intros Hok. revert pre. induction Hok as [|tx suf Hs Hok IH]; intros pre; [done|].
  rewrite !fmap_cons. cbn [recoverV_loop]. rewrite bit_at.
  specialize (IH (pre ++ [tx])). rewrite <- app_assoc, (filter_app _ pre [tx]) in IH.
  rewrite filter_cons, filter_nil, !length_app in IH. cbn [app length] in IH. rewrite Nat.add_1_r in IH.
  pose proof (recovered_v _ _ Hs) as Hv.
  assert (Hsig : ∀ v, v = sig_v (sig_of tx) →
    mkSig v (sig_r (drop_v (sig_of tx))) (sig_s (drop_v (sig_of tx))) = sig_of tx).
  { intros v ->. by destruct (sig_of tx). }
  destruct (decide (is_legacy tx)) as [Hl|Hl].
  - rewrite (legacy_bit_at pre tx suf Hl). rewrite (proj2 (Z.eqb_eq _ _) Hl) in *.
    cbn [mbind res_bind]. cbn [length] in IH. rewrite Nat.add_1_r in IH.
    rewrite IH. cbn [mbind res_bind]. rewrite Hsig; [done|].
    rewrite Hv. by destruct (tx_Protected tx), (parity_of tx).
  - unfold is_legacy in Hl. rewrite (proj2 (Z.eqb_neq _ _) Hl) in *. cbn [length] in IH.
    rewrite Nat.add_0_r in IH.
    assert (Ht : (full_Type tx =? AccessListTxType) || (full_Type tx =? DynamicFeeTxType)
      || (full_Type tx =? SetCodeTxTypeNum) = true) by (unfold sig_shape in Hs; by destruct tx).
    rewrite Ht. cbn [mbind res_bind]. rewrite IH. cbn [mbind res_bind].
    rewrite Hsig; [done|]. rewrite Hv. by destruct (parity_of tx).
Qed.

Lemma recoverV_columns chainID raws txs :
  Forall2 (tx_ok chainID) raws txs → recoverV (drop_vs (columns_of txs)) chainID = Ok (columns_of txs).
Proof.
  intros Hok. unfold recoverV, drop_vs, set_txSigs, columns_of.
  cbn [totalBlockTxCount contractCreationBits yParityBits txSigs txNonces txGases txTos txDatas
    protectedBits txTypes totalLegacyTxCount]. rewrite !length_fmap, Nat.eqb_refl. cbn [negb].
  assert (Hs : Forall (sig_shape chainID) txs)
    by (apply (Forall_of_ok _ _ _ _ Hok); intros raw tx Ht; apply (to_sig _ _ _ Ht)).
  pose proof (recoverV_loop_columns chainID [] txs Hs) as Hr. cbn [app length filter list_filter] in Hr.
  by rewrite Hr.
Qed.

Lemma unmarshal_data chainID raw tx :
  tx_ok chainID raw tx →
  ∃ stx, newSpanBatchTx tx = Ok stx ∧ spanBatchTx_UnmarshalBinary (data_of tx) = Ok stx.
Proof.
  intros [(stx & Hstx & [_ _ Hdec (b & d & Hbd & Hb) _]) _ _ _ _ _ _]. exists stx. split; [done|].
  unfold data_of. rewrite Hstx. unfold spanBatchTx_MarshalBinary.
  destruct (Z.eqb_spec (txType stx) LegacyTxType) as [Hl|Hl].
  - rewrite Hbd in *. cbn [spanBatchTx_UnmarshalBinary]. rewrite (proj2 (Z.ltb_lt _ _)) by lia.
    by rewrite <- Hl, Hdec.
  - unfold spanBatchTx_UnmarshalBinary, spanBatchTx_decodeTyped.
    assert (Hz : b2z (z2b (txType stx)) = txType stx) by (by destruct stx).
    rewrite Hz, (proj2 (Z.ltb_ge _ _)) by (by destruct stx). rewrite Hbd in *.
    rewrite decide_True by (destruct stx; auto; done). by rewrite Hdec.
Qed.

Lemma fullTx_columns chainID pre raw tx suf :
  tx_ok chainID raw tx →
  fullTx (columns_of (pre ++ tx :: suf)) chainID (length pre) (full_To tx) = Ok raw.
Proof.
  intros Hok. destruct (unmarshal_data _ _ _ Hok) as (stx & Hstx & Hum).
  assert (Hat : ∀ {B} (f : TxData → B), (f <$> pre ++ tx :: suf) !! length pre = Some (f tx)).
  { intros B f. by rewrite fmap_app, fmap_cons, list_lookup_middle by (by rewrite length_fmap). }
  unfold fullTx, columns_of. cbn [txDatas txNonces txGases txSigs]. rewrite !Hat, Hum.
  cbn [mbind res_bind]. destruct Hok as [(stx' & Hstx' & [_ Hm _ _ _]) Hs _ _ _ _ _].
  assert (Hfull : convertToFullTx stx (full_Nonce tx) (full_Gas tx) (full_To tx) chainID
    (sig_v (sig_of tx)) (sig_r (sig_of tx)) (sig_s (sig_of tx)) = Ok tx).
  { unfold sig_shape in Hs. destruct tx; simplify_eq/=; try done; destruct Hs as [-> _]; done. }
  by rewrite Hfull.
Qed.

Lemma fullTxs_loop_columns chainID pre raws suf :
  Forall2 (tx_ok chainID) raws suf →
  fullTxs_loop (length suf) (columns_of (pre ++ suf)) chainID (length pre) (omap full_To suf) = Ok raws.
Proof.
  intros Hok. revert pre. induction Hok as [|raw tx raws suf Ht Hok IH]; intros pre; [done|].
  cbn [length fullTxs_loop].
  change (contractCreationBits (columns_of (pre ++ tx :: suf)))
    with (bits_of (creates <$> pre ++ tx :: suf)). rewrite bit_at.
  pose proof (fullTx_columns chainID pre raw tx suf Ht) as Hfull.
  specialize (IH (pre ++ [tx])). rewrite length_app, <- app_assoc, Nat.add_1_r in IH.
  cbn [app] in IH. unfold creates. change (omap full_To (tx :: suf)) with
    (match full_To tx with Some a => a :: omap full_To suf | None => omap full_To suf end).
  destruct (full_To tx) eqn:Hto; cbn [bool_decide decide_rel];
    rewrite Hfull; cbn [mbind res_bind]; by rewrite IH.
Qed.

Lemma fullTxs_columns chainID raws txs :
  Forall2 (tx_ok chainID) raws txs → fullTxs (columns_of txs) chainID = Ok raws.
Proof.
  intros Hok. unfold fullTxs. change (totalBlockTxCount (columns_of txs)) with (Z.of_nat (length txs)).
  rewrite Nat2Z.id. by apply (fullTxs_loop_columns chainID []).
Qed.

(** ** Building the batch *)

Fixpoint append_all (b : SpanBatch) (l : list (SingularBatch * Z)) : Res SpanBatch :=
  match l with
  | [] => Ok b
  | (s, seqNum) :: l => b ← AppendSingularBatch b s seqNum; append_all b l
  end.

(** The origin bits: whether the first block opens its epoch, then whether each
    block moves to a new one. *)
Fixpoint rises (prev : Z) (epochs : list Z) : list bool :=
  match epochs with [] => [] | e :: epochs => (prev <? e) :: rises e epochs end.
Definition origin_bits (l : list (SingularBatch * Z)) : list bool :=
  match l with [] => [] | (s, n) :: l => (n =? 0) :: rises (sb_EpochNum s) (sb_EpochNum <$> l.*1) end.

Lemma rises_snoc p es e : rises p (es ++ [e]) = rises p es ++ [default p (last es) <? e].
Proof.
  revert p. induction es as [|x es IH]; intros p; [done|]. cbn [app rises]. rewrite IH.
  rewrite last_cons. by destruct (last es).
Qed.
Lemma origin_bits_snoc l s n :
  origin_bits (l ++ [(s, n)])
  = origin_bits l ++ [match last l.*1 with None => n =? 0 | Some p => sb_EpochNum p <? sb_EpochNum s end].
Proof.
  destruct l as [|[s0 n0] l]; [done|]. cbn [app origin_bits]. rewrite !fmap_app. cbn [fmap list_fmap].
  rewrite rises_snoc. cbn [app fst]. rewrite fmap_last.
  change ((s0, n0) :: l).*1 with (s0 :: l.*1). rewrite last_cons. by destruct (last l.*1).
Qed.
Lemma rises_length p es : length (rises p es) = length es.
Proof. revert p. induction es; intros p; cbn; auto. Qed.
Lemma origin_bits_length l : length (origin_bits l) = length l.
Proof. destruct l as [|[s n] l]; [done|]. cbn. by rewrite rises_length, !length_fmap. Qed.
Lemma rises_lookup p es i a b :
  (p :: es) !! i = Some a → es !! i = Some b → rises p es !! i = Some (a <? b).
Proof.
  revert p es. induction i as [|i IH]; intros p [|e es] Ha Hb; try done; [by simplify_eq/=|].
  cbn in *. by apply IH.
Qed.
Lemma origin_bits_lookup l i a b :
  l.*1 !! i = Some a → l.*1 !! S i = Some b →
  origin_bits l !! S i = Some (sb_EpochNum a <? sb_EpochNum b).
Proof.
  destruct l as [|[s n] l]; [done|]. change ((s, n) :: l).*1 with (s :: l.*1). intros Ha Hb.
  cbn [origin_bits lookup list_lookup]. apply rises_lookup.
  - by rewrite <- fmap_cons, list_lookup_fmap, Ha.
  - change (l.*1 !! i = Some b) in Hb. by rewrite list_lookup_fmap, Hb.
Qed.

Definition span_of (genesis chainID : Z) (l : list (SingularBatch * Z)) (txs : list TxData) : SpanBatch :=
  let bs := l.*1 in
  mkSpanBatch (match head bs with Some b => take 20 (sb_ParentHash b) | None => replicate 20 x00 end)
    (match last bs with Some b => take 20 (sb_EpochHash b) | None => replicate 20 x00 end)
    genesis chainID (singularBatchToElement <$> bs) (bits_of (origin_bits l))
    ((λ b, Z.of_nat (length (sb_Transactions b))) <$> bs) (Some (columns_of txs)).

Lemma Append_span_of genesis chainID l txs s n new :
  Forall2 (tx_ok chainID) (sb_Transactions s) new → is_u64 (Z.of_nat (length (txs ++ new))) →
  (∀ p, last l.*1 = Some p → sb_Timestamp p ≤ sb_Timestamp s) →
  AppendSingularBatch (span_of genesis chainID l txs) s n
  = Ok (span_of genesis chainID (l ++ [(s, n)]) (txs ++ new)).
Proof.
  intros Hok Hlen Hord. unfold AppendSingularBatch.
  change (span_Batches (span_of genesis chainID l txs)) with (singularBatchToElement <$> l.*1).
  change (span_sbtxs (span_of genesis chainID l txs)) with (Some (columns_of txs)).
  change (span_ChainID (span_of genesis chainID l txs)) with chainID.
  rewrite fmap_last, !length_fmap.
  assert (Hts : match singularBatchToElement <$> last l.*1 with
    | Some e => sb_Timestamp s <? el_Timestamp e | None => false end = false).
  { destruct (last l.*1) as [p|]; [|done]. cbn. apply Z.ltb_ge. by apply Hord. }
  rewrite Hts, (AddTxs_columns _ _ _ _ Hok Hlen). cbn [mbind res_bind]. f_equal.
  unfold span_of. rewrite fmap_app. cbn [fmap list_fmap fst].
  cbn [span_ParentCheck span_GenesisTimestamp span_ChainID span_originBits span_blockTxCounts].
  rewrite origin_bits_snoc, <- SetBit_bits_of, origin_bits_length.
  rewrite last_snoc, !fmap_app. cbn [fmap list_fmap].
  destruct l as [|[s0 n0] l]; [done|]. cbn [length Nat.eqb]. f_equal. f_equal.
  change ((s0, n0) :: l).*1 with (s0 :: l.*1). rewrite last_cons. by destruct (last l.*1).
Qed.

(** ** Deriving the blocks *)

Lemma origin_nums_back bits es acc o :
  last es = Some o → Forall is_u64 es →
  (∀ i a b, es !! i = Some a → es !! S i = Some b →
     Bit bits (S i) = (a <? b) ∧ (b = a ∨ b = a + 1)) →
  origin_nums (length es) bits o acc = es ++ acc.
Proof.
  revert acc o. induction es as [|e es IH] using rev_ind; intros acc o Hlast Hu Hstep; [done|].
  rewrite last_snoc in Hlast. injection Hlast as ->. rewrite length_app, Nat.add_1_r.
  cbn [origin_nums]. apply Forall_app in Hu as [Hu Ho]. inversion_clear Ho as [|? ? Ho' _].
  rewrite <- app_assoc. cbn [app]. destruct (last es) as [p|] eqn:Hp.
  - pose proof Hp as Hlook. rewrite last_lookup in Hlook.
    destruct (length es) as [|k] eqn:Hk; [by destruct es|]. cbn [Nat.pred] in Hlook.
    destruct (Hstep k p o) as [Hbit Hpo].
    { rewrite lookup_app_l by lia. done. }
    { rewrite <- Hk. by apply list_lookup_middle. }
    rewrite Hbit. replace (0 <? S k)%nat with true by done. rewrite andb_true_r.
    assert (Hp' : (if p <? o then o -₆₄ 1 else o) = p).
    { assert (is_u64 p) by (rewrite Forall_forall in Hu; apply Hu, list_elem_of_lookup; eauto).
      destruct (Z.ltb_spec p o); [|lia]. rewrite wrap_small by uint_lia. lia. }
    rewrite Hp'. apply IH; [done..|]. intros i a b Ha Hb.
    apply Hstep; by apply lookup_app_l_Some.
  - apply last_None in Hp as ->. done.
Qed.

Lemma derive_blocks_all bt first i bs :
  (∀ j b, bs !! j = Some b → sb_Timestamp b = first +₆₄ (bt *₆₄ Z.of_nat (i + j))) →
  derive_blocks bt first i (sb_EpochNum <$> bs) ((λ b, Z.of_nat (length (sb_Transactions b))) <$> bs)
    (mjoin (sb_Transactions <$> bs))
  = Ok (singularBatchToElement <$> bs).
Proof.
  revert i. induction bs as [|b bs IH]; intros i Hts; [done|].
  rewrite !fmap_cons. cbn [derive_blocks mjoin list_join]. rewrite Nat2Z.id, length_app.
  rewrite (proj2 (Nat.ltb_ge _ _)) by lia. rewrite take_app_length, drop_app_length.
  unfold mjoin in IH. rewrite IH.
  - cbn [mbind res_bind]. unfold singularBatchToElement at 2.
    by rewrite (Hts 0%nat b), Nat.add_0_r by done.
  - intros j b' Hj. rewrite (Hts (S j) b') by done. by rewrite Nat.add_succ_r.
Qed.

(** A run of L2 blocks as the sequencer produces them: block times apart, epochs
    that stay or advance by one, and transactions a span batch can carry. *)
Record span_input (blockTime genesis chainID first : Z) (bs : list SingularBatch)
    (txss : list (list TxData)) : Prop := {
  si_nonempty : bs ≠ [];
  si_count : Z.of_nat (length bs) ≤ MaxSpanBatchElementCount;
  si_genesis : 0 ≤ genesis ≤ first;
  si_blockTime : 0 ≤ blockTime;
  si_time : ∀ i b, bs !! i = Some b →
    sb_Timestamp b = first + blockTime * Z.of_nat i ∧ is_u64 (sb_Timestamp b);
  si_epoch : Forall is_u64 (sb_EpochNum <$> bs);
  si_step : ∀ i a b, bs !! i = Some a → bs !! S i = Some b →
    sb_EpochNum b = sb_EpochNum a ∨ sb_EpochNum b = sb_EpochNum a + 1;
  si_hash : Forall (λ b, length (sb_ParentHash b) = 32%nat ∧ length (sb_EpochHash b) = 32%nat) bs;
  si_txs : Forall2 (λ b txs, Forall2 (tx_ok chainID) (sb_Transactions b) txs) bs txss;
  si_txcount : Z.of_nat (length (mjoin txss)) ≤ MaxSpanBatchElementCount;
}.

Lemma append_all_span_of genesis chainID pre txs l txss :
  Forall2 (λ b txs, Forall2 (tx_ok chainID) (sb_Transactions b) txs) l.*1 txss →
  is_u64 (Z.of_nat (length (txs ++ mjoin txss))) →
  (∀ i a b, (pre ++ l).*1 !! i = Some a → (pre ++ l).*1 !! S i = Some b →
     sb_Timestamp a ≤ sb_Timestamp b) →
  append_all (span_of genesis chainID pre txs) l = Ok (span_of genesis chainID (pre ++ l) (txs ++ mjoin txss)).
Proof.
  revert pre txs txss. induction l as [|[s n] l IH]; intros pre txs txss Hok Hlen Hord.
  - inversion_clear Hok. by rewrite !app_nil_r.
  - change ((s, n) :: l).*1 with (s :: l.*1) in Hok. inversion Hok as [|? new ? txss' Hs Hok']; subst.
    cbn [mjoin list_join] in Hlen |- *. fold (mjoin txss') in *. rewrite app_assoc in Hlen |- *.
    cbn [append_all]. rewrite (Append_span_of _ _ _ _ _ _ new); [|done| |].
    + cbn [mbind res_bind]. rewrite (IH _ _ txss'); [by rewrite <- app_assoc|done|done|].
      intros i a b. rewrite <- app_assoc. apply Hord.
    + rewrite length_app in Hlen. uint_lia.
    + intros p Hp. rewrite last_lookup, length_fmap in Hp.
      destruct (length pre) as [|k] eqn:Hk; [by destruct pre|]. apply (Hord k p s).
      * rewrite fmap_app, lookup_app_l; [done|]. rewrite length_fmap, Hk. cbn [Nat.pred]. lia.
      * rewrite fmap_app, <- Hk, lookup_app_r, length_fmap, Nat.sub_diag by (rewrite length_fmap; lia). done.
Qed.

Lemma raws_of_txss chainID bs txss :
  Forall2 (λ b txs, Forall2 (tx_ok chainID) (sb_Transactions b) txs) bs txss →
  Forall2 (tx_ok chainID) (mjoin (sb_Transactions <$> bs)) (mjoin txss).
Proof. induction 1; cbn; [constructor|by apply Forall2_app]. Qed.

Definition raw_of (genesis chainID first epoch : Z) (l : list (SingularBatch * Z)) (txs : list TxData)
    : RawSpanBatch :=
  let b := span_of genesis chainID l txs in
  mkRawSpanBatch
    (mkSpanBatchPrefix (first - genesis) epoch (span_ParentCheck b) (span_L1OriginCheck b))
    (mkSpanBatchPayload (Z.of_nat (length l)) (span_originBits b) (span_blockTxCounts b) (columns_of txs)).

Section input.
Context (blockTime genesis chainID first : Z) (l : list (SingularBatch * Z)) (txss : list (list TxData)).
Context (Hin : span_input blockTime genesis chainID first l.*1 txss).

Lemma input_head : ∃ b, head l.*1 = Some b ∧ sb_Timestamp b = first ∧ is_u64 first.
Proof.
  destruct l.*1 as [|b bs] eqn:Hl; [by destruct (si_nonempty _ _ _ _ _ _ Hin)|].
  destruct (si_time _ _ _ _ _ _ Hin 0%nat b) as [Ht Hu]; [done|].
  rewrite Z.mul_0_r, Z.add_0_r in Ht. exists b. split; [done|]. rewrite <- Ht. done.
Qed.
Lemma input_last : ∃ b, last l.*1 = Some b.
Proof.
  destruct (last l.*1) eqn:Hl; [eauto|]. apply last_None in Hl.
  by destruct (si_nonempty _ _ _ _ _ _ Hin).
Qed.

Lemma input_span :
  append_all (NewSpanBatch genesis chainID) l = Ok (span_of genesis chainID l (mjoin txss)).
Proof.
  apply (append_all_span_of genesis chainID [] []).
  - apply (si_txs _ _ _ _ _ _ Hin).
  - pose proof (si_txcount _ _ _ _ _ _ Hin). unfold MaxSpanBatchElementCount in *. cbn [app]. uint_lia.
  - intros i a b Ha Hb. cbn [app] in *. pose proof (si_blockTime _ _ _ _ _ _ Hin).
    destruct (si_time _ _ _ _ _ _ Hin _ _ Ha) as [-> _], (si_time _ _ _ _ _ _ Hin _ _ Hb) as [-> _]. nia.
Qed.

Lemma input_raw b :
  last l.*1 = Some b →
  ToRawSpanBatch (span_of genesis chainID l (mjoin txss))
  = Ok (raw_of genesis chainID first (sb_EpochNum b) l (mjoin txss)).
Proof.
  intros Hb. destruct input_head as (h & Hh & Ht & Hu). unfold ToRawSpanBatch.
  change (span_Batches (span_of genesis chainID l (mjoin txss))) with (singularBatchToElement <$> l.*1).
  rewrite fmap_last, Hb, head_lookup, list_lookup_fmap, <- head_lookup, Hh, !length_fmap.
  cbn [fmap option_fmap option_map]. f_equal. unfold raw_of. cbv zeta. f_equal. f_equal.
  cbn [el_Timestamp singularBatchToElement span_GenesisTimestamp span_of].
  pose proof (si_genesis _ _ _ _ _ _ Hin). rewrite Ht. rewrite wrap_small; [done|uint_lia].
Qed.

Lemma input_raw_wf b :
  last l.*1 = Some b → raw_wf (raw_of genesis chainID first (sb_EpochNum b) l (mjoin txss)).
Proof.
  intros Hb. destruct input_head as (h & Hh & Ht & Hu). destruct Hin as [Hne Hc Hg Hbt Hts He Hst Hha Htx Htc].
  assert (Hlen : length l = length l.*1) by (by rewrite length_fmap).
  assert (0 < length l)%nat by (rewrite Hlen; destruct l.*1; [done|cbn; lia]).
  rewrite Forall_forall in Hha. split; unfold raw_of;
    cbn [prefix payload relTimestamp l1OriginNum parentCheck l1OriginCheck blockCount originBits
      blockTxCounts payloadTxs span_of span_ParentCheck span_L1OriginCheck span_originBits span_blockTxCounts].
  - uint_lia.
  - rewrite Forall_fmap, Forall_forall in He. apply He. apply last_Some_elem_of in Hb. done.
  - rewrite Hh, length_take. destruct (Hha h) as [-> _]; [|done].
    rewrite head_lookup in Hh. apply list_elem_of_lookup. eauto.
  - rewrite Hb, length_take. destruct (Hha b) as [_ ->]; [|done]. by apply last_Some_elem_of.
  - lia.
  - pose proof (bits_of_range (origin_bits l)) as Hr. by rewrite origin_bits_length in Hr.
  - rewrite length_fmap. lia.
  - apply Forall_fmap, Forall_forall. intros x _. cbn. lia.
  - clear -Htx. cbn [columns_of totalBlockTxCount].
    induction Htx as [|s txs bs txss Hs Htx IH]; [done|].
    rewrite fmap_cons. cbn [foldr]. rewrite IH, (Forall2_length _ _ _ Hs).
    change (mjoin (txs :: txss)) with (txs ++ mjoin txss). rewrite length_app. lia.
  - apply (columns_of_wf chainID (mjoin (sb_Transactions <$> l.*1))). split; [by apply raws_of_txss|done].
Qed.

Lemma input_derive b :
  last l.*1 = Some b →
  ToSpanBatch (with_txs drop_vs (raw_of genesis chainID first (sb_EpochNum b) l (mjoin txss)))
    blockTime genesis chainID
  = Ok (mkSpanBatch (span_ParentCheck (span_of genesis chainID l (mjoin txss)))
          (span_L1OriginCheck (span_of genesis chainID l (mjoin txss))) 0 0
          (singularBatchToElement <$> l.*1) 0 [] None).
Proof.
  intros Hb. destruct input_head as (h & Hh & Ht & Hu). destruct Hin as [Hne Hc Hg Hbt Hts He Hst Hha Htx Htc].
  assert (Hlen : length l = length l.*1) by (by rewrite length_fmap).
  pose proof (raws_of_txss _ _ _ Htx) as Hraws.
  unfold ToSpanBatch, RawSpanBatch_derive, with_txs, raw_of.
  cbn [prefix payload relTimestamp l1OriginNum parentCheck l1OriginCheck blockCount originBits
    blockTxCounts payloadTxs]. cbv zeta.
  rewrite (proj2 (Z.eqb_neq _ _)) by (rewrite Hlen; destruct l.*1; [done|cbn; lia]).
  rewrite (recoverV_columns _ _ _ Hraws). cbn [mbind res_bind].
  rewrite (fullTxs_columns _ _ _ Hraws). cbn [mbind res_bind].
  rewrite Nat2Z.id, Hlen, <- (length_fmap sb_EpochNum l.*1).
  change (span_originBits (span_of genesis chainID l (mjoin txss))) with (bits_of (origin_bits l)).
  rewrite origin_nums_back, app_nil_r; [|by rewrite fmap_last, Hb|done|].
  - change (span_blockTxCounts (span_of genesis chainID l (mjoin txss)))
      with ((λ b, Z.of_nat (length (sb_Transactions b))) <$> l.*1).
    rewrite derive_blocks_all; [done|]. intros j s Hj. destruct (Hts j s Hj) as [-> Hs].
    replace (genesis +₆₄ (first - genesis)) with first
      by (replace (genesis + (first - genesis)) with first by lia; by rewrite wrap_small).
    assert (is_u64 (blockTime * Z.of_nat (0 + j))) by (cbn [Nat.add]; uint_unfold; nia).
    rewrite (wrap_small 64 (blockTime * _)) by done. by rewrite wrap_small.
  - intros i a c Ha Hc'. rewrite list_lookup_fmap in Ha, Hc'.
    destruct (l.*1 !! i) as [sa|] eqn:Hsa; [|done]. destruct (l.*1 !! S i) as [sc|] eqn:Hsc; [|done].
    simplify_eq/=. rewrite Bit_bits_of, (origin_bits_lookup _ _ _ _ Hsa Hsc). eauto.
Qed.
End input.

(** C1: a run of L2 blocks packed into a span batch comes back unchanged: building
    the batch from singular batches, turning it into the raw form, encoding,
    decoding and deriving it all succeed, and the derived batch has the epochs,
    timestamps and transactions of the blocks that went in, and the first 20 bytes
    of the parent hash of the first block and of the L1 origin hash of the last. *)
Theorem span_batch_roundtrip blockTime genesis chainID first l txss :
  span_input blockTime genesis chainID first l.*1 txss →
  ∃ sb raw d raw' sb' h t,
    append_all (NewSpanBatch genesis chainID) l = Ok sb ∧ ToRawSpanBatch sb = Ok raw ∧
    RawSpanBatch_encode raw = Ok d ∧ reads RawSpanBatch_decode d raw' ∧
    ToSpanBatch raw' blockTime genesis chainID = Ok sb' ∧
    span_Batches sb' = singularBatchToElement <$> l.*1 ∧
    head l.*1 = Some h ∧ last l.*1 = Some t ∧
    CheckParentHash sb' (sb_ParentHash h) = true ∧ CheckOriginHash sb' (sb_EpochHash t) = true.
Proof.
  intros Hin. destruct (input_last _ _ _ _ _ _ Hin) as (t & Ht).
  destruct (input_head _ _ _ _ _ _ Hin) as (h & Hh & _).
  destruct (raw_roundtrip _ (input_raw_wf _ _ _ _ _ _ Hin t Ht)) as (d & Hd & Hr).
  do 5 eexists. exists h, t.
  split; [by eapply input_span|]. split; [by eapply input_raw|]. split; [exact Hd|].
  split; [exact Hr|]. split; [by eapply input_derive|]. split; [done|]. split; [done|]. split; [done|].
  unfold CheckParentHash, CheckOriginHash, span_of. cbn [span_ParentCheck span_L1OriginCheck].
  rewrite Hh, Ht. by rewrite !bool_decide_eq_true_2.
Qed.
End roundtrip.

(** ** An example: two blocks, a contract creation and a call *)

Module SpanExample.
Definition addr : Address := replicate 20 x07.
Definition deploy : TxData := LegacyTx 3 1000 50000 None 0 [] 27 11 12.
Definition call : TxData := DynamicFeeTx 10 4 1 2000 21000 (Some addr) 5 [x2a] [] 1 13 14.

#[local] Instance lib : TxLib := {
  tx_MarshalBinary tx :=
    match tx with LegacyTx _ _ _ _ _ _ _ _ _ => Ok [xf8] | _ => Ok [x02; xf8] end;
  tx_UnmarshalBinary raw :=
    match raw with [xf8] => Ok deploy | [x02; xf8] => Ok call | _ => Err (ErrorsNew "unknown") end;
  tx_Protected tx := negb (full_Type tx =? LegacyTxType);
  tx_ChainId tx := 10;
  rlp_EncodeToBytes stx :=
    match stx with spanBatchLegacyTxData _ _ _ => [xc1; x00] | _ => [xc1; x01] end;
  rlp_DecodeBytes _ b :=
    match b with
    | [xc1; x00] => newSpanBatchTx deploy
    | [xc1; x01] => newSpanBatchTx call
    | _ => Err (ErrorsNew "unknown")
    end;
  rlp_RawList _ r :=
    match r with a :: b :: rest => (Ok [a; b], rest) | _ => (Err (ErrorsNew "short"), r) end;
}.

Definition block (n epoch : Z) (txs : list Data) : SingularBatch :=
  mkSingularBatch (replicate 32 x01) epoch (replicate 32 x02) (1000 + 2 * n) txs.
Definition blocks : list (SingularBatch * Z) :=
  [(block 0 7 [[xf8]], 3); (block 1 8 [[x02; xf8]; [xf8]], 0)].

Lemma deploy_ok : tx_ok 10 [xf8] deploy.
Proof.
  split; [|cbn; auto|cbn; lia|cbn; lia|cbn; uint_lia|cbn; uint_lia|done].
  eexists. split; [done|]. split; [done..| |]; [by eexists _, _|done].
Qed.
Lemma call_ok : tx_ok 10 [x02; xf8] call.
Proof.
  split; [|cbn; auto|cbn; lia|cbn; lia|cbn; uint_lia|cbn; uint_lia|].
  - eexists. split; [done|]. split; [done..| |]; [by eexists _, _|done].
  - intros a [= <-]. done.
Qed.
Lemma blocks_input : span_input 2 900 10 1000 blocks.*1 [[deploy]; [call; deploy]].
Proof.
  split; try (cbn; unfold MaxSpanBatchElementCount; lia).
  - done.
  - intros [|[|i]] b Hb; simplify_eq/=; (split; [lia|uint_lia]).
  - cbn. repeat constructor; uint_lia.
  - intros [|[|i]] a b Ha Hb; simplify_eq/=; auto.
  - repeat constructor.
  - repeat first [apply Forall2_nil_2 | apply Forall2_cons_2 | apply deploy_ok | apply call_ok].
Qed.
End SpanExample.
#[local] Existing Instance SpanExample.lib.

Lemma span_batch_roundtrip_witness :
  ∃ sb raw d raw' sb',
    append_all (NewSpanBatch 900 10) SpanExample.blocks = Ok sb ∧ ToRawSpanBatch sb = Ok raw ∧
    RawSpanBatch_encode raw = Ok d ∧ reads RawSpanBatch_decode d raw' ∧
    ToSpanBatch raw' 2 900 10 = Ok sb' ∧
    span_Batches sb' = singularBatchToElement <$> SpanExample.blocks.*1.
Proof.
  destruct (@span_batch_roundtrip SpanExample.lib 2 900 10 1000 SpanExample.blocks
    [[SpanExample.deploy]; [SpanExample.call; SpanExample.deploy]] SpanExample.blocks_input)
    as (sb & raw & d & raw' & sb' & _ & _ & H1 & H2 & H3 & H4 & H5 & H6 & _).
  exists sb, raw, d, raw', sb'. by repeat split.
Defined.
