(* ===== verification/Batches.v ===== *)
(** * Batch validity

    Models [op-node/rollup/derive/batches.go]: whether a batch can be applied on
    top of the safe head, given the L1 blocks that are known. *)

From S2P Require Import Prelude GoBytes Errors Eth RollupConfig ChainSpec Geth SpanBatchTxs SpanBatch.
From S2P Require Import SysConfig L1BlockInfo.

Inductive BatchValidity := BatchDrop | BatchAccept | BatchUndecided | BatchFuture | BatchPast.
#[export] Instance BatchValidity_eq_dec : EqDecision BatchValidity.
Proof. solve_decision. Defined.

Record BatchWithL1InclusionBlock := mkBatchWithL1InclusionBlock {
  bw_Batch : Batch; bw_L1InclusionBlock : L1BlockRef }.

(** [SafeBlockFetcher] of [base_batch_stage.go]: blocks of the safe L2 chain. *)
Class SafeBlockFetcher (L : Type) := {
  L2BlockRefByNumber : L → Z → Res L2BlockRef;
  PayloadByNumber : L → Z → Res ExecutionPayload;
}.

(** ** Singular batches *)

(** The loop over the transactions of a block. *)
Definition tx_allowed (isIsthmus : bool) (tx : Data) : bool :=
  match tx with
  | [] => false
  | b :: _ => negb (bool_decide (b = DepositTxType)) && (isIsthmus || negb (bool_decide (b = SetCodeTxType)))
  end.
Definition txs_allowed (isIsthmus : bool) (txs : list Data) : bool := forallb (tx_allowed isIsthmus) txs.

(** Blocks that must not carry user transactions. *)
Definition is_upgrade_block (cfg : Config) (t : Z) : bool :=
  IsJovianActivationBlock cfg t || IsKarstActivationBlock cfg t || IsInteropActivationBlock cfg t.

Definition checkSingularBatch (cfg : Config) (l1Blocks : list L1BlockRef) (l2SafeHead : L2BlockRef)
    (batch : SingularBatch) (l1InclusionBlock : L1BlockRef) : BatchValidity :=
  match l1Blocks with
  | [] => BatchUndecided
  | epoch :: more =>
    let nextTimestamp := l2_Time l2SafeHead +₆₄ cfg_BlockTime cfg in
    if nextTimestamp <? sb_Timestamp batch then
      if IsHolocene cfg (l1_Time l1InclusionBlock) then BatchDrop else BatchFuture
    else if sb_Timestamp batch <? nextTimestamp then
      if IsHolocene cfg (l1_Time l1InclusionBlock) then BatchPast else BatchDrop
    else if negb (bool_decide (sb_ParentHash batch = l2_Hash l2SafeHead)) then BatchDrop
    else if sb_EpochNum batch +₆₄ cfg_SeqWindowSize cfg <? l1_Number l1InclusionBlock then BatchDrop
    else
      let batchOrigin : L1BlockRef + BatchValidity :=
        if sb_EpochNum batch <? l1_Number epoch then inr BatchDrop
        else if sb_EpochNum batch =? l1_Number epoch then inl epoch
        else if sb_EpochNum batch =? l1_Number epoch +₆₄ 1 then
          match more with [] => inr BatchUndecided | next :: _ => inl next end
        else inr BatchDrop in
      match batchOrigin with
      | inr v => v
      | inl batchOrigin =>
        if negb (bool_decide (sb_EpochHash batch = l1_Hash batchOrigin)) then BatchDrop
        else if sb_Timestamp batch <? l1_Time batchOrigin then BatchDrop
        else if is_upgrade_block cfg (sb_Timestamp batch) && (0 <? length (sb_Transactions batch))%nat
        then BatchDrop
        else
          let max := l1_Time batchOrigin +₆₄ MaxSequencerDrift (NewChainSpec cfg) (l1_Time batchOrigin) in
          let drift : option BatchValidity :=
            if max <? sb_Timestamp batch then
              match sb_Transactions batch with
              | [] =>
                if l1_Number epoch =? l1_Number batchOrigin then
                  match more with
                  | [] => Some BatchUndecided
                  | nextOrigin :: _ =>
                    if l1_Time nextOrigin <=? sb_Timestamp batch then Some BatchDrop else None
                  end
                else None
              | _ :: _ => Some BatchDrop
              end
            else None in
          match drift with
          | Some v => v
          | None =>
            if txs_allowed (IsIsthmus cfg (sb_Timestamp batch)) (sb_Transactions batch)
            then BatchAccept else BatchDrop
          end
      end
  end.

(** ** Span batches *)

Section span.
Context {L : Type} `{SafeBlockFetcher L}.

(** The first L1 block with the number of the last epoch must have the hash the
    batch commits to; [None] when no such block is known yet. *)
Fixpoint check_origin (batch : SpanBatch) (endEpochNum : Z) (l1Blocks : list L1BlockRef) : option bool :=
  match l1Blocks with
  | [] => None
  | b :: l1Blocks =>
    if l1_Number b =? endEpochNum then Some (CheckOriginHash batch (l1_Hash b))
    else check_origin batch endEpochNum l1Blocks
  end.

(** The block the batch builds on: the safe head, or an earlier block when the
    batch overlaps the safe chain. Go's remainder and quotient by zero panic. *)
Definition span_parent (cfg : Config) (l2SafeHead : L2BlockRef) (timestamp : Z) (l2 : L)
    : Res (L2BlockRef + BatchValidity) :=
  if timestamp <? l2_Time l2SafeHead +₆₄ cfg_BlockTime cfg then
    if l2_Time l2SafeHead <? timestamp then Ok (inr BatchDrop)
    else if cfg_BlockTime cfg =? 0 then Panic "integer divide by zero"
    else if negb ((l2_Time l2SafeHead - timestamp) mod cfg_BlockTime cfg =? 0) then Ok (inr BatchDrop)
    else
      let parentNum := l2_Number l2SafeHead -₆₄ (l2_Time l2SafeHead - timestamp) / cfg_BlockTime cfg -₆₄ 1 in
      match L2BlockRefByNumber l2 parentNum with
      | Ok b => Ok (inl b)
      | Err _ => Ok (inr BatchUndecided)
      | Panic w => Panic w
      end
  else Ok (inl l2SafeHead).

Definition checkSpanBatchPrefix (cfg : Config) (l1Blocks : list L1BlockRef) (l2SafeHead : L2BlockRef)
    (batch : SpanBatch) (l1InclusionBlock : L1BlockRef) (l2 : L) : Res (BatchValidity * L2BlockRef) :=
  match l1Blocks with
  | [] => Ok (BatchUndecided, zeroL2)
  | epoch :: more =>
    startEpochNum ← GetStartEpochNum batch;
    let batchOrigin : option L1BlockRef :=
      if startEpochNum =? l1_Number epoch +₆₄ 1 then head more else Some epoch in
    match batchOrigin with
    | None => Ok (BatchUndecided, zeroL2)
    | Some batchOrigin =>
      if negb (IsDelta cfg (l1_Time batchOrigin)) then Ok (BatchDrop, zeroL2)
      else
        let nextTimestamp := l2_Time l2SafeHead +₆₄ cfg_BlockTime cfg in
        timestamp ← GetTimestamp batch;
        lastTimestamp ← GetLastTimestamp batch;
        if nextTimestamp <? timestamp then
          Ok (if IsHolocene cfg (l1_Time l1InclusionBlock) then BatchDrop else BatchFuture, zeroL2)
        else if lastTimestamp <? nextTimestamp then
          Ok (if IsHolocene cfg (l1_Time l1InclusionBlock) then BatchPast else BatchDrop, zeroL2)
        else
          parent ← span_parent cfg l2SafeHead timestamp l2;
          match parent with
          | inr v => Ok (v, zeroL2)
          | inl parentBlock =>
            if negb (CheckParentHash batch (l2_Hash parentBlock)) then Ok (BatchDrop, parentBlock)
            else if startEpochNum +₆₄ cfg_SeqWindowSize cfg <? l1_Number l1InclusionBlock then
              Ok (BatchDrop, parentBlock)
            else if id_Number (l2_L1Origin parentBlock) +₆₄ 1 <? startEpochNum then
              Ok (BatchDrop, parentBlock)
            else
              endEpochNum ← GetLastEpochNum batch;
              match check_origin batch endEpochNum l1Blocks with
              | Some false => Ok (BatchDrop, parentBlock)
              | None => Ok (BatchUndecided, parentBlock)
              | Some true =>
                if startEpochNum <? id_Number (l2_L1Origin parentBlock) then Ok (BatchDrop, parentBlock)
                else Ok (BatchAccept, parentBlock)
              end
          end
    end
  end.

(** The check of one new block: the L1 origin found and the reason to stop, if
    any. [originAdvanced]: the block starts a new epoch. *)
Definition check_block (cfg : Config) (l1Blocks : list L1BlockRef) (originIdx : nat) (l1Origin : L1BlockRef)
    (originAdvanced : bool) (e : SpanBatchElement) : option BatchValidity :=
  if el_Timestamp e <? l1_Time l1Origin then Some BatchDrop
  else
    let max := l1_Time l1Origin +₆₄ MaxSequencerDrift (NewChainSpec cfg) (l1_Time l1Origin) in
    let drift : option BatchValidity :=
      if max <? el_Timestamp e then
        match el_Transactions e with
        | [] =>
          if negb originAdvanced then
            match l1Blocks !! S originIdx with
            | None => Some BatchUndecided
            | Some next => if l1_Time next <=? el_Timestamp e then Some BatchDrop else None
            end
          else None
        | _ :: _ => Some BatchDrop
        end
      else None in
    match drift with
    | Some v => Some v
    | None =>
      if txs_allowed (IsIsthmus cfg (el_Timestamp e)) (el_Transactions e) then None else Some BatchDrop
    end.

(** The loop over the blocks. [prev] is the block before, in the batch; for the
    first block [originAdvanced] is given. *)
Fixpoint check_blocks (cfg : Config) (l1Blocks : list L1BlockRef) (l2SafeHead : L2BlockRef)
    (originAdvanced : bool) (originIdx : nat) (prev : option SpanBatchElement)
    (blocks : list SpanBatchElement) : option BatchValidity :=
  match blocks with
  | [] => None
  | e :: blocks =>
    if el_Timestamp e <=? l2_Time l2SafeHead then
      check_blocks cfg l1Blocks l2SafeHead originAdvanced originIdx (Some e) blocks
    else if el_EpochNum e <? id_Number (l2_L1Origin l2SafeHead) then Some BatchDrop
    else
      match find_origin (el_EpochNum e) originIdx (drop originIdx l1Blocks) with
      | None => Some BatchDrop
      | Some (originIdx, l1Origin) =>
        let advanced :=
          match prev with None => originAdvanced | Some p => el_EpochNum p <? el_EpochNum e end in
        match check_block cfg l1Blocks originIdx l1Origin advanced e with
        | Some v => Some v
        | None => check_blocks cfg l1Blocks l2SafeHead originAdvanced originIdx (Some e) blocks
        end
      end
  end.

(** The number of deposits of a block; an empty transaction makes the code panic. *)
Fixpoint deposit_count (txs : list Data) : Res nat :=
  match txs with
  | [] => Ok 0%nat
  | [] :: _ => Panic "index out of range"
  | (b :: _) :: txs => n ← deposit_count txs; Ok (if decide (b = DepositTxType) then S n else n)
  end.

Context `{Geth}.

(** The comparison of blocks the batch shares with the safe chain; [i] counts up,
    [n] blocks are left. *)
Fixpoint check_overlap (cfg : Config) (l2 : L) (batch : SpanBatch) (parentNum : Z) (i n : nat)
    : Res BatchValidity :=
  match n with
  | O => Ok BatchAccept
  | S n =>
    match PayloadByNumber l2 (parentNum +₆₄ Z.of_nat i +₆₄ 1) with
    | Panic w => Panic w
    | Err _ => Ok BatchUndecided
    | Ok payload =>
      batchTxs ← GetBlockTransactions batch i;
      depositCount ← deposit_count (ep_Transactions payload);
      if negb (length (ep_Transactions payload) - depositCount =? length batchTxs)%nat then Ok BatchDrop
      else if negb (bool_decide (drop depositCount (ep_Transactions payload) = batchTxs)) then Ok BatchDrop
      else
        match PayloadToBlockRef cfg payload with
        | Panic w => Panic w
        | Err _ => Ok BatchDrop
        | Ok ref =>
          epochNum ← GetBlockEpochNum batch i;
          if negb (id_Number (l2_L1Origin ref) =? epochNum) then Ok BatchDrop
          else check_overlap cfg l2 batch parentNum (S i) n
        end
    end
  end.

Definition checkSpanBatch (cfg : Config) (l1Blocks : list L1BlockRef) (l2SafeHead : L2BlockRef)
    (batch : SpanBatch) (l1InclusionBlock : L1BlockRef) (l2 : L) : Res BatchValidity :=
  '(prefixValidity, parentBlock) ← checkSpanBatchPrefix cfg l1Blocks l2SafeHead batch l1InclusionBlock l2;
  if negb (bool_decide (prefixValidity = BatchAccept)) then Ok prefixValidity
  else
    startEpochNum ← GetStartEpochNum batch;
    let originAdvanced := startEpochNum =? id_Number (l2_L1Origin parentBlock) +₆₄ 1 in
    match check_blocks cfg l1Blocks l2SafeHead originAdvanced 0 None (span_Batches batch) with
    | Some v => Ok v
    | None =>
      timestamp ← GetTimestamp batch;
      if timestamp <? l2_Time l2SafeHead +₆₄ cfg_BlockTime cfg
      then check_overlap cfg l2 batch (l2_Number parentBlock) 0
             (Z.to_nat (l2_Number l2SafeHead -₆₄ l2_Number parentBlock))
      else Ok BatchAccept
    end.

Definition CheckBatch (cfg : Config) (l1Blocks : list L1BlockRef) (l2SafeHead : L2BlockRef)
    (batch : BatchWithL1InclusionBlock) (l2 : L) : Res BatchValidity :=
  match bw_Batch batch with
  | Singular s => Ok (checkSingularBatch cfg l1Blocks l2SafeHead s (bw_L1InclusionBlock batch))
  | Span s => checkSpanBatch cfg l1Blocks l2SafeHead s (bw_L1InclusionBlock batch) l2
  end.
End span.

(** ** When a singular batch is accepted *)

(** The rules: the next timestamp, the safe head as parent, inside the sequencing
    window, an L1 origin that is the current epoch or the next, not ahead of the
    block, no user transactions in a block with upgrade transactions, and only
    transactions a sequencer may include. A block beyond the drift limit must be
    empty, and may only keep the epoch while the next L1 block is still in its
    future. *)
Record singular_valid (cfg : Config) (epoch : L1BlockRef) (more : list L1BlockRef)
    (safe : L2BlockRef) (batch : SingularBatch) (incl origin : L1BlockRef) : Prop := {
  sv_time : sb_Timestamp batch = l2_Time safe +₆₄ cfg_BlockTime cfg;
  sv_parent : sb_ParentHash batch = l2_Hash safe;
  sv_window : l1_Number incl ≤ sb_EpochNum batch +₆₄ cfg_SeqWindowSize cfg;
  sv_origin : (sb_EpochNum batch = l1_Number epoch ∧ origin = epoch) ∨
    (l1_Number epoch < sb_EpochNum batch ∧ sb_EpochNum batch = l1_Number epoch +₆₄ 1 ∧
     head more = Some origin);
  sv_hash : sb_EpochHash batch = l1_Hash origin;
  sv_after : l1_Time origin ≤ sb_Timestamp batch;
  sv_upgrade : is_upgrade_block cfg (sb_Timestamp batch) = true → sb_Transactions batch = [];
  sv_drift : sb_Timestamp batch ≤ l1_Time origin +₆₄ MaxSequencerDrift (NewChainSpec cfg) (l1_Time origin)
    ∨ (sb_Transactions batch = [] ∧ (l1_Number epoch ≠ l1_Number origin ∨
         ∃ next, head more = Some next ∧ sb_Timestamp batch < l1_Time next));
  sv_txs : Forall (λ tx, tx_allowed (IsIsthmus cfg (sb_Timestamp batch)) tx = true) (sb_Transactions batch);
}.

Lemma txs_allowed_spec i txs : txs_allowed i txs = true ↔ Forall (λ tx, tx_allowed i tx = true) txs.
Proof. unfold txs_allowed. rewrite forallb_forall, Forall_forall. by setoid_rewrite list_elem_of_In. Qed.

Lemma upgrade_spec b (txs : list Data) :
  b && (0 <? length txs)%nat = false ↔ (b = true → txs = []).
Proof. destruct b, txs; cbn; naive_solver. Qed.

(** The origin the check settles on. *)
Definition batch_origin (epoch : L1BlockRef) (more : list L1BlockRef) (n : Z) : L1BlockRef + BatchValidity :=
  if n <? l1_Number epoch then inr BatchDrop
  else if n =? l1_Number epoch then inl epoch
  else if n =? l1_Number epoch +₆₄ 1 then
    match more with [] => inr BatchUndecided | next :: _ => inl next end
  else inr BatchDrop.
Lemma batch_origin_spec epoch more n o :
  batch_origin epoch more n = inl o ↔
  (n = l1_Number epoch ∧ o = epoch) ∨
  (l1_Number epoch < n ∧ n = l1_Number epoch +₆₄ 1 ∧ head more = Some o).
Proof.
  unfold batch_origin. destruct (Z.ltb_spec n (l1_Number epoch)); [naive_solver lia|].
  destruct (Z.eqb_spec n (l1_Number epoch)); [naive_solver lia|].
  destruct (Z.eqb_spec n (l1_Number epoch +₆₄ 1)); [|naive_solver lia].
  destruct more; cbn; naive_solver lia.
Qed.

(** The drift rule; [advanced] is whether the block starts a new epoch. *)
Definition drift_check (max t : Z) (txs : list Data) (advanced : bool) (next : option L1BlockRef)
    : option BatchValidity :=
  if max <? t then
    match txs with
    | [] =>
      if negb advanced then
        match next with
        | None => Some BatchUndecided
        | Some next => if l1_Time next <=? t then Some BatchDrop else None
        end
      else None
    | _ :: _ => Some BatchDrop
    end
  else None.
Lemma drift_check_spec max t txs advanced next :
  drift_check max t txs advanced next = None ↔
  t ≤ max ∨ (txs = [] ∧ (advanced = true ∨ ∃ n, next = Some n ∧ t < l1_Time n)).
Proof.
  unfold drift_check. destruct (Z.ltb_spec max t); [|naive_solver].
  destruct txs; [|naive_solver lia]. destruct advanced; cbn; [naive_solver|].
  destruct next as [n|]; [|naive_solver lia]. destruct (Z.leb_spec (l1_Time n) t); naive_solver lia.
Qed.

Lemma checkSingularBatch_eq cfg epoch more safe batch incl :
  checkSingularBatch cfg (epoch :: more) safe batch incl =
  let next := l2_Time safe +₆₄ cfg_BlockTime cfg in
  if next <? sb_Timestamp batch then
    if IsHolocene cfg (l1_Time incl) then BatchDrop else BatchFuture
  else if sb_Timestamp batch <? next then
    if IsHolocene cfg (l1_Time incl) then BatchPast else BatchDrop
  else if negb (bool_decide (sb_ParentHash batch = l2_Hash safe)) then BatchDrop
  else if sb_EpochNum batch +₆₄ cfg_SeqWindowSize cfg <? l1_Number incl then BatchDrop
  else match batch_origin epoch more (sb_EpochNum batch) with
  | inr v => v
  | inl o =>
    if negb (bool_decide (sb_EpochHash batch = l1_Hash o)) then BatchDrop
    else if sb_Timestamp batch <? l1_Time o then BatchDrop
    else if is_upgrade_block cfg (sb_Timestamp batch) && (0 <? length (sb_Transactions batch))%nat
    then BatchDrop
    else match drift_check (l1_Time o +₆₄ MaxSequencerDrift (NewChainSpec cfg) (l1_Time o))
      (sb_Timestamp batch) (sb_Transactions batch) (negb (l1_Number epoch =? l1_Number o)) (head more) with
    | Some v => v
    | None => if txs_allowed (IsIsthmus cfg (sb_Timestamp batch)) (sb_Transactions batch)
              then BatchAccept else BatchDrop
    end
  end.
Proof.
  unfold checkSingularBatch, drift_check, batch_origin.
  destruct more; repeat (case_match; simplify_eq/=; try done); by rewrite ?negb_involutive in *.
Qed.

Lemma singular_accept_rules cfg l1Blocks safe batch incl :
  checkSingularBatch cfg l1Blocks safe batch incl = BatchAccept ↔
  ∃ epoch more origin, l1Blocks = epoch :: more ∧ singular_valid cfg epoch more safe batch incl origin.
Proof.
  destruct l1Blocks as [|epoch more]; [split; [done|naive_solver]|]. rewrite checkSingularBatch_eq.
  cbv zeta. split.
  - intros Hacc. exists epoch, more.
    destruct (Z.ltb_spec (l2_Time safe +₆₄ cfg_BlockTime cfg) (sb_Timestamp batch)); [by case_match|].
    destruct (Z.ltb_spec (sb_Timestamp batch) (l2_Time safe +₆₄ cfg_BlockTime cfg)); [by case_match|].
    destruct (bool_decide_reflect (sb_ParentHash batch = l2_Hash safe)); [|done]. cbn [negb] in Hacc.
    destruct (Z.ltb_spec (sb_EpochNum batch +₆₄ cfg_SeqWindowSize cfg) (l1_Number incl)); [done|].
    destruct (batch_origin epoch more (sb_EpochNum batch)) as [o|v] eqn:Ho.
    2: { unfold batch_origin in Ho. repeat case_match; simplify_eq. }
    apply batch_origin_spec in Ho. exists o. split; [done|].
    destruct (bool_decide_reflect (sb_EpochHash batch = l1_Hash o)); [|done]. cbn [negb] in Hacc.
    destruct (Z.ltb_spec (sb_Timestamp batch) (l1_Time o)); [done|].
    destruct (is_upgrade_block cfg (sb_Timestamp batch) && (0 <? length (sb_Transactions batch))%nat)
      eqn:Hup; [done|]. rewrite upgrade_spec in Hup.
    destruct (drift_check _ _ _ _ _) as [v|] eqn:Hd; [exfalso; revert Hd Hacc; unfold drift_check; repeat case_match; naive_solver|].
    apply drift_check_spec in Hd. rewrite negb_true_iff, Z.eqb_neq in Hd.
    destruct (txs_allowed _ _) eqn:Ht; [|done]. apply txs_allowed_spec in Ht.
    split; try done; lia.
  - intros (epoch' & more' & o & [= <- <-] & [Ht Hp Hw Ho%batch_origin_spec Hh Ha Hup Hd Htx]).
    rewrite !(proj2 (Z.ltb_ge _ _)) by lia. rewrite Hp, bool_decide_eq_true_2 by done. cbn [negb].
    rewrite Ho, Hh, bool_decide_eq_true_2 by done. cbn [negb].
    rewrite !(proj2 (Z.ltb_ge _ _)) by lia. rewrite (proj2 (upgrade_spec _ _)) by done.
    rewrite (proj2 (drift_check_spec _ _ _ _ _)) by (by rewrite negb_true_iff, Z.eqb_neq).
    by rewrite (proj2 (txs_allowed_spec _ _)).
Qed.

(** C2: a singular batch is accepted exactly when it satisfies all the rules. *)
Theorem singular_accept_iff cfg l1Blocks safe batch incl :
  checkSingularBatch cfg l1Blocks safe batch incl = BatchAccept ↔
  ∃ epoch more origin, l1Blocks = epoch :: more ∧ singular_valid cfg epoch more safe batch incl origin.
Proof. apply singular_accept_rules. Qed.
