(* ===== verification/Frame.v ===== *)
(** * Frames

    Models [op-node/rollup/derive/frame.go] and the size accounting of
    [params.go]: the binary encoding of a frame, its decoding from a reader, and
    [ParseFrames], which splits the data of an L1 transaction into frames. *)

From S2P Require Import Prelude GoBytes Errors.

Definition MaxFrameLen : Z := 1000000.
Definition ChannelIDLength : nat := 16.
Definition DerivationVersion0 : byte := x00.
Abbreviation ChannelID := bytes.

Record Frame := mkFrame {
  f_ID : ChannelID; f_FrameNumber : Z; f_Data : bytes; f_IsLast : bool }.
#[export] Instance Frame_eq_dec : EqDecision Frame.
Proof. solve_decision. Defined.

(** The ranges the Go types impose: a 16-byte id, a 16-bit number. *)
Definition Frame_typed (f : Frame) : Prop :=
  length (f_ID f) = ChannelIDLength ∧ is_uint 16 (f_FrameNumber f).
(** Frames that can be transmitted: the data also fits the length limit. *)
Definition Frame_wf (f : Frame) : Prop :=
  Frame_typed f ∧ Z.of_nat (length (f_Data f)) ≤ MaxFrameLen.

Definition frameOverhead : Z := 200.
Definition frameSize (f : Frame) : Z := Z.of_nat (length (f_Data f)) +₆₄ frameOverhead.

(** The writer is a buffer, which never fails. [uint32(len)] truncates. *)
Definition MarshalBinary (f : Frame) : bytes :=
  f_ID f ++ be_bytes 2 (f_FrameNumber f)
  ++ be_bytes 4 (wrap 32 (Z.of_nat (length (f_Data f)))) ++ f_Data f
  ++ (if f_IsLast f then [x01] else [x00]).

Definition eofAsUnexpectedMissing (e : ioerr) : error :=
  match e with
  | EOF => Errorf "fully missing" (io_err ErrUnexpectedEOF)
  | e => io_err e
  end.

(** Reads a frame from the front of [r]; the second component is what is left of
    the reader, also when an error is returned. *)
Definition UnmarshalBinary (r : bytes) : Res Frame * bytes :=
  match ReadFull ChannelIDLength r with
  | (Ok id, r) =>
    match ReadBE 2 r with
    | (Ok num, r) =>
      match ReadBE 4 r with
      | (Ok frameLength, r) =>
        if MaxFrameLen <? frameLength then (Err (ErrorsNew "frame_data_length is too large"), r)
        else
          match ReadFull (Z.to_nat frameLength) r with
          | (Ok data, r) =>
            match ReadByte r with
            | (Ok b, r) =>
              if decide (b = x00) then (Ok (mkFrame id num data false), r)
              else if decide (b = x01) then (Ok (mkFrame id num data true), r)
              else (Err (ErrorsNew "invalid byte as is_last"), r)
            | (Err e, r) => (Err (Errorf "reading final byte (is_last)" (eofAsUnexpectedMissing e)), r)
            | (Panic w, r) => (Panic w, r)
            end
          | (Err e, r) => (Err (Errorf "reading frame_data" (eofAsUnexpectedMissing e)), r)
          | (Panic w, r) => (Panic w, r)
          end
      | (Err e, r) => (Err (Errorf "reading frame_data_length" (eofAsUnexpectedMissing e)), r)
      | (Panic w, r) => (Panic w, r)
      end
    | (Err e, r) => (Err (Errorf "reading frame_number" (eofAsUnexpectedMissing e)), r)
    | (Panic w, r) => (Panic w, r)
    end
  | (Err e, r) => (Err (Errorf "reading channel_id" (io_err e)), r)
  | (Panic w, r) => (Panic w, r)
  end.

(** The loop of [ParseFrames]; every iteration consumes at least the 23 bytes of
    an empty frame, so the length of the buffer is enough fuel
    ([ParseFrames_total]). *)
Fixpoint ParseFrames_loop (fuel : nat) (buf : bytes) (frames : list Frame) : Res (list Frame) :=
  match buf with
  | [] => Ok frames
  | _ =>
    match fuel with
    | O => Panic "out of fuel"
    | S fuel =>
      match UnmarshalBinary buf with
      | (Ok f, buf) => ParseFrames_loop fuel buf (frames ++ [f])
      | (Err e, _) => Err (Errorf "parsing frame" e)
      | (Panic w, _) => Panic w
      end
    end
  end.

Definition ParseFrames (data : bytes) : Res (list Frame) :=
  match data with
  | [] => Err (ErrorsNew "data array must not be empty")
  | v :: buf =>
    if decide (v = DerivationVersion0) then
      frames ← ParseFrames_loop (length buf) buf [];
      match frames with
      | [] => Err (ErrorsNew "was not able to find any frames")
      | _ => Ok frames
      end
    else Err (ErrorsNew "invalid derivation format byte")
  end.

(** ** Encoding and decoding *)

Lemma UnmarshalBinary_Marshal f rest :
  Frame_wf f → UnmarshalBinary (MarshalBinary f ++ rest) = (Ok f, rest).
Proof.
  intros [[Hid Hnum] Hlen]. unfold MarshalBinary, UnmarshalBinary.
  rewrite <- !app_assoc, (ReadFull_app ChannelIDLength) by done.
  rewrite ReadBE_app by exact Hnum.
  unfold MaxFrameLen in *.
  rewrite wrap_small by (unfold is_uint; lia).
  rewrite ReadBE_app by (change (256 ^ Z.of_nat 4) with (2 ^ 32); lia).
  rewrite (proj2 (Z.ltb_ge _ _)) by done.
  rewrite ReadFull_app by lia. by destruct f as [i n d []].
Qed.

#[export] Instance Frame_codec : Codec error Frame := {
  encode_to := MarshalBinary;
  decode_from := UnmarshalBinary;
  codec_wf := Frame_wf;
  decode_encode := UnmarshalBinary_Marshal;
}.

(** What is accepted is well formed and is exactly the encoding of the result. *)
Lemma UnmarshalBinary_ok r f r' :
  UnmarshalBinary r = (Ok f, r') → Frame_wf f ∧ r = MarshalBinary f ++ r'.
Proof.
  unfold UnmarshalBinary.
  destruct (ReadFull _ r) as [[id|e|w] r1] eqn:E1; try done.
  destruct (ReadBE 2 r1) as [[num|e|w] r2] eqn:E2; try done.
  destruct (ReadBE 4 r2) as [[len|e|w] r3] eqn:E3; try done.
  destruct (MaxFrameLen <? len) eqn:Hl; [done|]. bool2prop.
  destruct (ReadFull _ r3) as [[d|e|w] r4] eqn:E4; try done.
  apply ReadFull_ok in E1 as [-> Hid]. apply ReadBE_ok in E2 as [-> Hnum].
  apply ReadBE_ok in E3 as [-> Hlen]. apply ReadFull_ok in E4 as [-> Hd].
  intros H. assert (∃ b : bool, f = mkFrame id num d b ∧ r4 = (if b then [x01] else [x00]) ++ r')
    as (b & -> & ->).
  { destruct r4 as [|c r4]; [done|]. cbn in H.
    repeat case_decide; try done; injection H as <- <-; subst; eauto. }
  split.
  - split; [split; [done | exact Hnum]|]. cbn. lia.
  - unfold MarshalBinary. cbn [f_ID f_FrameNumber f_Data f_IsLast].
    rewrite wrap_small by (unfold is_uint, MaxFrameLen in *; lia).
    rewrite Hd, Z2Nat.id by lia. by rewrite <- !app_assoc.
Qed.

Lemma length_MarshalBinary f :
  Frame_typed f → length (MarshalBinary f) = (23 + length (f_Data f))%nat.
Proof.
  intros [Hid _]. unfold MarshalBinary. autorewrite with gobytes. rewrite Hid.
  destruct (f_IsLast f); cbn; unfold ChannelIDLength; lia.
Qed.

Lemma UnmarshalBinary_not_panic r r' w : UnmarshalBinary r ≠ (Panic w, r').
Proof.
  unfold UnmarshalBinary, ReadBE, ReadByte.
  repeat (match goal with
          | |- context [ReadFull ?n ?r] =>
            let E := fresh "E" in
            destruct (ReadFull n r) as [[?|?|?] ?] eqn:E; cbn;
            try (by destruct (ReadFull_not_panic _ _ _ _ _ E eq_refl))
          | |- _ => case_goal
          end; try done).
  subst. by case_match.
Qed.

Lemma MarshalBinary_not_nil f : MarshalBinary f ≠ [].
Proof.
  intros H. apply (f_equal length) in H. revert H. unfold MarshalBinary.
  autorewrite with gobytes. cbn. lia.
Qed.

(** ** Parsing the data of an L1 transaction *)

(** The frames of a transaction, one after the other. *)
Fixpoint encode_frames (fs : list Frame) : bytes :=
  match fs with [] => [] | f :: fs => MarshalBinary f ++ encode_frames fs end.

Lemma ParseFrames_loop_Marshal fuel fs acc :
  Forall Frame_wf fs → (length (encode_frames fs) ≤ fuel)%nat →
  ParseFrames_loop fuel (encode_frames fs) acc = Ok (acc ++ fs).
Proof.
  intros Hwf. revert fuel acc. induction Hwf as [|f fs Hf Hfs IH]; intros fuel acc Hfuel.
  - cbn. destruct fuel; by rewrite app_nil_r.
  - cbn [encode_frames] in *.
    pose proof (length_MarshalBinary f (proj1 Hf)) as Hl.
    rewrite length_app in Hfuel. destruct fuel as [|fuel]; [lia|].
    destruct (MarshalBinary f ++ encode_frames fs) as [|b buf] eqn:E.
    + apply (f_equal length) in E. rewrite length_app in E. cbn in E. lia.
    + cbn [ParseFrames_loop]. rewrite <- E, UnmarshalBinary_Marshal by done.
      rewrite IH by lia. by rewrite <- app_assoc.
Qed.

Lemma ParseFrames_loop_ok fuel buf acc fs :
  ParseFrames_loop fuel buf acc = Ok fs →
  ∃ gs, fs = acc ++ gs ∧ Forall Frame_wf gs ∧ buf = encode_frames gs.
Proof.
  revert buf acc. induction fuel as [|fuel IH]; intros [|b buf] acc; cbn [ParseFrames_loop].
  1,3: intros [= <-]; exists []; by rewrite app_nil_r.
  - done.
  - destruct (UnmarshalBinary (b :: buf)) as [[f|e|w] r] eqn:E; try done.
    apply UnmarshalBinary_ok in E as [Hf ->].
    intros (gs & -> & Hgs & ->)%IH. exists (f :: gs).
    split; [by rewrite <- app_assoc|]. by split; [constructor|].
Qed.

Lemma ParseFrames_loop_not_panic fuel buf acc w :
  (length buf ≤ fuel)%nat → ParseFrames_loop fuel buf acc ≠ Panic w.
Proof.
  revert buf acc. induction fuel as [|fuel IH]; intros [|b buf] acc Hl;
    cbn [ParseFrames_loop]; try done; [cbn in Hl; lia|].
  destruct (UnmarshalBinary (b :: buf)) as [[f|e|v] r] eqn:E; try done.
  - apply IH. apply UnmarshalBinary_ok in E as [Hf E].
    apply (f_equal length) in E. rewrite length_app, (length_MarshalBinary f (proj1 Hf)) in E.
    lia.
  - by destruct (UnmarshalBinary_not_panic _ _ _ E).
Qed.

Lemma ParseFrames_accepts data frames :
  ParseFrames data = Ok frames →
  frames ≠ [] ∧ Forall Frame_wf frames ∧ data = DerivationVersion0 :: encode_frames frames.
Proof.
  destruct data as [|v buf]; [done|]. cbn [ParseFrames]. case_decide as Hv; [|done].
  intros H. apply bind_ok in H as (fs & Hl & H).
  apply ParseFrames_loop_ok in Hl as (gs & -> & Hgs & ->).
  destruct gs; [done|]. injection H as <-. by subst v.
Qed.

(** C17: [ParseFrames] accepts a byte string exactly when it is the version byte
    followed by the encodings of one or more well-formed frames, and then it
    returns those frames: the on-chain format is parsed without ambiguity,
    without left-over data and without losing a frame. *)
Theorem ParseFrames_spec data frames :
  ParseFrames data = Ok frames ↔
  frames ≠ [] ∧ Forall Frame_wf frames ∧
  data = DerivationVersion0 :: encode_frames frames.
Proof.
  split; [apply ParseFrames_accepts|].
  intros (Hne & Hwf & ->). cbn [ParseFrames]. rewrite decide_True by done.
  rewrite ParseFrames_loop_Marshal by done. cbn. by destruct frames.
Qed.

(** [ParseFrames] always terminates with a result or an error: the loop
    consumes data on every iteration and no read panics. *)
Theorem ParseFrames_total data :
  (∃ frames, ParseFrames data = Ok frames) ∨ (∃ e, ParseFrames data = Err e).
Proof.
  destruct data as [|v buf]; [cbn; eauto|]. cbn [ParseFrames]. case_decide; [|eauto].
  destruct (ParseFrames_loop _ _ _) as [fs|e|w] eqn:E; cbn; eauto.
  - destruct fs; eauto.
  - by destruct (ParseFrames_loop_not_panic _ _ _ _ (le_n _) E).
Qed.
