(* ===== verification/Channel.v ===== *)
(** * Channels

    Models [op-node/rollup/derive/channel.go]: a channel buffers the frames of
    one channel id, in any order or strictly in order (Holocene), prunes frames
    past the closing frame, and can be read once all frames are there. *)

From S2P Require Import Prelude GoBytes Errors Eth Frame.

Record Channel := mkChannel {
  ch_id : ChannelID;
  ch_openBlock : L1BlockRef;
  ch_requireInOrder : bool;
  ch_size : Z;
  ch_closed : bool;
  ch_highestFrameNumber : Z;
  ch_endFrameNumber : Z;
  ch_inputs : gmap Z Frame;
  ch_highestL1InclusionBlock : L1BlockRef }.

Definition NewChannel (id : ChannelID) (openBlock : L1BlockRef) (requireInOrder : bool) : Channel :=
  mkChannel id openBlock requireInOrder 0 false 0 0 ∅ zeroL1.

(** The size after the pruning scan: every buffered frame is subtracted, whether
    it is deleted or not. Subtraction commutes, so the map order is irrelevant. *)
Definition pruned_size (sz : Z) (inputs : gmap Z Frame) : Z :=
  map_fold (λ _ f s, s -₆₄ frameSize f) sz inputs.

(** The guards of [AddFrame], in the order of the code. *)
Definition AddFrame_check (ch : Channel) (frame : Frame) : Res unit :=
  if decide (f_ID frame ≠ ch_id ch) then Err (ErrorsNew "frame id does not match channel id")
  else if f_IsLast frame && ch_closed ch then
    Err (ErrorsNew "cannot add ending frame to a closed channel")
  else if decide (is_Some (ch_inputs ch !! f_FrameNumber frame)) then Err DuplicateErr
  else if ch_closed ch && (ch_endFrameNumber ch <=? f_FrameNumber frame) then
    Err (ErrorsNew "frame number is greater than or equal to end frame number of a closed channel")
  else if ch_requireInOrder ch && negb (f_FrameNumber frame =? Z.of_nat (size (ch_inputs ch))) then
    Err (ErrorsNew "frame out of order")
  else Ok ().

(** The state update of an accepted frame. *)
Definition AddFrame_apply (ch : Channel) (frame : Frame) (l1InclusionBlock : L1BlockRef) : Channel :=
  let n := f_FrameNumber frame in
  let endN := if f_IsLast frame then n else ch_endFrameNumber ch in
  let closed := f_IsLast frame || ch_closed ch in
  let prune := f_IsLast frame && (endN <? ch_highestFrameNumber ch) in
  let inputs := if prune then filter (λ kv, kv.1 < endN) (ch_inputs ch) else ch_inputs ch in
  let size := if prune then pruned_size (ch_size ch) (ch_inputs ch) else ch_size ch in
  let highest := if prune then endN else ch_highestFrameNumber ch in
  let highest := if highest <? n then n else highest in
  let incl := if l1_Number (ch_highestL1InclusionBlock ch) <? l1_Number l1InclusionBlock
              then l1InclusionBlock else ch_highestL1InclusionBlock ch in
  mkChannel (ch_id ch) (ch_openBlock ch) (ch_requireInOrder ch) (size +₆₄ frameSize frame)
    closed highest endN (<[n := frame]> inputs) incl.

Definition AddFrame (ch : Channel) (frame : Frame) (l1InclusionBlock : L1BlockRef) : Res unit * Channel :=
  match AddFrame_check ch frame with
  | Ok () => (Ok (), AddFrame_apply ch frame l1InclusionBlock)
  | e => (e, ch)
  end.

Definition OpenBlockNumber (ch : Channel) : Z := l1_Number (ch_openBlock ch).
Definition HighestBlock (ch : Channel) : L1BlockRef := ch_highestL1InclusionBlock ch.
Definition Size (ch : Channel) : Z := ch_size ch.

Definition IsReady (ch : Channel) : bool :=
  ch_closed ch
  && (Z.of_nat (size (ch_inputs ch)) =? ch_endFrameNumber ch + 1)
  && forallb (λ i, bool_decide (is_Some (ch_inputs ch !! i))) (seqZ 0 (ch_endFrameNumber ch + 1)).

(** [io.ReadAll(ch.Reader())]: the data of the frames in order; a missing frame
    is the panic of the source. *)
Fixpoint read_frames (inputs : gmap Z Frame) (l : list Z) : Res bytes :=
  match l with
  | [] => Ok []
  | i :: l =>
    match inputs !! i with
    | None => Panic "dev error in channel.Reader. Must be called after the channel is ready."
    | Some f => d ← read_frames inputs l; mret (f_Data f ++ d)
    end
  end.
Definition Reader (ch : Channel) : Res bytes :=
  read_frames (ch_inputs ch) (seqZ 0 (ch_endFrameNumber ch + 1)).

(** Frames added one after the other; errors are logged and skipped. *)
Definition AddFrames (ch : Channel) (fs : list Frame) (blk : L1BlockRef) : Channel :=
  foldl (λ ch f, (AddFrame ch f blk).2) ch fs.

(** ** Sizes *)

Definition sum_sizes (m : gmap Z Frame) : Z := map_fold (λ _ f s, s + frameSize f) 0 m.

Lemma sum_sizes_insert m i f :
  m !! i = None → sum_sizes (<[i := f]> m) = sum_sizes m + frameSize f.
Proof.
  intros H. unfold sum_sizes. rewrite map_fold_insert_L; [lia|lia|done].
Qed.

Lemma pruned_size_spec sz m : is_u64 sz → pruned_size sz m = wrap64 (sz - sum_sizes m).
Proof.
  intros Hsz. unfold pruned_size. induction m as [|i f m Hi IH] using map_ind.
  - unfold sum_sizes. rewrite !map_fold_empty, Z.sub_0_r. symmetry. by apply wrap_small.
  - rewrite map_fold_insert_L, IH, sum_sizes_insert; [|done| |done].
    + unfold wrap. rewrite Zminus_mod_idemp_l. f_equal. lia.
    + intros. unfold wrap. rewrite !Zminus_mod_idemp_l. f_equal. lia.
Qed.

(** ** Invariant *)

Record Channel_inv (ch : Channel) : Prop := {
  (* every buffered frame belongs to the channel and sits at its own number *)
  inv_frame i f : ch_inputs ch !! i = Some f →
    f_FrameNumber f = i ∧ f_ID f = ch_id ch ∧ is_uint 16 i ∧ i ≤ ch_highestFrameNumber ch;
  inv_highest : ch_highestFrameNumber ch = 0 ∨ is_Some (ch_inputs ch !! ch_highestFrameNumber ch);
  (* an open channel has seen no closing frame *)
  inv_open i f : ch_closed ch = false → ch_inputs ch !! i = Some f → f_IsLast f = false;
  (* a closed channel holds its closing frame, the only one of its kind, and
     nothing past it *)
  inv_closed : ch_closed ch = true →
    ∃ f, ch_inputs ch !! ch_endFrameNumber ch = Some f ∧ f_IsLast f = true;
  inv_end i f : ch_closed ch = true → ch_inputs ch !! i = Some f →
    i ≤ ch_endFrameNumber ch ∧ (f_IsLast f = true ↔ i = ch_endFrameNumber ch);
  (* with strict ordering the numbers are contiguous from zero *)
  inv_order i : ch_requireInOrder ch = true →
    is_Some (ch_inputs ch !! i) ↔ 0 ≤ i < Z.of_nat (size (ch_inputs ch));
  (* the size never counts more than what is buffered *)
  inv_size : ∃ sub, sub ⊆ ch_inputs ch ∧ ch_size ch = wrap64 (sum_sizes sub)
    ∧ (ch_closed ch = false → sub = ch_inputs ch);
}.

Lemma NewChannel_inv id blk o : Channel_inv (NewChannel id blk o).
Proof.
  constructor; cbn; try done; [by left| |].
  - intros i _. rewrite lookup_empty, map_size_empty. split; [by intros [? ?]|lia].
  - exists ∅. by split_and!.
Qed.

Lemma AddFrame_check_ok ch f :
  AddFrame_check ch f = Ok () ↔
  f_ID f = ch_id ch ∧ (f_IsLast f = true → ch_closed ch = false) ∧
  ch_inputs ch !! f_FrameNumber f = None ∧
  (ch_closed ch = true → f_FrameNumber f < ch_endFrameNumber ch) ∧
  (ch_requireInOrder ch = true → f_FrameNumber f = Z.of_nat (size (ch_inputs ch))).
Proof.
  unfold AddFrame_check.
  destruct (decide (f_ID f ≠ ch_id ch)) as [|Hid%dec_stable]; [naive_solver|].
  destruct (f_IsLast f && ch_closed ch) eqn:E1; bool2prop; [naive_solver congruence|].
  case_decide as Hs.
  { split; [done|]. intros (_ & _ & H & _). rewrite H in Hs. by destruct Hs. }
  rewrite <- eq_None_not_Some in Hs.
  destruct (ch_closed ch) eqn:Ec, (Z.leb_spec (ch_endFrameNumber ch) (f_FrameNumber f)),
    (ch_requireInOrder ch) eqn:Eo,
    (Z.eqb_spec (f_FrameNumber f) (Z.of_nat (size (ch_inputs ch)))); cbn;
    split; intuition (try congruence; try lia).
Qed.

Section AddFrame_inv.
Context (ch : Channel) (f : Frame) (blk : L1BlockRef).
Context (Hinv : Channel_inv ch) (Hty : Frame_typed f) (Hok : AddFrame_check ch f = Ok ()).
Let n := f_FrameNumber f.
Let prune := f_IsLast f && (n <? ch_highestFrameNumber ch).
Let kept := if prune then filter (λ kv, kv.1 < n) (ch_inputs ch) else ch_inputs ch.

Lemma AddFrame_inputs : ch_inputs (AddFrame_apply ch f blk) = <[n := f]> kept.
Proof. unfold AddFrame_apply, kept, prune, n. cbn. by destruct (f_IsLast f). Qed.

Lemma kept_lookup i g : kept !! i = Some g →
  ch_inputs ch !! i = Some g ∧ (prune = true → i < n) ∧ i ≠ n.
Proof.
  apply AddFrame_check_ok in Hok as (_ & _ & Hnone & _). fold n in Hnone.
  unfold kept. destruct prune; intros H.
  - apply map_lookup_filter_Some in H as [? ?]. cbn in *. split_and!; [done..|lia].
  - split_and!; [done..|]. intros ->. congruence.
Qed.

Lemma kept_fresh : kept !! n = None.
Proof.
  destruct (kept !! n) eqn:E; [|done]. by apply kept_lookup in E as (_ & _ & ?).
Qed.

(** Strict ordering makes the pruning branch unreachable. *)
Lemma in_order_no_prune : ch_requireInOrder ch = true → prune = false.
Proof.
  intros Ho. unfold prune. destruct (Z.ltb_spec n (ch_highestFrameNumber ch)) as [Hlt|];
    [|by rewrite andb_false_r]. exfalso.
  apply AddFrame_check_ok in Hok as (_ & _ & _ & _ & Hn). specialize (Hn Ho). fold n in Hn.
  destruct (inv_highest _ Hinv) as [H0|Hs]; [lia|].
  apply (inv_order _ Hinv _ Ho) in Hs. lia.
Qed.

(** Pruning only ever happens on an open channel. *)
Lemma prune_open : prune = true → ch_closed ch = false.
Proof.
  unfold prune. intros H. apply andb_true_iff in H as [? _].
  apply AddFrame_check_ok in Hok as (_ & Hc & _). naive_solver.
Qed.

Lemma AddFrame_size :
  ∃ sub, sub ⊆ <[n := f]> kept ∧
    ch_size (AddFrame_apply ch f blk) = wrap64 (sum_sizes sub) ∧
    (f_IsLast f || ch_closed ch = false → sub = <[n := f]> kept).
Proof.
  destruct (inv_size _ Hinv) as (sub & Hsub & Hsz & Hopen).
  pose proof kept_fresh as Hfresh.
  assert (Hs : ch_size (AddFrame_apply ch f blk) =
    (if prune then pruned_size (ch_size ch) (ch_inputs ch) else ch_size ch) +₆₄ frameSize f).
  { unfold AddFrame_apply, prune, n. cbn. by destruct (f_IsLast f). }
  rewrite Hs. destruct prune eqn:Ep.
  - pose proof (prune_open Ep) as Hc. rewrite (Hopen Hc) in Hsz.
    exists {[n := f]}. split_and!.
    + apply map_singleton_subseteq_l. by rewrite lookup_insert_eq.
    + rewrite Hsz, pruned_size_spec by (apply wrap_range; lia).
      unfold sum_sizes at 3. rewrite map_fold_singleton.
      unfold wrap. rewrite Zminus_mod_idemp_l, Z.sub_diag. done.
    + unfold prune in Ep. destruct (f_IsLast f); done.
  - unfold kept. assert (Hn : ch_inputs ch !! n = None) by
      (apply AddFrame_check_ok in Hok; unfold n; naive_solver).
    exists (<[n := f]> sub). split_and!.
    + by apply insert_mono.
    + rewrite sum_sizes_insert by (eapply lookup_weaken_None; eauto).
      rewrite Hsz. unfold wrap. by rewrite Zplus_mod_idemp_l.
    + intros Hc. bool2prop. by rewrite Hopen.
Qed.

Lemma kept_order : ch_requireInOrder ch = true →
  ∀ i, is_Some ((<[n := f]> kept) !! i) ↔ 0 ≤ i < Z.of_nat (size (<[n := f]> kept)).
Proof.
  intros Ho i. pose proof (in_order_no_prune Ho) as Ep.
  assert (Hk : kept = ch_inputs ch) by (unfold kept; by rewrite Ep).
  rewrite map_size_insert_None by apply kept_fresh. rewrite Hk.
  apply AddFrame_check_ok in Hok as (_ & _ & Hn & _ & Hsz). specialize (Hsz Ho).
  fold n in Hsz, Hn.
  destruct (decide (i = n)) as [->|Hne].
  - rewrite lookup_insert_eq. split; [lia|eauto].
  - rewrite lookup_insert_ne, (inv_order _ Hinv i Ho) by done. lia.
Qed.

Lemma AddFrame_highest :
  ch_highestFrameNumber (AddFrame_apply ch f blk) =
  if prune then n else Z.max n (ch_highestFrameNumber ch).
Proof.
  unfold AddFrame_apply, prune. cbn. fold n.
  destruct (f_IsLast f); cbn; repeat case_goal; bool2prop; lia.
Qed.

Lemma AddFrame_end : f_IsLast f = true → ∀ i g,
  kept !! i = Some g → i < n ∧ f_IsLast g = false.
Proof.
  intros Hl i g Hg. apply kept_lookup in Hg as (Hg & Hp & Hne).
  apply AddFrame_check_ok in Hok as (_ & Hc & _). specialize (Hc Hl).
  split; [|by eapply inv_open]. unfold prune in Hp. rewrite Hl in Hp. cbn in Hp.
  destruct (Z.ltb_spec n (ch_highestFrameNumber ch)); [by apply Hp|].
  apply (inv_frame _ Hinv) in Hg. lia.
Qed.

Lemma AddFrame_apply_inv : Channel_inv (AddFrame_apply ch f blk).
Proof.
  pose proof AddFrame_inputs as HI. pose proof AddFrame_highest as HH.
  destruct Hty as [_ Hn16]. fold n in Hn16.
  pose proof (proj1 (AddFrame_check_ok ch f) Hok) as (Hid & Hlast & Hnone & Hlt & Hord).
  fold n in Hnone, Hlt, Hord.
  constructor; rewrite ?HI, ?HH.
  - intros i g [[<- <-]|[Hne Hg]]%lookup_insert_Some.
    + split_and!; try done. case_goal; lia.
    + apply kept_lookup in Hg as (Hg & Hp & _). apply (inv_frame _ Hinv) in Hg as (?&?&?&?).
      split_and!; try done. case_goal; [apply Z.lt_le_incl; by apply Hp|lia].
  - case_goal; [right; by rewrite lookup_insert_eq|].
    destruct (Z.max_spec n (ch_highestFrameNumber ch)) as [[Hlt' ->]|[_ ->]];
      [|right; by rewrite lookup_insert_eq].
    rewrite lookup_insert_ne by lia. unfold kept. rewrite ?E. apply (inv_highest _ Hinv).
  - intros i g Hc [[<- <-]|[Hne Hg]]%lookup_insert_Some; cbn in Hc; bool2prop; [done|].
    apply kept_lookup in Hg as (Hg & _). by eapply (inv_open _ Hinv).
  - cbn. fold n. intros Hc. destruct (Sumbool.sumbool_of_bool (f_IsLast f)) as [El|El]; rewrite El in Hc |- *.
    + exists f. by rewrite lookup_insert_eq.
    + cbn in Hc. destruct (inv_closed _ Hinv Hc) as (g & Hg & Hgl). exists g. split; [|done].
      specialize (Hlt Hc). rewrite lookup_insert_ne by lia. unfold kept, prune. by rewrite ?El.
  - cbn. fold n. intros i g Hc Hg.
    destruct (Sumbool.sumbool_of_bool (f_IsLast f)) as [El|El]; rewrite El in Hc |- *.
    + apply lookup_insert_Some in Hg as [[<- <-]|[Hne Hg]]; [naive_solver lia|].
      apply AddFrame_end in Hg as [? Hgl]; [|done]. rewrite Hgl. naive_solver lia.
    + cbn in Hc. specialize (Hlt Hc).
      apply lookup_insert_Some in Hg as [[<- <-]|[Hne Hg]].
      * rewrite El. naive_solver lia.
      * apply kept_lookup in Hg as (Hg & _). by eapply inv_end.
  - intros i Ho. by apply kept_order.
  - apply AddFrame_size.
Qed.
End AddFrame_inv.

(** adding a frame, accepted or rejected, keeps the channel consistent:
    frames are filed under their own number and channel, at most one closing
    frame is kept and nothing lies past it, strictly ordered channels stay
    contiguous, and the accounted size is the size of a part of what is
    buffered, so it never wraps below zero. *)
Theorem AddFrame_preserves_inv ch f blk :
  Channel_inv ch → Frame_typed f → Channel_inv (AddFrame ch f blk).2.
Proof.
  intros Hinv Hty. unfold AddFrame.
  destruct (AddFrame_check ch f) as [[]| |] eqn:E; cbn; [|done..].
  by apply AddFrame_apply_inv.
Qed.

Lemma AddFrames_inv ch fs blk :
  Channel_inv ch → Forall Frame_typed fs → Channel_inv (AddFrames ch fs blk).
Proof.
  intros Hch Hfs. revert ch Hch. induction Hfs as [|f fs Hf Hfs IH]; intros ch Hch; [done|].
  cbn. apply IH. unfold AddFrame.
  destruct (AddFrame_check ch f) as [[]| |] eqn:E; cbn; [|done..].
  by apply AddFrame_apply_inv.
Qed.

(** ** Readiness *)

Lemma size_contiguous (m : gmap Z Frame) n :
  0 ≤ n → (∀ i, is_Some (m !! i) ↔ 0 ≤ i < n) → Z.of_nat (size m) = n.
Proof.
  intros Hn H. rewrite <- size_dom.
  assert (dom m = list_to_set (seqZ 0 n)) as ->.
  { apply set_eq. intros i. rewrite elem_of_dom, H, elem_of_list_to_set, elem_of_seqZ. lia. }
  rewrite size_list_to_set by apply NoDup_seqZ. rewrite length_seqZ. lia.
Qed.

Lemma Channel_inv_end_nonneg ch :
  Channel_inv ch → ch_closed ch = true → 0 ≤ ch_endFrameNumber ch.
Proof.
  intros Hinv Hc. destruct (inv_closed _ Hinv Hc) as (f & Hf & _).
  apply (inv_frame _ Hinv) in Hf as (_ & _ & Hu & _). unfold is_uint in Hu. lia.
Qed.

(** a channel is ready exactly when it is closed and every frame number up to
    the closing one is buffered. *)
Theorem IsReady_spec ch :
  Channel_inv ch →
  IsReady ch = true ↔
  ch_closed ch = true ∧ ∀ i, 0 ≤ i ≤ ch_endFrameNumber ch → is_Some (ch_inputs ch !! i).
Proof.
  intros Hinv. unfold IsReady. split.
  - intros H. bool2prop. split; [done|]. intros i Hi.
    rewrite forallb_forall in H0. specialize (H0 i). rewrite <- list_elem_of_In in H0.
    rewrite bool_decide_eq_true, elem_of_seqZ in H0. apply H0. lia.
  - intros [Hc H]. rewrite Hc. cbn. apply andb_true_iff. split.
    + apply Z.eqb_eq. apply size_contiguous.
      * pose proof (Channel_inv_end_nonneg _ Hinv Hc). lia.
      * intros i. split; [|intros; apply H; lia]. intros [f Hf].
        pose proof (inv_end _ Hinv _ _ Hc Hf). apply (inv_frame _ Hinv) in Hf as (_&_&Hu&_).
        unfold is_uint in Hu. lia.
    + apply forallb_forall. intros i. rewrite <- list_elem_of_In, elem_of_seqZ.
      intros. apply bool_decide_eq_true. apply H. lia.
Qed.

Lemma read_frames_ok inputs fs k :
  (∀ i f, fs !! i = Some f → inputs !! (k + Z.of_nat i) = Some f) →
  read_frames inputs (seqZ k (Z.of_nat (length fs))) = Ok (mjoin (f_Data <$> fs)).
Proof.
  revert k. induction fs as [|f fs IH]; intros k H; [done|].
  rewrite seqZ_cons by (cbn; lia). cbn [read_frames].
  assert (inputs !! k = Some f) as -> by (rewrite <- (H 0%nat f eq_refl); f_equal; lia).
  replace (Z.pred (Z.of_nat (length (f :: fs)))) with (Z.of_nat (length fs)) by (cbn; lia).
  rewrite IH; [done|]. intros i g Hg.
  replace (Z.succ k + Z.of_nat i) with (k + Z.of_nat (S i)) by lia. by apply H.
Qed.

Lemma omap_seqZ (inputs : gmap Z Frame) k m :
  (∀ i, k ≤ i < k + Z.of_nat m → is_Some (inputs !! i)) →
  length (omap (λ i, inputs !! i) (seqZ k (Z.of_nat m))) = m ∧
  ∀ i f, omap (λ i, inputs !! i) (seqZ k (Z.of_nat m)) !! i = Some f →
    inputs !! (k + Z.of_nat i) = Some f.
Proof.
  revert k. induction m as [|m IH]; intros k Hk; [done|].
  rewrite seqZ_cons by lia.
  replace (Z.pred (Z.of_nat (S m))) with (Z.of_nat m) by lia.
  destruct (Hk k ltac:(lia)) as [f Hf]. cbn [omap list_omap]. rewrite Hf.
  destruct (IH (Z.succ k)) as [IHl IHi]; [intros; apply Hk; lia|].
  split; [cbn; by rewrite IHl|]. intros [|i] g Hg.
  - rewrite Z.add_0_r. cbn in Hg. congruence.
  - replace (k + Z.of_nat (S i)) with (Z.succ k + Z.of_nat i) by lia. by apply IHi.
Qed.

Lemma IsReady_lookup ch i :
  IsReady ch = true → 0 ≤ i ≤ ch_endFrameNumber ch → is_Some (ch_inputs ch !! i).
Proof.
  unfold IsReady. intros H Hi. bool2prop. rewrite forallb_forall in H0. specialize (H0 i).
  rewrite <- list_elem_of_In, bool_decide_eq_true, elem_of_seqZ in H0. apply H0. lia.
Qed.

(** The frames a ready channel is read from. *)
Definition frames_of (ch : Channel) : list Frame :=
  omap (λ i, ch_inputs ch !! i) (seqZ 0 (ch_endFrameNumber ch + 1)).

Lemma frames_of_spec ch :
  IsReady ch = true →
  Z.of_nat (length (frames_of ch)) = ch_endFrameNumber ch + 1 ∧
  (∀ i f, frames_of ch !! i = Some f → ch_inputs ch !! Z.of_nat i = Some f).
Proof.
  intros H. unfold frames_of. set (n := ch_endFrameNumber ch + 1).
  assert (Hn : 0 ≤ n) by (unfold IsReady in H; bool2prop; lia).
  destruct (omap_seqZ (ch_inputs ch) 0 (Z.to_nat n)) as [Hlen Hi].
  { intros. apply IsReady_lookup; [done|lia]. }
  rewrite Z2Nat.id in Hlen, Hi by done. split; [lia|done].
Qed.

Lemma Reader_frames_of ch :
  IsReady ch = true → Reader ch = Ok (mjoin (f_Data <$> frames_of ch)).
Proof.
  intros [Hlen Hi]%frames_of_spec. unfold Reader. rewrite <- Hlen. by apply read_frames_ok.
Qed.

(** reading a ready channel never panics: it yields the data of the frames
    0, 1, ..., up to the closing frame, concatenated in that order. *)
Theorem Reader_ready ch :
  IsReady ch = true → ∃ fs,
    Z.of_nat (length fs) = ch_endFrameNumber ch + 1 ∧
    (∀ i f, fs !! i = Some f → ch_inputs ch !! Z.of_nat i = Some f) ∧
    Reader ch = Ok (mjoin (f_Data <$> fs)).
Proof.
  intros H. exists (frames_of ch). destruct (frames_of_spec ch H) as [? ?].
  split_and!; [done..|by apply Reader_frames_of].
Qed.

(** ** Assembling a channel *)

(** The frames of a complete channel, in order: the right id, numbered from
    zero, and exactly the last one marked as closing. *)
Definition complete_frames (id : ChannelID) (fs : list Frame) : Prop :=
  fs ≠ [] ∧ Z.of_nat (length fs) ≤ 65536 ∧
  ∀ i f, fs !! i = Some f →
    f_ID f = id ∧ f_FrameNumber f = Z.of_nat i ∧ f_IsLast f = bool_decide (S i = length fs).

(** The state reached after the frames [ps], some of [fs], were added. *)
Record assembled (id : ChannelID) (fs ps : list Frame) (o : bool) (ch : Channel) : Prop := {
  as_id : ch_id ch = id;
  as_order : ch_requireInOrder ch = o;
  as_inputs i g : ch_inputs ch !! i = Some g ↔ g ∈ ps ∧ f_FrameNumber g = i;
  as_size : size (ch_inputs ch) = length ps;
  as_closed : ch_closed ch = true ↔ ∃ g, g ∈ ps ∧ f_IsLast g = true;
  as_end : ch_closed ch = true → ch_endFrameNumber ch = Z.of_nat (length fs) - 1;
  as_highest : ch_highestFrameNumber ch ≤ Z.of_nat (length fs) - 1;
}.

Section assemble.
Context (id : ChannelID) (fs : list Frame) (Hfs : complete_frames id fs).

Lemma complete_elem f : f ∈ fs → ∃ i, fs !! i = Some f ∧
  f_ID f = id ∧ f_FrameNumber f = Z.of_nat i ∧ f_IsLast f = bool_decide (S i = length fs).
Proof.
  intros [i Hi]%list_elem_of_lookup. exists i. destruct Hfs as (_ & _ & H).
  split; [done|]. by apply H.
Qed.

Lemma complete_inj f g : f ∈ fs → g ∈ fs → f_FrameNumber f = f_FrameNumber g → f = g.
Proof.
  intros (i & Hi & _ & Hn & _)%complete_elem (j & Hj & _ & Hm & _)%complete_elem Heq.
  assert (i = j) by lia. subst. congruence.
Qed.

Lemma complete_last f : f ∈ fs → f_IsLast f = true ↔ f_FrameNumber f = Z.of_nat (length fs) - 1.
Proof.
  intros (i & Hi & _ & Hn & Hl)%complete_elem. rewrite Hl, bool_decide_eq_true. lia.
Qed.

Lemma complete_bound f : f ∈ fs → 0 ≤ f_FrameNumber f ≤ Z.of_nat (length fs) - 1.
Proof.
  intros (i & Hi & _ & Hn & _)%complete_elem. apply lookup_lt_Some in Hi. lia.
Qed.

Lemma assembled_step ps f o ch blk :
  assembled id fs ps o ch → ps ⊆ fs → f ∈ fs → f ∉ ps →
  (o = true → f_FrameNumber f = Z.of_nat (length ps)) →
  assembled id fs (ps ++ [f]) o (AddFrame ch f blk).2.
Proof.
  intros [Hid Ho Hin Hsz Hcl Hend Hhi] Hps Hf Hnew Hord.
  pose proof (complete_bound f Hf) as Hb.
  assert (Hnone : ch_inputs ch !! f_FrameNumber f = None).
  { destruct (ch_inputs ch !! f_FrameNumber f) as [g|] eqn:E; [|done].
    apply Hin in E as [Hg Hn]. destruct Hnew. by rewrite (complete_inj f g) by auto. }
  assert (Hlast : f_IsLast f = true → ch_closed ch = false).
  { intros Hl. apply not_true_iff_false. rewrite Hcl. intros (g & Hg & Hgl).
    destruct Hnew. rewrite (complete_inj f g); auto.
    apply complete_last in Hl, Hgl; auto. lia. }
  assert (Hok : AddFrame_check ch f = Ok ()).
  { apply AddFrame_check_ok. rewrite Hid, Ho. destruct (complete_elem f Hf) as (i & _ & -> & _).
    split_and!; try done; [|intros; rewrite Hsz; auto].
    intros Hc. rewrite (Hend Hc). destruct (f_IsLast f) eqn:El; [naive_solver congruence|].
    pose proof (complete_last f Hf). rewrite El in H. naive_solver lia. }
  unfold AddFrame. rewrite Hok. cbn [snd].
  assert (Hnp : f_IsLast f && (f_FrameNumber f <? ch_highestFrameNumber ch) = false).
  { destruct (f_IsLast f) eqn:El; [|done]. apply complete_last in El; [|done].
    cbn. apply Z.ltb_ge. lia. }
  pose proof (AddFrame_inputs ch f blk) as HI. rewrite Hnp in HI.
  constructor; try done; try (rewrite HI).
  - intros i g. rewrite lookup_insert_Some, Hin, elem_of_app, list_elem_of_singleton.
    split; [naive_solver|]. intros [[Hg| ->] Hi]; [|naive_solver].
    right. split; [|done]. intros Heq. apply Hnew.
    rewrite (complete_inj f g); auto. congruence.
  - rewrite map_size_insert_None, Hsz, length_app by done. cbn. lia.
  - cbn. rewrite orb_true_iff, Hcl. set_solver.
  - cbn. intros Hc. destruct (f_IsLast f) eqn:El; [by apply complete_last|by apply Hend].
  - rewrite (AddFrame_highest ch f blk). case_goal; lia.
Qed.
End assemble.

Lemma complete_NoDup id fs : complete_frames id fs → NoDup fs.
Proof.
  intros (_ & _ & H). apply NoDup_alt. intros i j f Hi Hj.
  destruct (H i f Hi) as (_ & ? & _), (H j f Hj) as (_ & ? & _). lia.
Qed.

Lemma assemble_all id fs o gs ps ch blk :
  complete_frames id fs → ps ++ gs ≡ₚ fs → (o = true → ps ++ gs = fs) →
  assembled id fs ps o ch → assembled id fs (ps ++ gs) o (AddFrames ch gs blk).
Proof.
  intros Hc. revert ps ch. induction gs as [|g gs IH]; intros ps ch Hperm Ho Has.
  - by rewrite app_nil_r.
  - replace (ps ++ g :: gs) with ((ps ++ [g]) ++ gs) in * by (by rewrite <- app_assoc).
    cbn [AddFrames foldl]. apply IH; [done..|].
    pose proof (complete_NoDup _ _ Hc) as Hnd. rewrite <- Hperm in Hnd.
    apply NoDup_app in Hnd as (Hnd & _). apply NoDup_app in Hnd as (_ & Hdis & _).
    apply assembled_step; [done..| | | |].
    + intros x Hx. rewrite <- Hperm. set_solver.
    + rewrite <- Hperm. set_solver.
    + intros Hg. apply (Hdis g Hg). set_solver.
    + intros E. specialize (Ho E). destruct Hc as (_ & _ & Hn).
      destruct (Hn (length ps) g) as (_ & ? & _); [|done].
      rewrite <- Ho, <- app_assoc. change ([g] ++ gs) with (g :: gs).
      by rewrite list_lookup_middle.
Qed.

Lemma assembled_new id fs o blk : fs ≠ [] → assembled id fs [] o (NewChannel id blk o).
Proof.
  intros Hne. constructor; cbn; try done; try set_solver. destruct fs; [done|cbn; lia].
Qed.

Lemma assembled_ready id fs gs o ch :
  complete_frames id fs → gs ≡ₚ fs → assembled id fs gs o ch →
  IsReady ch = true ∧ Reader ch = Ok (mjoin (f_Data <$> fs)).
Proof.
  intros (Hne & Hlen & Hn) Hperm [_ _ Hin Hsz Hcl Hend _].
  assert (Hfound : ∀ i f, fs !! i = Some f → ch_inputs ch !! Z.of_nat i = Some f).
  { intros i f Hi. apply Hin. rewrite Hperm.
    split; [by eapply list_elem_of_lookup_2|]. by apply Hn in Hi as (_ & -> & _). }
  assert (Hclosed : ch_closed ch = true).
  { apply Hcl. destruct (lookup_lt_is_Some_2 fs (length fs - 1)) as [f Hf].
    { destruct fs; [done|cbn; lia]. }
    exists f. rewrite Hperm. split; [by eapply list_elem_of_lookup_2|].
    apply Hn in Hf as (_ & _ & ->). apply bool_decide_eq_true.
    destruct fs; [done|cbn; lia]. }
  specialize (Hend Hclosed). split.
  - unfold IsReady. rewrite Hclosed, Hend, Hsz, Hperm. cbn. apply andb_true_iff. split.
    + apply Z.eqb_eq. lia.
    + apply forallb_forall. intros i. rewrite <- list_elem_of_In, elem_of_seqZ. intros Hi.
      apply bool_decide_eq_true.
      destruct (lookup_lt_is_Some_2 fs (Z.to_nat i)) as [f Hf]; [lia|].
      apply Hfound in Hf. rewrite Z2Nat.id in Hf by lia. eauto.
  - unfold Reader. rewrite Hend. replace (_ - 1 + 1) with (Z.of_nat (length fs)) by lia.
    apply read_frames_ok. intros i f Hi. by apply Hfound.
Qed.

(** C16: a complete set of frames assembles to a ready channel whose content is the
    data of the frames in order, whatever order the frames arrive in; with
    strict ordering (Holocene) the same holds for the in-order arrival. *)
Theorem channel_assembles id fs gs o openBlk blk :
  complete_frames id fs → gs ≡ₚ fs → (o = true → gs = fs) →
  let ch := AddFrames (NewChannel id openBlk o) gs blk in
  IsReady ch = true ∧ Reader ch = Ok (mjoin (f_Data <$> fs)).
Proof.
  intros Hc Hperm Ho ch. apply (assembled_ready id fs gs o); [done..|].
  apply (assemble_all id fs o gs []); [done..|]. apply assembled_new, Hc.
Qed.

(** ** Accounting *)

Lemma Channel_size_u64 ch : Channel_inv ch → is_u64 (ch_size ch).
Proof. intros H. destruct (inv_size _ H) as (? & _ & -> & _). by apply wrap_range. Qed.

Lemma frameSize_wf f : Frame_wf f → frameSize f = Z.of_nat (length (f_Data f)) + frameOverhead.
Proof.
  intros [_ H]. unfold frameSize. apply wrap_small.
  unfold MaxFrameLen, frameOverhead in *. uint_lia.
Qed.

(** A frame adds at most its own size, and exactly that when nothing is pruned. *)
Lemma AddFrame_apply_size ch f blk :
  Channel_inv ch → Frame_wf f → AddFrame_check ch f = Ok () →
  ch_size ch + frameSize f < 2 ^ 64 →
  ch_size (AddFrame_apply ch f blk) ≤ ch_size ch + frameSize f ∧
  (ch_requireInOrder ch = true →
   ch_size (AddFrame_apply ch f blk) = ch_size ch + frameSize f).
Proof.
  intros Hinv Hwf Hok Hlt. pose proof (Channel_size_u64 _ Hinv) as Hu.
  pose proof (in_order_no_prune ch f Hinv Hok) as Hord.
  pose proof (frameSize_wf f Hwf) as Hfs. unfold frameOverhead in Hfs.
  assert (Hs : ch_size (AddFrame_apply ch f blk) =
    (if f_IsLast f && (f_FrameNumber f <? ch_highestFrameNumber ch)
     then pruned_size (ch_size ch) (ch_inputs ch) else ch_size ch) +₆₄ frameSize f).
  { unfold AddFrame_apply. cbn. by destruct (f_IsLast f). }
  rewrite Hs. destruct (f_IsLast f && _) eqn:Ep.
  - split; [|intros Ho; discriminate (Hord Ho)].
    destruct (inv_size _ Hinv) as (sub & Hsub & Hsz & Hopen).
    rewrite Hopen in Hsz by by eapply prune_open.
    rewrite pruned_size_spec, Hsz by (try rewrite Hsz; apply wrap_range; lia).
    assert (Hz : wrap64 (wrap64 (sum_sizes (ch_inputs ch)) - sum_sizes (ch_inputs ch)) = 0).
    { unfold wrap. by rewrite Zminus_mod_idemp_l, Z.sub_diag. }
    rewrite Hz. rewrite Hsz in Hu, Hlt. rewrite wrap_small; uint_lia.
  - rewrite wrap_small; uint_lia.
Qed.

(** ** Pruning and the accounted size *)

Module PruneExample.
Definition id : ChannelID := replicate 16 x11.
Definition fr (n : Z) (last : bool) : Frame := mkFrame id n [x01; x02] last.
(** Frames 0, 1 and 3 arrive, then frame 2 closes the channel. *)
Definition ch : Channel :=
  AddFrames (NewChannel id zeroL1 false) [fr 0 false; fr 1 false; fr 3 false; fr 2 true] zeroL1.
End PruneExample.

(** when a closing frame prunes later frames, the scan subtracts the size of
    every buffered frame and not only of the deleted ones: the channel then
    holds three frames but accounts for one. *)
Theorem AddFrame_prune_undercounts :
  size (ch_inputs PruneExample.ch) = 3%nat ∧
  sum_sizes (ch_inputs PruneExample.ch) = 606 ∧ Size PruneExample.ch = 202.
Proof. by vm_compute. Qed.

(** ** Witnesses *)

Lemma AddFrame_preserves_inv_witness :
  Channel_inv (AddFrame (NewChannel PruneExample.id zeroL1 true) (PruneExample.fr 0 true) zeroL1).2.
Proof.
  apply (AddFrame_preserves_inv (NewChannel PruneExample.id zeroL1 true)
           (PruneExample.fr 0 true) zeroL1).
  - apply NewChannel_inv.
  - by vm_compute.
Defined.

Lemma IsReady_spec_witness :
  IsReady PruneExample.ch = true ∧ ch_closed PruneExample.ch = true.
Proof.
  assert (Hinv : Channel_inv PruneExample.ch).
  { apply AddFrames_inv; [apply NewChannel_inv|]. repeat constructor; by vm_compute. }
  split; [by vm_compute|].
  apply (proj1 (IsReady_spec PruneExample.ch Hinv)). by vm_compute.
Defined.

Lemma Reader_ready_witness :
  ∃ fs, length fs = 3%nat ∧ Reader PruneExample.ch = Ok (mjoin (f_Data <$> fs)).
Proof.
  destruct (Reader_ready PruneExample.ch) as (fs & Hl & _ & HR); [by vm_compute|].
  exists fs. split; [|exact HR].
  assert (E : ch_endFrameNumber PruneExample.ch = 2) by by vm_compute.
  rewrite E in Hl. lia.
Defined.

Lemma channel_assembles_witness :
  let fs := [PruneExample.fr 0 false; PruneExample.fr 1 true] in
  let ch := AddFrames (NewChannel PruneExample.id zeroL1 false) (reverse fs) zeroL1 in
  IsReady ch = true ∧ Reader ch = Ok [x01; x02; x01; x02].
Proof.
  apply (channel_assembles PruneExample.id [PruneExample.fr 0 false; PruneExample.fr 1 true]
    [PruneExample.fr 1 true; PruneExample.fr 0 false] false zeroL1 zeroL1).
  - split_and!; [done|cbn; lia|]. intros [|[|i]] f; cbn; [..|done]; intros [= <-]; by vm_compute.
  - apply Permutation_swap.
  - done.
Defined.
