(* ===== verification/Stages.v ===== *)
(** * Interfaces between the pipeline stages

    Every stage of the derivation pipeline pulls from the stage before it
    through a Go interface. Each interface is a class over the state of the
    implementing stage: a method call takes the state and returns the result and
    the new state. The laws a client relies on are classes of their own. *)

From S2P Require Import Prelude GoBytes Errors Eth RollupConfig SpanBatch Frame.

(** [Origin() eth.L1BlockRef], common to all stages. *)
Class HasOrigin (P : Type) := Origin : P → L1BlockRef.

(** [ResettableStage] and [ChannelFlusher] of [pipeline.go]. *)
Class ResettableStage (P : Type) :=
  Reset : P → L1BlockRef → SystemConfig → Res unit * P.
Class ChannelFlusher (P : Type) := FlushChannel : P → Res unit * P.
(** [ForkTransformer]; a panic is possible. *)
Class ForkTransformer (P : Type) := Transform : P → ForkName → Res P.

(** [NextBlockProvider] of [l1_retrieval.go]. *)
Class NextBlockProvider (P : Type) := {
  nbp_origin :: HasOrigin P;
  NextL1Block : P → Res L1BlockRef * P;
  SystemConfigOf : P → SystemConfig;
}.

(** [NextDataProvider] of [frame_queue.go]. *)
Class NextDataProvider (P : Type) := {
  ndp_origin :: HasOrigin P;
  NextData : P → Res bytes * P;
}.

(** [NextFrameProvider] of [channel_bank.go]. *)
Class NextFrameProvider (P : Type) := {
  nfp_origin :: HasOrigin P;
  NextFrame : P → Res Frame * P;
}.

(** [RawChannelProvider] of [channel_in_reader.go]. *)
Class RawChannelProvider (P : Type) := {
  rcp_origin :: HasOrigin P;
  rcp_reset :: ResettableStage P;
  rcp_flush :: ChannelFlusher P;
  NextRawChannel : P → Res bytes * P;
}.

(** [NextBatchProvider] of [base_batch_stage.go]. *)
Class NextBatchProvider (P : Type) := {
  nbtp_origin :: HasOrigin P;
  nbtp_flush :: ChannelFlusher P;
  NextBatch : P → Res Batch * P;
}.

(** [SingularBatchProvider] of [attributes_queue.go]: the next batch on top of a
    block, and whether it is the last of its span. *)
Class SingularBatchProvider (P : Type) := {
  sbp_origin :: HasOrigin P;
  sbp_reset :: ResettableStage P;
  sbp_flush :: ChannelFlusher P;
  NextSingularBatch : P → L2BlockRef → Res (SingularBatch * bool) * P;
}.

(** ** Laws: pulling data leaves the L1 origin of the pipeline alone. *)
Class NextL1BlockStable (P : Type) `{NextBlockProvider P} :=
  NextL1Block_origin p : Origin (NextL1Block p).2 = Origin p.
Class NextDataStable (P : Type) `{NextDataProvider P} :=
  NextData_origin p : Origin (NextData p).2 = Origin p.
Class NextFrameStable (P : Type) `{NextFrameProvider P} :=
  NextFrame_origin p : Origin (NextFrame p).2 = Origin p.
Class NextRawChannelStable (P : Type) `{RawChannelProvider P} :=
  NextRawChannel_origin p : Origin (NextRawChannel p).2 = Origin p.

Class NextBatchStable (P : Type) `{NextBatchProvider P} := {
  NextBatch_origin p : Origin (NextBatch p).2 = Origin p;
  NextBatch_flush_origin p : Origin (FlushChannel p).2 = Origin p;
}.
(** Span batches that were decoded from a channel have at least one block. *)
Class NextBatchNonEmpty (P : Type) `{NextBatchProvider P} :=
  NextBatch_nonempty p s : (NextBatch p).1 = Ok (Span s) → span_Batches s ≠ [].

(** The frames a provider hands out are within the limits of the format. *)
Class NextFrameTyped (P : Type) `{NextFrameProvider P} := {
  frames_typed : P → Prop;
  NextFrame_typed p : frames_typed p → frames_typed (NextFrame p).2;
  NextFrame_frame p f : frames_typed p → (NextFrame p).1 = Ok f → Frame_wf f;
}.

(** A provider cannot be drained forever: what is left to hand out before the
    next error has a measure, counted in bytes or frames. *)
Class NextDataFinite (P : Type) `{NextDataProvider P} := {
  data_left : P → nat;
  NextData_left p d : (NextData p).1 = Ok d →
    (length d + data_left (NextData p).2 < data_left p)%nat;
}.
Class NextFrameFinite (P : Type) `{NextFrameProvider P} := {
  frames_left : P → nat;
  NextFrame_left p f : (NextFrame p).1 = Ok f →
    (frames_left (NextFrame p).2 < frames_left p)%nat;
}.
