(* ===== verification/L1Traversal.v ===== *)
(** * L1 traversal

    Models [op-node/rollup/derive/l1_traversal.go] and its manually operated
    variant [l1_traversal_managed.go]: the first stage, which holds the current
    L1 block and the system configuration as of that block. The L1 node is a
    class: its answers are arguments of the model. *)

From S2P Require Import Prelude GoBytes Errors Eth RollupConfig Geth SysConfig L1BlockInfo Stages.

(** The fetchers of an L1 node that derivation uses. A source is a snapshot of
    what the node would answer; the world may replace it between two calls. *)
Class L1Source (L : Type) := {
  L1BlockRefByNumber : L → Z → Res L1BlockRef;
  L1BlockRefByHash : L → Hash → Res L1BlockRef;
  InfoByHash : L → Hash → Res BlockInfo;
  FetchReceipts : L → Hash → Res (BlockInfo * list Receipt);
  InfoAndTxsByHash : L → Hash → Res (list Transaction);
  GetBlobsByHash : L → Z → list Hash → Res (list (option bytes));
}.

Definition is_NotFound (e : error) : bool := errors_Is e (TSentinel SNotFound).

(** The stage interface of [pipeline.go]. *)
Class l1TraversalStage (P : Type) := {
  l1ts_blocks :: NextBlockProvider P;
  l1ts_reset :: ResettableStage P;
  AdvanceL1Block : P → Res unit * P;
}.

(** ** Following the L1 chain *)

Record L1Traversal (L : Type) := mkL1Traversal {
  l1t_block : L1BlockRef;
  l1t_done : bool;
  l1t_l1Blocks : L;
  l1t_sysCfg : SystemConfig;
  l1t_cfg : Config }.
Arguments mkL1Traversal {L}.
Arguments l1t_block {L}.
Arguments l1t_done {L}.
Arguments l1t_l1Blocks {L}.
Arguments l1t_sysCfg {L}.
Arguments l1t_cfg {L}.

Section traversal.
Context `{Geth} {L : Type} `{L1Source L}.

Definition NewL1Traversal (cfg : Config) (l1Blocks : L) : L1Traversal L :=
  mkL1Traversal zeroL1 false l1Blocks zeroSystemConfig cfg.

#[export] Instance L1Traversal_origin : HasOrigin (L1Traversal L) := l1t_block.

Definition L1Traversal_NextL1Block (t : L1Traversal L) : Res L1BlockRef * L1Traversal L :=
  if negb (l1t_done t)
  then (Ok (l1t_block t),
        mkL1Traversal (l1t_block t) true (l1t_l1Blocks t) (l1t_sysCfg t) (l1t_cfg t))
  else (Err io_EOF, t).

(** The receipts of the next block, applied to the configuration. *)
Definition sysCfg_after (sc : SystemConfig) (receipts : list Receipt) (cfg : Config) (next : L1BlockRef)
    : Res SystemConfig :=
  '(sc, _) ← UpdateSystemConfigWithL1Receipts sc receipts cfg (l1_Time next); Ok sc.

Definition L1Traversal_AdvanceL1Block (t : L1Traversal L) : Res unit * L1Traversal L :=
  let origin := l1t_block t in
  match L1BlockRefByNumber (l1t_l1Blocks t) (l1_Number origin +₆₄ 1) with
  | Panic w => (Panic w, t)
  | Err err =>
    if is_NotFound err then (Err io_EOF, t)
    else (Err (NewTemporaryError (Errorf "failed to find L1 block info by number" err)), t)
  | Ok nextL1Origin =>
    if decide (l1_Hash (l1t_block t) ≠ l1_ParentHash nextL1Origin) then
      (Err (NewResetError (ErrorsNew "detected L1 reorg")), t)
    else
      match FetchReceipts (l1t_l1Blocks t) (l1_Hash nextL1Origin) with
      | Panic w => (Panic w, t)
      | Err err => (Err (NewTemporaryError (Errorf "failed to fetch receipts" err)), t)
      | Ok (_, receipts) =>
        match sysCfg_after (l1t_sysCfg t) receipts (l1t_cfg t) nextL1Origin with
        | Ok sc => (Ok (), mkL1Traversal nextL1Origin false (l1t_l1Blocks t) sc (l1t_cfg t))
        | Err e => (Err e, t)
        | Panic w => (Panic w, t)
        end
      end
  end.

#[export] Instance L1Traversal_Reset : ResettableStage (L1Traversal L) := λ t base sc,
  (Err io_EOF, mkL1Traversal base false (l1t_l1Blocks t) sc (l1t_cfg t)).

#[export] Instance L1Traversal_blocks : NextBlockProvider (L1Traversal L) := {
  NextL1Block := L1Traversal_NextL1Block;
  SystemConfigOf := l1t_sysCfg }.
#[export] Instance L1Traversal_stage : l1TraversalStage (L1Traversal L) := {
  AdvanceL1Block := L1Traversal_AdvanceL1Block }.

#[export] Instance L1Traversal_stable : NextL1BlockStable (L1Traversal L).
Proof. intros t. cbn. unfold L1Traversal_NextL1Block. by destruct (l1t_done t). Qed.

(** advancing moves to a block that builds on the current one by hash, with the
    system configuration updated by exactly the receipts of that block, and
    offers the block once; in every other case nothing changes: a missing block
    is EOF, a conflicting parent asks for a reset, and a failed request is a
    temporary error. It never panics unless the L1 source does. *)
Theorem AdvanceL1Block_spec t :
  let n := l1_Number (l1t_block t) +₆₄ 1 in
  match L1Traversal_AdvanceL1Block t with
  | (Ok (), t') =>
    ∃ next info receipts us errs,
      L1BlockRefByNumber (l1t_l1Blocks t) n = Ok next ∧
      l1_ParentHash next = l1_Hash (l1t_block t) ∧
      FetchReceipts (l1t_l1Blocks t) (l1_Hash next) = Ok (info, receipts) ∧
      announced (relevant_logs (l1t_cfg t) receipts) us (length (errs : list error)) ∧
      t' = mkL1Traversal next false (l1t_l1Blocks t)
        (foldl (apply_update (l1t_cfg t) (l1_Time next)) (l1t_sysCfg t) us) (l1t_cfg t) ∧
      (NextL1Block t').1 = Ok next ∧ (NextL1Block (NextL1Block t').2).1 = Err io_EOF
  | (Err e, t') => t' = t ∧
    ((e = io_EOF ∧ ∃ err, L1BlockRefByNumber (l1t_l1Blocks t) n = Err err ∧ is_NotFound err = true)
     ∨ (outer_level e = Some LevelReset ∧ ∃ next, L1BlockRefByNumber (l1t_l1Blocks t) n = Ok next ∧
        l1_ParentHash next ≠ l1_Hash (l1t_block t))
     ∨ outer_level e = Some LevelTemporary)
  | (Panic w, t') => t' = t ∧ (L1BlockRefByNumber (l1t_l1Blocks t) n = Panic w ∨
      ∃ next, FetchReceipts (l1t_l1Blocks t) (l1_Hash next) = Panic w)
  end.
Proof.
  intros n. unfold L1Traversal_AdvanceL1Block. fold n.
  destruct (L1BlockRefByNumber (l1t_l1Blocks t) n) as [next|err|w] eqn:En.
  - destruct (decide (l1_Hash (l1t_block t) ≠ l1_ParentHash next)) as [Hne|Heq%dec_stable].
    { split; [done|]. right. left. split; [done|]. by exists next. }
    destruct (FetchReceipts (l1t_l1Blocks t) (l1_Hash next)) as [[info receipts]|err|w] eqn:Er.
    + unfold sysCfg_after.
      destruct (update_config_total (l1t_sysCfg t) receipts (l1t_cfg t) (l1_Time next))
        as (us & errs & Ha & ->). cbn. by exists next, info, receipts, us, errs.
    + split; [done|]. by right; right.
    + split; [done|]. right. by exists next.
  - destruct (is_NotFound err) eqn:Ef; split; try done.
    + left. split; [done|]. by exists err.
    + by right; right.
  - split; [done|]. by left.
Qed.
End traversal.

(** ** Manually operated traversal *)

Record L1TraversalManaged (L : Type) := mkL1TraversalManaged {
  l1m_block : L1BlockRef;
  l1m_done : bool;
  l1m_l1Blocks : L;
  l1m_sysCfg : SystemConfig;
  l1m_cfg : Config }.
Arguments mkL1TraversalManaged {L}.
Arguments l1m_block {L}.
Arguments l1m_done {L}.
Arguments l1m_l1Blocks {L}.
Arguments l1m_sysCfg {L}.
Arguments l1m_cfg {L}.

Section managed.
Context `{Geth} {L : Type} `{L1Source L}.

Definition NewL1TraversalManaged (cfg : Config) (l1Blocks : L) : L1TraversalManaged L :=
  mkL1TraversalManaged zeroL1 false l1Blocks zeroSystemConfig cfg.

#[export] Instance L1TraversalManaged_origin : HasOrigin (L1TraversalManaged L) := l1m_block.

Definition L1TraversalManaged_NextL1Block (t : L1TraversalManaged L)
    : Res L1BlockRef * L1TraversalManaged L :=
  if negb (l1m_done t)
  then (Ok (l1m_block t),
        mkL1TraversalManaged (l1m_block t) true (l1m_l1Blocks t) (l1m_sysCfg t) (l1m_cfg t))
  else (Err io_EOF, t).

Definition L1TraversalManaged_AdvanceL1Block (t : L1TraversalManaged L)
    : Res unit * L1TraversalManaged L :=
  if negb (l1m_done t) then (Ok (), t) else (Err io_EOF, t).

#[export] Instance L1TraversalManaged_Reset : ResettableStage (L1TraversalManaged L) := λ t base sc,
  (Err io_EOF, mkL1TraversalManaged base true (l1m_l1Blocks t) sc (l1m_cfg t)).

Definition ProvideNextL1 (t : L1TraversalManaged L) (nextL1 : L1BlockRef)
    : Res unit * L1TraversalManaged L :=
  if negb (l1m_done t) then (Ok (), t)
  else if negb (l1_Number (l1m_block t) +₆₄ 1 =? l1_Number nextL1) then (Ok (), t)
  else if decide (l1_Hash (l1m_block t) ≠ l1_ParentHash nextL1) then
    (Err (NewResetError (ErrorsNew "provided next L1 block does not build on last processed L1 block")), t)
  else
    match FetchReceipts (l1m_l1Blocks t) (l1_Hash nextL1) with
    | Panic w => (Panic w, t)
    | Err err => (Err (NewTemporaryError (Errorf "failed to fetch receipts" err)), t)
    | Ok (_, receipts) =>
      match sysCfg_after (l1m_sysCfg t) receipts (l1m_cfg t) nextL1 with
      | Ok sc => (Ok (), mkL1TraversalManaged nextL1 false (l1m_l1Blocks t) sc (l1m_cfg t))
      | Err e => (Err e, t)
      | Panic w => (Panic w, t)
      end
    end.

#[export] Instance L1TraversalManaged_blocks : NextBlockProvider (L1TraversalManaged L) := {
  NextL1Block := L1TraversalManaged_NextL1Block;
  SystemConfigOf := l1m_sysCfg }.
#[export] Instance L1TraversalManaged_stage : l1TraversalStage (L1TraversalManaged L) := {
  AdvanceL1Block := L1TraversalManaged_AdvanceL1Block }.

#[export] Instance L1TraversalManaged_stable : NextL1BlockStable (L1TraversalManaged L).
Proof. intros t. cbn. unfold L1TraversalManaged_NextL1Block. by destruct (l1m_done t). Qed.

(** the managed traversal only moves when it is told to and the current block
    was consumed: the origin changes only to the provided block, which has the
    next number and the current block as parent; and advancing by itself never
    moves it. *)
Theorem ProvideNextL1_spec t next :
  (AdvanceL1Block t).2 = t ∧
  let '(r, t') := ProvideNextL1 t next in
  t' = t ∨
  (r = Ok () ∧ l1m_done t = true ∧ l1m_block t' = next ∧ l1m_done t' = false ∧
   l1_Number next = l1_Number (l1m_block t) +₆₄ 1 ∧ l1_ParentHash next = l1_Hash (l1m_block t) ∧
   ∃ info receipts, FetchReceipts (l1m_l1Blocks t) (l1_Hash next) = Ok (info, receipts)).
Proof.
  split; [cbn; unfold L1TraversalManaged_AdvanceL1Block; by destruct (l1m_done t)|].
  unfold ProvideNextL1. destruct (l1m_done t) eqn:Ed; cbn [negb]; [|by left].
  destruct (Z.eqb_spec (l1_Number (l1m_block t) +₆₄ 1) (l1_Number next)) as [Hn|]; cbn [negb];
    [|by left].
  destruct (decide (l1_Hash (l1m_block t) ≠ l1_ParentHash next)) as [|Heq%dec_stable]; [by left|].
  destruct (FetchReceipts (l1m_l1Blocks t) (l1_Hash next)) as [[info receipts]|err|w] eqn:Er; [|by left..].
  destruct (sysCfg_after _ _ _ _) as [sc| |]; [|by left..]. right. split_and!; eauto.
Qed.
End managed.
