(* ===== verification/Attributes.v ===== *)
(** * Payload attributes

    Models [op-node/rollup/derive/attributes.go]: the inputs of the next L2 block
    on top of a parent with a given L1 origin. The block starts with the L1 info
    deposit, then come the user deposits of a new epoch and the upgrade transactions
    of a fork. *)

From S2P Require Import Prelude GoBytes Errors Eth RollupConfig Geth SysConfig Deposits L1BlockInfo.
From S2P Require Import UpgradeCode UpgradeTxs Stages L1Traversal.

(** [SystemConfigL2Fetcher] *)
Class SystemConfigL2Fetcher (L2 : Type) := SystemConfigByL2Hash : L2 → Hash → Res SystemConfig.

(** The dependency set is [None] where it is nil. *)
Record FetchingAttributesBuilder (L L2 : Type) := mkAttributesBuilder {
  ab_rollupCfg : Config;
  ab_depSet : option (list Z);
  ab_l1 : L;
  ab_l2 : L2;
  ab_testSkipL1OriginCheck : bool }.
Arguments mkAttributesBuilder {L L2}.
Arguments ab_rollupCfg {L L2}.
Arguments ab_depSet {L L2}.
Arguments ab_l1 {L L2}.
Arguments ab_l2 {L L2}.
Arguments ab_testSkipL1OriginCheck {L L2}.

Section builder.
Context `{Geth} `{NUTBundles} {L : Type} `{L1Source L} {L2 : Type} `{SystemConfigL2Fetcher L2}.
Implicit Types ba : FetchingAttributesBuilder L L2.

Definition NewFetchingAttributesBuilder (rollupCfg : Config) (depSet : option (list Z)) (l1 : L) (l2 : L2)
    : Res (FetchingAttributesBuilder L L2) :=
  if bool_decide (is_Some (InteropTime (cfg_times rollupCfg))) && bool_decide (depSet = None)
  then Panic "FetchingAttributesBuilder requires a dependency set when interop fork is scheduled"
  else Ok (mkAttributesBuilder rollupCfg depSet l1 l2 false).

Definition temporary (msg : string) (e : error) : error := NewTemporaryError (Errorf msg e).
Definition critical (msg : string) (e : error) : error := NewCriticalError (Errorf msg e).

(** What the L1 origin contributes: its header, the user deposits, the sequence
    number, and the system configuration as of that block. *)
Definition epoch_inputs ba (l2Parent : L2BlockRef) (epoch : BlockID) (sysConfig : SystemConfig)
    : Res (BlockInfo * list Data * Z * SystemConfig) :=
  if negb (id_Number (l2_L1Origin l2Parent) =? id_Number epoch) then
    '(info, receipts) ← map_err (temporary "failed to fetch L1 block info and receipts")
       (FetchReceipts (ab_l1 ba) (id_Hash epoch));
    if negb (bool_decide (id_Hash (l2_L1Origin l2Parent) = bi_ParentHash info)) then
      Err (NewResetError (ErrorsNew "cannot create new block with L1 origin on top of L1 origin"))
    else
      '(deposits, errs) ← DeriveDeposits receipts (cfg_DepositContractAddress (ab_rollupCfg ba));
      match errs with
      | e :: _ => Err (critical "failed to derive some deposits" e)
      | [] =>
        '(sysConfig, _) ← UpdateSystemConfigWithL1Receipts sysConfig receipts (ab_rollupCfg ba) (bi_Time info);
        Ok (info, deposits, 0, sysConfig)
      end
  else if negb (bool_decide (id_Hash (l2_L1Origin l2Parent) = id_Hash epoch)) then
    Err (NewResetError (ErrorsNew "cannot create new block with L1 origin in conflict with L1 origin"))
  else
    info ← map_err (temporary "failed to fetch L1 block info") (InfoByHash (ab_l1 ba) (id_Hash epoch));
    Ok (info, [], l2_SequenceNumber l2Parent +₆₄ 1, sysConfig).

(** The transactions of one upgrade, if the block activates it. *)
Definition when {A} (b : bool) (a : A) (m : Res A) : Res A := if b then m else Ok a.

(** The upgrade transactions of a block, and the gas they add. *)
Definition upgrade_txs ba (nextL2Time : Z) : Res (list Data * Z) :=
  let cfg := ab_rollupCfg ba in
  ecotone ← when (IsEcotoneActivationBlock cfg nextL2Time) []
    (map_err (critical "failed to build ecotone network upgrade txs") EcotoneNetworkUpgradeTransactions);
  fjord ← when (IsFjordActivationBlock cfg nextL2Time) []
    (map_err (critical "failed to build fjord network upgrade txs") FjordNetworkUpgradeTransactions);
  isthmus ← when (IsIsthmusActivationBlock cfg nextL2Time) []
    (map_err (critical "failed to build isthmus network upgrade txs") IsthmusNetworkUpgradeTransactions);
  jovian ← when (IsJovianActivationBlock cfg nextL2Time) []
    (map_err (critical "failed to build jovian network upgrade txs") JovianNetworkUpgradeTransactions);
  '(karst, upgradeGas) ← when (IsL2CMActivationBlock cfg nextL2Time) ([], 0)
    (map_err (critical "failed to build karst network upgrade txs") (UpgradeTransactions Karst));
  interop ← when (IsInteropActivationBlock cfg nextL2Time) []
    (txs ← map_err (critical "failed to build interop network upgrade txs") InteropNetworkUpgradeTransactions;
     match ab_depSet ba with
     | None => Panic "nil dependency set"
     | Some chains =>
       inbox ← when (1 <? length chains)%nat []
         (map_err (critical "failed to build interop cross l2 inbox txs")
            InteropActivateCrossL2InboxTransactions);
       Ok (txs ++ inbox)
     end);
  Ok (ecotone ++ fjord ++ isthmus ++ jovian ++ karst ++ interop, upgradeGas).

Definition PreparePayloadAttributes ba (l2Parent : L2BlockRef) (epoch : BlockID) : Res PayloadAttributes :=
  let cfg := ab_rollupCfg ba in
  sysConfig ← map_err (temporary "failed to retrieve L2 parent block")
    (SystemConfigByL2Hash (ab_l2 ba) (l2_Hash l2Parent));
  '(l1Info, depositTxs, seqNumber, sysConfig) ← epoch_inputs ba l2Parent epoch sysConfig;
  let nextL2Time := l2_Time l2Parent +₆₄ cfg_BlockTime cfg in
  if negb (ab_testSkipL1OriginCheck ba) && (nextL2Time <? bi_Time l1Info) then
    Err (NewResetError (ErrorsNew "cannot build L2 block before L1 origin"))
  else
    '(upgradeTxs, upgradeGas) ← upgrade_txs ba nextL2Time;
    l1InfoTx ← map_err (critical "failed to create l1InfoTx")
      (L1InfoDepositBytes cfg sysConfig seqNumber l1Info nextL2Time);
    Ok (mkPayloadAttributes nextL2Time (bi_MixDigest l1Info) SequencerFeeVaultAddr
          (if IsCanyon cfg nextL2Time then Some [] else None)
          (if IsEcotone cfg nextL2Time then Some (default zeroHash (bi_ParentBeaconRoot l1Info)) else None)
          (l1InfoTx :: depositTxs ++ upgradeTxs)
          true
          (Some (sc_GasLimit sysConfig +₆₄ upgradeGas))
          (if IsHolocene cfg nextL2Time then Some (sc_EIP1559Params sysConfig) else None)
          (if IsJovian cfg nextL2Time then Some (sc_MinBaseFee sysConfig) else None)).

(** ** What a block contains *)

Lemma prepare_inv ba parent epoch a :
  PreparePayloadAttributes ba parent epoch = Ok a →
  let next := l2_Time parent +₆₄ cfg_BlockTime (ab_rollupCfg ba) in
  ∃ sc0 info deps seq sc ups gas raw,
    SystemConfigByL2Hash (ab_l2 ba) (l2_Hash parent) = Ok sc0 ∧
    epoch_inputs ba parent epoch sc0 = Ok (info, deps, seq, sc) ∧
    (ab_testSkipL1OriginCheck ba = false → bi_Time info ≤ next) ∧
    upgrade_txs ba next = Ok (ups, gas) ∧
    L1InfoDepositBytes (ab_rollupCfg ba) sc seq info next = Ok raw ∧
    pa_Transactions a = raw :: deps ++ ups ∧ pa_Timestamp a = next ∧ pa_NoTxPool a = true ∧
    pa_GasLimit a = Some (sc_GasLimit sc +₆₄ gas).
Proof.
  intros Ha next. unfold PreparePayloadAttributes in Ha. inv_bind Ha. apply map_err_ok in Hb.
  destruct a1 as [[[info deps] seq] sc]. fold next in Ha.
  destruct (_ && _) eqn:Ht; [done|]. inv_bind Ha. destruct a1 as [ups gas]. inv_bind Ha.
  apply map_err_ok in Hb2. simplify_eq. exists a0, info, deps, seq, sc, ups, gas, a1.
  split_and!; try done. intros Hs. rewrite Hs in Ht. cbn in Ht. by apply Z.ltb_ge.
Qed.

(** The header of the L1 origin, as the L1 source has it. *)
Definition origin_header ba (epoch : BlockID) (info : BlockInfo) : Prop :=
  InfoByHash (ab_l1 ba) (id_Hash epoch) = Ok info ∨
  ∃ receipts, FetchReceipts (ab_l1 ba) (id_Hash epoch) = Ok (info, receipts).

(** The user deposits of a block: none unless it starts an epoch, else one for each
    deposit event of the L1 block, which builds on the L1 origin of the parent. *)
Definition epoch_deposits ba (parent : L2BlockRef) (epoch : BlockID) (info : BlockInfo) (deps : list Data)
    : Prop :=
  if id_Number (l2_L1Origin parent) =? id_Number epoch
  then id_Hash (l2_L1Origin parent) = id_Hash epoch ∧ deps = []
  else ∃ receipts, FetchReceipts (ab_l1 ba) (id_Hash epoch) = Ok (info, receipts) ∧
    bi_ParentHash info = id_Hash (l2_L1Origin parent) ∧
    Forall2 (λ l tx, ∃ d, UnmarshalDepositLogEvent l = Ok d ∧ MarshalDepositTx d = Ok tx)
      (deposit_logs (cfg_DepositContractAddress (ab_rollupCfg ba)) receipts) deps.

Lemma epoch_inputs_ok ba parent epoch sc0 info deps seq sc :
  epoch_inputs ba parent epoch sc0 = Ok (info, deps, seq, sc) →
  origin_header ba epoch info ∧ epoch_deposits ba parent epoch info deps ∧
  seq = (if id_Number (l2_L1Origin parent) =? id_Number epoch
         then l2_SequenceNumber parent +₆₄ 1 else 0) ∧
  (syscfg_wf sc0 → syscfg_wf sc).
Proof.
  unfold epoch_inputs, epoch_deposits, origin_header. destruct (_ =? _); cbn [negb].
  - case_bool_decide as Hh; [|done]. cbn [negb]. intros He. inv_bind He. apply map_err_ok in Hb.
    simplify_eq. by eauto 10.
  - intros He. inv_bind He. destruct a as [info' receipts]. apply map_err_ok in Hb.
    case_bool_decide as Hh; [|done]. cbn [negb] in He. inv_bind He. destruct a as [txs [|e errs]]; [|done].
    inv_bind He. destruct a as [sc' errs]. simplify_eq.
    split_and!; [by eauto| |done|intros Hsc; by eapply update_config_wf].
    exists receipts. split_and!; [done..|]. by apply derive_deposits_ok.
Qed.

Definition upgrade_activates (cfg : Config) (t : Z) : bool :=
  IsEcotoneActivationBlock cfg t || IsFjordActivationBlock cfg t || IsIsthmusActivationBlock cfg t
  || IsJovianActivationBlock cfg t || IsL2CMActivationBlock cfg t || IsInteropActivationBlock cfg t.

Lemma upgrade_txs_none ba t : upgrade_activates (ab_rollupCfg ba) t = false → upgrade_txs ba t = Ok ([], 0).
Proof.
  unfold upgrade_activates, upgrade_txs. rewrite !orb_false_iff.
  by intros [[[[[-> ->] ->] ->] ->] ->].
Qed.

Section deposits_only.
Hypothesis marshal_type : ∀ d enc, MarshalDepositTx d = Ok enc → is_deposit_tx enc = true.
Abbreviation deposits := (Forall (λ tx, is_deposit_tx tx = true)).

Lemma encoded_deposits ds encs :
  Forall2 (λ d enc, MarshalDepositTx d = Ok enc) ds encs → deposits encs.
Proof. induction 1; constructor; eauto. Qed.
Lemma marshal_all_deposits ds txs : marshal_all ds = Ok txs → deposits txs.
Proof.
  revert txs. induction ds as [|d ds IH]; intros txs Ht; cbn in Ht; [by simplify_eq|].
  inv_bind Ht. simplify_eq. constructor; eauto.
Qed.
Lemma when_deposits b m txs : when b [] m = Ok txs → (∀ l, m = Ok l → deposits l) → deposits txs.
Proof. destruct b; cbn; [by eauto|]. by intros [= <-]. Qed.

Lemma jovian_txs_deposits txs : JovianNetworkUpgradeTransactions = Ok txs → deposits txs.
Proof.
  unfold JovianNetworkUpgradeTransactions, DAFootprintNetworkUpgradeTransactions.
  intros Ht. inv_bind Ht. inv_bind Hb. apply map_err_ok in Hb1, Hb2. simplify_eq.
  apply Forall_app. split; [by eauto|]. by eapply marshal_all_deposits.
Qed.
Lemma karst_txs_deposits txs gas : UpgradeTransactions Karst = Ok (txs, gas) → deposits txs.
Proof.
  unfold UpgradeTransactions. intros Ht. inv_bind Ht. apply map_err_ok in Hb0. simplify_eq.
  by eapply encoded_deposits, nut_deposits_encoded.
Qed.

Lemma upgrade_txs_deposits ba t ups gas : upgrade_txs ba t = Ok (ups, gas) → deposits ups.
Proof.
  unfold upgrade_txs. intros Hu. inv_bind Hu. destruct a3 as [karst kgas]. inv_bind Hu. simplify_eq.
  rewrite !Forall_app. split_and!.
  1-4: eapply when_deposits; [done|]; intros l ?%map_err_ok; eauto using marshal_all_deposits, jovian_txs_deposits.
  - destruct (IsL2CMActivationBlock _ _); cbn in Hb3; [|by simplify_eq].
    apply map_err_ok in Hb3. by eapply karst_txs_deposits.
  - eapply when_deposits; [done|]. intros l Hl. inv_bind Hl. apply map_err_ok in Hb5.
    destruct (ab_depSet ba); [|done]. inv_bind Hl. simplify_eq. apply Forall_app.
    split; [by eapply marshal_all_deposits|]. eapply when_deposits; [done|].
    intros l' ?%map_err_ok. by eapply marshal_all_deposits.
Qed.
End deposits_only.


(** The L1 and L2 sources answer for the origin and the parent: the header belongs
    to the origin that was asked for, and fields have their sizes. *)
Record sources_ok ba (parent : L2BlockRef) (epoch : BlockID) : Prop := {
  so_header info : origin_header ba epoch info → bi_ID info = epoch ∧ block_wf (ab_rollupCfg ba) info;
  so_config sc : SystemConfigByL2Hash (ab_l2 ba) (l2_Hash parent) = Ok sc → syscfg_wf sc;
}.

(** An L2 block that the engine made from the attributes, with more transactions. *)
Record built_from ba (parent : L2BlockRef) (a : PayloadAttributes) (payload : ExecutionPayload) : Prop := {
  bf_parent : ep_ParentHash payload = l2_Hash parent;
  bf_time : ep_Timestamp payload = pa_Timestamp a;
  bf_txs : ∃ more, ep_Transactions payload = pa_Transactions a ++ more;
  bf_genesis : ep_BlockNumber payload ≠ id_Number (gen_L2 (cfg_Genesis (ab_rollupCfg ba)));
}.

(** C31: a block made from the attributes refers back to its parent and to the L1
    origin it was prepared for; the sequence number counts on within an epoch and
    starts at zero in a new one. *)
Theorem attributes_block_ref ba parent epoch a payload :
  (∀ b, length (Keccak256Hash b) = 32%nat) →
  (∀ dep raw, MarshalDepositTx dep = Ok raw →
     ∃ tx, UnmarshalTx raw = Ok tx ∧ tx_Type tx = DepositTxTypeNum ∧ tx_Data tx = dep_Data dep) →
  is_u64 (l2_SequenceNumber parent) → sources_ok ba parent epoch →
  PreparePayloadAttributes ba parent epoch = Ok a → built_from ba parent a payload →
  PayloadToBlockRef (ab_rollupCfg ba) payload
  = Ok (mkL2BlockRef (ep_BlockHash payload) (ep_BlockNumber payload) (l2_Hash parent)
         (l2_Time parent +₆₄ cfg_BlockTime (ab_rollupCfg ba)) epoch
         (if id_Number (l2_L1Origin parent) =? id_Number epoch
          then l2_SequenceNumber parent +₆₄ 1 else 0)).
Proof.
  intros Hlen Hcodec Hseq [Hh Hc] Ha [Hpar Htime (more & Htxs) Hgen].
  apply prepare_inv in Ha as (sc0 & info & deps & seq & sc & ups & gas & raw & Hcfg & Hin & Hle
    & Hups & Hraw & Htx & Ht & Hp & _).
  destruct (epoch_inputs_ok _ _ _ _ _ _ _ _ Hin) as (Ho & _ & Hs & Hwf).
  destruct (Hh _ Ho) as [Hid Hb]. rewrite Ht in Htime.
  rewrite (block_ref_of_info Hlen _ sc seq info payload).
  - by rewrite Hpar, Htime, Hid, Hs.
  - by eapply Hwf, Hc.
  - done.
  - rewrite Hs. case_match; [by apply wrap_range|uint_lia].
  - split; [done| |done]. exists raw, (deps ++ ups ++ more). rewrite Htime. split; [|done].
    rewrite Htxs, Htx. cbn [app]. by rewrite <- app_assoc.
Qed.

(** ** Errors *)

(** Deposits can be encoded, the bundle is readable and a dependency set is there. *)
Record build_ok ba : Prop := {
  bo_marshal d : ∃ enc, MarshalDepositTx d = Ok enc;
  bo_bundle : ∃ r, UpgradeTransactions Karst = Ok r;
  bo_depSet : is_Some (ab_depSet ba);
}.

Definition fetch_failed ba (parent : L2BlockRef) (epoch : BlockID) : Prop :=
  (∃ e, SystemConfigByL2Hash (ab_l2 ba) (l2_Hash parent) = Err e) ∨
  (∃ e, FetchReceipts (ab_l1 ba) (id_Hash epoch) = Err e) ∨
  (∃ e, InfoByHash (ab_l1 ba) (id_Hash epoch) = Err e).
(** The origin is not the one of the parent or its child, or it is too new. *)
Definition origin_conflict ba (parent : L2BlockRef) (epoch : BlockID) : Prop :=
  let origin := l2_L1Origin parent in
  (id_Number origin = id_Number epoch ∧ id_Hash origin ≠ id_Hash epoch) ∨
  (id_Number origin ≠ id_Number epoch ∧ ∃ info rs,
     FetchReceipts (ab_l1 ba) (id_Hash epoch) = Ok (info, rs) ∧ bi_ParentHash info ≠ id_Hash origin) ∨
  (∃ info, origin_header ba epoch info ∧
     l2_Time parent +₆₄ cfg_BlockTime (ab_rollupCfg ba) < bi_Time info).
(** A deposit event that does not decode, or a configuration whose fee scalars are
    invalid. *)
Definition bad_input ba (parent : L2BlockRef) (epoch : BlockID) : Prop :=
  (∃ info rs l, FetchReceipts (ab_l1 ba) (id_Hash epoch) = Ok (info, rs) ∧
     l ∈ deposit_logs (cfg_DepositContractAddress (ab_rollupCfg ba)) rs ∧ decoded l = None) ∨
  (∃ sc0 x sc e, SystemConfigByL2Hash (ab_l2 ba) (l2_Hash parent) = Ok sc0 ∧
     epoch_inputs ba parent epoch sc0 = Ok (x, sc) ∧ sysCfg_EcotoneScalars sc = Err e).

Definition source_panics ba (parent : L2BlockRef) (epoch : BlockID) (w : string) : Prop :=
  SystemConfigByL2Hash (ab_l2 ba) (l2_Hash parent) = Panic w ∨
  FetchReceipts (ab_l1 ba) (id_Hash epoch) = Panic w ∨ InfoByHash (ab_l1 ba) (id_Hash epoch) = Panic w.

(** The classification of a result that is not a value. *)
Definition failure_ok {A} ba parent epoch (r : Res A) : Prop :=
  match r with
  | Ok _ => True
  | Err e =>
    (outer_level e = Some LevelTemporary ∧ fetch_failed ba parent epoch) ∨
    (outer_level e = Some LevelReset ∧ origin_conflict ba parent epoch) ∨
    (outer_level e = Some LevelCritical ∧ bad_input ba parent epoch)
  | Panic w => source_panics ba parent epoch w
  end.

Lemma failure_bind {A B} ba parent epoch (m : Res A) (f : A → Res B) :
  failure_ok ba parent epoch m → (∀ a, m = Ok a → failure_ok ba parent epoch (f a)) →
  failure_ok ba parent epoch (m ≫= f).
Proof. destruct m; cbn; eauto. Qed.

Lemma epoch_inputs_failure ba parent epoch sc :
  build_ok ba → failure_ok ba parent epoch (epoch_inputs ba parent epoch sc).
Proof.
  intros [Hm _ _]. unfold epoch_inputs. destruct (Z.eqb_spec (id_Number (l2_L1Origin parent)) (id_Number epoch))
    as [Hn|Hn]; cbn [negb].
  - case_bool_decide as Hh; cbn [negb]; [|right; left; split; [done|by left]].
    apply failure_bind; [|done]. unfold failure_ok, fetch_failed, source_panics.
    destruct (InfoByHash _ _) eqn:Hi; cbn; eauto 10.
  - apply failure_bind.
    { unfold failure_ok, fetch_failed, source_panics. destruct (FetchReceipts _ _) eqn:Hi; cbn; eauto 10. }
    intros [info rs] Hf%map_err_ok. case_bool_decide as Hh; cbn [negb].
    2:{ right; left. split; [done|]. right; left. split; [done|]. by exists info, rs. }
    destruct (derive_deposits_total rs (cfg_DepositContractAddress (ab_rollupCfg ba)) Hm)
      as (txs & errs & -> & He). cbn [mbind res_bind]. destruct errs as [|e errs].
    + by destruct (update_config_total sc rs (ab_rollupCfg ba) (bi_Time info)) as (us & errs & _ & ->).
    + destruct He as (l & Hl & Hd); [done|]. right; right. split; [done|]. left. by exists info, rs, l.
Qed.

Lemma marshal_all_total ds : (∀ d, ∃ enc, MarshalDepositTx d = Ok enc) → ∃ txs, marshal_all ds = Ok txs.
Proof.
  intros Hm. induction ds as [|d ds [txs IH]]; cbn; [by eexists|].
  destruct (Hm d) as [enc ->]. cbn. rewrite IH. by eexists.
Qed.
Lemma when_total {A} b (a : A) m : (∃ r, m = Ok r) → ∃ r, when b a m = Ok r.
Proof. destruct b; cbn; eauto. Qed.
Lemma map_err_total {A} (f : error → error) (m : Res A) : (∃ r, m = Ok r) → ∃ r, map_err f m = Ok r.
Proof. intros [r ->]. by eexists. Qed.
Lemma bind_total {A B} (m : Res A) (f : A → Res B) :
  (∃ r, m = Ok r) → (∀ a, ∃ r, f a = Ok r) → ∃ r, m ≫= f = Ok r.
Proof. intros [a ->] Hf. apply Hf. Qed.
Ltac solve_total := first
  [ apply when_total; solve_total | apply map_err_total; solve_total | by apply marshal_all_total | by eauto ].

Lemma upgrade_txs_total ba t : build_ok ba → ∃ r, upgrade_txs ba t = Ok r.
Proof.
  intros [Hm Hb [chains Hd]]. unfold upgrade_txs.
  do 3 (apply bind_total; [solve_total|intros ?]).
  apply bind_total; [|intros ?].
  { apply when_total, map_err_total. unfold JovianNetworkUpgradeTransactions, DAFootprintNetworkUpgradeTransactions.
    repeat (apply bind_total; [|intros ?; try by eexists]); solve_total. }
  apply bind_total; [solve_total|intros [karst gas]].
  apply bind_total; [|by eexists]. apply when_total, bind_total; [solve_total|intros interop].
  rewrite Hd. apply bind_total; [solve_total|by eexists].
Qed.

End builder.

(** ** An example: the first block of an epoch, with one deposit *)

Module AttributesExample.
#[local] Existing Instance GethExample.geth.
#[local] Existing Instance BundleExample.bundles.
Definition cfg : Config := L1InfoExample.cfg.
Definition epoch : BlockID := bi_ID L1InfoExample.block.
Definition parent : L2BlockRef :=
  mkL2BlockRef (replicate 32 x20) 5 (replicate 32 x19) 1010 (mkBlockID (replicate 32 x10) 104) 3.
(** A deposit event of the contract, as the chain records it. *)
Definition deposit : DepositTx :=
  mkDepositTx zeroHash (replicate 20 x0a) (Some (replicate 20 x0b)) (Some 1000) 7 21000 false [x01; x02].
Definition receipts : list Receipt :=
  match MarshalDepositLogEvent (cfg_DepositContractAddress cfg) deposit with
  | Ok l => [mkReceipt 1 [l]]
  | _ => []
  end.
#[global] Instance l1 : L1Source unit := {
  L1BlockRefByNumber _ _ := Err (Sentinel SNotFound);
  L1BlockRefByHash _ _ := Err (Sentinel SNotFound);
  InfoByHash _ _ := Ok L1InfoExample.block;
  FetchReceipts _ _ := Ok (L1InfoExample.block, receipts);
  InfoAndTxsByHash _ _ := Ok [];
  GetBlobsByHash _ _ _ := Ok [];
}.
#[global] Instance l2 : SystemConfigL2Fetcher unit := λ _ _, Ok L1InfoExample.sc.
Definition builder : FetchingAttributesBuilder unit unit := mkAttributesBuilder cfg (Some [1]) () () false.
Definition attributes : PayloadAttributes :=
  match PreparePayloadAttributes builder parent epoch with
  | Ok a => a
  | _ => mkPayloadAttributes 0 [] [] None None [] false None None None
  end.
Definition payload : ExecutionPayload :=
  mkExecutionPayload (replicate 32 x20) zeroAddress [] [] [] [] 6 30000000 0 1012 (replicate 17 x00) 0
    (replicate 32 x21) (pa_Transactions attributes ++ [[x02]]) None None None None.

Lemma prepared : PreparePayloadAttributes builder parent epoch = Ok attributes.
Proof. by vm_compute. Qed.
(** A block on an L1 block that is no longer canonical. *)
Definition orphan : L2BlockRef :=
  mkL2BlockRef (replicate 32 x20) 5 (replicate 32 x19) 1010 (mkBlockID (replicate 32 xff) 104) 3.
Lemma sources p : sources_ok builder p epoch.
Proof.
  split.
  - assert (Hb : bi_ID L1InfoExample.block = epoch ∧ block_wf cfg L1InfoExample.block)
      by (split; [done|apply L1InfoExample.block_ok]).
    intros info [[= <-]|[rs [= <- _]]]; exact Hb.
  - intros sc [= <-]. apply L1InfoExample.sc_wf.
Qed.
Lemma builder_ok : build_ok builder.
Proof. split; [by eexists|by eexists; vm_compute|by eexists]. Qed.
End AttributesExample.


Lemma attributes_block_ref_witness :
  ∃ ref, @PayloadToBlockRef GethExample.geth AttributesExample.cfg AttributesExample.payload = Ok ref ∧
    l2_L1Origin ref = AttributesExample.epoch ∧ l2_SequenceNumber ref = 0.
Proof.
  assert (Hbuilt : built_from AttributesExample.builder AttributesExample.parent
    AttributesExample.attributes AttributesExample.payload).
  { split; [done|by vm_compute| |done]. exists [[x02]]. reflexivity. }
  pose proof (@attributes_block_ref GethExample.geth BundleExample.bundles _ _ _ _ AttributesExample.builder
    AttributesExample.parent AttributesExample.epoch AttributesExample.attributes AttributesExample.payload
    L1InfoExample.keccak_length ltac:(intros dep raw [= <-]; by eexists) ltac:(by vm_compute)
    (AttributesExample.sources _) AttributesExample.prepared Hbuilt) as Href.
  eexists. split; [exact Href|]. by split.
Defined.

