(* ===== verification/DataSource.v ===== *)
(** * Data sources and L1 retrieval

    Models [op-node/rollup/derive/data_source.go], [calldata_source.go],
    [blob_data_source.go], [altda_data_source.go] and [l1_retrieval.go]: the filter for
    batcher transactions, the iterators over the data of one L1 block, the iterator that
    resolves alt-DA commitments, and the stage that opens an iterator per block. The
    alt-DA backend is an interface here; [AltDA] implements it. *)

From S2P Require Import Prelude GoBytes Errors Eth RollupConfig Blob Geth Commitment SysConfig Stages L1Traversal.

(** ** Batcher transactions *)

Record DataSourceConfig := mkDataSourceConfig {
  ds_l1ChainID : Z; ds_batchInboxAddress : Address; ds_altDAEnabled : bool }.
Definition zeroDsCfg : DataSourceConfig := mkDataSourceConfig 0 zeroAddress false.

Section filter.
Context `{Geth}.

Definition isValidBatchTx (tx : Transaction) (chainID : Z) (batchInboxAddr batcherAddr : Address)
    : bool :=
  if (BlobTxType <? tx_Type tx) && negb (tx_Type tx =? DepositTxTypeNum) then false
  else
    match tx_To tx with
    | None => false
    | Some to =>
      if decide (to ≠ batchInboxAddr) then false
      else
        match Sender chainID tx with
        | Ok seqDataSubmitter => bool_decide (seqDataSubmitter = batcherAddr)
        | _ => false
        end
    end.

Definition validTx (cfg : DataSourceConfig) (batcherAddr : Address) (tx : Transaction) : bool :=
  isValidBatchTx tx (ds_l1ChainID cfg) (ds_batchInboxAddress cfg) batcherAddr.

Fixpoint DataFromEVMTransactions (cfg : DataSourceConfig) (batcherAddr : Address)
    (txs : list Transaction) : list Data :=
  match txs with
  | [] => []
  | tx :: txs =>
    let out := DataFromEVMTransactions cfg batcherAddr txs in
    if validTx cfg batcherAddr tx then tx_Data tx :: out else out
  end.
End filter.

(** ** Calldata *)

Record CalldataSource := mkCalldataSource {
  cs_open : bool; cs_data : list Data;
  cs_ref : L1BlockRef; cs_dsCfg : DataSourceConfig; cs_batcherAddr : Address }.

(** ** Blobs

    A slot is calldata, a fetched blob, or a placeholder for a blob. *)
Inductive blobOrCalldata := Calldata (d : Data) | FetchedBlob (b : Blob) | NoBlob.

Record BlobDataSource := mkBlobDataSource {
  bs_data : option (list blobOrCalldata);
  bs_ref : L1BlockRef; bs_dsCfg : DataSourceConfig; bs_batcherAddr : Address }.

Section sources.
Context `{Geth} {L : Type} `{L1Source L}.

Definition NewCalldataSource (cfg : DataSourceConfig) (fetcher : L) (ref : L1BlockRef)
    (batcherAddr : Address) : Res CalldataSource :=
  match InfoAndTxsByHash fetcher (l1_Hash ref) with
  | Panic w => Panic w
  | Err _ => Ok (mkCalldataSource false [] ref cfg batcherAddr)
  | Ok txs =>
    Ok (mkCalldataSource true (DataFromEVMTransactions cfg batcherAddr txs) zeroL1 zeroDsCfg zeroAddress)
  end.

Definition cs_set_data (open : bool) (data : list Data) (ds : CalldataSource) : CalldataSource :=
  mkCalldataSource open data (cs_ref ds) (cs_dsCfg ds) (cs_batcherAddr ds).

Definition CalldataSource_Next (fetcher : L) (ds : CalldataSource) : Res Data * CalldataSource :=
  let '(r, ds) :=
    if negb (cs_open ds) then
      match InfoAndTxsByHash fetcher (l1_Hash (cs_ref ds)) with
      | Ok txs =>
        (Ok (), cs_set_data true (DataFromEVMTransactions (cs_dsCfg ds) (cs_batcherAddr ds) txs) ds)
      | Err err =>
        (Err (if is_NotFound err then NewResetError (Errorf "failed to open calldata source" err)
              else NewTemporaryError (Errorf "failed to open calldata source" err)), ds)
      | Panic w => (Panic w, ds)
      end
    else (Ok (), ds) in
  match r with
  | Err e => (Err e, ds)
  | Panic w => (Panic w, ds)
  | Ok () =>
    match cs_data ds with
    | [] => (Err io_EOF, ds)
    | data :: rest => (Ok data, cs_set_data (cs_open ds) rest ds)
    end
  end.

(** The slots and the blob hashes of the batcher transactions of a block. *)
Fixpoint dataAndHashesFromTxs (cfg : DataSourceConfig) (batcherAddr : Address)
    (txs : list Transaction) : list blobOrCalldata * list Hash :=
  match txs with
  | [] => ([], [])
  | tx :: txs =>
    let '(data, hashes) := dataAndHashesFromTxs cfg batcherAddr txs in
    if negb (validTx cfg batcherAddr tx) then (data, hashes)
    else if negb (tx_Type tx =? BlobTxType) then (Calldata (tx_Data tx) :: data, hashes)
    else ((const NoBlob <$> tx_BlobHashes tx) ++ data, tx_BlobHashes tx ++ hashes)
  end.

(** [blobs] is what is left of the fetched blobs; a nil one is [None]. *)
Fixpoint fillBlobPointers (data : list blobOrCalldata) (blobs : list (option Blob))
    : Res (list blobOrCalldata) :=
  match data with
  | [] => match blobs with [] => Ok [] | _ => Err (ErrorsNew "got too many blobs") end
  | Calldata d :: data => rest ← fillBlobPointers data blobs; Ok (Calldata d :: rest)
  | _ :: data =>
    match blobs with
    | [] => Err (ErrorsNew "didn't get enough blobs")
    | None :: _ => Err (ErrorsNew "found a nil blob")
    | Some b :: blobs => rest ← fillBlobPointers data blobs; Ok (FetchedBlob b :: rest)
    end
  end.

Definition NewBlobDataSource (cfg : DataSourceConfig) (ref : L1BlockRef) (batcherAddr : Address)
    : BlobDataSource := mkBlobDataSource None ref cfg batcherAddr.

Definition BlobDataSource_open (fetcher : L) (ds : BlobDataSource) : Res (list blobOrCalldata) :=
  match InfoAndTxsByHash fetcher (l1_Hash (bs_ref ds)) with
  | Panic w => Panic w
  | Err err =>
    Err (if is_NotFound err then NewResetError (Errorf "failed to open blob data source" err)
         else NewTemporaryError (Errorf "failed to open blob data source" err))
  | Ok txs =>
    let '(data, hashes) := dataAndHashesFromTxs (bs_dsCfg ds) (bs_batcherAddr ds) txs in
    match hashes with
    | [] => Ok data
    | _ =>
      match GetBlobsByHash fetcher (l1_Time (bs_ref ds)) hashes with
      | Panic w => Panic w
      | Err err =>
        Err (if is_NotFound err then NewResetError (Errorf "failed to fetch blobs" err)
             else NewTemporaryError (Errorf "failed to fetch blobs" err))
      | Ok blobs =>
        match fillBlobPointers data blobs with
        | Ok data => Ok data
        | Err err => Err (NewResetError (Errorf "failed to fill blob pointers" err))
        | Panic w => Panic w
        end
      end
    end
  end.

(** The part of [Next] after the data was opened; it calls itself after a blob
    that does not decode. *)
Fixpoint blob_next (data : list blobOrCalldata) : Res Data * list blobOrCalldata :=
  match data with
  | [] => (Err io_EOF, [])
  | Calldata d :: data => (Ok d, data)
  | FetchedBlob b :: data =>
    match ToData b with
    | Ok d => (Ok d, data)
    | Err _ => blob_next data
    | Panic w => (Panic w, data)
    end
  | NoBlob :: data => (Panic "nil blob", data)
  end.

Definition BlobDataSource_Next (fetcher : L) (ds : BlobDataSource) : Res Data * BlobDataSource :=
  match match bs_data ds with Some d => Ok d | None => BlobDataSource_open fetcher ds end with
  | Err e => (Err e, ds)
  | Panic w => (Panic w, ds)
  | Ok data =>
    let '(r, data) := blob_next data in
    (r, mkBlobDataSource (Some data) (bs_ref ds) (bs_dsCfg ds) (bs_batcherAddr ds))
  end.

(** ** Iterators *)

(** The iterators over L1 data. *)
Inductive L1DataIter := CalldataIter (s : CalldataSource) | BlobIter (s : BlobDataSource).

Definition L1DataIter_Next (fetcher : L) (it : L1DataIter) : Res Data * L1DataIter :=
  match it with
  | CalldataIter s => let '(r, s) := CalldataSource_Next fetcher s in (r, CalldataIter s)
  | BlobIter s => let '(r, s) := BlobDataSource_Next fetcher s in (r, BlobIter s)
  end.

(** The bytes a slot hands out, if any. *)
Definition slot_data (s : blobOrCalldata) : list Data :=
  match s with
  | Calldata d => [d]
  | FetchedBlob b => match ToData b with Ok d => [d] | _ => [] end
  | NoBlob => []
  end.
Definition slots_data (slots : list blobOrCalldata) : list Data := mjoin (slot_data <$> slots).

(** All data an iterator will hand out, given the answers of the L1 node. *)
Definition iter_data (fetcher : L) (it : L1DataIter) : list Data :=
  match it with
  | CalldataIter s =>
    if cs_open s then cs_data s
    else match InfoAndTxsByHash fetcher (l1_Hash (cs_ref s)) with
         | Ok txs => DataFromEVMTransactions (cs_dsCfg s) (cs_batcherAddr s) txs
         | _ => []
         end
  | BlobIter s =>
    match match bs_data s with Some d => Ok d | None => BlobDataSource_open fetcher s end with
    | Ok slots => slots_data slots
    | _ => []
    end
  end.
End sources.

(** ** Alt-DA *)

(** [AltDAInputFetcher]: the backend, with state of its own. *)
Class AltDAInputFetcher (L D : Type) := {
  ada_stage :: ResettableStage D;
  GetInput : D → L → CommitmentData → L1BlockRef → Res Data * D;
  AdvanceL1Origin : D → L → BlockID → Res unit * D;
}.

(** [altda.MaxInputSize]. *)
Definition MaxInputSize : Z := 130672.

(** The L1 iterator, the L1 block and the commitment whose input is still missing. *)
Record AltDADataSource := mkAltDADataSource {
  ads_src : L1DataIter; ads_id : L1BlockRef; ads_comm : option CommitmentData }.
Definition NewAltDADataSource (src : L1DataIter) (id : L1BlockRef) : AltDADataSource :=
  mkAltDADataSource src id None.

Section altda.
Context `{Geth} {L : Type} `{L1Source L} {D : Type} `{AltDAInputFetcher L D}.

Definition ads_set_comm (c : option CommitmentData) (s : AltDADataSource) : AltDADataSource :=
  mkAltDADataSource (ads_src s) (ads_id s) c.

(** The commitment to fetch, or what [Next] returns without one. *)
Definition next_commitment (l1 : L) (s : AltDADataSource) : Res (CommitmentData + Data) * AltDADataSource :=
  match ads_comm s with
  | Some c => (Ok (inl c), s)
  | None =>
    let '(r, src) := L1DataIter_Next l1 (ads_src s) in
    let s := mkAltDADataSource src (ads_id s) None in
    match r with
    | Err e => (Err e, s)
    | Panic w => (Panic w, s)
    | Ok [] => (Err NotEnoughData, s)
    | Ok (v :: rest) =>
      if negb (bool_decide (v = DerivationVersion1)) then (Ok (inr (v :: rest)), s)
      else
        match DecodeCommitmentData rest with
        | Ok c => (Ok (inl c), ads_set_comm (Some c) s)
        | Err _ => (Err NotEnoughData, s)
        | Panic w => (Panic w, s)
        end
    end
  end.

(** [AltDADataSource.Next] calls itself after an input it skips. *)
Fixpoint AltDADataSource_Next (fuel : nat) (l1 : L) (s : AltDADataSource) (d : D)
    : Res Data * (AltDADataSource * D) :=
  match fuel with
  | O => (Panic "out of fuel", (s, d))
  | S fuel =>
    let '(r, d) := AdvanceL1Origin d l1 (L1_ID (ads_id s)) in
    match r with
    | Panic w => (Panic w, (s, d))
    | Err e =>
      (Err (if errors_Is e (TSentinel SReorgRequired) then NewResetError (ErrorsNew "new expired challenge")
            else NewTemporaryError (Errorf "failed to advance altDA L1 origin" e)), (s, d))
    | Ok () =>
      let '(r, s) := next_commitment l1 s in
      match r with
      | Panic w => (Panic w, (s, d))
      | Err e => (Err e, (s, d))
      | Ok (inr data) => (Ok data, (s, d))
      | Ok (inl comm) =>
        let '(r, d) := GetInput d l1 comm (ads_id s) in
        match r with
        | Panic w => (Panic w, (s, d))
        | Err e =>
          if errors_Is e (TSentinel SReorgRequired) then (Err (NewResetError e), (s, d))
          else if errors_Is e (TSentinel SCommitmentTypeMismatch) then
            AltDADataSource_Next fuel l1 (ads_set_comm None s) d
          else if errors_Is e (TSentinel SExpiredChallenge) then
            AltDADataSource_Next fuel l1 (ads_set_comm None s) d
          else if errors_Is e (TSentinel SMissingPastWindow) then
            (Err (NewCriticalError (Errorf "data for comm not available" e)), (s, d))
          else if errors_Is e (TSentinel SPendingChallenge) then (Err NotEnoughData, (s, d))
          else (Err (NewTemporaryError (Errorf "failed to fetch input data with comm from da service" e)), (s, d))
        | Ok data =>
          if (CommitmentType comm =? Keccak256CommitmentType) && (MaxInputSize <? Z.of_nat (length data)) then
            AltDADataSource_Next fuel l1 (ads_set_comm None s) d
          else (Ok data, (ads_set_comm None s, d))
        end
      end
    end
  end.

(** Every call takes one commitment: the pending one, one per piece of L1 data, and the
    end of the L1 data. *)
Definition altda_fuel (l1 : L) (s : AltDADataSource) : nat := S (S (length (iter_data l1 (ads_src s)))).
End altda.

(** ** The factory *)

Inductive DataIter := L1Iter (it : L1DataIter) | AltDAIter (s : AltDADataSource).

Record DataSourceFactory (L D : Type) := mkDataSourceFactory {
  dsf_dsCfg : DataSourceConfig;
  dsf_fetcher : L;
  dsf_hasBlobsFetcher : bool;
  dsf_altDAFetcher : D;
  dsf_ecotoneTime : option Z }.
Arguments mkDataSourceFactory {L D}.
Arguments dsf_dsCfg {L D}.
Arguments dsf_fetcher {L D}.
Arguments dsf_hasBlobsFetcher {L D}.
Arguments dsf_altDAFetcher {L D}.
Arguments dsf_ecotoneTime {L D}.

Section factory.
Context `{Geth} {L : Type} `{L1Source L} {D : Type} `{AltDAInputFetcher L D}.
Implicit Type ds : DataSourceFactory L D.

Definition NewDataSourceFactory (cfg : Config) (fetcher : L) (hasBlobs : bool) (altDA : D)
    : DataSourceFactory L D :=
  mkDataSourceFactory
    (mkDataSourceConfig (default 0 (cfg_L1ChainID cfg)) (cfg_BatchInboxAddress cfg) (AltDAEnabled cfg))
    fetcher hasBlobs altDA (EcotoneTime (cfg_times cfg)).
Definition dsf_set_altDA (d : D) ds : DataSourceFactory L D :=
  mkDataSourceFactory (dsf_dsCfg ds) (dsf_fetcher ds) (dsf_hasBlobsFetcher ds) d (dsf_ecotoneTime ds).

(** The iterator over the L1 data of a block. *)
Definition open_l1 ds (ref : L1BlockRef) (batcherAddr : Address) : Res L1DataIter :=
  if match dsf_ecotoneTime ds with Some t => t <=? l1_Time ref | None => false end then
    if negb (dsf_hasBlobsFetcher ds) then
      Err (NewCriticalError (ErrorsNew "ecotone upgrade active but beacon endpoint not configured"))
    else Ok (BlobIter (NewBlobDataSource (dsf_dsCfg ds) ref batcherAddr))
  else
    s ← NewCalldataSource (dsf_dsCfg ds) (dsf_fetcher ds) ref batcherAddr; Ok (CalldataIter s).
Definition OpenData ds (ref : L1BlockRef) (batcherAddr : Address) : Res DataIter :=
  src ← open_l1 ds ref batcherAddr;
  Ok (if ds_altDAEnabled (dsf_dsCfg ds) then AltDAIter (NewAltDADataSource src ref) else L1Iter src).

(** [DataIter.Next]; an alt-DA iterator works on the backend of the factory. *)
Definition DataIter_Next ds (it : DataIter) : Res Data * (DataIter * DataSourceFactory L D) :=
  match it with
  | L1Iter it => let '(r, it) := L1DataIter_Next (dsf_fetcher ds) it in (r, (L1Iter it, ds))
  | AltDAIter s =>
    let '(r, (s, d)) := AltDADataSource_Next (altda_fuel (dsf_fetcher ds) s) (dsf_fetcher ds) s (dsf_altDAFetcher ds) in
    (r, (AltDAIter s, dsf_set_altDA d ds))
  end.
End factory.

(** ** L1 retrieval *)

Record L1Retrieval (P L D : Type) := mkL1Retrieval {
  l1r_dataSrc : DataSourceFactory L D;
  l1r_prev : P;
  l1r_datas : option DataIter }.
Arguments mkL1Retrieval {P L D}.
Arguments l1r_dataSrc {P L D}.
Arguments l1r_prev {P L D}.
Arguments l1r_datas {P L D}.

Section retrieval.
Context `{Geth} {L : Type} `{L1Source L} {D : Type} `{AltDAInputFetcher L D} {P : Type} `{NextBlockProvider P}.

Definition NewL1Retrieval (dataSrc : DataSourceFactory L D) (prev : P) : L1Retrieval P L D :=
  mkL1Retrieval dataSrc prev None.

#[export] Instance L1Retrieval_origin : HasOrigin (L1Retrieval P L D) := λ r, Origin (l1r_prev r).

Definition l1r_set_datas (d : option DataIter) (r : L1Retrieval P L D) : L1Retrieval P L D :=
  mkL1Retrieval (l1r_dataSrc r) (l1r_prev r) d.
Definition l1r_set_dataSrc (ds : DataSourceFactory L D) (r : L1Retrieval P L D) : L1Retrieval P L D :=
  mkL1Retrieval ds (l1r_prev r) (l1r_datas r).
Definition l1r_set_prev (p : P) (r : L1Retrieval P L D) : L1Retrieval P L D :=
  mkL1Retrieval (l1r_dataSrc r) p (l1r_datas r).

(** The iterator of the current block, opened on demand. A failed [OpenData]
    stores the nil iterator it returned. *)
Definition open_datas (r : L1Retrieval P L D) : Res DataIter * L1Retrieval P L D :=
  match l1r_datas r with
  | Some it => (Ok it, r)
  | None =>
    let '(n, prev) := NextL1Block (l1r_prev r) in
    let r := l1r_set_prev prev r in
    match n with
    | Err e => (Err e, r)
    | Panic w => (Panic w, r)
    | Ok next =>
      match OpenData (l1r_dataSrc r) next (sc_BatcherAddr (SystemConfigOf prev)) with
      | Ok it => (Ok it, l1r_set_datas (Some it) r)
      | Err e => (Err (Errorf "failed to open data source" e), r)
      | Panic w => (Panic w, r)
      end
    end
  end.

Definition L1Retrieval_NextData (r : L1Retrieval P L D) : Res Data * L1Retrieval P L D :=
  match open_datas r with
  | (Err e, r) => (Err e, r)
  | (Panic w, r) => (Panic w, r)
  | (Ok it, r) =>
    let '(d, (it, ds)) := DataIter_Next (l1r_dataSrc r) it in
    let r := l1r_set_dataSrc ds r in
    match d with
    | Err e => if is_EOF e then (Err io_EOF, l1r_set_datas None r)
               else (Err e, l1r_set_datas (Some it) r)
    | Ok data => (Ok data, l1r_set_datas (Some it) r)
    | Panic w => (Panic w, l1r_set_datas (Some it) r)
    end
  end.

#[export] Instance L1Retrieval_Reset : ResettableStage (L1Retrieval P L D) := λ r base sysCfg,
  match OpenData (l1r_dataSrc r) base (sc_BatcherAddr sysCfg) with
  | Ok it => (Err io_EOF, l1r_set_datas (Some it) r)
  | Err e => (Err (Errorf "failed to open data source" e), l1r_set_datas None r)
  | Panic w => (Panic w, r)
  end.

#[export] Instance L1Retrieval_provider : NextDataProvider (L1Retrieval P L D) := {
  NextData := L1Retrieval_NextData }.

Lemma open_datas_origin `{!NextL1BlockStable P} r : Origin (open_datas r).2 = Origin r.
Proof.
  unfold open_datas. destruct (l1r_datas r); [done|].
  pose proof (NextL1Block_origin (l1r_prev r)) as Ho.
  destruct (NextL1Block (l1r_prev r)) as [[next|e|w] prev]; try exact Ho.
  destruct (OpenData _ _ _); exact Ho.
Qed.

#[export] Instance L1Retrieval_stable `{!NextL1BlockStable P} : NextDataStable (L1Retrieval P L D).
Proof.
  intros r. cbn. unfold L1Retrieval_NextData. pose proof (open_datas_origin r) as Ho.
  destruct (open_datas r) as [[it|e|w] r']; try exact Ho.
  destruct (DataIter_Next _ it) as [[d|e|w] [it' ds]]; try exact Ho. destruct (is_EOF e); exact Ho.
Qed.
End retrieval.

(** ** What an iterator has left *)

Section left.
Context `{Geth} {L : Type} `{L1Source L}.

Lemma slots_data_cons s slots : slots_data (s :: slots) = slot_data s ++ slots_data slots.
Proof. done. Qed.
Lemma slots_data_app l k : slots_data (l ++ k) = slots_data l ++ slots_data k.
Proof. unfold slots_data. by rewrite fmap_app, join_app. Qed.

Lemma blob_next_spec slots :
  match blob_next slots with
  | (Ok d, slots') => slots_data slots = d :: slots_data slots'
  | (Err e, slots') => e = io_EOF ∧ slots_data slots = [] ∧ slots' = []
  | (Panic _, _) => NoBlob ∈ slots ∨ ∃ b w, FetchedBlob b ∈ slots ∧ ToData b = Panic w
  end.
Proof.
  induction slots as [|[d|b|] slots IH]; cbn [blob_next]; [done|done| |left; set_solver].
  destruct (ToData b) as [d|e|w] eqn:E.
  - rewrite slots_data_cons. cbn. by rewrite E.
  - rewrite slots_data_cons. cbn [slot_data]. rewrite E. cbn [app].
    destruct (blob_next slots) as [[d'|e'|w'] slots']; [done|done|].
    destruct IH as [?|(b' & w & ? & ?)]; [left; set_solver|right; exists b', w; set_solver].
  - right. exists b, w. set_solver.
Qed.

Lemma L1DataIter_Next_data fetcher it d it' :
  L1DataIter_Next fetcher it = (Ok d, it') → iter_data fetcher it = d :: iter_data fetcher it'.
Proof.
  destruct it as [s|s]; cbn.
  - unfold CalldataSource_Next. destruct (cs_open s) eqn:Eo; cbn.
    + rewrite Eo. destruct (cs_data s) as [|x xs] eqn:Ed; [done|].
      intros [= <- <-]. cbn. by rewrite ?Eo.
    + destruct (InfoAndTxsByHash fetcher _) as [txs|e|w]; cbn; [|done|done].
      destruct (DataFromEVMTransactions _ _ txs) as [|x xs]; [done|]. by intros [= <- <-].
  - unfold BlobDataSource_Next.
    destruct (match bs_data s with Some d => Ok d | None => BlobDataSource_open fetcher s end)
      as [slots|e|w]; [|done|done].
    pose proof (blob_next_spec slots) as Hn. destruct (blob_next slots) as [r slots'].
    intros [= -> <-]. cbn. done.
Qed.

(** An error leaves nothing, or the iterator as it was. *)
Lemma L1DataIter_Next_err fetcher it e it' :
  L1DataIter_Next fetcher it = (Err e, it') → iter_data fetcher it = [] ∧ iter_data fetcher it' = [].
Proof.
  destruct it as [s|s]; cbn.
  - unfold CalldataSource_Next. destruct (cs_open s) eqn:Eo; cbn.
    + destruct (cs_data s) as [|x xs] eqn:Ed; [|done]. intros [= <- <-]. cbn. by rewrite Eo, Ed.
    + destruct (InfoAndTxsByHash fetcher _) as [txs|e'|w] eqn:Ei; cbn; [|intros [= <- <-]; cbn; by rewrite Eo, Ei|done].
      destruct (DataFromEVMTransactions _ _ txs) as [|x xs]; [|done]. by intros [= <- <-].
  - unfold BlobDataSource_Next.
    destruct (match bs_data s with Some d => Ok d | None => BlobDataSource_open fetcher s end)
      as [slots|e'|w] eqn:Eo; [|intros [= <- <-]; cbn; by rewrite Eo|done].
    pose proof (blob_next_spec slots) as Hn. destruct (blob_next slots) as [r slots'].
    intros [= -> <-]. cbn. by destruct Hn as (_ & -> & ->).
Qed.
End left.

(** *** Alt-DA inputs

    The size of the input of a generic commitment is up to the storage service; the one
    of a Keccak commitment is bounded by the protocol. *)
Class AltDALaws (L D : Type) `{AltDAInputFetcher L D} := {
  input_size : D → bytes → nat;
  GetInput_size d l1 c id data : (GetInput d l1 (GenericCommitment c) id).1 = Ok data →
    (length data ≤ input_size d c)%nat;
  GetInput_keeps d l1 c id g : input_size (GetInput d l1 c id).2 g = input_size d g;
  AdvanceL1Origin_keeps d l1 id g : input_size (AdvanceL1Origin d l1 id).2 g = input_size d g;
  (* the backend has nothing to wait for in a reset *)
  altda_Reset_done (d : D) base sc : (Reset d base sc).1 = Err io_EOF;
}.

Section altda_left.
Context `{Geth} {L : Type} `{L1Source L} {D : Type} `{AltDALaws L D}.

Definition comm_size (d : D) (c : CommitmentData) : nat :=
  match c with Keccak256Commitment _ => Z.to_nat MaxInputSize | GenericCommitment g => input_size d g end.
Definition item_commitment (item : Data) : option CommitmentData :=
  match item with
  | [] => None
  | v :: rest =>
    if decide (v = DerivationVersion1) then
      match DecodeCommitmentData rest with Ok c => Some c | _ => None end
    else None
  end.
Definition item_size (d : D) (item : Data) : nat :=
  match item_commitment item with Some c => comm_size d c | None => length item end.
Definition items_weight (d : D) (items : list Data) : nat := sum_list_with (λ i, S (item_size d i)) items.
Lemma items_weight_cons d i l : items_weight d (i :: l) = (S (item_size d i) + items_weight d l)%nat.
Proof. done. Qed.
Definition altda_weight (d : D) (l1 : L) (s : AltDADataSource) : nat :=
  match ads_comm s with Some c => S (comm_size d c) | None => 0%nat end
  + items_weight d (iter_data l1 (ads_src s)).

Definition same_sizes (d d' : D) : Prop := ∀ g, input_size d' g = input_size d g.
Lemma same_sizes_weight d d' l1 s : same_sizes d d' → altda_weight d' l1 s = altda_weight d l1 s.
Proof.
  intros Hs. unfold altda_weight, items_weight.
  assert (Hc : ∀ c, comm_size d' c = comm_size d c) by (intros [c|c]; cbn; [done|apply Hs]).
  f_equal; [destruct (ads_comm s); [by rewrite Hc|done]|].
  induction (iter_data l1 (ads_src s)) as [|i l IH]; cbn; [done|]. rewrite IH. unfold item_size.
  destruct (item_commitment i); [by rewrite Hc|done].
Qed.

(** What a call finds next accounts for the work it takes off. *)
Lemma next_commitment_weight d l1 s r s' :
  next_commitment l1 s = (Ok r, s') →
  match r with
  | inl c => ads_comm s' = Some c ∧ altda_weight d l1 s' = altda_weight d l1 s
  | inr data => (length data + altda_weight d l1 s' < altda_weight d l1 s)%nat
  end.
Proof.
  unfold next_commitment. destruct (ads_comm s) as [c|] eqn:Ec; [by intros [= <- <-]|].
  destruct (L1DataIter_Next l1 (ads_src s)) as [[item|e|w] src] eqn:En; [|done..].
  apply L1DataIter_Next_data in En. unfold altda_weight. rewrite Ec, En.
  destruct item as [|v rest]; [done|]. rewrite items_weight_cons.
  unfold item_size at 1 2, item_commitment.
  case_bool_decide as Hv; cbn [negb]; [rewrite decide_True by done|rewrite decide_False by done].
  - destruct (DecodeCommitmentData rest) as [c|e|w]; [|done..]. by intros [= <- <-].
  - intros [= <- <-]. cbn. lia.
Qed.

Lemma altda_next_weight fuel l1 s d data s' d' :
  AltDADataSource_Next fuel l1 s d = (Ok data, (s', d')) →
  same_sizes d d' ∧ (length data + altda_weight d l1 s' < altda_weight d l1 s)%nat.
Proof.
  revert s d. induction fuel as [|fuel IH]; intros s d; cbn [AltDADataSource_Next]; [done|].
  pose proof (AdvanceL1Origin_keeps d l1 (L1_ID (ads_id s))) as Ha.
  destruct (AdvanceL1Origin d l1 _) as [[[]|e|w] d1]; [|done..]. cbn [snd] in Ha.
  pose proof (next_commitment_weight d l1 s) as Hn.
  destruct (next_commitment l1 s) as [[[c|x]|e|w] s1]; [| |done..]; specialize (Hn _ _ eq_refl); cbn in Hn.
  2: by intros [= <- <- <-].
  destruct Hn as [Hc Hw].
  pose proof (GetInput_keeps d1 l1 c (ads_id s1)) as Hg.
  assert (Hsz : ∀ x, (GetInput d1 l1 c (ads_id s1)).1 = Ok x →
    (CommitmentType c =? Keccak256CommitmentType) && (MaxInputSize <? Z.of_nat (length x)) = false →
    (length x ≤ comm_size d c)%nat).
  { intros x Hx. destruct c as [c|c]; cbn [comm_size CommitmentType].
    - rewrite Z.eqb_refl. cbn [andb]. rewrite Z.ltb_ge. lia.
    - intros _. rewrite <-Ha. by apply (GetInput_size _ l1 _ (ads_id s1)). }
  destruct (GetInput d1 l1 c (ads_id s1)) as [r d2]. cbn [fst snd] in Hg, Hsz.
  assert (Hd : same_sizes d d2) by (intros g; by rewrite Hg, Ha).
  assert (Hskip : (S (comm_size d c) + altda_weight d l1 (ads_set_comm None s1) = altda_weight d l1 s)%nat).
  { rewrite <-Hw. unfold altda_weight. rewrite Hc. cbn. lia. }
  assert (Hrec : AltDADataSource_Next fuel l1 (ads_set_comm None s1) d2 = (Ok data, (s', d')) →
    same_sizes d d' ∧ (length data + altda_weight d l1 s' < altda_weight d l1 s)%nat).
  { intros [Hd' Hlt]%IH. rewrite !(same_sizes_weight d d2) in Hlt by done. split; [|lia].
    intros g. by rewrite Hd'. }
  destruct r as [x|e|w]; [| |done].
  - destruct ((CommitmentType c =? _) && _) eqn:Hmax; [exact Hrec|]. intros [= <- <- <-].
    split; [done|]. specialize (Hsz x eq_refl Hmax). lia.
  - destruct (errors_Is e _); [done|]. destruct (errors_Is e _); [exact Hrec|].
    destruct (errors_Is e _); [exact Hrec|]. destruct (errors_Is e _); [done|]. by destruct (errors_Is e _).
Qed.

(** What the iterator of a block has left, and the stage with it. *)
Definition iter_weight (ds : DataSourceFactory L D) (it : DataIter) : nat :=
  match it with
  | L1Iter it => sum_list_with (λ d, S (length d)) (iter_data (dsf_fetcher ds) it)
  | AltDAIter s => altda_weight (dsf_altDAFetcher ds) (dsf_fetcher ds) s
  end.
Lemma DataIter_Next_weight ds it data it' ds' :
  DataIter_Next ds it = (Ok data, (it', ds')) → (length data + iter_weight ds' it' < iter_weight ds it)%nat.
Proof.
  destruct it as [it|s]; cbn [DataIter_Next].
  - destruct (L1DataIter_Next (dsf_fetcher ds) it) as [[x|e|w] it1] eqn:En; [|done..].
    apply L1DataIter_Next_data in En. intros [= <- <- <-]. cbn [iter_weight]. rewrite En. cbn. lia.
  - destruct (AltDADataSource_Next _ _ _ _) as [[x|e|w] [s1 d1]] eqn:En; [|done..].
    apply altda_next_weight in En as [Hd Hlt]. intros [= <- <- <-]. cbn.
    by rewrite (same_sizes_weight _ d1) by done.
Qed.

Definition retrieval_left {P} `{NextBlockProvider P} (r : L1Retrieval P L D) : nat :=
  match (open_datas r).1 with Ok it => iter_weight (l1r_dataSrc r) it | _ => 0%nat end.

Lemma open_datas_dataSrc {P} `{NextBlockProvider P} (r : L1Retrieval P L D) :
  l1r_dataSrc (open_datas r).2 = l1r_dataSrc r.
Proof.
  unfold open_datas. destruct (l1r_datas r); [done|].
  destruct (NextL1Block (l1r_prev r)) as [[next|e|w] prev]; try done. by destruct (OpenData _ _ _).
Qed.

#[export] Instance L1Retrieval_finite {P} `{NextBlockProvider P} : NextDataFinite (L1Retrieval P L D).
Proof.
  refine {| data_left r := retrieval_left r |}.
  intros r d. cbn. unfold L1Retrieval_NextData, retrieval_left. pose proof (open_datas_dataSrc r) as Hs.
  destruct (open_datas r) as [[it|e|w] r1] eqn:Eo; cbn in Hs; [|done|done].
  destruct (DataIter_Next _ it) as [[x|e|w] [it' ds]] eqn:En; [|by destruct (is_EOF e)|done].
  intros [= <-]. cbn. rewrite Hs in En. by apply DataIter_Next_weight in En.
Defined.
End altda_left.

(** ** The data of a block *)

Section block_data.
Context `{Geth} {L : Type} `{L1Source L} {D : Type} `{AltDAInputFetcher L D}.


(** The data the batcher put into one transaction. *)
Definition tx_payload (blobs : list Blob) (tx : Transaction) : list Data :=
  if tx_Type tx =? BlobTxType then slots_data (FetchedBlob <$> blobs) else [tx_Data tx].

(** The blobs of a block, split by transaction. *)
Fixpoint block_payload (cfg : DataSourceConfig) (batcher : Address) (txs : list Transaction)
    (blobs : list Blob) : list Data :=
  match txs with
  | [] => []
  | tx :: txs =>
    if validTx cfg batcher tx then
      let n := if tx_Type tx =? BlobTxType then length (tx_BlobHashes tx) else 0%nat in
      tx_payload (take n blobs) tx ++ block_payload cfg batcher txs (drop n blobs)
    else block_payload cfg batcher txs blobs
  end.

Lemma fill_placeholders (hs : list Hash) data blobs :
  (length hs ≤ length blobs)%nat →
  fillBlobPointers ((const NoBlob <$> hs) ++ data) (Some <$> blobs) =
  (rest ← fillBlobPointers data (Some <$> drop (length hs) blobs);
   Ok ((FetchedBlob <$> take (length hs) blobs) ++ rest)).
Proof.
  revert blobs. induction hs as [|h hs IH]; intros blobs Hl.
  { cbn. rewrite drop_0. by destruct (fillBlobPointers data _). }
  destruct blobs as [|b blobs]; [cbn in Hl; lia|]. cbn [fmap list_fmap app fillBlobPointers].
  cbn in Hl. cbn [const]. rewrite IH by lia. cbn [length drop take fmap list_fmap app].
  by destruct (fillBlobPointers data _).
Qed.

(** One blob per hash: every placeholder is filled, in order. *)
Lemma fill_block cfg batcher txs blobs :
  let '(data, hashes) := dataAndHashesFromTxs cfg batcher txs in
  length blobs = length hashes →
  ∃ slots, fillBlobPointers data (Some <$> blobs) = Ok slots ∧ NoBlob ∉ slots ∧
    slots_data slots = block_payload cfg batcher txs blobs.
Proof.
  revert blobs. induction txs as [|tx txs IH]; intros blobs; cbn [dataAndHashesFromTxs block_payload].
  { destruct blobs; [|done]. intros _. exists []. split_and!; [done|set_solver|done]. }
  specialize (IH (drop (if validTx cfg batcher tx && (tx_Type tx =? BlobTxType)
    then length (tx_BlobHashes tx) else 0%nat) blobs)).
  destruct (dataAndHashesFromTxs cfg batcher txs) as [data hashes].
  destruct (validTx cfg batcher tx); cbn [negb andb] in *; [|by rewrite drop_0 in IH].
  unfold tx_payload. destruct (tx_Type tx =? BlobTxType); cbn [negb].
  - rewrite length_app, length_drop in *. intros Hl. rewrite fill_placeholders by lia.
    destruct IH as (slots & -> & Hno & Hs); [lia|]. eexists. split; [done|]. split.
    + rewrite elem_of_app. intros [(b & ? & _)%list_elem_of_fmap|?]; [done|done].
    + by rewrite slots_data_app, Hs.
  - rewrite drop_0 in IH. intros Hl. destruct IH as (slots & Hf & Hno & Hs); [done|].
    cbn [fillBlobPointers]. rewrite Hf. cbn. eexists. split; [done|]. split; [set_solver|].
    by rewrite slots_data_cons, Hs.
Qed.

(** Taking all data of an iterator. *)
Inductive drains (fetcher : L) : L1DataIter → list Data → Prop :=
| drains_end it it' : L1DataIter_Next fetcher it = (Err io_EOF, it') → drains fetcher it []
| drains_next it d it' ds : L1DataIter_Next fetcher it = (Ok d, it') → drains fetcher it' ds →
    drains fetcher it (d :: ds).

Lemma drains_blobs fetcher ref cfg batcher slots :
  NoBlob ∉ slots → (∀ b w, FetchedBlob b ∈ slots → ToData b ≠ Panic w) →
  drains fetcher (BlobIter (mkBlobDataSource (Some slots) ref cfg batcher)) (slots_data slots).
Proof.
  intros Hno Hp. remember (length slots) as n eqn:En. revert slots Hno Hp En.
  induction n as [n IH] using lt_wf_ind. intros slots Hno Hp ->.
  pose proof (blob_next_spec slots) as Hn.
  destruct (blob_next slots) as [r slots'] eqn:E.
  assert (Hnext : L1DataIter_Next fetcher (BlobIter (mkBlobDataSource (Some slots) ref cfg batcher))
    = (r, BlobIter (mkBlobDataSource (Some slots') ref cfg batcher))).
  { cbn. unfold BlobDataSource_Next. cbn. by rewrite E. }
  assert (Hsub : ∃ k, slots' = drop (S k) slots ∨ slots = []).
  { clear -E. revert r slots' E. induction slots as [|[d|b|] slots IH]; intros r slots' E; cbn in E.
    - by exists 0%nat; right.
    - simplify_eq. exists 0%nat. left. by rewrite skipn_cons, drop_0.
    - destruct (ToData b); simplify_eq; try (exists 0%nat; left; by rewrite skipn_cons, drop_0).
      destruct (IH _ _ E) as (k & [->| ->]); [exists (S k); by left|].
      cbn in E. simplify_eq. exists 0%nat. by left.
    - simplify_eq. exists 0%nat. left. by rewrite skipn_cons, drop_0. }
  destruct r as [d|e|w].
  - rewrite Hn. eapply drains_next; [done|]. destruct Hsub as (k & [->| ->]); [|done].
    eapply IH; [| | |reflexivity].
    + rewrite length_drop. destruct slots; [done|]. cbn. lia.
    + intros Hin. apply Hno. rewrite <- (take_drop (S k) slots). set_solver.
    + intros b w Hin. apply Hp. rewrite <- (take_drop (S k) slots). set_solver.
  - destruct Hn as (-> & -> & _). by eapply drains_end.
  - destruct Hn as [?|(b & v & Hb & Hv)]; [done|]. by apply Hp in Hv.
Qed.

(** What the L1 node answers for the block. *)
Record block_available (fetcher : L) (cfg : DataSourceConfig) (batcher : Address) (ref : L1BlockRef)
    (txs : list Transaction) (blobs : list Blob) : Prop := {
  ba_txs : InfoAndTxsByHash fetcher (l1_Hash ref) = Ok txs;
  ba_count : length blobs = length (dataAndHashesFromTxs cfg batcher txs).2;
  ba_blobs : (dataAndHashesFromTxs cfg batcher txs).2 ≠ [] →
    GetBlobsByHash fetcher (l1_Time ref) (dataAndHashesFromTxs cfg batcher txs).2
    = Ok (Some <$> blobs);
}.

Lemma open_available fetcher cfg batcher ref txs blobs :
  block_available fetcher cfg batcher ref txs blobs →
  ∃ slots, BlobDataSource_open fetcher (NewBlobDataSource cfg ref batcher) = Ok slots ∧
    NoBlob ∉ slots ∧ slots_data slots = block_payload cfg batcher txs blobs.
Proof.
  intros [Ht Hc Hb]. unfold BlobDataSource_open. cbn. rewrite Ht.
  pose proof (fill_block cfg batcher txs blobs) as Hf.
  destruct (dataAndHashesFromTxs cfg batcher txs) as [data hashes]. cbn in *.
  destruct (Hf Hc) as (slots & Hfill & Hno & Hs). destruct hashes as [|h hs].
  - assert (blobs = []) as -> by (by destruct blobs). cbn in Hfill.
    exists data. split; [done|]. assert (slots = data) as ->; [|done].
    clear -Hfill. revert slots Hfill. induction data as [|[d|b|] data IH]; intros slots; cbn;
      [congruence| |done|done].
    intros (rest & Hr & [= <-])%bind_ok. by rewrite (IH _ Hr).
  - rewrite Hb by done. rewrite Hfill. by exists slots.
Qed.

(** C18: the data of an L1 block is exactly what the batcher posted, in transaction
    order: from the calldata of the transactions to the batch inbox that carry a
    valid signature of the batcher, and from Ecotone on also from the blobs of
    its blob transactions, each blob decoded and undecodable blobs skipped. The
    iterator terminates with EOF after the last piece; with alt-DA enabled it is the
    source the commitments are read from. *)
Theorem block_data_spec (ds : DataSourceFactory L D) ref batcher txs blobs :
  dsf_hasBlobsFetcher ds = true →
  block_available (dsf_fetcher ds) (dsf_dsCfg ds) batcher ref txs blobs →
  ∃ it,
  OpenData ds ref batcher
    = Ok (if ds_altDAEnabled (dsf_dsCfg ds) then AltDAIter (NewAltDADataSource it ref) else L1Iter it) ∧
  drains (dsf_fetcher ds) it
    (if match dsf_ecotoneTime ds with Some t => t <=? l1_Time ref | None => false end
     then block_payload (dsf_dsCfg ds) batcher txs blobs
     else tx_Data <$> filter (λ tx, validTx (dsf_dsCfg ds) batcher tx = true) txs).
Proof.
  intros Hbf Ha. unfold OpenData, open_l1. rewrite Hbf.
  destruct (match dsf_ecotoneTime ds with Some t => t <=? l1_Time ref | None => false end); cbn [negb].
  - eexists. split; [done|].
    destruct (open_available _ _ _ _ _ _ Ha) as (slots & Hopen & Hno & <-).
    pose proof (drains_blobs (dsf_fetcher ds) ref (dsf_dsCfg ds) batcher slots Hno
      (λ b w _, ToData_total b w)) as Hd.
    assert (Hsame : L1DataIter_Next (dsf_fetcher ds)
        (BlobIter (NewBlobDataSource (dsf_dsCfg ds) ref batcher))
      = L1DataIter_Next (dsf_fetcher ds)
        (BlobIter (mkBlobDataSource (Some slots) ref (dsf_dsCfg ds) batcher))).
    { cbn. unfold BlobDataSource_Next. cbn [bs_data NewBlobDataSource]. by rewrite Hopen. }
    inversion Hd; subst; [eapply drains_end|eapply drains_next]; try done; by rewrite Hsame.
  - destruct Ha as [Ht _ _]. unfold NewCalldataSource. rewrite Ht. cbn. eexists. split; [done|].
    assert (Hdata : DataFromEVMTransactions (dsf_dsCfg ds) batcher txs
      = tx_Data <$> filter (λ tx, validTx (dsf_dsCfg ds) batcher tx = true) txs).
    { clear. induction txs as [|tx txs IH]; [done|]. cbn [DataFromEVMTransactions].
      rewrite filter_cons, IH. destruct (validTx (dsf_dsCfg ds) batcher tx) eqn:E;
        [rewrite decide_True by done|rewrite decide_False by done]; done. }
    rewrite <- Hdata. clear. induction (DataFromEVMTransactions (dsf_dsCfg ds) batcher txs)
      as [|d l IH]; [by eapply drains_end|by eapply drains_next].
Qed.
End block_data.

(** ** Example: one calldata and one blob transaction *)

Module DataSourceExample.
Import GethExample.
Definition batcher : Address := replicate 20 xbb.
Definition inbox : Address := replicate 20 xff.
Definition blob : Blob := match FromData [x01; x02] with Ok b => b | _ => [] end.
Definition txs : list Transaction :=
  [mkTransaction 2 (Some inbox) [x00; x01] [] batcher;
   mkTransaction 2 (Some inbox) [x66] [] (replicate 20 x00);
   mkTransaction BlobTxType (Some inbox) [] [zeroHash] batcher;
   mkTransaction 4 (Some inbox) [x77] [] batcher].
Record node := mk { }.
#[global] Instance node_source : L1Source node := {
  L1BlockRefByNumber _ n := Ok (mkL1BlockRef zeroHash n zeroHash n);
  L1BlockRefByHash _ _ := Err (Sentinel SNotFound);
  InfoByHash _ _ := Err (Sentinel SNotFound);
  FetchReceipts _ _ := Err (Sentinel SNotFound);
  InfoAndTxsByHash _ _ := Ok txs;
  GetBlobsByHash _ _ hs := Ok (const (Some blob) <$> hs) }.
(** [altda.Disabled] *)
#[global] Instance disabled : AltDAInputFetcher node unit := {
  ada_stage := λ d _ _, (Err io_EOF, d);
  GetInput d _ _ _ := (Err ErrNotEnabled, d);
  AdvanceL1Origin d _ _ := (Err ErrNotEnabled, d) }.
Definition factory : DataSourceFactory node unit :=
  mkDataSourceFactory (mkDataSourceConfig 1 inbox false) mk true () (Some 0).
End DataSourceExample.

Lemma block_data_spec_witness :
  ∃ it, OpenData (H := GethExample.geth) DataSourceExample.factory zeroL1 DataSourceExample.batcher
    = Ok (L1Iter it) ∧
  drains (H := GethExample.geth) DataSourceExample.mk it [[x00; x01]; [x01; x02]].
Proof.
  destruct (block_data_spec (H := GethExample.geth) DataSourceExample.factory zeroL1
    DataSourceExample.batcher DataSourceExample.txs [DataSourceExample.blob]) as (it & Ho & Hd).
  - reflexivity.
  - split; [reflexivity|vm_compute; reflexivity|]. intros _. reflexivity.
  - exists it. split; [exact Ho|].
    assert (E : block_payload (dsf_dsCfg DataSourceExample.factory) DataSourceExample.batcher
      DataSourceExample.txs [DataSourceExample.blob] = [[x00; x01]; [x01; x02]])
      by (vm_compute; reflexivity).
    rewrite <- E. exact Hd.
Defined.
