(* ===== verification/AltDA.v ===== *)
(** * The alt-DA manager

    Models [op-alt-da/damgr.go] and the disabled backend of [damock.go]: the inputs that
    commitments stand for, from the storage service or from a challenge that was resolved
    on L1, and the challenge events and deadlines that decide whether an input counts. *)

From S2P Require Import Prelude GoBytes Errors Eth RollupConfig Geth Commitment AltDAState SysConfig L1BlockInfo.
From S2P Require Import Stages L1Traversal DataSource.

(** [DAStorage], as far as derivation uses it. *)
Class DAStorage (S : Type) := storage_GetInput : S → CommitmentData → Res bytes.

(** What the generated bindings and the ABI package make of the data and the topics of a
    [ChallengeStatusChanged] event, and of the arguments of a [resolve] call. *)
Class ChallengeABI := {
  UnpackChallengeStatusChanged : bytes → Res (bytes * Z);
  ParseChallengedBlockNumber : list Hash → Res Z;
  UnpackResolveData : bytes → Res bytes;
}.

Record DA (S : Type) := mkDA {
  d_cfg : DAConfig;
  d_storage : S;
  d_state : State;
  d_challengeOrigin : BlockID;
  d_commitmentOrigin : BlockID;
  d_finalizedHead : L1BlockRef;
  d_l1FinalizedHead : L1BlockRef;
  d_resetting : bool;
  (* whether a handler for finalized heads is set *)
  d_handler : bool }.
Arguments mkDA {S}.
Arguments d_cfg {S}.
Arguments d_storage {S}.
Arguments d_state {S}.
Arguments d_challengeOrigin {S}.
Arguments d_commitmentOrigin {S}.
Arguments d_finalizedHead {S}.
Arguments d_l1FinalizedHead {S}.
Arguments d_resetting {S}.
Arguments d_handler {S}.

Section manager.
Context `{Geth} `{ChallengeABI} {S : Type} `{DAStorage S} {L : Type} `{L1Source L}.
Implicit Type d : DA S.

Definition NewAltDAWithStorage (cfg : DAConfig) (storage : S) : DA S :=
  mkDA cfg storage (NewState cfg) zeroBlockID zeroBlockID zeroL1 zeroL1 false false.

(** Updates of fields. *)
Definition d_set_state (s : State) d : DA S :=
  mkDA (d_cfg d) (d_storage d) s (d_challengeOrigin d) (d_commitmentOrigin d) (d_finalizedHead d)
    (d_l1FinalizedHead d) (d_resetting d) (d_handler d).
Definition d_set_challengeOrigin (b : BlockID) d : DA S :=
  mkDA (d_cfg d) (d_storage d) (d_state d) b (d_commitmentOrigin d) (d_finalizedHead d)
    (d_l1FinalizedHead d) (d_resetting d) (d_handler d).
Definition d_set_commitmentOrigin (b : BlockID) d : DA S :=
  mkDA (d_cfg d) (d_storage d) (d_state d) (d_challengeOrigin d) b (d_finalizedHead d)
    (d_l1FinalizedHead d) (d_resetting d) (d_handler d).
Definition d_set_finalizedHead (r : L1BlockRef) d : DA S :=
  mkDA (d_cfg d) (d_storage d) (d_state d) (d_challengeOrigin d) (d_commitmentOrigin d) r
    (d_l1FinalizedHead d) (d_resetting d) (d_handler d).
Definition d_set_l1FinalizedHead (r : L1BlockRef) d : DA S :=
  mkDA (d_cfg d) (d_storage d) (d_state d) (d_challengeOrigin d) (d_commitmentOrigin d) (d_finalizedHead d)
    r (d_resetting d) (d_handler d).
Definition d_set_resetting (b : bool) d : DA S :=
  mkDA (d_cfg d) (d_storage d) (d_state d) (d_challengeOrigin d) (d_commitmentOrigin d) (d_finalizedHead d)
    (d_l1FinalizedHead d) b (d_handler d).
Definition OnFinalizedHeadSignal d : DA S :=
  mkDA (d_cfg d) (d_storage d) (d_state d) (d_challengeOrigin d) (d_commitmentOrigin d) (d_finalizedHead d)
    (d_l1FinalizedHead d) (d_resetting d) true.

(** ** Finality *)

Definition updateFinalizedHead (l1Finalized : L1BlockRef) d : DA S :=
  let d := d_set_l1FinalizedHead l1Finalized d in
  if NoCommitments (d_state d) then d
  else
    let s := Prune (L1_ID l1Finalized) (d_state d) in
    d_set_finalizedHead (st_lastPrunedCommitment s) (d_set_state s d).

Definition updateFinalizedFromL1 (l1 : L) d : Res unit * DA S :=
  if l1_Number (d_l1FinalizedHead d) <? da_ChallengeWindow (d_cfg d) then (Ok (), d)
  else
    match L1BlockRefByNumber l1 (l1_Number (d_l1FinalizedHead d) -₆₄ da_ChallengeWindow (d_cfg d)) with
    | Ok ref => (Ok (), d_set_finalizedHead ref d)
    | Err e => (Err e, d)
    | Panic w => (Panic w, d)
    end.

(** The signal that goes to the handler, if one is set. *)
Definition Finalize (l1Finalized : L1BlockRef) d : option L1BlockRef * DA S :=
  let d := updateFinalizedHead l1Finalized d in
  (if d_handler d then Some (d_finalizedHead d) else None, d).

(** ** Challenge events *)

Definition ChallengeStatusEventABIHash : Hash :=
  Keccak256Hash (bytes_of_string "ChallengeStatusChanged(uint256,bytes,uint8)").

Record ChallengeStatusChanged := mkChallengeStatusChanged {
  ev_ChallengedBlockNumber : Z; ev_ChallengedCommitment : bytes; ev_Status : Z }.

Definition DecodeChallengeStatusEvent (log : Log) : Res ChallengeStatusChanged :=
  '(comm, status) ← UnpackChallengeStatusChanged (log_Data log);
  match log_Topics log with
  | [] => Panic "slice bounds out of range"
  | _ :: topics => bn ← ParseChallengedBlockNumber topics; Ok (mkChallengeStatusChanged bn comm status)
  end.

Definition decodeChallengeStatus (log : Log) : Res (Z * CommitmentData * Z) :=
  event ← DecodeChallengeStatusEvent log;
  comm ← DecodeCommitmentData (ev_ChallengedCommitment event);
  if negb (bool_decide (is_u64 (ev_ChallengedBlockNumber event))) then
    Err (ErrorsNew "challenged block number is not a uint64")
  else Ok (ev_Status event, comm, ev_ChallengedBlockNumber event).

Definition DecodeResolvedInput (data : bytes) : Res bytes :=
  if (length data <? 4)%nat then Panic "slice bounds out of range"
  else
    rd ← UnpackResolveData (drop 4 data);
    match rd with [] => Err (ErrorsNew "invalid resolve data") | _ => Ok rd end.

Definition is_challenge_log (cfg : DAConfig) (log : Log) : bool :=
  bool_decide (log_Address log = da_DAChallengeContractAddress cfg)
  && match log_Topics log with [] => false | t :: _ => bool_decide (t = ChallengeStatusEventABIHash) end.

Definition fetchChallengeLogs (l1 : L) (block : BlockID) d : Res (list Log) :=
  if da_CommitmentType (d_cfg d) =? GenericCommitmentType then Ok []
  else
    '(_, receipts) ← FetchReceipts l1 (id_Hash block);
    Ok (mjoin ((λ rec, List.filter (is_challenge_log (d_cfg d)) (rcpt_Logs rec)) <$>
          List.filter (λ rec, rcpt_Status rec =? ReceiptStatusSuccessful) receipts)).

(** The input that a resolved challenge was answered with; [None] where the loop goes on
    with the next event. *)
Definition resolved_input (cfg : DAConfig) (l1 : L) (block : BlockID) (log : Log) (comm : CommitmentData)
    : Res (option bytes) :=
  match InfoAndTxsByHash l1 (id_Hash block) with
  | Panic w => Panic w
  | Err _ => Ok None
  | Ok txs =>
    if Z.of_nat (length txs) <=? log_TxIndex log then Ok None
    else
      match txs !! Z.to_nat (log_TxIndex log) with
      | None => Panic "index out of range"
      | Some tx =>
        if negb (bool_decide (TxHash tx = log_TxHash log)) then Ok None
        else if da_CommitmentType cfg =? Keccak256CommitmentType then
          match DecodeResolvedInput (tx_Data tx) with
          | Panic w => Panic w
          | Err _ => Ok None
          | Ok input =>
            match Verify comm input with Ok () => Ok (Some input) | Err _ => Ok None | Panic w => Panic w end
          end
        else Ok (Some [])
      end
  end.

(** The effect of one event. *)
Definition apply_event (cfg : DAConfig) (l1 : L) (block : BlockID) (log : Log) (s : State) : Res State :=
  match decodeChallengeStatus log with
  | Panic w => Panic w
  | Err _ => Ok s
  | Ok (status, comm, bn) =>
    if status =? ChallengeResolved then
      input ← resolved_input cfg l1 block log comm;
      match input with
      | None => Ok s
      | Some input => Ok (ResolveChallenge comm bn input s).2
      end
    else if status =? ChallengeActive then Ok (CreateChallenge comm block bn s)
    else Ok s
  end.
Fixpoint apply_events (cfg : DAConfig) (l1 : L) (block : BlockID) (logs : list Log) (s : State) : Res State :=
  match logs with
  | [] => Ok s
  | log :: logs => s ← apply_event cfg l1 block log s; apply_events cfg l1 block logs s
  end.
(** A panic ends the program, so what it leaves of the state does not matter. *)
Definition loadChallengeEvents (l1 : L) (block : BlockID) d : Res unit * DA S :=
  match (logs ← fetchChallengeLogs l1 block d; apply_events (d_cfg d) l1 block logs (d_state d)) with
  | Ok s => (Ok (), d_set_state s d)
  | Err e => (Err e, d)
  | Panic w => (Panic w, d)
  end.

(** ** Moving on with L1 *)

Definition AdvanceChallengeOrigin (l1 : L) (block : BlockID) d : Res unit * DA S :=
  if id_Number block <=? id_Number (d_challengeOrigin d) then (Ok (), d)
  else
    match loadChallengeEvents l1 block d with
    | (Ok (), d) =>
      (Ok (), d_set_challengeOrigin block (d_set_state (ExpireChallenges block (d_state d)) d))
    | r => r
    end.

Definition AdvanceCommitmentOrigin (block : BlockID) d : Res unit * DA S :=
  if id_Number block <=? id_Number (d_commitmentOrigin d) then (Ok (), d)
  else
    let '(r, s) := ExpireCommitments block (d_state d) in
    let d := d_set_state s d in
    match r with
    | Err e => (Err e, d_set_resetting true d)
    | Panic w => (Panic w, d)
    | Ok () => (Ok (), d_set_commitmentOrigin block d)
    end.

Definition DA_AdvanceL1Origin d (l1 : L) (block : BlockID) : Res unit * DA S :=
  match AdvanceChallengeOrigin l1 block d with
  | (Err e, d) => (Err (Errorf "failed to advance challenge origin" e), d)
  | (Panic w, d) => (Panic w, d)
  | (Ok (), d) =>
    match AdvanceCommitmentOrigin block d with
    | (Err e, d) => (Err (Errorf "failed to advance commitment origin" e), d)
    | (Panic w, d) => (Panic w, d)
    | (Ok (), d) => if NoCommitments (d_state d) then updateFinalizedFromL1 l1 d else (Ok (), d)
    end
  end.

Definition LookAhead (l1 : L) d : Res unit * DA S :=
  match L1BlockRefByNumber l1 (id_Number (d_challengeOrigin d) +₆₄ 1) with
  | Ok blkRef => AdvanceChallengeOrigin l1 (L1_ID blkRef) d
  | Err e => (Err e, d)
  | Panic w => (Panic w, d)
  end.

Definition DA_Reset d (base : L1BlockRef) (baseCfg : SystemConfig) : Res unit * DA S :=
  (Err io_EOF,
   if d_resetting d then
     d_set_state (ClearCommitments (d_state d)) (d_set_commitmentOrigin (L1_ID base) (d_set_resetting false d))
   else
     d_set_state (State_Reset (d_state d))
       (d_set_commitmentOrigin (L1_ID base) (d_set_challengeOrigin (L1_ID base) d))).

(** ** Inputs *)

(** What the storage service does not have. *)
Definition missing_input d (l1 : L) (comm : CommitmentData) (blockId : L1BlockRef) (status : Z)
    : Res Data * DA S :=
  let wait :=
    match LookAhead l1 d with
    | (Ok (), d) => (Err ErrPendingChallenge, d)
    | (Err e, d) => (Err e, d)
    | (Panic w, d) => (Panic w, d)
    end in
  if status =? ChallengeUninitialized then
    if l1_Number blockId +₆₄ da_ChallengeWindow (d_cfg d) <? id_Number (d_challengeOrigin d)
    then (Err ErrMissingPastWindow, d) else wait
  else if status =? ChallengeActive then wait
  else if status =? ChallengeResolved then
    match comm with
    | GenericCommitment _ => (Err ErrMissingPastWindow, d)
    | Keccak256Commitment _ =>
      match GetChallenge (d_state d) comm (l1_Number blockId) with
      | Some ch => (Ok (ch_input ch), d)
      | None => (Panic "nil pointer dereference", d)
      end
    end
  else (Err (ErrorsNew "unknown challenge status"), d).

(** [errors.Is(ErrNotFound, err)] holds for that very error only. *)
Definition DA_GetInput d (l1 : L) (comm : CommitmentData) (blockId : L1BlockRef) : Res Data * DA S :=
  if negb (da_CommitmentType (d_cfg d) =? CommitmentType comm) then
    (Err (Errorf "invalid commitment type" ErrCommitmentTypeMismatch), d)
  else
    let status := GetChallengeStatus (d_state d) comm (l1_Number blockId) in
    if status =? ChallengeExpired then (Err ErrExpiredChallenge, d)
    else
      let d := d_set_state (TrackCommitment comm blockId (d_state d)) d in
      match storage_GetInput (d_storage d) comm with
      | Panic w => (Panic w, d)
      | Err e =>
        if err_is_sentinel SDANotFound e then missing_input d l1 comm blockId status else (Err e, d)
      | Ok data =>
        if negb ((status =? ChallengeUninitialized) || (status =? ChallengeActive) || (status =? ChallengeResolved))
        then (Err (ErrorsNew "unknown challenge status"), d)
        else (Ok data, d)
      end.

#[export] Instance DA_backend : AltDAInputFetcher L (DA S) := {
  ada_stage := DA_Reset; GetInput := DA_GetInput; AdvanceL1Origin := DA_AdvanceL1Origin }.
End manager.

(** ** The manager as a backend

    The storage service stays the same, so does the configuration. *)

Section backend.
Context `{Geth} `{ChallengeABI} {S : Type} `{DAStorage S} {L : Type} `{L1Source L}.
Implicit Type d : DA S.

Definition same_base d d' : Prop := d_storage d' = d_storage d ∧ d_cfg d' = d_cfg d.

Lemma load_base l1 block d : same_base d (loadChallengeEvents l1 block d).2.
Proof. unfold loadChallengeEvents. by case_match. Qed.
Lemma advance_challenge_base l1 block d : same_base d (AdvanceChallengeOrigin l1 block d).2.
Proof.
  unfold AdvanceChallengeOrigin. case_match; [done|]. pose proof (load_base l1 block d).
  by destruct (loadChallengeEvents l1 block d) as [[[]|e|w] d'].
Qed.
Lemma advance_commitment_base block d : same_base d (AdvanceCommitmentOrigin block d).2.
Proof.
  unfold AdvanceCommitmentOrigin. case_match; [done|].
  by destruct (ExpireCommitments block (d_state d)) as [[[]|e|w] s].
Qed.
Lemma advance_base l1 block d : same_base d (DA_AdvanceL1Origin d l1 block).2.
Proof.
  unfold DA_AdvanceL1Origin. pose proof (advance_challenge_base l1 block d) as [H1' H2'].
  destruct (AdvanceChallengeOrigin l1 block d) as [[[]|e|w] d1]; [|done..]. cbn [snd] in *.
  pose proof (advance_commitment_base block d1) as [H3' H4'].
  destruct (AdvanceCommitmentOrigin block d1) as [[[]|e|w] d2]; cbn [snd] in *; [|split; cbn; congruence..].
  case_match; [|split; cbn; congruence]. unfold updateFinalizedFromL1.
  repeat case_match; split; cbn; congruence.
Qed.
Lemma look_ahead_base l1 d : same_base d (LookAhead l1 d).2.
Proof. unfold LookAhead. case_match; [|done..]. apply advance_challenge_base. Qed.
Lemma get_input_base l1 comm id d : same_base d (DA_GetInput d l1 comm id).2.
Proof.
  unfold DA_GetInput. case_match; [done|]. case_match; [done|].
  set (d1 := d_set_state _ d). assert (Hd : same_base d d1) by done. clearbody d1.
  destruct (storage_GetInput _ comm) as [data|e|w]; [by case_match| |done]. case_match; [|done].
  unfold missing_input. pose proof (look_ahead_base l1 d1) as [H3' H4']. destruct Hd as [H1' H2'].
  destruct (LookAhead l1 d1) as [[[]|x|w] d2]; cbn [snd] in *;
    repeat case_match; simplify_eq/=; split; congruence.
Qed.

Lemma get_input_generic l1 g id d data :
  (DA_GetInput d l1 (GenericCommitment g) id).1 = Ok data → storage_GetInput (d_storage d) (GenericCommitment g) = Ok data.
Proof.
  unfold DA_GetInput. case_match; [done|]. case_match; [done|]. cbn [d_storage d_set_state].
  destruct (storage_GetInput (d_storage d) (GenericCommitment g)) as [x|e|w]; [by case_match| |done].
  case_match; [|done]. unfold missing_input. by repeat case_match.
Qed.

#[export] Instance DA_laws : AltDALaws L (DA S).
Proof.
  refine {| input_size d g := match storage_GetInput (d_storage d) (GenericCommitment g) with
                              | Ok x => length x | _ => 0%nat end |}.
  - intros d l1 c id data Hg%get_input_generic. by rewrite Hg.
  - intros d l1 c id g. cbn. by destruct (get_input_base l1 c id d) as [-> _].
  - intros d l1 id g. cbn. by destruct (advance_base l1 id d) as [-> _].
  - done.
Defined.
End backend.

(** ** The disabled backend *)

Inductive AltDADisabled := Disabled.
#[export] Instance AltDADisabled_backend {L} : AltDAInputFetcher L AltDADisabled := {
  ada_stage d _ _ := (Err io_EOF, d);
  GetInput d _ _ _ := (Err ErrNotEnabled, d);
  AdvanceL1Origin d _ _ := (Err ErrNotEnabled, d) }.
#[export] Instance AltDADisabled_laws {L} : AltDALaws L AltDADisabled.
Proof. by refine {| input_size _ _ := 0%nat |}. Defined.
