(* ===== verification/AltDAInv.v ===== *)
(** * Safety of the alt-DA challenge game

    Invariants of the manager of [AltDA] over all sequences of its operations: inputs of
    resolved challenges match their commitments, challenges past their deadline are not
    active any more, and an input that turns out to be invalid is not used again after
    the reorg it causes. *)

From S2P Require Import Prelude GoBytes Errors Eth RollupConfig Geth Commitment AltDAState SysConfig L1BlockInfo.
From S2P Require Import Stages L1Traversal DataSource AltDA.

Section inv.
Context `{Geth} `{ChallengeABI} {S : Type} `{DAStorage S} {L : Type} `{L1Source L}.
Implicit Type d : DA S.
Implicit Type s : State.

(** What the challenge contract promises: it only knows Keccak commitments. *)
Definition keccak_contract : Prop := ∀ log st comm bn,
  decodeChallengeStatus log = Ok (st, comm, bn) → ∃ b, comm = Keccak256Commitment b.

(** A challenge is against a Keccak commitment; its input, once resolved, is the preimage. *)
Record challenge_ok (c : Challenge) : Prop := {
  ok_keccak : ∃ b, ch_commData c = Keccak256Commitment b ∧ length b = 32%nat;
  ok_status : ch_challengeStatus c = ChallengeActive ∨ ch_challengeStatus c = ChallengeResolved ∨
    ch_challengeStatus c = ChallengeExpired;
  ok_input : ch_challengeStatus c = ChallengeResolved → Verify (ch_commData c) (ch_input c) = Ok ();
}.

(** The state between the L1 blocks [n] and [m]: all events up to block [m] are in it, all
    deadlines up to block [n] are dealt with. *)
Record state_inv (n m : Z) s : Prop := {
  si_heap a c : st_heap s !! a = Some c → challenge_ok c;
  si_map k a : st_challengesMap s !! k = Some a →
    (∃ c, st_heap s !! a = Some c ∧ key c = k) ∧ (a ∈ st_challenges s ∨ a ∈ st_expiredChallenges s);
  si_ptr a : a ∈ st_challenges s ∨ a ∈ st_expiredChallenges s → is_Some (st_heap s !! a);
  si_open a c : a ∈ st_challenges s → st_heap s !! a = Some c →
    n < ch_resolveWindowEnd c ≤ m + da_ResolveWindow (st_cfg s);
  si_sorted i j a b c c' : (i < j)%nat → st_challenges s !! i = Some a → st_challenges s !! j = Some b →
    st_heap s !! a = Some c → st_heap s !! b = Some c' → ch_resolveWindowEnd c ≤ ch_resolveWindowEnd c';
  si_expired a c : a ∈ st_expiredChallenges s → st_heap s !! a = Some c → ch_challengeStatus c ≠ ChallengeActive;
}.

Lemma new_state_inv cfg n m : state_inv n m (NewState cfg).
Proof. split; cbn; intros; set_solver. Qed.
Lemma reset_state_inv n m n' m' s : state_inv n m s → state_inv n' m' (State_Reset s).
Proof. intros [Hh _ _ _ _ _]. split; cbn; set_solver. Qed.
Lemma state_inv_commitments n m s l e : state_inv n m s → state_inv n m (st_set_commitments l e s).
Proof. by intros []. Qed.
Lemma state_inv_later n m m' s : m ≤ m' → state_inv n m s → state_inv n m' s.
Proof. intros Hm []. split; try done. intros a c Ha Hc. destruct (si_open0 a c Ha Hc). lia. Qed.

(** ** Events *)

Lemma create_inv n m comm block bn s :
  id_Number block = m → n < m → 0 ≤ da_ResolveWindow (st_cfg s) → is_u64 (m + da_ResolveWindow (st_cfg s)) →
  (∃ b, comm = Keccak256Commitment b ∧ length b = 32%nat) →
  state_inv n m s → state_inv n m (CreateChallenge comm block bn s).
Proof.
  intros Hm Hlt Hrw Hu Hcomm [Hh Hmap Hptr Hopen Hsort Hexp]. unfold CreateChallenge. rewrite Hm, wrap_small by done.
  set (c0 := mkChallenge _ _ _ _ _). set (a0 := length (st_heap s)).
  assert (Hnew : ∀ a c, (st_heap s ++ [c0]) !! a = Some c → (st_heap s !! a = Some c) ∨ (a = a0 ∧ c = c0)).
  { intros a c. rewrite lookup_app_Some. intros [?|[? Hx]]; [by left|right]. apply list_lookup_singleton_Some in Hx.
    subst a0. split; [lia|naive_solver]. }
  assert (Hold : ∀ a c, st_heap s !! a = Some c → (st_heap s ++ [c0]) !! a = Some c).
  { intros a c Hc. by apply lookup_app_l_Some. }
  assert (Ha0 : (st_heap s ++ [c0]) !! a0 = Some c0) by (apply lookup_snoc_Some; by right).
  assert (Hfresh : ∀ a, a ∈ st_challenges s ∨ a ∈ st_expiredChallenges s → a ≠ a0).
  { intros a [c Hc]%Hptr ->. apply lookup_lt_Some in Hc. lia. }
  split; cbn.
  - intros a c [Hc|[_ ->]]%Hnew; [by eapply Hh|]. split; cbn; [done|by left|done].
  - intros k a. rewrite lookup_insert_Some. intros [[<- <-]|[Hne Hk]].
    + split; [by exists c0|]. left. set_solver.
    + destruct (Hmap k a Hk) as [(c & Hc & Hkey) Hin]. split; [exists c; auto|set_solver].
  - intros a Hin. destruct (decide (a = a0)) as [->|Hne]; [by eexists|].
    destruct (Hptr a) as [c Hc]; [set_solver|]. eauto.
  - intros a c Hin [Hc|[-> ->]]%Hnew; [|cbn; lia].
    apply elem_of_app in Hin as [Hin|Hin]; [by eapply Hopen|].
    apply list_elem_of_singleton in Hin as ->. apply lookup_lt_Some in Hc. lia.
  - intros i j a b c c' Hij Hi Hj Hc Hc'.
    apply lookup_snoc_Some in Hi as [[Hil Hi]|[-> <-]].
    2: { apply lookup_lt_Some in Hj. rewrite length_app in Hj. cbn in Hj. lia. }
    apply Hnew in Hc as [Hc|[-> _]]; [|by apply list_elem_of_lookup_2 in Hi; destruct (Hfresh a0); auto].
    apply lookup_snoc_Some in Hj as [[Hjl Hj]|[-> <-]].
    + apply Hnew in Hc' as [Hc'|[-> _]]; [by eapply (Hsort i j)|].
      apply list_elem_of_lookup_2 in Hj. destruct (Hfresh a0); auto.
    + rewrite Ha0 in Hc'. injection Hc' as <-. cbn. apply list_elem_of_lookup_2 in Hi.
      destruct (Hopen a c Hi Hc). lia.
  - intros a c Hin [Hc|[-> ->]]%Hnew; [by eapply Hexp|]. destruct (Hfresh a0); auto.
Qed.

(** A heap in which challenges have moved on: same keys and deadlines, none back to active. *)
Definition evolves (h h' : list Challenge) : Prop :=
  (∀ a, is_Some (h !! a) → is_Some (h' !! a)) ∧
  ∀ a c', h' !! a = Some c' → ∃ c, h !! a = Some c ∧ ch_resolveWindowEnd c' = ch_resolveWindowEnd c ∧
    key c' = key c ∧ challenge_ok c' ∧
    (ch_challengeStatus c ≠ ChallengeActive → ch_challengeStatus c' ≠ ChallengeActive).

Lemma evolves_inv n m s h' :
  evolves (st_heap s) h' → state_inv n m s →
  state_inv n m (st_set_challenges h' (st_challenges s) (st_expiredChallenges s) (st_challengesMap s) s).
Proof.
  intros [He1 He2] [Hh Hmap Hptr Hopen Hsort Hexp]. split; cbn.
  - intros a c' Hc. by destruct (He2 a c' Hc) as (c & _ & _ & _ & ? & _).
  - intros k a Hk. destruct (Hmap k a Hk) as [(c & Hc & <-) Hin]. split; [|done].
    destruct (He1 a) as [c' Hc']; [by eexists|]. destruct (He2 a c' Hc') as (c1 & Hc1 & _ & Hkey & _).
    exists c'. rewrite Hkey. naive_solver.
  - intros a Hin. by apply He1, Hptr.
  - intros a c' Hin Hc'. destruct (He2 a c' Hc') as (c & Hc & -> & _). by eapply Hopen.
  - intros i j a b c1 c2 Hij Hi Hj Hc1 Hc2. destruct (He2 _ _ Hc1) as (? & ? & -> & _), (He2 _ _ Hc2) as (? & ? & -> & _).
    by eapply (Hsort i j).
  - intros a c' Hin Hc'. destruct (He2 a c' Hc') as (c & Hc & _ & _ & _ & Hst). eapply Hst, Hexp; done.
Qed.

Lemma key_keccak c b n :
  challenge_ok c → length b = 32%nat → key c = challengeKey (Keccak256Commitment b) n →
  ch_commData c = Keccak256Commitment b ∧ ch_commInclusionBlockNumber c = n.
Proof.
  intros [(b' & Hb & Hl) _ _] Hlb Hk. apply challengeKey_inj in Hk; [done|].
  rewrite Hb. cbn. by rewrite Hl, Hlb.
Qed.

Lemma resolve_inv n m b bn input s :
  length b = 32%nat → Verify (Keccak256Commitment b) input = Ok () →
  state_inv n m s → state_inv n m (ResolveChallenge (Keccak256Commitment b) bn input s).2.
Proof.
  intros Hlen Hv Hi. unfold ResolveChallenge, challenge_ptr.
  destruct (st_challengesMap s !! _) as [a|] eqn:Ha; [|done]. apply evolves_inv; [|done].
  destruct Hi as [Hh Hmap _ _ _ _]. destruct (Hmap _ _ Ha) as [(c & Hc & Hkey) _].
  assert (Hcomm : ch_commData c = Keccak256Commitment b) by (eapply key_keccak; eauto).
  split.
  - intros a' [x Hx]. rewrite list_lookup_alter. case_decide; subst; rewrite Hx; by eexists.
  - intros a' c'. rewrite list_lookup_alter. case_decide as Hd.
    + subst a'. rewrite Hc. intros [= <-]. exists c. split_and!; [done..| |done].
      split; cbn; [by rewrite Hcomm; eauto|by right; left|by rewrite Hcomm].
    + intros Hc'. exists c'. split_and!; [done..|by eapply Hh|done].
Qed.

Lemma decode_challenge_keccak log st comm bn :
  keccak_contract → decodeChallengeStatus log = Ok (st, comm, bn) →
  ∃ b, comm = Keccak256Commitment b ∧ length b = 32%nat.
Proof.
  intros Hk Hd. destruct (Hk _ _ _ _ Hd) as [b ->]. exists b. split; [done|].
  unfold decodeChallengeStatus in Hd. inv_bind Hd. destruct (negb _); simplify_eq.
  by destruct (decode_wf _ _ Hb0) as [Hw _].
Qed.

Lemma resolved_input_ok cfg l1 block log comm input :
  da_CommitmentType cfg = Keccak256CommitmentType →
  resolved_input cfg l1 block log comm = Ok (Some input) → Verify comm input = Ok ().
Proof.
  intros Ht. unfold resolved_input. rewrite Ht, Z.eqb_refl.
  destruct (InfoAndTxsByHash _ _); [|done..]. case_match; [done|]. case_match; [|done]. case_match; [done|].
  destruct (DecodeResolvedInput _) as [x| |]; [|done..]. destruct (Verify comm x) as [[]| |] eqn:Hv; [|done..].
  intros [= <-]. done.
Qed.

Lemma apply_event_inv n m cfg l1 block log s s' :
  keccak_contract → da_CommitmentType cfg = Keccak256CommitmentType →
  id_Number block = m → n < m → 0 ≤ da_ResolveWindow (st_cfg s) → is_u64 (m + da_ResolveWindow (st_cfg s)) →
  state_inv n m s → apply_event cfg l1 block log s = Ok s' → state_inv n m s' ∧ st_cfg s' = st_cfg s.
Proof.
  intros Hk Ht Hm Hlt Hrw Hu Hi. unfold apply_event.
  destruct (decodeChallengeStatus log) as [[[st comm] bn]| |] eqn:Hd; [|by intros [= <-]|done].
  destruct (decode_challenge_keccak _ _ _ _ Hk Hd) as (b & -> & Hlen).
  case_match.
  - destruct (resolved_input _ _ _ _ _) as [[input|]|e|w] eqn:Hr; cbn; [|by intros [= <-]|done..].
    intros [= <-]. split; [|unfold ResolveChallenge; by case_match].
    apply resolve_inv; [done| |done]. by eapply resolved_input_ok.
  - case_match; intros [= <-]; [|done]. split; [|done]. apply create_inv; eauto.
Qed.
Lemma apply_events_inv n m cfg l1 block logs s s' :
  keccak_contract → da_CommitmentType cfg = Keccak256CommitmentType →
  id_Number block = m → n < m → 0 ≤ da_ResolveWindow (st_cfg s) → is_u64 (m + da_ResolveWindow (st_cfg s)) →
  state_inv n m s → apply_events cfg l1 block logs s = Ok s' → state_inv n m s' ∧ st_cfg s' = st_cfg s.
Proof.
  intros Hk Ht Hm Hlt Hrw Hu. revert s Hrw Hu. induction logs as [|log logs IH]; intros s Hrw Hu Hi; cbn.
  { by intros [= <-]. }
  intros (s1 & H1' & H2')%bind_ok. eapply apply_event_inv in H1' as [Hi1 Hc1]; [|done..].
  rewrite <-Hc1 in Hrw, Hu. destruct (IH s1 Hrw Hu Hi1 H2'). split; [done|congruence].
Qed.

(** ** Deadlines *)

Lemma expire_inv n m block s :
  id_Number block = m → n ≤ m → state_inv n m s → state_inv m m (ExpireChallenges block s).
Proof.
  intros Hm Hle Hi. unfold ExpireChallenges.
  destruct (expire_challenges_loop _ _ _) as [[rest expired] h'] eqn:Hl. rewrite Hm in Hl.
  destruct (expire_challenges_loop_spec _ _ _ _ _ _ Hl) as (Hsplit & Hhead & Hheap).
  assert (He : evolves (st_heap s) h').
  { split.
    - intros a [c Hc]. rewrite Hheap, Hc. case_decide; by eexists.
    - intros a c'. rewrite Hheap. case_decide as Hin.
      + destruct (st_heap s !! a) as [c|] eqn:Hc; [|done]. intros [= <-]. exists c.
        rewrite expire_challenge_end, expire_challenge_key. pose proof (si_heap _ _ _ Hi a c Hc) as [H1' H2' H3'].
        split_and!; [done..| |].
        * unfold expire_challenge. destruct (Z.eqb_spec (ch_challengeStatus c) ChallengeActive); [|done].
          split; cbn; [done|by right; right|done].
        * intros _. apply expire_challenge_inactive.
      + intros Hc. exists c'. split_and!; [done..|by eapply si_heap|done]. }
  pose proof (evolves_inv n m s h' He Hi) as [Gh Gmap Gptr Gopen Gsort Gexp]. cbn in *.
  split; cbn.
  - exact Gh.
  - intros k a Hk. destruct (Gmap k a Hk) as [? Hin]. split; [done|]. rewrite Hsplit in Hin. set_solver.
  - intros a Hin. apply Gptr. rewrite Hsplit. set_solver.
  - intros a c Hin Hc. split; [|eapply (Gopen a); [rewrite Hsplit; set_solver|done]].
    destruct rest as [|a0 rest']; [set_solver|].
    destruct (Gptr a0) as [c0 Hc0]; [rewrite Hsplit; set_solver|].
    assert (Hlt : m < ch_resolveWindowEnd c0).
    { destruct He as [_ He]. destruct (He a0 c0 Hc0) as (x & Hx & -> & _). by apply (Hhead a0 x). }
    apply elem_of_cons in Hin as [->|Hin]; [naive_solver|].
    apply list_elem_of_lookup_1 in Hin as [j Hj].
    pose proof (Gsort (length expired) (length expired + Datatypes.S j)%nat a0 a c0 c) as Hs.
    rewrite Hsplit in Hs. rewrite list_lookup_middle in Hs by done.
    rewrite lookup_app_r in Hs by lia. replace (length expired + Datatypes.S j - length expired)%nat with (Datatypes.S j) in Hs by lia.
    specialize (Hs ltac:(lia) eq_refl Hj Hc0 Hc). lia.
  - intros i j a b c c' Hij Hia Hjb. apply (Gsort (length expired + i)%nat (length expired + j)%nat); [lia|..];
      rewrite Hsplit, lookup_app_r by lia; [rewrite <-Hia|rewrite <-Hjb]; f_equal; lia.
  - intros a c Hin Hc. apply elem_of_app in Hin as [Hin|Hin]; [by eapply Gexp|].
    rewrite Hheap, decide_True in Hc by done. destruct (st_heap s !! a); [|done]. injection Hc as <-.
    apply expire_challenge_inactive.
Qed.

Lemma challenge_prune_spec n h l m rest m' :
  prune_challenges_loop n h l m = (rest, m') →
  ∃ removed, l = removed ++ rest ∧
  ∀ k a, m' !! k = Some a → m !! k = Some a ∧ ∀ r c, r ∈ removed → h !! r = Some c → key c ≠ k.
Proof.
  revert m. induction l as [|a l IH]; intros m; cbn.
  { intros [= <- <-]. exists []. split; [done|]. set_solver. }
  destruct (h !! a) as [c|] eqn:Hc; [|intros [= <- <-]; exists []; split; [done|]; set_solver].
  case_match; [intros [= <- <-]; exists []; split; [done|]; set_solver|].
  intros (removed & -> & Hm)%IH. exists (a :: removed). split; [done|].
  intros k b Hk. destruct (Hm k b Hk) as [Hd Hr]. apply lookup_delete_Some in Hd as [Hne Hd].
  split; [done|]. intros r cr [->|Hin]%elem_of_cons Hcr; [naive_solver|by eapply Hr].
Qed.

Lemma prune_inv n m origin s : state_inv n m s → state_inv n m (Prune origin s).
Proof.
  intros Hi. unfold Prune. set (s1 := pruneCommitments origin s).
  assert (Hi1 : state_inv n m s1).
  { unfold s1, pruneCommitments. destruct (prune_commitments_loop _ _ _ _). by destruct Hi. }
  clearbody s1. clear Hi s. unfold pruneChallenges.
  destruct (prune_challenges_loop _ _ _ _) as [rest m'] eqn:Hl.
  destruct (challenge_prune_spec _ _ _ _ _ _ Hl) as (removed & Hsplit & Hm).
  destruct Hi1 as [Hh Hmap Hptr Hopen Hsort Hexp]. split; cbn; try done.
  - intros k a Hk. destruct (Hm k a Hk) as [Hk' Hr]. destruct (Hmap k a Hk') as [(c & Hc & Hkey) Hin].
    split; [by exists c|]. destruct Hin as [?|Hin]; [by left|right]. rewrite Hsplit in Hin.
    apply elem_of_app in Hin as [Hin|?]; [|done]. by destruct (Hr a c Hin Hc).
  - intros a Hin. apply Hptr. rewrite Hsplit. set_solver.
  - intros a c Hin. apply Hexp. rewrite Hsplit. set_solver.
Qed.
Lemma prune_cfg origin s : st_cfg (Prune origin s) = st_cfg s.
Proof. unfold Prune, pruneChallenges, pruneCommitments. by repeat case_match. Qed.

(** ** The manager *)

Record da_inv (cfg : DAConfig) d : Prop := {
  di_cfg : d_cfg d = cfg;
  di_state_cfg : st_cfg (d_state d) = cfg;
  di_state : state_inv (id_Number (d_challengeOrigin d)) (id_Number (d_challengeOrigin d)) (d_state d);
}.

(** Block numbers leave room for the resolve window. *)
Definition fits (cfg : DAConfig) (n : Z) : Prop := is_u64 (n + da_ResolveWindow cfg).
Definition chain_fits (cfg : DAConfig) (l1 : L) : Prop :=
  ∀ n ref, L1BlockRefByNumber l1 n = Ok ref → fits cfg (l1_Number ref).

(** The chains this is about: Keccak commitments, with a contract that knows no others. *)
Record keccak_chain (cfg : DAConfig) : Prop := {
  kc_contract : keccak_contract;
  kc_type : da_CommitmentType cfg = Keccak256CommitmentType;
  kc_window : 0 ≤ da_ResolveWindow cfg;
}.

Lemma advance_challenge_inv cfg l1 block d :
  keccak_chain cfg → fits cfg (id_Number block) → da_inv cfg d → da_inv cfg (AdvanceChallengeOrigin l1 block d).2.
Proof.
  intros [Hk Ht Hw] Hf [Hc Hsc Hi]. unfold AdvanceChallengeOrigin.
  destruct (Z.leb_spec (id_Number block) (id_Number (d_challengeOrigin d))) as [Hle|Hlt]; [done|].
  unfold loadChallengeEvents. destruct (fetchChallengeLogs l1 block d) as [logs|e|w]; cbn; [|done..].
  destruct (apply_events _ _ _ _ _) as [s'|e|w] eqn:Ha; cbn; [|done..].
  eapply (apply_events_inv (id_Number (d_challengeOrigin d)) (id_Number block)) in Ha as [Hi' Hc'];
    [|by rewrite ?Hc, ?Hsc..|by apply (state_inv_later _ (id_Number (d_challengeOrigin d))); [lia|]].
  split; cbn; [done| |apply (expire_inv (id_Number (d_challengeOrigin d))); [done|lia|done]].
  unfold ExpireChallenges. destruct (expire_challenges_loop _ _ _) as [[??]?]. cbn. congruence.
Qed.
Lemma expire_commitments_inv n m origin s :
  state_inv n m s → state_inv n m (ExpireCommitments origin s).2 ∧ st_cfg (ExpireCommitments origin s).2 = st_cfg s.
Proof.
  intros Hi. unfold ExpireCommitments. destruct (expire_loop _ _ _ _) as [[??]?].
  split; [|done]. by apply state_inv_commitments.
Qed.
Lemma advance_commitment_inv cfg block d : da_inv cfg d → da_inv cfg (AdvanceCommitmentOrigin block d).2.
Proof.
  intros [Hc Hsc Hi]. unfold AdvanceCommitmentOrigin. case_match; [done|].
  destruct (expire_commitments_inv _ _ block _ Hi) as [Hi' Hc'].
  destruct (ExpireCommitments block (d_state d)) as [[[]|e|w] s']; cbn in *; split; cbn; congruence || done.
Qed.
Lemma advance_inv cfg l1 block d :
  keccak_chain cfg → fits cfg (id_Number block) → da_inv cfg d → da_inv cfg (DA_AdvanceL1Origin d l1 block).2.
Proof.
  intros Hk Hf Hi. unfold DA_AdvanceL1Origin. apply (advance_challenge_inv cfg l1 block) in Hi; [|done..].
  destruct (AdvanceChallengeOrigin l1 block d) as [[[]|e|w] d1]; [|done..]. cbn [snd] in Hi.
  apply (advance_commitment_inv cfg block) in Hi.
  destruct (AdvanceCommitmentOrigin block d1) as [[[]|e|w] d2]; [|done..]. cbn [snd] in Hi.
  destruct (NoCommitments _); [|done]. unfold updateFinalizedFromL1. by repeat case_match; destruct Hi.
Qed.
Lemma track_inv cfg comm id d :
  da_inv cfg d → da_inv cfg (d_set_state (TrackCommitment comm id (d_state d)) d).
Proof. intros [Hc Hsc Hi]. split; [done..|]. by apply state_inv_commitments. Qed.
Lemma look_ahead_inv cfg l1 d :
  keccak_chain cfg → chain_fits cfg l1 → da_inv cfg d → da_inv cfg (LookAhead l1 d).2.
Proof.
  intros Hk Hf Hi. unfold LookAhead. destruct (L1BlockRefByNumber _ _) as [r| |] eqn:Hr; [|done..].
  apply advance_challenge_inv; [done|by eapply Hf|done].
Qed.
Lemma get_input_inv cfg l1 comm id d :
  keccak_chain cfg → chain_fits cfg l1 → da_inv cfg d → da_inv cfg (DA_GetInput d l1 comm id).2.
Proof.
  intros Hk Hf Hi. unfold DA_GetInput. case_match; [done|]. case_match; [done|].
  apply (track_inv cfg comm id) in Hi. set (d1 := d_set_state _ d) in *. clearbody d1.
  destruct (storage_GetInput _ comm) as [data|e|w]; [by case_match| |done]. case_match; [|done].
  unfold missing_input. pose proof (look_ahead_inv cfg l1 d1 Hk Hf Hi) as Hl.
  destruct (LookAhead l1 d1) as [[[]|x|w] d2]; cbn [snd] in *; by repeat case_match.
Qed.
Lemma da_reset_inv cfg d base sc : da_inv cfg d → da_inv cfg (DA_Reset d base sc).2.
Proof.
  intros [Hc Hsc Hi]. unfold DA_Reset. destruct (d_resetting d); split; cbn; try done.
  - by apply state_inv_commitments.
  - by eapply reset_state_inv.
Qed.
Lemma finalize_inv cfg r d : da_inv cfg d → da_inv cfg (Finalize r d).2.
Proof.
  intros [Hc Hsc Hi]. unfold Finalize, updateFinalizedHead. cbn. case_match; [done|].
  split; cbn; [done|by rewrite prune_cfg|by apply prune_inv].
Qed.

(** All that happens to a manager, in any order. *)
Inductive da_reachable (cfg : DAConfig) : DA S → Prop :=
| da_new storage : da_reachable cfg (NewAltDAWithStorage cfg storage)
| da_handler d : da_reachable cfg d → da_reachable cfg (OnFinalizedHeadSignal d)
| da_advance d l1 block : da_reachable cfg d → fits cfg (id_Number block) →
    da_reachable cfg (DA_AdvanceL1Origin d l1 block).2
| da_get d l1 comm id : da_reachable cfg d → chain_fits cfg l1 → da_reachable cfg (DA_GetInput d l1 comm id).2
| da_reset d base sc : da_reachable cfg d → da_reachable cfg (DA_Reset d base sc).2
| da_finalize d r : da_reachable cfg d → da_reachable cfg (Finalize r d).2.

Lemma reachable_inv cfg d : keccak_chain cfg → da_reachable cfg d → da_inv cfg d.
Proof.
  intros Hk. induction 1.
  - split; [done..|apply new_state_inv].
  - by destruct IHda_reachable.
  - by apply advance_inv.
  - by apply get_input_inv.
  - by apply da_reset_inv.
  - by apply finalize_inv.
Qed.


(** A challenge past its deadline was answered, or has expired. *)
Lemma deadline_passed n m s comm bn ch :
  state_inv n m s → GetChallenge s comm bn = Some ch → ch_resolveWindowEnd ch ≤ n →
  ch_challengeStatus ch ≠ ChallengeResolved → ch_challengeStatus ch = ChallengeExpired.
Proof.
  intros Hi Hg Hend Hres. unfold GetChallenge in Hg. apply bind_Some in Hg as (a & Ha & Hc).
  destruct (si_map _ _ _ Hi _ _ Ha) as [_ [Hin|Hin]].
  - destruct (si_open _ _ _ Hi a ch Hin Hc). lia.
  - pose proof (si_expired _ _ _ Hi a ch Hin Hc) as Hna.
    destruct (ok_status _ (si_heap _ _ _ Hi a ch Hc)) as [?|[?|?]]; done.
Qed.

Lemma advance_challenge_ok l1 block d d1 :
  AdvanceChallengeOrigin l1 block d = (Ok (), d1) →
  id_Number block ≤ id_Number (d_challengeOrigin d1) ∧ d_commitmentOrigin d1 = d_commitmentOrigin d.
Proof.
  unfold AdvanceChallengeOrigin. destruct (Z.leb_spec (id_Number block) (id_Number (d_challengeOrigin d))).
  { by intros [= <-]. }
  unfold loadChallengeEvents. destruct (mbind _ _); [|done..]. intros [= <-]. cbn. split; [lia|done].
Qed.

Lemma expired_front s n front c rest left expired err :
  Forall (λ c, expires_at s c ≤ n) (front ++ [c]) →
  expire_loop s n (front ++ c :: rest) false = (left, expired, err) → c ∈ expired.
Proof.
  intros Hall (Hl & _ & Hh & _)%expire_loop_spec.
  destruct (decide (length expired ≤ length front)%nat) as [Hle|Hgt].
  - exfalso. assert (Hx : (front ++ [c]) !! length expired = head left).
    { assert (Hlk : (front ++ c :: rest) !! length expired = head left).
      { rewrite Hl, lookup_app_r, Nat.sub_diag by lia. by destruct left. }
      rewrite <-Hlk. replace (front ++ c :: rest) with ((front ++ [c]) ++ rest) by (by rewrite <-app_assoc).
      rewrite (lookup_app_l (front ++ [c])); [done|]. rewrite length_app. cbn. lia. }
    destruct (lookup_lt_is_Some_2 (front ++ [c]) (length expired)) as [x Hx']; [rewrite length_app; cbn; lia|].
    rewrite Hx' in Hx. symmetry in Hx. apply Hh in Hx. rewrite Forall_lookup in Hall.
    specialize (Hall _ _ Hx'). cbn in Hall. lia.
  - assert (Hc : (front ++ c :: rest) !! length front = Some c) by (by apply list_lookup_middle).
    rewrite Hl, lookup_app_l in Hc by lia. by apply list_elem_of_lookup_2 in Hc.
Qed.


(** an L1 block in which a challenge is resolved by a transaction with fewer than four
    bytes of calldata, as when a contract answers the challenge on behalf of its caller,
    makes the manager panic instead of skipping the event. *)
Theorem short_resolve_panics d l1 block info logs log comm bn txs tx :
  da_CommitmentType (d_cfg d) = Keccak256CommitmentType →
  id_Number (d_challengeOrigin d) < id_Number block →
  FetchReceipts l1 (id_Hash block) = Ok (info, [mkReceipt ReceiptStatusSuccessful (log :: logs)]) →
  is_challenge_log (d_cfg d) log = true → decodeChallengeStatus log = Ok (ChallengeResolved, comm, bn) →
  InfoAndTxsByHash l1 (id_Hash block) = Ok txs → 0 ≤ log_TxIndex log →
  txs !! Z.to_nat (log_TxIndex log) = Some tx → TxHash tx = log_TxHash log → (length (tx_Data tx) < 4)%nat →
  (DA_AdvanceL1Origin d l1 block).1 = Panic "slice bounds out of range".
Proof.
  intros Hty Hlt Hrec Hlog Hdec Htxs Hi Htx Hh Hlen.
  assert (Hin : resolved_input (d_cfg d) l1 block log comm = Panic "slice bounds out of range").
  { unfold resolved_input. rewrite Htxs. pose proof (lookup_lt_Some _ _ _ Htx) as Hb.
    rewrite (proj2 (Z.leb_gt _ _)) by lia. rewrite Htx, bool_decide_eq_true_2 by done. cbn [negb].
    rewrite Hty, Z.eqb_refl. unfold DecodeResolvedInput. by rewrite (proj2 (Nat.ltb_lt _ _)) by done. }
  unfold DA_AdvanceL1Origin, AdvanceChallengeOrigin. rewrite (proj2 (Z.leb_gt _ _)) by done.
  unfold loadChallengeEvents, fetchChallengeLogs. rewrite Hty. change (_ =? GenericCommitmentType) with false.
  cbv iota. rewrite Hrec. cbn. rewrite Hlog. cbn. unfold apply_event. rewrite Hdec.
  change (ChallengeResolved =? ChallengeResolved) with true. cbv iota. by rewrite Hin.
Qed.
End inv.

(** ** Examples *)

Module AltDAExample.
Import GethExample.
(** Events as plain bytes: the status and the commitment, which must be a Keccak one. *)
#[global] Instance abi : ChallengeABI := {
  UnpackChallengeStatusChanged data :=
    match data with
    | st :: (x00 :: _) as comm => Ok (comm, b2z st)
    | _ => Err (ErrorsNew "cannot unpack")
    end;
  ParseChallengedBlockNumber topics :=
    match topics with [t] => Ok (be_val t) | _ => Err (ErrorsNew "topic/field count mismatch") end;
  UnpackResolveData data := Ok data }.
(** A storage service that has one input, or has lost it. *)
Definition input : bytes := [x01; x02; x03].
Definition comm : CommitmentData := NewKeccak256Commitment input.
#[global] Instance storage : DAStorage bool := λ has c,
  if has && bool_decide (c = comm) then Ok input else Err ErrNotFound.

Definition contract : Address := replicate 20 xda.
Definition cfg : DAConfig := mkDAConfig contract Keccak256CommitmentType 2 2.
(** The events and the transactions of each block. *)
Record node := Node { logs_at : Z → list Log; txs_at : Z → list Transaction }.
Definition block (n : Z) : L1BlockRef := mkL1BlockRef (be_bytes 32 n) n (be_bytes 32 (n - 1)) (12 * n).
Definition info : BlockInfo := mkBlockInfo zeroHash zeroHash 0 0 zeroHash 0 None None None.
#[global] Instance node_source : L1Source node := {
  L1BlockRefByNumber _ n := if (0 <=? n) && (n <=? 10) then Ok (block n) else Err (Sentinel SNotFound);
  L1BlockRefByHash _ _ := Err (Sentinel SNotFound);
  InfoByHash _ _ := Err (Sentinel SNotFound);
  FetchReceipts l h := Ok (info, [mkReceipt ReceiptStatusSuccessful (logs_at l (be_val h))]);
  InfoAndTxsByHash l h := Ok (txs_at l (be_val h));
  GetBlobsByHash _ _ _ := Err (Sentinel SNotFound) }.
(** The challenge of the commitment in block 1. *)
Definition event (status : Z) (tx : Transaction) : Log :=
  mkLog contract [ChallengeStatusEventABIHash; be_bytes 32 1] (z2b status :: Encode comm) zeroHash 0 0 (TxHash tx).
Definition call (data : bytes) : Transaction := mkTransaction 2 (Some contract) data [] data.
(** Challenged in block 2 and resolved in block 3 with the given transaction. *)
Definition chain (answer : bytes) : node :=
  Node (λ n, if n =? 2 then [event ChallengeActive (call [])]
             else if n =? 3 then [event ChallengeResolved (call answer)] else [])
       (λ n, if n =? 3 then [call answer] else []).
(** Challenged and never answered. *)
Definition unanswered : node := Node (λ n, if n =? 2 then [event ChallengeActive (call [])] else []) (λ _, []).

Definition advance (l1 : node) (n : Z) (d : DA bool) : DA bool := (DA_AdvanceL1Origin d l1 (L1_ID (block n))).2.
Definition answered : DA bool :=
  advance (chain ([x00; x00; x00; x00] ++ input)) 3 (advance (chain []) 2 (NewAltDAWithStorage cfg false)).
Definition used : DA bool :=
  advance unanswered 2 (DA_GetInput (advance unanswered 1 (NewAltDAWithStorage cfg true)) unanswered comm (block 1)).2.

Lemma keccak : keccak_chain cfg.
Proof.
  split; [|done|done]. intros log st c bn. unfold decodeChallengeStatus, DecodeChallengeStatusEvent.
  intros Hd. inv_bind Hd. inv_bind Hb. destruct a1 as [cm sts]. destruct (log_Topics log) as [|t ts]; [done|].
  inv_bind Hb. simplify_eq. cbn in Hb1. destruct (log_Data log) as [|s [|x cm']]; [done..|].
  destruct x; try done. simplify_eq. cbn in *. unfold DecodeKeccak256 in *.
  destruct (negb (bool_decide _)); [done|]. simplify_eq. repeat case_match; simplify_eq. by eexists.
Qed.
Lemma small n : 0 ≤ n ≤ 100 → fits cfg n.
Proof. unfold fits, is_uint. cbn. lia. Qed.
Lemma nodes_fit (l1 : node) : chain_fits cfg l1.
Proof.
  intros n r. cbn. destruct ((0 <=? n) && (n <=? 10)) eqn:Hn; [|done]. intros [= <-].
  apply andb_true_iff in Hn as [?%Z.leb_le ?%Z.leb_le]. apply small. cbn. lia.
Qed.
Lemma advance_reachable l1 n d : 0 ≤ n ≤ 100 → da_reachable cfg d → da_reachable cfg (advance l1 n d).
Proof. intros Hn Hd. apply da_advance; [done|]. by apply small. Qed.
Lemma answered_reachable : da_reachable cfg answered.
Proof. do 2 (apply advance_reachable; [lia|]). apply da_new. Qed.
Lemma answered_storage : d_storage answered = false.
Proof. vm_compute. reflexivity. Qed.
Lemma used_reachable : da_reachable cfg used.
Proof.
  apply advance_reachable; [lia|]. apply da_get; [|apply nodes_fit].
  apply advance_reachable; [lia|]. apply da_new.
Qed.
End AltDAExample.



Lemma short_resolve_panics_witness :
  (DA_AdvanceL1Origin (AltDAExample.advance (AltDAExample.chain []) 2 (NewAltDAWithStorage AltDAExample.cfg false))
     (AltDAExample.chain []) (L1_ID (AltDAExample.block 3))).1 = Panic "slice bounds out of range".
Proof.
  apply (short_resolve_panics _ _ _ AltDAExample.info []
    (AltDAExample.event ChallengeResolved (AltDAExample.call [])) AltDAExample.comm 1
    [AltDAExample.call []] (AltDAExample.call [])); try (by vm_compute). cbn. lia.
Defined.
