(* ===== verification/AltDASource.v ===== *)
(** * The alt-DA data source

    Properties of [AltDADataSource] of [DataSource], against the interface of the backend:
    what it makes of the commitments a batcher has posted. *)

From S2P Require Import Prelude GoBytes Errors Eth RollupConfig Geth Commitment SysConfig L1BlockInfo Stages.
From S2P Require Import L1Traversal DataSource.

Section source.
Context `{Geth} {L : Type} `{L1Source L} {D : Type} `{AltDAInputFetcher L D}.
Implicit Type s : AltDADataSource.

(** A piece of L1 data: a commitment, or anything else. *)
Definition classify (item : Data) : CommitmentData + Data :=
  match item_commitment item with Some c => inl c | None => inr item end.
(** What is left to do: the pending commitment and the rest of the L1 data. *)
Definition work (l1 : L) s : list (CommitmentData + Data) :=
  (inl <$> option_list (ads_comm s)) ++ (classify <$> iter_data l1 (ads_src s)).

(** Data that is neither a commitment nor to be passed on. *)
Definition unreadable (item : Data) : Prop :=
  item = [] ∨ ∃ rest, item = DerivationVersion1 :: rest ∧ ∀ c, DecodeCommitmentData rest ≠ Ok c.

(** A commitment the protocol leaves out: of the wrong type, with an expired challenge,
    or with an input that is too large. *)
Definition left_out (l1 : L) (id : L1BlockRef) (w : CommitmentData + Data) : Prop :=
  ∃ c (d : D), w = inl c ∧
  match (GetInput d l1 c id).1 with
  | Ok data => CommitmentType c = Keccak256CommitmentType ∧ MaxInputSize < Z.of_nat (length data)
  | Err e => errors_Is e (TSentinel SCommitmentTypeMismatch) = true ∨
             errors_Is e (TSentinel SExpiredChallenge) = true
  | Panic _ => False
  end.
(** The data that a piece stands for. *)
Definition stands_for (l1 : L) (id : L1BlockRef) (w : CommitmentData + Data) (data : Data) : Prop :=
  match w with
  | inl c => (∃ d : D, (GetInput d l1 c id).1 = Ok data) ∧
      (CommitmentType c = Keccak256CommitmentType → Z.of_nat (length data) ≤ MaxInputSize)
  | inr item => data = item
  end.
(** Who is to blame for a panic. *)
Definition source_panics (l1 : L) (id : L1BlockRef) (w : string) : Prop :=
  (∃ d : D, (AdvanceL1Origin d l1 (L1_ID id)).1 = Panic w) ∨ (∃ (d : D) c, (GetInput d l1 c id).1 = Panic w) ∨
  (∃ it, (L1DataIter_Next l1 it).1 = Panic w).

Lemma next_commitment_spec l1 s r s' :
  next_commitment l1 s = (r, s') →
  ads_id s' = ads_id s ∧
  match r with
  | Ok (inl c) => ads_comm s' = Some c ∧ work l1 s' = work l1 s ∧
      work l1 s = inl c :: work l1 (ads_set_comm None s')
  | Ok (inr data) => work l1 s = inr data :: work l1 s'
  | Err e => (∃ item, work l1 s = inr item :: work l1 s' ∧ unreadable item ∧ e = NotEnoughData) ∨
      (work l1 s = [] ∧ work l1 s' = [] ∧ ∃ it, (L1DataIter_Next l1 it).1 = Err e)
  | Panic w => ∃ it, (L1DataIter_Next l1 it).1 = Panic w
  end.
Proof.
  unfold next_commitment, work. destruct (ads_comm s) as [c|] eqn:Ec.
  { intros [= <- <-]. by rewrite Ec. }
  destruct (L1DataIter_Next l1 (ads_src s)) as [[item|e|w] src] eqn:En.
  - apply L1DataIter_Next_data in En. rewrite En.
    destruct item as [|v rest].
    { intros [= <- <-]. split; [done|]. left. exists []. by split; [|split; [left|]]. }
    assert (Hcl : classify (v :: rest) =
      if decide (v = DerivationVersion1) then
        match DecodeCommitmentData rest with Ok c => inl c | _ => inr (v :: rest) end
      else inr (v :: rest)).
    { unfold classify. cbn [item_commitment]. case_decide; [|done]. by destruct (DecodeCommitmentData rest). }
    case_bool_decide as Hv; cbn [negb].
    + rewrite decide_True in Hcl by done.
      destruct (DecodeCommitmentData rest) as [c|e|w] eqn:Hd; intros [= <- <-].
      * cbn. by rewrite Hcl.
      * split; [done|]. left. exists (v :: rest). cbn. rewrite Hcl. split; [done|]. split; [|done].
        right. exists rest. split; [by subst v|by rewrite Hd].
      * exfalso. unfold DecodeCommitmentData, DecodeKeccak256, DecodeGenericCommitment in Hd.
        by repeat case_match.
    + rewrite decide_False in Hcl by done. intros [= <- <-]. cbn. by rewrite Hcl.
  - intros [= <- <-]. split; [done|]. right. pose proof En as [-> Hs]%L1DataIter_Next_err.
    cbn. rewrite Hs. split_and!; [done..|]. exists (ads_src s). by rewrite En.
  - intros [= <- <-]. split; [done|]. exists (ads_src s). by rewrite En.
Qed.

Definition next_ok (l1 : L) s (r : Res Data) s' : Prop :=
  ads_id s' = ads_id s ∧
  match r with
  | Panic w => source_panics l1 (ads_id s) w
  | Ok data => ∃ skipped w, work l1 s = skipped ++ w :: work l1 s' ∧
      Forall (left_out l1 (ads_id s)) skipped ∧ stands_for l1 (ads_id s) w data
  | Err e => ∃ skipped rest, work l1 s = skipped ++ rest ∧ Forall (left_out l1 (ads_id s)) skipped ∧
      ((∃ item, rest = inr item :: work l1 s' ∧ unreadable item ∧ e = NotEnoughData) ∨
       (rest = work l1 s' ∧ (e = NotEnoughData ∨ is_Some (outer_level e))) ∨
       (rest = [] ∧ work l1 s' = [] ∧ ∃ it, (L1DataIter_Next l1 it).1 = Err e))
  end.

Lemma next_ok_skip l1 s c s1 r s' :
  ads_id s1 = ads_id s → work l1 s = inl c :: work l1 s1 → left_out l1 (ads_id s) (inl c) →
  next_ok l1 s1 r s' → next_ok l1 s r s'.
Proof.
  intros Hid Hw Hl [Hid' Hr]. split; [congruence|]. rewrite Hid in Hr. destruct r as [data|e|w]; [| |done].
  - destruct Hr as (sk & w & Hw' & Hf & Hs). exists (inl c :: sk), w. rewrite Hw, Hw'. by split_and!; [|constructor|].
  - destruct Hr as (sk & rest & Hw' & Hf & Hs). exists (inl c :: sk), rest. rewrite Hw, Hw'.
    by split_and!; [|constructor|].
Qed.

Lemma altda_next_ok fuel l1 s (d : D) :
  (length (work l1 s) < fuel)%nat →
  let '(r, (s', d')) := AltDADataSource_Next fuel l1 s d in next_ok l1 s r s'.
Proof.
  revert s d. induction fuel as [|fuel IH]; intros s d Hf; [lia|]. cbn [AltDADataSource_Next].
  destruct (AdvanceL1Origin d l1 (L1_ID (ads_id s))) as [[[]|e|w] d1] eqn:Ha.
  2: { split; [done|]. exists [], (work l1 s). split_and!; [done|by constructor|]. right; left.
       split; [done|]. right. by case_match; eexists. }
  2: { split; [done|]. left. exists d. by rewrite Ha. }
  destruct (next_commitment l1 s) as [r s1] eqn:Hn. apply next_commitment_spec in Hn as [Hid Hn].
  destruct r as [[c|data]|e|w].
  - destruct Hn as (Hc & Hw1 & Hw).
    assert (Hrec : ∀ d2, left_out l1 (ads_id s) (inl c) →
      let '(r, (s', d')) := AltDADataSource_Next fuel l1 (ads_set_comm None s1) d2 in next_ok l1 s r s').
    { intros d2 Hl. specialize (IH (ads_set_comm None s1) d2). rewrite Hw in Hf. cbn [length] in Hf.
      destruct (AltDADataSource_Next fuel l1 _ d2) as [r [s' d']].
      apply (next_ok_skip l1 s c (ads_set_comm None s1)); [exact Hid|exact Hw|done|]. apply IH. lia. }
    assert (Hkeep : ∀ e, e = NotEnoughData ∨ is_Some (outer_level e) → next_ok l1 s (Err e) s1).
    { intros e He. split; [done|]. exists [], (work l1 s). split_and!; [done|by constructor|]. right; left.
      by rewrite Hw1. }
    rewrite Hid. destruct (GetInput d1 l1 c (ads_id s)) as [[data|e|w] d2] eqn:Hg.
    + destruct ((CommitmentType c =? Keccak256CommitmentType) && (MaxInputSize <? Z.of_nat (length data))) eqn:Hm.
      * apply andb_true_iff in Hm as [?%Z.eqb_eq ?%Z.ltb_lt]. apply Hrec. exists c, d1. by rewrite Hg.
      * split; [done|]. exists [], (inl c). split_and!; [done|by constructor|]. split; [exists d1; by rewrite Hg|].
        intros Ht. rewrite Ht, Z.eqb_refl in Hm. by apply Z.ltb_ge in Hm.
    + destruct (errors_Is e (TSentinel SReorgRequired)); [apply Hkeep; right; by eexists|].
      destruct (errors_Is e (TSentinel SCommitmentTypeMismatch)) eqn:Hx.
      { apply Hrec. exists c, d1. rewrite Hg. split; [done|by left]. }
      destruct (errors_Is e (TSentinel SExpiredChallenge)) eqn:Hy.
      { apply Hrec. exists c, d1. rewrite Hg. split; [done|by right]. }
      destruct (errors_Is e (TSentinel SMissingPastWindow)); [apply Hkeep; right; by eexists|].
      destruct (errors_Is e (TSentinel SPendingChallenge)); apply Hkeep; [by left|right; by eexists].
    + split; [done|]. right; left. exists d1, c. by rewrite Hg.
  - split; [done|]. exists [], (inr data). by split_and!; [|constructor|].
  - split; [done|]. exists [], (work l1 s). split_and!; [done|by constructor|].
    destruct Hn as [Hn|Hn]; [by left|by right; right].
  - split; [done|]. by right; right.
Qed.

(** C19: the data of a block with alt-DA is what its commitments stand for, in order and
    without loss: a call hands out the next piece of L1 data that is not a commitment, or
    the input of the next commitment, and leaves out only commitments of the wrong type,
    with an expired challenge, or with an oversized Keccak input. An error leaves the
    commitment pending; only data that cannot be decoded is passed over. Every call
    returns: a panic comes from the backend or the L1 node. *)
Theorem altda_next_spec (ds : DataSourceFactory L D) s :
  let l1 := dsf_fetcher ds in
  match DataIter_Next ds (AltDAIter s) with
  | (r, (AltDAIter s', ds')) => dsf_fetcher ds' = l1 ∧ next_ok l1 s r s'
  | _ => False
  end.
Proof.
  cbn [DataIter_Next]. pose proof (altda_next_ok (altda_fuel (dsf_fetcher ds) s) (dsf_fetcher ds) s (dsf_altDAFetcher ds)) as Hn.
  destruct (AltDADataSource_Next _ _ s _) as [r [s' d']]. split; [done|]. apply Hn.
  unfold altda_fuel, work. rewrite length_app, !length_fmap. destruct (ads_comm s); cbn; lia.
Qed.
End source.
