(* ===== verification/FrameQueue.v ===== *)
(** * The frame queue

    Models [op-node/rollup/derive/frame_queue.go]: the stage that parses the data
    of L1 transactions into frames and, from Holocene on, prunes the queue to
    contiguous frames. The in-place pruning loop is proved equal to a one-pass
    stack machine, which gives its specification. *)

From S2P Require Import Prelude GoBytes Errors Eth RollupConfig Frame Stages.

(** ** Pruning *)

(** The loop of [pruneFrameQueue]: [i] is the cursor; [discard(d)] deletes the
    element [i+d]. *)
Fixpoint prune_loop (fuel : nat) (frames : list Frame) (i : nat) : Res (list Frame) :=
  match frames !! i, frames !! S i with
  | Some current, Some next =>
    match fuel with
    | O => Panic "out of fuel"
    | S fuel =>
      if decide (f_ID current = f_ID next) then
        if f_IsLast current then prune_loop fuel (delete (S i) frames) i
        else if negb (f_FrameNumber next =? f_FrameNumber current +₁₆ 1)
        then prune_loop fuel (delete (S i) frames) i
        else prune_loop fuel frames (S i)
      else if (f_FrameNumber next =? 0) && negb (f_IsLast current)
      then prune_loop fuel (delete i frames) (pred i)
      else if negb (f_FrameNumber next =? 0) then prune_loop fuel (delete (S i) frames) i
      else prune_loop fuel frames (S i)
    end
  | _, _ => Ok frames
  end.

(** Every iteration deletes a frame (and moves the cursor back by at most one)
    or advances the cursor, so twice the length is enough fuel. *)
Definition pruneFrameQueue (frames : list Frame) : Res (list Frame) :=
  prune_loop (2 * length frames) frames 0.

(** The reference: frames are pushed one by one on a stack of kept frames. *)
Fixpoint push (stack : list Frame) (next : Frame) : list Frame :=
  match stack with
  | [] => [next]
  | cur :: stack' =>
    if decide (f_ID cur = f_ID next) then
      if f_IsLast cur then stack
      else if f_FrameNumber next =? f_FrameNumber cur +₁₆ 1 then next :: stack else stack
    else if f_FrameNumber next =? 0 then
      if f_IsLast cur then next :: stack else push stack' next
    else stack
  end.
Definition prune_spec (frames : list Frame) : list Frame := reverse (foldl push [] frames).

Lemma reverse_lookup_head (st : list Frame) cur rest :
  (reverse (cur :: st) ++ rest) !! length st = Some cur.
Proof.
  rewrite reverse_cons, <- app_assoc. cbn.
  rewrite lookup_app_r by (rewrite length_reverse; lia).
  by rewrite length_reverse, Nat.sub_diag.
Qed.

Lemma reverse_lookup_next (st : list Frame) cur rest :
  (reverse (cur :: st) ++ rest) !! S (length st) = head rest.
Proof.
  rewrite lookup_app_r by (rewrite length_reverse; cbn; lia).
  rewrite length_reverse. cbn [length]. rewrite Nat.sub_diag. by destruct rest.
Qed.

Lemma reverse_delete_next (st : list Frame) cur next rest :
  delete (S (length st)) (reverse (cur :: st) ++ next :: rest) = reverse (cur :: st) ++ rest.
Proof.
  replace (S (length st)) with (length (reverse (cur :: st))) by (by rewrite length_reverse).
  by rewrite delete_middle.
Qed.

Lemma reverse_delete_head (st : list Frame) cur rest :
  delete (length st) (reverse (cur :: st) ++ rest) = reverse st ++ rest.
Proof.
  rewrite reverse_cons, <- app_assoc. cbn.
  replace (length st) with (length (reverse st)) by apply length_reverse.
  by rewrite delete_middle.
Qed.

Lemma prune_loop_spec fuel cur st rest :
  (2 * length rest + length st + 2 ≤ fuel)%nat →
  prune_loop fuel (reverse (cur :: st) ++ rest) (length st)
  = Ok (reverse (foldl push (cur :: st) rest)).
Proof.
  revert cur st rest. induction fuel as [|fuel IH]; intros cur st rest Hf; [lia|].
  cbn [prune_loop]. rewrite reverse_lookup_head, reverse_lookup_next.
  destruct rest as [|next rest]; cbn [head]; [by rewrite app_nil_r|].
  cbn [length] in Hf.
  assert (Hadv : prune_loop fuel (reverse (cur :: st) ++ next :: rest) (S (length st))
            = Ok (reverse (foldl push (next :: cur :: st) rest))).
  { replace (reverse (cur :: st) ++ next :: rest) with (reverse (next :: cur :: st) ++ rest)
      by (by rewrite (reverse_cons _ next), <- app_assoc).
    apply (IH next (cur :: st)). cbn [length]. lia. }
  cbn [foldl push]. rewrite !reverse_delete_next, reverse_delete_head.
  assert (Hdrop := IH cur st rest ltac:(lia)).
  destruct (decide (f_ID cur = f_ID next)).
  - destruct (f_IsLast cur); [done|]. by destruct (f_FrameNumber next =? _).
  - destruct (f_FrameNumber next =? 0); cbn; [|done].
    destruct (f_IsLast cur); cbn; [done|].
    destruct st as [|c st]; cbn [length pred].
    + apply (IH next []). cbn. lia.
    + apply (IH c st (next :: rest)). cbn [length] in *. lia.
Qed.

Lemma pruneFrameQueue_prune_spec frames : pruneFrameQueue frames = Ok (prune_spec frames).
Proof.
  unfold pruneFrameQueue, prune_spec. destruct frames as [|f [|g fs]]; [done..|].
  apply (prune_loop_spec _ f [] (g :: fs)). cbn. lia.
Qed.

(** Two neighbours the Holocene rules allow: the next frame of the same open
    channel, or the first frame of a new channel after a closed one. *)
Definition adjacent_ok (a b : Frame) : Prop :=
  (f_ID a = f_ID b ∧ f_IsLast a = false ∧ f_FrameNumber b = f_FrameNumber a +₁₆ 1)
  ∨ (f_ID a ≠ f_ID b ∧ f_IsLast a = true ∧ f_FrameNumber b = 0).

(** Adjacent elements of the stack, whose top is the later frame. *)
Inductive stack_ok : list Frame → Prop :=
| stack_nil : stack_ok []
| stack_one f : stack_ok [f]
| stack_cons b a st : adjacent_ok a b → stack_ok (a :: st) → stack_ok (b :: a :: st).
Create HintDb framequeue.
#[export] Hint Constructors stack_ok : framequeue.

Lemma stack_ok_tail f st : stack_ok (f :: st) → stack_ok st.
Proof. inversion 1; eauto with framequeue. Qed.

Lemma push_ok st f : stack_ok st → stack_ok (push st f).
Proof.
  induction st as [|c st IH]; intros Hst; cbn [push]; [eauto with framequeue|].
  case_decide; [destruct (f_IsLast c) eqn:El; [done|]|destruct (f_FrameNumber f =? 0) eqn:E0; [|done]].
  - destruct (f_FrameNumber f =? _) eqn:En; [|done]. bool2prop.
    constructor; [left; auto|done].
  - bool2prop. destruct (f_IsLast c) eqn:El; [|by apply IH, (stack_ok_tail c)].
    constructor; [right; auto|done].
Qed.

Lemma stack_ok_lookup st i a b :
  stack_ok st → st !! i = Some b → st !! S i = Some a → adjacent_ok a b.
Proof.
  intros H. revert i. induction H as [|f|b' a' st Hab H IH]; intros [|i] Hb Ha; try done.
  - cbn in *. congruence.
  - by apply (IH i).
Qed.

Lemma foldl_push_ok st fs : stack_ok st → stack_ok (foldl push st fs).
Proof. revert st. induction fs as [|f fs IH]; intros st H; cbn; [done|]. by apply IH, push_ok. Qed.

Lemma push_sublist st f : push st f `sublist_of` f :: st.
Proof.
  induction st as [|c st IH]; cbn [push]; [done|].
  repeat case_match; try done; try by apply sublist_cons.
  etrans; [apply IH|]. by apply sublist_skip, sublist_cons.
Qed.

Lemma foldl_push_sublist st fs : foldl push st fs `sublist_of` reverse fs ++ st.
Proof.
  revert st. induction fs as [|f fs IH]; intros st; cbn [foldl]; [done|].
  etrans; [apply IH|]. rewrite reverse_cons, <- app_assoc.
  apply sublist_app; [done|]. apply push_sublist.
Qed.

Lemma prune_spec_sublist fs : prune_spec fs `sublist_of` fs.
Proof.
  unfold prune_spec. pose proof (foldl_push_sublist [] fs) as H.
  rewrite app_nil_r in H. apply sublist_reverse in H. by rewrite reverse_involutive in H.
Qed.

Lemma prune_spec_adjacent fs i a b :
  prune_spec fs !! i = Some a → prune_spec fs !! S i = Some b → adjacent_ok a b.
Proof.
  unfold prune_spec. set (st := foldl push [] fs). intros Ha Hb.
  assert (Hst : stack_ok st) by (apply foldl_push_ok; constructor).
  pose proof (lookup_lt_Some _ _ _ Hb) as Hlt. rewrite length_reverse in Hlt.
  rewrite reverse_lookup in Ha, Hb by lia.
  eapply stack_ok_lookup; [done|exact Hb|].
  by replace (S (length st - S (S i))) with (length st - S i)%nat by lia.
Qed.

Lemma push_valid st f :
  (∀ a, head st = Some a → adjacent_ok a f) → push st f = f :: st.
Proof.
  destruct st as [|a st]; cbn [push head]; [done|]. intros H.
  destruct (H a eq_refl) as [(Hid & Hl & Hn)|(Hid & Hl & Hn)].
  - rewrite decide_True, Hl, Hn, Z.eqb_refl by done. done.
  - rewrite decide_False, Hl, Hn by done. done.
Qed.

Lemma foldl_push_valid st fs :
  (∀ i a b, (reverse st ++ fs) !! i = Some a → (reverse st ++ fs) !! S i = Some b → adjacent_ok a b) →
  foldl push st fs = reverse fs ++ st.
Proof.
  revert st. induction fs as [|f fs IH]; intros st H; cbn [foldl]; [done|].
  rewrite push_valid.
  - rewrite IH; [by rewrite reverse_cons, <- app_assoc|].
    rewrite reverse_cons, <- app_assoc. exact H.
  - intros a Ha. destruct st as [|a' st]; [done|]. cbn in Ha. injection Ha as ->.
    apply (H (length st)); [apply reverse_lookup_head|by rewrite reverse_lookup_next].
Qed.

(** C4: the in-place pruning loop terminates and computes what the one-pass stack
    machine computes: the result is a subsequence of the queue in which every
    two neighbours follow the Holocene rules, and a queue that follows them
    already is returned unchanged. *)
Theorem pruneFrameQueue_spec frames :
  ∃ out, pruneFrameQueue frames = Ok out ∧ out = prune_spec frames ∧ out `sublist_of` frames ∧
    (∀ i a b, out !! i = Some a → out !! S i = Some b → adjacent_ok a b) ∧
    ((∀ i a b, frames !! i = Some a → frames !! S i = Some b → adjacent_ok a b) → out = frames).
Proof.
  exists (prune_spec frames). split_and!.
  - apply pruneFrameQueue_prune_spec.
  - done.
  - apply prune_spec_sublist.
  - apply prune_spec_adjacent.
  - intros H. unfold prune_spec. rewrite foldl_push_valid by done.
    by rewrite app_nil_r, reverse_involutive.
Qed.

(** ** The stage *)

Record FrameQueue (P : Type) := mkFrameQueue {
  fq_frames : list Frame; fq_prev : P; fq_cfg : Config }.
Arguments mkFrameQueue {P}.
Arguments fq_frames {P}.
Arguments fq_prev {P}.
Arguments fq_cfg {P}.

Section stage.
Context {P : Type} `{NextDataProvider P}.

Definition NewFrameQueue (cfg : Config) (prev : P) : FrameQueue P := mkFrameQueue [] prev cfg.

#[export] Instance FrameQueue_origin : HasOrigin (FrameQueue P) := λ fq, Origin (fq_prev fq).

Definition fq_set_frames (fs : list Frame) (fq : FrameQueue P) : FrameQueue P :=
  mkFrameQueue fs (fq_prev fq) (fq_cfg fq).
Definition fq_set_prev (p : P) (fq : FrameQueue P) : FrameQueue P :=
  mkFrameQueue (fq_frames fq) p (fq_cfg fq).

Definition fq_prune (fq : FrameQueue P) : Res unit * FrameQueue P :=
  match pruneFrameQueue (fq_frames fq) with
  | Ok fs => (Ok (), fq_set_frames fs fq)
  | Err e => (Err e, fq)
  | Panic w => (Panic w, fq)
  end.

(** Data that does not parse is logged and dropped. *)
Definition loadNextFrames (fq : FrameQueue P) : Res unit * FrameQueue P :=
  let '(r, prev) := NextData (fq_prev fq) in
  let fq := fq_set_prev prev fq in
  match r with
  | Err e => (Err e, fq)
  | Panic w => (Panic w, fq)
  | Ok data =>
    match ParseFrames data with
    | Panic w => (Panic w, fq)
    | Err _ => (Ok (), fq)
    | Ok frames =>
      let fq := fq_set_frames (fq_frames fq ++ frames) fq in
      if IsHolocene (fq_cfg fq) (l1_Time (Origin fq)) then fq_prune fq else (Ok (), fq)
    end
  end.

Definition FrameQueue_NextFrame (fq : FrameQueue P) : Res Frame * FrameQueue P :=
  let '(r, fq) := match fq_frames fq with [] => loadNextFrames fq | _ => (Ok (), fq) end in
  match r with
  | Err e => (Err e, fq)
  | Panic w => (Panic w, fq)
  | Ok () =>
    match fq_frames fq with
    | [] => (Err NotEnoughData, fq)
    | ret :: rest => (Ok ret, fq_set_frames rest fq)
    end
  end.

#[export] Instance FrameQueue_provider : NextFrameProvider (FrameQueue P) := {
  NextFrame := FrameQueue_NextFrame }.

Definition fq_reset (fq : FrameQueue P) : FrameQueue P := fq_set_frames [] fq.
#[export] Instance FrameQueue_Reset : ResettableStage (FrameQueue P) :=
  λ fq _ _, (Err io_EOF, fq_reset fq).
#[export] Instance FrameQueue_Transform : ForkTransformer (FrameQueue P) :=
  λ fq f, match f with Holocene => Ok (fq_reset fq) | _ => Ok fq end.

(** *** Properties *)

Lemma loadNextFrames_origin `{!NextDataStable P} fq :
  Origin (loadNextFrames fq).2 = Origin fq.
Proof.
  unfold loadNextFrames, Origin, FrameQueue_origin.
  pose proof (NextData_origin (fq_prev fq)) as Hp. unfold Origin in Hp.
  destruct (NextData (fq_prev fq)) as [[d|e|w] p] eqn:E; cbn in *; try done.
  destruct (ParseFrames d); cbn; try done. case_goal; cbn; try done.
  unfold fq_prune. by destruct (pruneFrameQueue _).
Qed.

#[export] Instance FrameQueue_stable `{!NextDataStable P} : NextFrameStable (FrameQueue P).
Proof.
  intros fq. cbn. unfold FrameQueue_NextFrame.
  pose proof (loadNextFrames_origin fq) as Hl.
  destruct (fq_frames fq) as [|f fs] eqn:E; cbn.
  - destruct (loadNextFrames fq) as [[[]|e|w] fq'] eqn:El; cbn in *; try done.
    by destruct (fq_frames fq').
  - by rewrite E.
Qed.

Lemma loadNextFrames_frames fq fq' :
  loadNextFrames fq = (Ok (), fq') →
  fq_frames fq' = fq_frames fq ∨
  ∃ data frames, (NextData (fq_prev fq)).1 = Ok data ∧ ParseFrames data = Ok frames ∧
    fq_frames fq' =
    if IsHolocene (fq_cfg fq) (l1_Time (Origin fq')) then prune_spec (fq_frames fq ++ frames)
    else fq_frames fq ++ frames.
Proof.
  unfold loadNextFrames, Origin, FrameQueue_origin.
  destruct (NextData (fq_prev fq)) as [[d|e|w] p] eqn:E; cbn; try done.
  destruct (ParseFrames d) as [frames| |] eqn:Ep; cbn; try done.
  - unfold fq_prune. rewrite pruneFrameQueue_prune_spec. intros Hl. right. exists d, frames.
    split_and!; [done..|]. revert Hl. case_goal; intros [= <-]; cbn; by rewrite ?E0.
  - intros [= <-]. by left.
Qed.

Lemma parsed_typed data frames : ParseFrames data = Ok frames → Forall Frame_wf frames.
Proof.
  by intros (_ & Hwf & _)%ParseFrames_accepts.
Qed.

Lemma loadNextFrames_typed fq fq' :
  loadNextFrames fq = (Ok (), fq') → Forall Frame_wf (fq_frames fq) →
  Forall Frame_wf (fq_frames fq').
Proof.
  intros [->|(d & fs & _ & Hfs%parsed_typed & ->)]%loadNextFrames_frames Hq; [done|].
  assert (Forall Frame_wf (fq_frames fq ++ fs)) by by apply Forall_app.
  case_goal; [|done]. apply Forall_forall. intros f Hf. eapply Forall_forall; [done|].
  by eapply sublist_subseteq; [apply prune_spec_sublist|].
Qed.

Lemma loadNextFrames_err fq e fq' :
  (loadNextFrames fq).1 = Err e → (loadNextFrames fq).2 = fq' → fq_frames fq' = fq_frames fq.
Proof.
  unfold loadNextFrames. destruct (NextData (fq_prev fq)) as [[d|?|w] p]; cbn; try by intros _ <-.
  destruct (ParseFrames d); cbn; try done. case_goal; cbn; [|done].
  unfold fq_prune. by rewrite pruneFrameQueue_prune_spec.
Qed.

Lemma loadNextFrames_panic fq w :
  (loadNextFrames fq).1 = Panic w → fq_frames (loadNextFrames fq).2 = fq_frames fq.
Proof.
  unfold loadNextFrames. destruct (NextData (fq_prev fq)) as [[d|?|v] p]; cbn; try done.
  destruct (ParseFrames d); cbn; try done. case_goal; cbn; [|done].
  unfold fq_prune. by rewrite pruneFrameQueue_prune_spec.
Qed.

(** The two ways a queue changes: nothing new, or a successful load; then the
    head is taken. *)
Lemma NextFrame_cases fq :
  let '(r, fq') := FrameQueue_NextFrame fq in
  (∃ fq1 f, (fq1 = fq ∨ loadNextFrames fq = (Ok (), fq1)) ∧
     fq_frames fq1 = f :: fq_frames fq' ∧ r = Ok f) ∨
  (fq_frames fq' = [] ∧ ∀ f, r ≠ Ok f).
Proof.
  unfold FrameQueue_NextFrame. destruct (fq_frames fq) as [|f fs] eqn:E; cbn.
  - destruct (loadNextFrames fq) as [[[]|e|w] fq'] eqn:El.
    + destruct (fq_frames fq') as [|f fs] eqn:E'; [right; by rewrite E'|].
      left. exists fq', f. by eauto.
    + right. split; [|done]. rewrite <- E. eapply loadNextFrames_err; by rewrite El.
    + right. split; [|done]. rewrite <- E. pose proof (loadNextFrames_panic fq w) as Hp.
      rewrite El in Hp. by apply Hp.
  - rewrite E. left. exists fq, f. eauto.
Qed.

Lemma NextFrame_keeps_typed fq :
  Forall Frame_wf (fq_frames fq) →
  Forall Frame_wf (fq_frames (FrameQueue_NextFrame fq).2) ∧
  ∀ f, (FrameQueue_NextFrame fq).1 = Ok f → Frame_wf f.
Proof.
  intros Hq. pose proof (NextFrame_cases fq) as Hc.
  destruct (FrameQueue_NextFrame fq) as [r fq']; cbn.
  destruct Hc as [(fq1 & f & H1 & Hf & ->)|[-> Hr]]; [|split; [done|naive_solver]].
  assert (H2 : Forall Frame_wf (fq_frames fq1)) by
    (destruct H1 as [->|H1]; [done|by eapply loadNextFrames_typed]).
  rewrite Hf in H2. apply Forall_cons in H2. naive_solver.
Qed.

#[export] Instance FrameQueue_typed : NextFrameTyped (FrameQueue P) := {
  frames_typed fq := Forall Frame_wf (fq_frames fq);
  NextFrame_typed fq Hq := proj1 (NextFrame_keeps_typed fq Hq);
  NextFrame_frame fq f Hq := proj2 (NextFrame_keeps_typed fq Hq) f;
}.

Lemma encode_frames_length fs :
  Forall Frame_wf fs → (length fs ≤ length (encode_frames fs))%nat.
Proof.
  induction 1 as [|f fs [Hf _] Hfs IH]; cbn; [done|]. rewrite length_app.
  pose proof (length_MarshalBinary f Hf). unfold encode_frames in *. lia.
Qed.

Lemma loadNextFrames_left `{!NextDataFinite P} fq fq' :
  loadNextFrames fq = (Ok (), fq') → fq_frames fq = [] →
  (length (fq_frames fq') + data_left (fq_prev fq') < data_left (fq_prev fq))%nat
  ∨ fq_frames fq' = [].
Proof.
  intros Hload E. apply loadNextFrames_frames in Hload as Hf. destruct Hf as [Hf|(d & fs & Hd & Hp & Hf)];
    [right; congruence|left].
  assert (Hprev : fq_prev fq' = (NextData (fq_prev fq)).2).
  { revert Hload. unfold loadNextFrames. destruct (NextData (fq_prev fq)) as [r p]. cbn in Hd. subst r.
    rewrite Hp. unfold fq_prune. rewrite pruneFrameQueue_prune_spec. cbn. case_goal; by intros [= <-]. }
  pose proof (NextData_left (fq_prev fq) d Hd) as Hleft. rewrite Hprev.
  assert (length (fq_frames fq') ≤ length fs)%nat.
  { rewrite Hf, E. cbn [app]. case_goal; [|done]. apply sublist_length, prune_spec_sublist. }
  apply ParseFrames_accepts in Hp as (_ & Hwf & ->). cbn in Hleft.
  pose proof (encode_frames_length fs Hwf). lia.
Qed.

#[export] Instance FrameQueue_finite `{!NextDataFinite P} : NextFrameFinite (FrameQueue P).
Proof.
  refine {| frames_left fq := (length (fq_frames fq) + data_left (fq_prev fq))%nat |}.
  intros fq f. cbn. unfold FrameQueue_NextFrame. destruct (fq_frames fq) as [|g fs] eqn:E; cbn.
  - destruct (loadNextFrames fq) as [[[]|e|w] fq'] eqn:El; cbn; try done.
    destruct (loadNextFrames_left fq fq' El E) as [Hl|Hl]; [|by rewrite Hl].
    destruct (fq_frames fq'); [done|]. intros _. cbn in *. lia.
  - rewrite E. cbn. lia.
Defined.

(** Every two neighbours in the queue follow the Holocene rules. *)
Definition queue_ok (fs : list Frame) : Prop :=
  ∀ i a b, fs !! i = Some a → fs !! S i = Some b → adjacent_ok a b.

(** from Holocene on, the queue only ever holds contiguous frames: pulling a
    frame keeps the order rules, and the frame handed out is the one that
    precedes the rest of the queue. *)
Theorem NextFrame_holocene_order `{!NextDataStable P} fq :
  IsHolocene (fq_cfg fq) (l1_Time (Origin fq)) = true → queue_ok (fq_frames fq) →
  let '(r, fq') := FrameQueue_NextFrame fq in
  queue_ok (fq_frames fq') ∧
  ∀ f, r = Ok f → queue_ok (f :: fq_frames fq').
Proof.
  intros Hh Hq. pose proof (NextFrame_cases fq) as Hc.
  destruct (FrameQueue_NextFrame fq) as [r fq'].
  destruct Hc as [(fq1 & f & H1 & Hf & ->)|[-> Hr]]; [|split; [done|naive_solver]].
  assert (H2 : queue_ok (fq_frames fq1)).
  { destruct H1 as [->|H1]; [done|]. pose proof (loadNextFrames_origin fq) as Ho.
    rewrite H1 in Ho. cbn in Ho.
    apply loadNextFrames_frames in H1 as [->|(d & fs & _ & _ & ->)]; [done|].
    rewrite Ho, Hh. intros i a b. apply prune_spec_adjacent. }
  rewrite Hf in H2. split; [|naive_solver].
  intros i a b Ha Hb. by apply (H2 (S i) a b).
Qed.
End stage.

(** A previous stage that has one transaction to offer. *)
Module OneShot.
Record src := mk { data : list bytes; blk : L1BlockRef }.
#[global] Instance src_provider : NextDataProvider src := {
  ndp_origin := blk;
  NextData s := match data s with
                | [] => (Err io_EOF, s)
                | d :: ds => (Ok d, mk ds (blk s))
                end }.
#[global] Instance src_stable : NextDataStable src.
Proof. intros [[|d ds] b]; reflexivity. Qed.

Definition id (b : byte) : ChannelID := replicate 16 b.
Definition fr (i : byte) (n : Z) (last : bool) : Frame := mkFrame (id i) n [xff] last.
(** An unclosed channel, then a complete one. *)
Definition fs : list Frame := [fr x01 0 false; fr x02 0 false; fr x02 1 true; fr x02 5 false].
Definition src0 : src := mk [DerivationVersion0 :: encode_frames fs] zeroL1.
End OneShot.

Lemma NextFrame_holocene_order_witness :
  let fq' := mkFrameQueue [OneShot.fr x02 1 true] (OneShot.mk [] zeroL1) ExampleConfig.cfg in
  FrameQueue_NextFrame (NewFrameQueue ExampleConfig.cfg OneShot.src0)
  = (Ok (OneShot.fr x02 0 false), fq') ∧
  queue_ok [OneShot.fr x02 0 false; OneShot.fr x02 1 true].
Proof.
  pose proof (NextFrame_holocene_order (NewFrameQueue ExampleConfig.cfg OneShot.src0)) as H.
  assert (E : FrameQueue_NextFrame (NewFrameQueue ExampleConfig.cfg OneShot.src0)
    = (Ok (OneShot.fr x02 0 false),
       mkFrameQueue [OneShot.fr x02 1 true] (OneShot.mk [] zeroL1) ExampleConfig.cfg))
    by (vm_compute; reflexivity).
  rewrite E in H. split; [exact E|].
  apply H; [vm_compute; reflexivity | intros i a b [=] | reflexivity].
Defined.
