(* ===== verification/ChannelBank.v ===== *)
(** * The channel bank

    Models [op-node/rollup/derive/channel_bank.go], the pre-Holocene channel
    stage: it buffers channels by id, keeps them in the order they were opened,
    hands out complete channels and drops the oldest ones when the buffer grows
    too large. *)

From S2P Require Import Prelude GoBytes Errors Eth RollupConfig ChainSpec Frame Channel Stages.

Record ChannelBank (P : Type) := mkChannelBank {
  cb_spec : ChainSpec;
  cb_channels : gmap ChannelID Channel;
  cb_channelQueue : list ChannelID;
  cb_prev : P }.
Arguments mkChannelBank {P}.
Arguments cb_spec {P}.
Arguments cb_channels {P}.
Arguments cb_channelQueue {P}.
Arguments cb_prev {P}.

(** The time-out test that the bank and the assembler share. *)
Definition channel_timedOut (spec : ChainSpec) (origin : L1BlockRef) (ch : Channel) : bool :=
  (OpenBlockNumber ch +₆₄ ChannelTimeout spec (l1_Time origin)) <? l1_Number origin.

(** The accumulated [uint64] size; addition commutes, so the order in which the
    map is iterated is irrelevant. *)
Definition total_size (chs : gmap ChannelID Channel) : Z :=
  map_fold (λ _ ch s, s +₆₄ ch_size ch) 0 chs.

(** The loop of [prune]: an empty queue or a dangling id would be a panic. *)
Fixpoint prune_channels (max total : Z) (queue : list ChannelID) (chs : gmap ChannelID Channel)
    : Res (list ChannelID * gmap ChannelID Channel) :=
  if max <? total then
    match queue with
    | [] => Panic "index out of range"
    | id :: queue =>
      match chs !! id with
      | None => Panic "nil channel"
      | Some ch => prune_channels max (total -₆₄ ch_size ch) queue (delete id chs)
      end
    end
  else Ok (queue, chs).

Section bank.
Context {P : Type} `{NextFrameProvider P}.

Definition NewChannelBank (spec : ChainSpec) (prev : P) : ChannelBank P :=
  mkChannelBank spec ∅ [] prev.

#[export] Instance ChannelBank_origin : HasOrigin (ChannelBank P) := λ cb, Origin (cb_prev cb).

Definition cb_set (chs : gmap ChannelID Channel) (q : list ChannelID) (cb : ChannelBank P)
  : ChannelBank P := mkChannelBank (cb_spec cb) chs q (cb_prev cb).
Definition cb_set_prev (p : P) (cb : ChannelBank P) : ChannelBank P :=
  mkChannelBank (cb_spec cb) (cb_channels cb) (cb_channelQueue cb) p.

Definition cb_prune (cb : ChannelBank P) : Res unit * ChannelBank P :=
  match prune_channels (MaxChannelBankSize (cb_spec cb) (l1_Time (Origin cb)))
          (total_size (cb_channels cb)) (cb_channelQueue cb) (cb_channels cb) with
  | Ok (q, chs) => (Ok (), cb_set chs q cb)
  | Err e => (Err e, cb)
  | Panic w => (Panic w, cb)
  end.

(** The channel of the frame, opened on demand. *)
Definition open_channel (cb : ChannelBank P) (id : ChannelID) : Channel * ChannelBank P :=
  match cb_channels cb !! id with
  | Some ch => (ch, cb)
  | None =>
    let ch := NewChannel id (Origin cb) false in
    (ch, cb_set (<[id := ch]> (cb_channels cb)) (cb_channelQueue cb ++ [id]) cb)
  end.

(** A timed out channel or a rejected frame only leaves a log line. *)
Definition IngestFrame (cb : ChannelBank P) (f : Frame) : Res unit * ChannelBank P :=
  let origin := Origin cb in
  let '(currentCh, cb) := open_channel cb (f_ID f) in
  if channel_timedOut (cb_spec cb) origin currentCh then (Ok (), cb)
  else
    match AddFrame currentCh f origin with
    | (Ok (), ch) => cb_prune (cb_set (<[f_ID f := ch]> (cb_channels cb)) (cb_channelQueue cb) cb)
    | (Err _, _) => (Ok (), cb)
    | (Panic w, _) => (Panic w, cb)
    end.

Definition tryReadChannelAtIndex (cb : ChannelBank P) (i : nat) : Res bytes * ChannelBank P :=
  match cb_channelQueue cb !! i with
  | None => (Panic "index out of range", cb)
  | Some chanID =>
    match cb_channels cb !! chanID with
    | None => (Panic "nil channel", cb)
    | Some ch =>
      if channel_timedOut (cb_spec cb) (Origin cb) ch || negb (IsReady ch) then (Err io_EOF, cb)
      else (Reader ch,
            cb_set (delete chanID (cb_channels cb)) (delete i (cb_channelQueue cb)) cb)
    end
  end.

(** The scan of the queue since Canyon, from index [i] on. *)
Fixpoint read_loop (n i : nat) (cb : ChannelBank P) : Res bytes * ChannelBank P :=
  match n with
  | O => (Err io_EOF, cb)
  | S n =>
    match tryReadChannelAtIndex cb i with
    | (Err _, cb) => read_loop n (S i) cb
    | r => r
    end
  end.

(** [nil, nil] for a timed out channel is an empty read. *)
Definition Read (cb : ChannelBank P) : Res bytes * ChannelBank P :=
  match cb_channelQueue cb with
  | [] => (Err io_EOF, cb)
  | first :: rest =>
    match cb_channels cb !! first with
    | None => (Panic "nil channel", cb)
    | Some ch =>
      if channel_timedOut (cb_spec cb) (Origin cb) ch
      then (Ok [], cb_set (delete first (cb_channels cb)) rest cb)
      else if negb (spec_IsCanyon (cb_spec cb) (l1_Time (Origin cb)))
      then tryReadChannelAtIndex cb 0
      else read_loop (length (cb_channelQueue cb)) 0 cb
    end
  end.

Definition ChannelBank_NextRawChannel (cb : ChannelBank P) : Res bytes * ChannelBank P :=
  match Read cb with
  | (Ok data, cb) => (Ok data, cb)
  | (Panic w, cb) => (Panic w, cb)
  | (Err e, cb) =>
    if negb (is_EOF e) then (Err e, cb)
    else
      let '(r, prev) := NextFrame (cb_prev cb) in
      let cb := cb_set_prev prev cb in
      match r with
      | Err e => (Err e, cb)
      | Panic w => (Panic w, cb)
      | Ok frame =>
        match IngestFrame cb frame with
        | (Ok (), cb) => (Err NotEnoughData, cb)
        | (Err e, cb) => (Err e, cb)
        | (Panic w, cb) => (Panic w, cb)
        end
      end
  end.

#[export] Instance ChannelBank_Reset : ResettableStage (ChannelBank P) :=
  λ cb _ _, (Err io_EOF, cb_set ∅ [] cb).
#[export] Instance ChannelBank_FlushChannel : ChannelFlusher (ChannelBank P) :=
  λ cb, (Panic "ChannelBank: invalid FlushChannel call", cb).

#[export] Instance ChannelBank_provider : RawChannelProvider (ChannelBank P) := {
  NextRawChannel := ChannelBank_NextRawChannel }.
End bank.

(** ** Sizes *)

Definition sum_ch_sizes (chs : gmap ChannelID Channel) : Z :=
  map_fold (λ _ ch s, s + ch_size ch) 0 chs.

Lemma sum_ch_sizes_insert chs i ch :
  chs !! i = None → sum_ch_sizes (<[i := ch]> chs) = sum_ch_sizes chs + ch_size ch.
Proof. intros Hi. unfold sum_ch_sizes. rewrite map_fold_insert_L; [lia|lia|done]. Qed.

Lemma sum_ch_sizes_delete chs i ch :
  chs !! i = Some ch → sum_ch_sizes chs = sum_ch_sizes (delete i chs) + ch_size ch.
Proof.
  intros Hi. rewrite <- (insert_delete_id chs i ch Hi) at 1.
  apply sum_ch_sizes_insert, lookup_delete_eq.
Qed.

Lemma total_size_spec chs : total_size chs = wrap64 (sum_ch_sizes chs).
Proof.
  unfold total_size. induction chs as [|i ch chs Hi IH] using map_ind; [done|].
  rewrite map_fold_insert_L, IH, sum_ch_sizes_insert; [|done| |done].
  - unfold wrap. by rewrite Zplus_mod_idemp_l.
  - intros. unfold wrap. rewrite !Zplus_mod_idemp_l. f_equal. lia.
Qed.

(** The queue lists every buffered channel once. *)
Definition indexes (queue : list ChannelID) (chs : gmap ChannelID Channel) : Prop :=
  NoDup queue ∧ ∀ id, id ∈ queue ↔ is_Some (chs !! id).

Lemma indexes_tail id queue chs :
  indexes (id :: queue) chs → indexes queue (delete id chs).
Proof.
  intros [[Hnew Hnd]%NoDup_cons Hdom]. split; [done|]. intros id'.
  rewrite lookup_delete_is_Some, <- Hdom. set_solver.
Qed.

Lemma indexes_delete i id queue chs :
  indexes queue chs → queue !! i = Some id → indexes (delete i queue) (delete id chs).
Proof.
  intros [Hnd Hdom] Hi. pose proof (delete_Permutation queue i id Hi) as Hp.
  apply indexes_tail. split; [by rewrite <- Hp|]. intros id'. by rewrite <- Hp.
Qed.

(** The same sum, in the order of the queue. *)
Fixpoint queue_size (chs : gmap ChannelID Channel) (queue : list ChannelID) : Z :=
  match queue with
  | [] => 0
  | id :: queue => default 0 (ch_size <$> chs !! id) + queue_size chs queue
  end.

Lemma queue_size_delete chs id queue :
  id ∉ queue → queue_size (delete id chs) queue = queue_size chs queue.
Proof.
  induction queue as [|id' queue IH]; cbn; [done|]. intros Hin.
  rewrite lookup_delete_ne, IH by set_solver. done.
Qed.

Lemma queue_size_sum queue chs : indexes queue chs → queue_size chs queue = sum_ch_sizes chs.
Proof.
  revert chs. induction queue as [|id queue IH]; intros chs Hix.
  - assert (chs = ∅) as ->; [|done]. apply map_empty. intros id. apply eq_None_not_Some.
    rewrite <- (proj2 Hix). set_solver.
  - pose proof (indexes_tail _ _ _ Hix) as Hix'. destruct Hix as [[Hnew Hnd]%NoDup_cons Hdom].
    destruct (proj1 (Hdom id)) as [ch Hch]; [set_solver|]. cbn. rewrite Hch. cbn.
    rewrite (sum_ch_sizes_delete _ _ _ Hch), <- (IH _ Hix').
    rewrite queue_size_delete by done. lia.
Qed.

(** Pruning drops the shortest prefix of the queue that makes the rest fit. *)
Lemma prune_channels_spec max queue chs :
  0 ≤ max → indexes queue chs → (∀ id ch, chs !! id = Some ch → 0 ≤ ch_size ch) →
  0 ≤ sum_ch_sizes chs < 2 ^ 64 →
  ∃ n chs', prune_channels max (wrap64 (sum_ch_sizes chs)) queue chs = Ok (drop n queue, chs')
    ∧ indexes (drop n queue) chs' ∧ chs' ⊆ chs ∧ 0 ≤ sum_ch_sizes chs' ≤ max
    ∧ ∀ m, (m < n)%nat → max < queue_size chs (drop m queue).
Proof.
  intros Hmax. revert chs. induction queue as [|id queue IH]; intros chs Hix Hpos Hsum;
    cbn [prune_channels]; rewrite wrap_small by done.
  - assert (sum_ch_sizes chs = 0) as -> by by rewrite <- (queue_size_sum [] chs Hix).
    assert (max <? 0 = false) as -> by (apply Z.ltb_ge; lia).
    exists 0%nat, chs. split_and!; try done; try lia.
    by rewrite <- (queue_size_sum [] chs Hix).
  - destruct (Z.ltb_spec max (sum_ch_sizes chs)) as [Hlt|Hle].
    + pose proof (queue_size_sum _ _ Hix) as Hqs.
      pose proof (indexes_tail _ _ _ Hix) as Hix'. destruct Hix as [[Hnew Hnd]%NoDup_cons Hdom].
      destruct (proj1 (Hdom id)) as [ch Hch]; [set_solver|]. rewrite Hch.
      pose proof (sum_ch_sizes_delete _ _ _ Hch) as Hd. pose proof (Hpos _ _ Hch) as Hc.
      replace (sum_ch_sizes chs - ch_size ch) with (sum_ch_sizes (delete id chs)) by lia.
      assert (Hs' : 0 ≤ sum_ch_sizes (delete id chs)).
      { rewrite <- (queue_size_sum _ _ Hix'). clear -Hpos. induction queue as [|i q IH]; [done|].
        cbn. destruct (delete id chs !! i) eqn:E; cbn; [|done].
        apply lookup_delete_Some in E as [_ E]. apply Hpos in E. lia. }
      destruct (IH (delete id chs)) as (n & chs' & -> & Hix2 & Hsub & Hsz & Hmin); [done| |lia|].
      { intros i c [_ Hi]%lookup_delete_Some. by eapply Hpos. }
      exists (S n), chs'. split_and!; try done; try lia.
      { etrans; [done|apply delete_subseteq]. }
      intros [|m] Hm; cbn [drop]; [lia|]. rewrite <- (queue_size_delete _ id); [apply Hmin; lia|].
      intros Hin. apply Hnew. rewrite <- (take_drop m queue). set_solver.
    + exists 0%nat, chs. split_and!; try done; lia.
Qed.

(** ** Invariant *)

Section properties.
Context {P : Type} `{NextFrameProvider P}.
Implicit Type cb : ChannelBank P.

Record ChannelBank_inv cb : Prop := {
  cbi_index : indexes (cb_channelQueue cb) (cb_channels cb);
  cbi_channel id ch : cb_channels cb !! id = Some ch →
    Channel_inv ch ∧ ch_id ch = id ∧ ch_requireInOrder ch = false;
  (* the buffered data stays within the limit of the chain specification *)
  cbi_size : sum_ch_sizes (cb_channels cb) ≤ MaxChannelBankSize (cb_spec cb) (l1_Time (Origin cb));
}.

Lemma ChannelBank_new_inv spec p : ChannelBank_inv (NewChannelBank spec p).
Proof.
  constructor; cbn; [|done|].
  - split; [constructor|]. intros id. rewrite lookup_empty. split; [set_solver|by intros [? ?]].
  - unfold sum_ch_sizes, MaxChannelBankSize. rewrite map_fold_empty. by case_goal.
Qed.

Lemma MaxChannelBankSize_pos s t : 0 ≤ MaxChannelBankSize s t ≤ maxChannelBankSizeFjord.
Proof. unfold MaxChannelBankSize. by case_goal. Qed.

Lemma sum_ch_sizes_nonneg chs :
  (∀ id ch, chs !! id = Some ch → 0 ≤ ch_size ch) → 0 ≤ sum_ch_sizes chs.
Proof.
  induction chs as [|i ch chs Hi IH] using map_ind; intros Hpos; [done|].
  rewrite sum_ch_sizes_insert by done.
  assert (0 ≤ ch_size ch) by (eapply Hpos, lookup_insert_eq).
  assert (0 ≤ sum_ch_sizes chs); [|lia]. apply IH. intros id c Hc. eapply (Hpos id).
  rewrite lookup_insert_ne; [done|]. naive_solver.
Qed.

Lemma inv_nonneg cb id ch :
  ChannelBank_inv cb → cb_channels cb !! id = Some ch → 0 ≤ ch_size ch.
Proof.
  intros [_ Hc _] [Hi _]%Hc. apply Channel_size_u64 in Hi. by destruct Hi.
Qed.

(** Removing channels keeps the invariant. *)
Lemma ChannelBank_inv_sub cb q chs :
  ChannelBank_inv cb → indexes q chs → chs ⊆ cb_channels cb → ChannelBank_inv (cb_set chs q cb).
Proof.
  intros Hinv Hix Hsub. constructor; cbn; [done| |].
  - intros id ch Hch. eapply cbi_channel, lookup_weaken; done.
  - etrans; [|apply (cbi_size _ Hinv)].
    assert (Hm : ∀ chs' : gmap ChannelID Channel, chs ⊆ chs' →
      (∀ id ch, chs' !! id = Some ch → 0 ≤ ch_size ch) → sum_ch_sizes chs ≤ sum_ch_sizes chs').
    { clear. induction chs as [|i ch chs Hi IH] using map_ind; intros chs' Hsub Hpos.
      - by apply sum_ch_sizes_nonneg.
      - rewrite sum_ch_sizes_insert by done.
        assert (Hch : chs' !! i = Some ch) by (eapply lookup_weaken; [apply lookup_insert_eq|done]).
        rewrite (sum_ch_sizes_delete _ _ _ Hch).
        assert (sum_ch_sizes chs ≤ sum_ch_sizes (delete i chs')); [|lia]. apply IH.
        + apply map_subseteq_spec. intros j c Hj. rewrite lookup_delete_ne by naive_solver.
          eapply lookup_weaken; [|done]. rewrite lookup_insert_ne by naive_solver. done.
        + intros j c [_ Hj]%lookup_delete_Some. by eapply Hpos. }
    apply Hm; [done|]. intros. by eapply inv_nonneg.
Qed.

(** *** Ingesting *)

Lemma open_channel_inv cb id :
  ChannelBank_inv cb → let '(ch, cb') := open_channel cb id in
  ChannelBank_inv cb' ∧ cb_channels cb' !! id = Some ch ∧
  cb_spec cb' = cb_spec cb ∧ cb_prev cb' = cb_prev cb.
Proof.
  intros Hinv. unfold open_channel. destruct (cb_channels cb !! id) as [ch|] eqn:E; [done|].
  destruct Hinv as [[Hnd Hdom] Hc Hsz]. split_and!; cbn; [|by rewrite lookup_insert_eq|done..].
  assert (Hid : id ∉ cb_channelQueue cb) by (rewrite Hdom, E; by intros [? ?]).
  constructor; cbn.
  - split; [apply NoDup_app; split_and!; [done|set_solver|apply NoDup_singleton]|].
    intros id'. rewrite lookup_insert_is_Some', elem_of_app, list_elem_of_singleton, Hdom. naive_solver.
  - intros i c [[<- <-]|[_ Hi]]%lookup_insert_Some; [|by apply Hc].
    split_and!; [apply NewChannel_inv|done..].
  - rewrite sum_ch_sizes_insert by done. cbn. by rewrite Z.add_0_r.
Qed.

Lemma cb_prune_inv cb :
  indexes (cb_channelQueue cb) (cb_channels cb) →
  (∀ id ch, cb_channels cb !! id = Some ch →
    Channel_inv ch ∧ ch_id ch = id ∧ ch_requireInOrder ch = false) →
  sum_ch_sizes (cb_channels cb) < 2 ^ 64 →
  (cb_prune cb).1 = Ok () ∧ ChannelBank_inv (cb_prune cb).2 ∧
  ∃ n, cb_channelQueue (cb_prune cb).2 = drop n (cb_channelQueue cb).
Proof.
  intros Hix Hc Hlt. unfold cb_prune. rewrite total_size_spec.
  assert (Hpos : ∀ id ch, cb_channels cb !! id = Some ch → 0 ≤ ch_size ch).
  { intros id ch [Hi _]%Hc. apply Channel_size_u64 in Hi. by destruct Hi. }
  destruct (prune_channels_spec (MaxChannelBankSize (cb_spec cb) (l1_Time (Origin cb)))
    (cb_channelQueue cb) (cb_channels cb)) as (n & chs' & -> & Hix' & Hsub & Hsz & _);
    [apply MaxChannelBankSize_pos|done..| |].
  { split; [by apply sum_ch_sizes_nonneg|done]. }
  split_and!; [done| |by exists n]. constructor; cbn; [done| |apply Hsz].
  intros id ch Hch. eapply Hc, lookup_weaken; done.
Qed.

Lemma cb_prune_prev cb : cb_prev (cb_prune cb).2 = cb_prev cb.
Proof. unfold cb_prune. by destruct (prune_channels _ _ _ _) as [[? ?]| |]. Qed.

(** The bank with the updated channel in place still indexes its channels. *)
Lemma indexes_insert queue chs id ch ch0 :
  indexes queue chs → chs !! id = Some ch0 → indexes queue (<[id := ch]> chs).
Proof.
  intros [Hnd Hdom] Hid. split; [done|]. intros id'. rewrite Hdom, lookup_insert_is_Some'.
  naive_solver.
Qed.

Lemma IngestFrame_ok cb f :
  ChannelBank_inv cb → Frame_wf f →
  (IngestFrame cb f).1 = Ok () ∧ ChannelBank_inv (IngestFrame cb f).2.
Proof.
  intros Hinv Hf. unfold IngestFrame.
  pose proof (open_channel_inv cb (f_ID f) Hinv) as Ho.
  destruct (open_channel cb (f_ID f)) as [ch cb1].
  destruct Ho as (Hinv1 & Hch & _ & _). case_goal; [done|].
  unfold AddFrame. destruct (AddFrame_check ch f) as [[]| |] eqn:Ec; [|done|].
  2: { unfold AddFrame_check in Ec. by repeat case_in Ec. }
  destruct (cbi_channel _ Hinv1 _ _ Hch) as (Hci & Hid & Hord).
  pose proof (sum_ch_sizes_delete _ _ _ Hch) as Hd.
  assert (Hrest : 0 ≤ sum_ch_sizes (delete (f_ID f) (cb_channels cb1))).
  { apply sum_ch_sizes_nonneg. intros i c [_ Hi]%lookup_delete_Some. by eapply inv_nonneg. }
  pose proof (cbi_size _ Hinv1) as Hsz.
  pose proof (MaxChannelBankSize_pos (cb_spec cb1) (l1_Time (Origin cb1))) as Hmax.
  pose proof (frameSize_wf f Hf) as Hfs. destruct Hf as [Hty Hlen].
  unfold MaxFrameLen, frameOverhead, maxChannelBankSizeFjord in *.
  destruct (AddFrame_apply_size ch f (Origin cb) Hci) as [Hle _]; [done|done|lia|].
  edestruct cb_prune_inv as (H1 & H2 & _); [..|split; [exact H1|exact H2]]; cbn.
  - eapply indexes_insert, Hch. apply Hinv1.
  - intros i c [[<- <-]|[_ Hi]]%lookup_insert_Some; [|by eapply cbi_channel].
    split_and!; [by apply AddFrame_apply_inv|done..].
  - rewrite <- insert_delete_eq, sum_ch_sizes_insert by apply lookup_delete_eq. lia.
Qed.

(** adding a frame to the channel bank never panics, keeps the queue and the
    channel map in step, keeps every channel consistent, and leaves the total
    buffered size within the limit of the chain specification. *)
Theorem IngestFrame_preserves_inv cb f :
  ChannelBank_inv cb → Frame_wf f →
  (IngestFrame cb f).1 = Ok () ∧ ChannelBank_inv (IngestFrame cb f).2 ∧
  total_size (cb_channels (IngestFrame cb f).2)
    ≤ MaxChannelBankSize (cb_spec (IngestFrame cb f).2) (l1_Time (Origin (IngestFrame cb f).2)).
Proof.
  intros Hinv Hf. destruct (IngestFrame_ok cb f Hinv Hf) as [Hok Hinv'].
  split_and!; [done..|]. rewrite total_size_spec. etrans; [|apply Hinv'].
  apply Z.mod_le; [|done]. apply sum_ch_sizes_nonneg. intros. by eapply inv_nonneg.
Qed.

(** *** Reading *)

(** The channel at a position of the queue that can be handed out. *)
Definition readable cb (i : nat) (id : ChannelID) (ch : Channel) : Prop :=
  cb_channelQueue cb !! i = Some id ∧ cb_channels cb !! id = Some ch ∧
  channel_timedOut (cb_spec cb) (Origin cb) ch = false ∧ IsReady ch = true.
Definition remove_at cb (i : nat) (id : ChannelID) : ChannelBank P :=
  cb_set (delete id (cb_channels cb)) (delete i (cb_channelQueue cb)) cb.

Lemma queue_lookup cb i :
  ChannelBank_inv cb → (i < length (cb_channelQueue cb))%nat →
  ∃ id ch, cb_channelQueue cb !! i = Some id ∧ cb_channels cb !! id = Some ch.
Proof.
  intros Hinv [id Hid]%lookup_lt_is_Some_2.
  destruct (proj1 (proj2 (cbi_index _ Hinv) id)) as [ch Hch]; [by eapply list_elem_of_lookup_2|].
  eauto.
Qed.

Lemma tryRead_spec cb i :
  ChannelBank_inv cb → (i < length (cb_channelQueue cb))%nat →
  (∃ id ch, readable cb i id ch ∧
    tryReadChannelAtIndex cb i = (Ok (mjoin (f_Data <$> frames_of ch)), remove_at cb i id))
  ∨ ((∀ id ch, ¬ readable cb i id ch) ∧ tryReadChannelAtIndex cb i = (Err io_EOF, cb)).
Proof.
  intros Hinv Hi. destruct (queue_lookup cb i Hinv Hi) as (id & ch & Hid & Hch).
  unfold tryReadChannelAtIndex. rewrite Hid, Hch.
  destruct (channel_timedOut _ _ ch) eqn:Et; cbn.
  { right. split; [|done]. intros ? ? (? & ? & ? & ?). naive_solver congruence. }
  destruct (IsReady ch) eqn:Er; cbn.
  - left. exists id, ch. split; [done|]. by rewrite Reader_frames_of.
  - right. split; [|done]. intros ? ? (? & ? & ? & ?). naive_solver congruence.
Qed.

Lemma read_loop_spec cb n i :
  ChannelBank_inv cb → (n + i = length (cb_channelQueue cb))%nat →
  (∃ j id ch, (i ≤ j)%nat ∧ readable cb j id ch ∧
    (∀ k id' ch', (i ≤ k < j)%nat → ¬ readable cb k id' ch') ∧
    read_loop n i cb = (Ok (mjoin (f_Data <$> frames_of ch)), remove_at cb j id))
  ∨ ((∀ k id ch, (i ≤ k)%nat → ¬ readable cb k id ch) ∧ read_loop n i cb = (Err io_EOF, cb)).
Proof.
  intros Hinv. revert i. induction n as [|n IH]; intros i Hn; cbn [read_loop].
  { right. split; [|done]. intros k id ch Hk [Hq%lookup_lt_Some _]. lia. }
  destruct (tryRead_spec cb i Hinv) as [(id & ch & Hr & ->)|[Hno ->]]; [lia|..].
  - left. exists i, id, ch. split_and!; try done; lia.
  - destruct (IH (S i)) as [(j & id & ch & Hj & Hr & Hmin & ->)|[Hall ->]]; [lia|..].
    + left. exists j, id, ch. split_and!; try done; [lia|]. intros k id' ch' Hk.
      destruct (decide (k = i)) as [->|]; [done|]. apply Hmin. lia.
    + right. split; [|done]. intros k id ch Hk.
      destruct (decide (k = i)) as [->|]; [done|]. apply Hall. lia.
Qed.

(** The outcomes of a read. *)
Inductive read_outcome cb : Res bytes * ChannelBank P → Prop :=
| read_empty : cb_channelQueue cb = [] → read_outcome cb (Err io_EOF, cb)
| read_timeout first rest ch :
    cb_channelQueue cb = first :: rest → cb_channels cb !! first = Some ch →
    channel_timedOut (cb_spec cb) (Origin cb) ch = true →
    read_outcome cb (Ok [], remove_at cb 0 first)
| read_channel i id ch :
    readable cb i id ch →
    (∀ j id' ch', (j < i)%nat → ¬ readable cb j id' ch') →
    (spec_IsCanyon (cb_spec cb) (l1_Time (Origin cb)) = false → i = 0%nat) →
    read_outcome cb (Ok (mjoin (f_Data <$> frames_of ch)), remove_at cb i id)
| read_nothing :
    (∀ i id ch, (spec_IsCanyon (cb_spec cb) (l1_Time (Origin cb)) = false → i = 0%nat) →
      ¬ readable cb i id ch) →
    read_outcome cb (Err io_EOF, cb).

Lemma Read_outcome cb : ChannelBank_inv cb → read_outcome cb (Read cb).
Proof.
  intros Hinv. unfold Read. destruct (cb_channelQueue cb) as [|first rest] eqn:Eq.
  { by constructor. }
  destruct (queue_lookup cb 0 Hinv) as (id & ch & Hid & Hch); [rewrite Eq; cbn; lia|].
  rewrite Eq in Hid. injection Hid as <-. rewrite Hch.
  destruct (channel_timedOut _ _ ch) eqn:Et.
  { pose proof (read_timeout cb first rest ch Eq Hch Et) as Ho.
    unfold remove_at in Ho. by rewrite Eq in Ho. }
  destruct (spec_IsCanyon _ _) eqn:Ec; cbn [negb].
  - rewrite <- Eq.
    destruct (read_loop_spec cb (length (cb_channelQueue cb)) 0 Hinv)
      as [(j & id & c & _ & Hr & Hmin & ->)|[Hall ->]]; [lia|..].
    + apply read_channel; [done| |congruence]. intros. apply Hmin. lia.
    + apply read_nothing. intros. apply Hall. lia.
  - destruct (tryRead_spec cb 0 Hinv) as [(id & c & Hr & ->)|[Hno ->]]; [rewrite Eq; cbn; lia|..].
    + apply read_channel; [done|lia|done].
    + apply read_nothing. intros i id c Hi. by rewrite (Hi Ec).
Qed.

Lemma Read_inv cb : ChannelBank_inv cb → ChannelBank_inv (Read cb).2.
Proof.
  intros Hinv. pose proof (Read_outcome cb Hinv) as Ho.
  assert (Hrm : ∀ i id, cb_channelQueue cb !! i = Some id → ChannelBank_inv (remove_at cb i id)).
  { intros i id Hi. apply ChannelBank_inv_sub; [done| |apply delete_subseteq].
    by apply indexes_delete; [apply Hinv|]. }
  inversion Ho; cbn; try done; apply Hrm.
  - by match goal with E : cb_channelQueue cb = _ |- _ => rewrite E end.
  - by match goal with E : readable _ _ _ _ |- _ => apply E end.
Qed.

(** reading the bank never panics. It drops a timed out channel at the head
    of the queue, hands out the first channel that is complete and not timed
    out (before Canyon only the head of the queue is considered), with its data
    in frame order, removes exactly that channel, and otherwise reports EOF and
    changes nothing. *)
Theorem Read_spec cb :
  ChannelBank_inv cb → read_outcome cb (Read cb) ∧ ChannelBank_inv (Read cb).2.
Proof. intros Hinv. split; [by apply Read_outcome|by apply Read_inv]. Qed.

(** *** The stage *)

Lemma tryRead_prev cb i : cb_prev (tryReadChannelAtIndex cb i).2 = cb_prev cb.
Proof. unfold tryReadChannelAtIndex. by repeat case_goal. Qed.

Lemma Read_prev cb : cb_prev (Read cb).2 = cb_prev cb.
Proof.
  assert (Hl : ∀ n i cb, cb_prev (read_loop n i cb).2 = cb_prev cb).
  { clear. intros n. induction n as [|n IH]; intros i cb; cbn [read_loop]; [done|].
    pose proof (tryRead_prev cb i) as Ht.
    destruct (tryReadChannelAtIndex cb i) as [[d|e|w] cb']; cbn in *; try done. by rewrite IH. }
  unfold Read. destruct (cb_channelQueue cb); [done|]. destruct (cb_channels cb !! _); [|done].
  destruct (channel_timedOut _ _ _); [done|].
  destruct (spec_IsCanyon _ _); [apply Hl|apply tryRead_prev].
Qed.

Lemma IngestFrame_prev cb f : cb_prev (IngestFrame cb f).2 = cb_prev cb.
Proof.
  unfold IngestFrame. assert (Ho : cb_prev (open_channel cb (f_ID f)).2 = cb_prev cb).
  { unfold open_channel. by destruct (cb_channels cb !! _). }
  destruct (open_channel cb (f_ID f)) as [ch cb1]. cbn in Ho. rewrite <- Ho.
  destruct (channel_timedOut _ _ _); [done|].
  destruct (AddFrame _ _ _) as [[[]| |] ch']; [|done..]. by rewrite cb_prune_prev.
Qed.

#[export] Instance ChannelBank_stable `{!NextFrameStable P} : NextRawChannelStable (ChannelBank P).
Proof.
  intros cb. cbn. unfold ChannelBank_NextRawChannel, Origin, ChannelBank_origin.
  pose proof (Read_prev cb) as Hr. destruct (Read cb) as [[d|e|w] cb1]; cbn in *;
    rewrite <- Hr; try done. case_goal; [done|].
  pose proof (NextFrame_origin (cb_prev cb1)) as Hn. unfold Origin in Hn.
  destruct (NextFrame (cb_prev cb1)) as [[f|e'|w] p']; cbn in *; try done.
  pose proof (IngestFrame_prev (cb_set_prev p' cb1) f) as Hi.
  destruct (IngestFrame _ f) as [[[]|?|?] cb2]; cbn in *; by rewrite Hi.
Qed.

(** The stage below moves on in time, its frames stay well-formed. *)
Lemma set_prev_inv cb p' :
  ChannelBank_inv cb → l1_Time (Origin (cb_prev cb)) ≤ l1_Time (Origin p') →
  ChannelBank_inv (cb_set_prev p' cb).
Proof.
  intros [Hix Hc Hsz] Hle. constructor; [done..|]. etrans; [exact Hsz|].
  by apply MaxChannelBankSize_mono.
Qed.

Lemma NextRawChannel_inv `{!NextFrameStable P, !NextFrameTyped P} cb :
  ChannelBank_inv cb → frames_typed (cb_prev cb) →
  let '(r, cb') := ChannelBank_NextRawChannel cb in
  ChannelBank_inv cb' ∧ frames_typed (cb_prev cb') ∧
  ∀ w, r = Panic w → (NextFrame (cb_prev cb)).1 = Panic w.
Proof.
  intros Hinv Hty. unfold ChannelBank_NextRawChannel.
  pose proof (Read_outcome cb Hinv) as Ho. pose proof (Read_prev cb) as Hp.
  pose proof (Read_inv cb Hinv) as Hinv1.
  destruct (Read cb) as [[d|e|w] cb1]; cbn in Hp, Hinv1; [by rewrite Hp| |by inversion Ho].
  assert (cb1 = cb ∧ e = io_EOF) as [-> ->] by by inversion Ho. cbn.
  pose proof (NextFrame_origin (cb_prev cb)) as Hn.
  pose proof (NextFrame_typed (cb_prev cb) Hty) as Hty'.
  pose proof (λ f, NextFrame_frame (cb_prev cb) f Hty) as Hwf.
  destruct (NextFrame (cb_prev cb)) as [r p']; cbn in *.
  assert (Hinv2 : ChannelBank_inv (cb_set_prev p' cb)) by (apply set_prev_inv; [done|by rewrite Hn]).
  destruct r as [f|e|w]; cbn; [|by split_and!|split_and!; naive_solver].
  destruct (IngestFrame_ok (cb_set_prev p' cb) f) as [Hok Hinv3]; [done|by apply Hwf|].
  pose proof (IngestFrame_prev (cb_set_prev p' cb) f) as Hip.
  destruct (IngestFrame _ f) as [r cb2]; cbn in *. subst r.
  split_and!; [done|by rewrite Hip|done].
Qed.

(** The life of a bank: pulls, resets, and L1 origins that move forward in time
    below it. *)
Inductive bank_reachable `{!NextFrameTyped P} : ChannelBank P → Prop :=
| bank_new spec p : frames_typed p → bank_reachable (NewChannelBank spec p)
| bank_pull cb : bank_reachable cb → bank_reachable (ChannelBank_NextRawChannel cb).2
| bank_reset cb base sc : bank_reachable cb → bank_reachable (Reset cb base sc).2
| bank_advance cb p' : bank_reachable cb → frames_typed p' →
    l1_Time (Origin (cb_prev cb)) ≤ l1_Time (Origin p') → bank_reachable (cb_set_prev p' cb).

End properties.

(** ** A bank at work *)

Module BankExample.
Definition id (b : byte) : ChannelID := replicate 16 b.
Definition fr (i : byte) (n : Z) (last : bool) : Frame := mkFrame (id i) n [i] last.
(** A stage that hands out a list of frames. *)
Record src := mk { frames : list Frame; blk : L1BlockRef }.
#[global] Instance src_provider : NextFrameProvider src := {
  nfp_origin := blk;
  NextFrame s := match frames s with
                 | [] => (Err io_EOF, s)
                 | f :: fs => (Ok f, mk fs (blk s))
                 end }.
#[global] Instance src_stable : NextFrameStable src.
Proof. intros [[|f fs] b]; reflexivity. Qed.
#[global] Instance src_typed : NextFrameTyped src.
Proof.
  refine {| frames_typed s := Forall Frame_wf (frames s) |}.
  - intros [[|f fs] b] Hs; [done|]. by apply Forall_cons in Hs as [_ ?].
  - intros [[|f fs] b] g Hs; cbn; [done|]. intros [= ->]. by apply Forall_cons in Hs as [? _].
Defined.
#[global] Instance src_finite : NextFrameFinite src.
Proof.
  refine {| frames_left s := length (frames s) |}.
  intros [[|f fs] b] g; cbn; [done|lia].
Defined.

Definition spec : ChainSpec := NewChainSpec ExampleConfig.cfg.
(** Two interleaved channels, the second of which completes first. *)
Definition src0 : src := mk [fr x01 0 false; fr x02 0 true; fr x01 1 true] zeroL1.
Fixpoint run (n : nat) (cb : ChannelBank src) : ChannelBank src :=
  match n with O => cb | S n => run n (ChannelBank_NextRawChannel cb).2 end.
End BankExample.

Lemma IngestFrame_preserves_inv_witness :
  let cb := NewChannelBank BankExample.spec BankExample.src0 in
  ChannelBank_inv (IngestFrame cb (BankExample.fr x01 0 false)).2.
Proof.
  apply (IngestFrame_preserves_inv (NewChannelBank BankExample.spec BankExample.src0)
           (BankExample.fr x01 0 false)).
  - apply ChannelBank_new_inv.
  - by vm_compute.
Defined.

Lemma src0_wf : Forall Frame_wf (BankExample.frames BankExample.src0).
Proof. repeat constructor; by vm_compute. Qed.

(** With frames of two channels in, the second channel is read first. *)
Lemma Read_spec_witness :
  let cb := BankExample.run 2 (NewChannelBank BankExample.spec BankExample.src0) in
  (Read cb).1 = Ok [x02] ∧ cb_channelQueue (Read cb).2 = [BankExample.id x01] ∧
  ChannelBank_inv (Read cb).2.
Proof.
  set (cb := BankExample.run 2 (NewChannelBank BankExample.spec BankExample.src0)).
  assert (Hinv : ChannelBank_inv cb).
  { pose proof (NextRawChannel_inv (NewChannelBank BankExample.spec BankExample.src0)
      (ChannelBank_new_inv _ _) src0_wf) as H1.
    unfold cb. cbn [BankExample.run]. destruct (ChannelBank_NextRawChannel _) as [r1 cb1].
    cbn [snd]. destruct H1 as (H1 & H2 & _). pose proof (NextRawChannel_inv cb1 H1 H2) as H3.
    destruct (ChannelBank_NextRawChannel cb1) as [r2 cb2]. apply H3. }
  split_and!; [by vm_compute..|]. apply (Read_spec cb Hinv).
Defined.

