(* ===== verification/ChannelAssembler.v ===== *)
(** * The channel assembler

    Models [op-node/rollup/derive/channel_assembler.go], the Holocene channel
    stage: it pulls frames in a loop, keeps at most one staging channel, and
    hands out the channel as soon as its closing frame arrives. The stage is
    shown to refine an abstract machine whose state is just the list of frames
    collected so far. *)

From S2P Require Import Prelude GoBytes Errors Eth RollupConfig ChainSpec Frame Channel Stages.
From S2P Require Import ChannelBank.

Record ChannelAssembler (P : Type) := mkChannelAssembler {
  ca_spec : ChainSpec;
  ca_channel : option Channel;
  ca_prev : P }.
Arguments mkChannelAssembler {P}.
Arguments ca_spec {P}.
Arguments ca_channel {P}.
Arguments ca_prev {P}.

Definition unexpected_ready : error := NewCriticalError (ErrorsNew "unexpected ready channel").
Definition unexpected_non_ready : error :=
  NewCriticalError (ErrorsNew "unexpected non-ready channel").

Section assembler.
Context {P : Type} `{NextFrameProvider P}.

Definition NewChannelAssembler (spec : ChainSpec) (prev : P) : ChannelAssembler P :=
  mkChannelAssembler spec None prev.

#[export] Instance ChannelAssembler_origin : HasOrigin (ChannelAssembler P) :=
  λ ca, Origin (ca_prev ca).

Definition ca_set_channel (ch : option Channel) (ca : ChannelAssembler P) : ChannelAssembler P :=
  mkChannelAssembler (ca_spec ca) ch (ca_prev ca).
Definition ca_set_prev (p : P) (ca : ChannelAssembler P) : ChannelAssembler P :=
  mkChannelAssembler (ca_spec ca) (ca_channel ca) p.
Definition resetChannel (ca : ChannelAssembler P) : ChannelAssembler P := ca_set_channel None ca.

#[export] Instance ChannelAssembler_Reset : ResettableStage (ChannelAssembler P) :=
  λ ca _ _, (Err io_EOF, resetChannel ca).
#[export] Instance ChannelAssembler_FlushChannel : ChannelFlusher (ChannelAssembler P) :=
  λ ca, (Ok (), resetChannel ca).

(** The frame ingestion loop, from the pull of a frame to the [break]. *)
Fixpoint ingest_loop (fuel : nat) (origin : L1BlockRef) (ca : ChannelAssembler P)
    : Res unit * ChannelAssembler P :=
  match fuel with
  | O => (Panic "out of fuel", ca)
  | S fuel =>
    let '(r, prev) := NextFrame (ca_prev ca) in
    let ca := ca_set_prev prev ca in
    match r with
    | Err e => (Err e, ca)
    | Panic w => (Panic w, ca)
    | Ok frame =>
      let ca := if f_FrameNumber frame =? 0
                then ca_set_channel (Some (NewChannel (f_ID frame) origin true)) ca else ca in
      if (0 <? f_FrameNumber frame) && bool_decide (ca_channel ca = None)
      then ingest_loop fuel origin ca
      else
        match ca_channel ca with
        | None => (Panic "nil channel", ca)
        | Some ch =>
          match AddFrame ch frame origin with
          | (Err _, _) => ingest_loop fuel origin ca
          | (Panic w, _) => (Panic w, ca)
          | (Ok (), ch) =>
            let ca := ca_set_channel (Some ch) ca in
            if MaxRLPBytesPerChannel (ca_spec ca) (l1_Time (Origin ca)) <? Size ch
            then ingest_loop fuel origin (resetChannel ca)
            else if f_IsLast frame then (Ok (), ca)
            else ingest_loop fuel origin ca
          end
        end
    end
  end.

(** Drop the staging channel if it is timed out. *)
Definition expire (ca : ChannelAssembler P) : ChannelAssembler P :=
  match ca_channel ca with
  | Some ch => if channel_timedOut (ca_spec ca) (Origin ca) ch then resetChannel ca else ca
  | None => ca
  end.

(** Every iteration of the loop takes a frame from the stage below, so the
    number of frames it has left bounds the iterations. *)
Definition ChannelAssembler_NextRawChannel `{!NextFrameFinite P} (ca : ChannelAssembler P)
    : Res bytes * ChannelAssembler P :=
  let ca := expire ca in
  let origin := Origin ca in
  if match ca_channel ca with Some ch => IsReady ch | None => false end
  then (Err unexpected_ready, ca)
  else
    match ingest_loop (S (frames_left (ca_prev ca))) origin ca with
    | (Err e, ca) => (Err e, ca)
    | (Panic w, ca) => (Panic w, ca)
    | (Ok (), ca) =>
      match ca_channel ca with
      | None => (Err unexpected_non_ready, ca)
      | Some ch =>
        if negb (IsReady ch) then (Err unexpected_non_ready, ca)
        else (Reader ch, resetChannel ca)
      end
    end.

#[export] Instance ChannelAssembler_provider `{!NextFrameFinite P}
  : RawChannelProvider (ChannelAssembler P) := {
  NextRawChannel := ChannelAssembler_NextRawChannel }.
End assembler.

(** ** The abstract machine

    The staging channel as the protocol sees it: the channel id, the block it
    was opened in and the frames collected so far, in order. *)
Record staging := mkStaging { st_id : ChannelID; st_open : L1BlockRef; st_frames : list Frame }.

Inductive outcome := Continue (st : option staging) | Complete (data : bytes).

Definition frames_size (fs : list Frame) : Z := foldr (λ f s, frameSize f + s) 0 fs.

(** One frame. A first frame opens a new channel; a frame is collected when it is
    the next one of the staging channel and ignored otherwise; an oversized
    channel is dropped; a closing frame completes the channel. *)
Definition collect (origin : L1BlockRef) (max : Z) (st : option staging) (f : Frame) : outcome :=
  let st := if f_FrameNumber f =? 0 then Some (mkStaging (f_ID f) origin []) else st in
  match st with
  | None => Continue None
  | Some s =>
    if decide (f_ID f = st_id s ∧ f_FrameNumber f = Z.of_nat (length (st_frames s))) then
      let fs := st_frames s ++ [f] in
      if max <? frames_size fs then Continue None
      else if f_IsLast f then Complete (mjoin (f_Data <$> fs))
      else Continue (Some (mkStaging (st_id s) (st_open s) fs))
    else Continue (Some s)
  end.

(** Collecting frames from the stage below until a channel completes or the
    stage reports an error. *)
Inductive collects {P} `{NextFrameProvider P} (origin : L1BlockRef) (max : Z)
    : option staging → P → Res bytes → option staging → P → Prop :=
| collects_err st p e p' :
    NextFrame p = (Err e, p') → collects origin max st p (Err e) st p'
| collects_panic st p w p' :
    NextFrame p = (Panic w, p') → collects origin max st p (Panic w) st p'
| collects_done st p f p' data :
    NextFrame p = (Ok f, p') → collect origin max st f = Complete data →
    collects origin max st p (Ok data) None p'
| collects_more st p f p' st1 r st' p'' :
    NextFrame p = (Ok f, p') → collect origin max st f = Continue st1 →
    collects origin max st1 p' r st' p'' → collects origin max st p r st' p''.

(** ** Channels that hold a staging state *)

Record holds (ch : Channel) (s : staging) : Prop := {
  h_id : ch_id ch = st_id s;
  h_open : ch_openBlock ch = st_open s;
  h_order : ch_requireInOrder ch = true;
  h_inputs i g : ch_inputs ch !! i = Some g ↔ ∃ k, i = Z.of_nat k ∧ st_frames s !! k = Some g;
  h_count : size (ch_inputs ch) = length (st_frames s);
  h_end : ch_closed ch = true → ch_endFrameNumber ch = Z.of_nat (length (st_frames s)) - 1;
  h_highest : ch_highestFrameNumber ch ≤ Z.of_nat (length (st_frames s));
  h_size : ch_size ch = frames_size (st_frames s);
}.

Lemma frames_size_snoc fs f : frames_size (fs ++ [f]) = frames_size fs + frameSize f.
Proof. induction fs as [|g fs IH]; cbn; [lia|]. unfold frames_size in *. lia. Qed.

Lemma holds_new id blk : holds (NewChannel id blk true) (mkStaging id blk []).
Proof.
  constructor; try done. intros i g. cbn. split; [done|]. intros (k & _ & Hk). done.
Qed.

Lemma holds_next_free ch s :
  holds ch s → ch_inputs ch !! Z.of_nat (length (st_frames s)) = None.
Proof.
  intros Hh. destruct (ch_inputs ch !! _) eqn:E; [|done].
  apply (h_inputs _ _ Hh) in E as (k & Hk & Hl%lookup_lt_Some). lia.
Qed.

(** A frame is accepted exactly when it is the next one of the channel. *)
Lemma holds_check ch s f :
  holds ch s → ch_closed ch = false →
  AddFrame_check ch f = Ok () ↔
  f_ID f = st_id s ∧ f_FrameNumber f = Z.of_nat (length (st_frames s)).
Proof.
  intros Hh Hc. rewrite AddFrame_check_ok, Hc, (h_id _ _ Hh), (h_order _ _ Hh), (h_count _ _ Hh).
  split; [naive_solver|]. intros [-> ->]. split_and!; try done. by apply holds_next_free.
Qed.

Lemma holds_apply ch s f blk :
  holds ch s → ch_closed ch = false → Frame_wf f →
  frames_size (st_frames s) + frameSize f < 2 ^ 64 →
  f_FrameNumber f = Z.of_nat (length (st_frames s)) → 0 ≤ frames_size (st_frames s) →
  holds (AddFrame_apply ch f blk) (mkStaging (st_id s) (st_open s) (st_frames s ++ [f]))
  ∧ ch_closed (AddFrame_apply ch f blk) = f_IsLast f.
Proof.
  intros Hh Hc Hf Hlt Hn Hpos. pose proof (holds_next_free ch s Hh) as Hfree.
  pose proof (h_highest _ _ Hh) as Hhi.
  assert (Hnp : f_IsLast f && (f_FrameNumber f <? ch_highestFrameNumber ch) = false).
  { rewrite (proj2 (Z.ltb_ge _ _)), andb_false_r by lia. done. }
  assert (HI : ch_inputs (AddFrame_apply ch f blk) = <[f_FrameNumber f := f]> (ch_inputs ch)).
  { unfold AddFrame_apply. cbn. destruct (f_IsLast f); [|done]. cbn in *. by rewrite Hnp. }
  split; [|cbn; by rewrite Hc, orb_false_r].
  constructor; try apply Hh; cbn [st_frames]; rewrite ?HI, ?length_app, ?Hn.
  - intros i g. rewrite lookup_insert_Some, (h_inputs _ _ Hh). split.
    + intros [[<- <-]|(Hne & k & -> & Hk)].
      * exists (length (st_frames s)). by rewrite list_lookup_middle.
      * exists k. split; [done|]. by apply lookup_app_l_Some.
    + intros (k & -> & Hk). apply lookup_app_Some in Hk as [Hk|[Hle Hk]].
      * right. apply lookup_lt_Some in Hk as Hlt'. split; [lia|]. eauto.
      * apply list_lookup_singleton_Some in Hk as [Hk <-]. left. split; [lia|done].
  - rewrite map_size_insert_None, (h_count _ _ Hh) by done. cbn. lia.
  - cbn. intros Hcl. rewrite Hc, orb_false_r in Hcl. rewrite Hcl. lia.
  - unfold AddFrame_apply. cbn. destruct (f_IsLast f); cbn in *; rewrite ?Hnp; repeat case_goal; lia.
  - pose proof (frameSize_wf f Hf) as Hfs. unfold frameOverhead in Hfs. rewrite frames_size_snoc.
    unfold AddFrame_apply. cbn. destruct (f_IsLast f); cbn in *; rewrite ?Hnp, (h_size _ _ Hh);
      apply wrap_small; split; lia.
Qed.

(** A closed channel that holds all its frames is ready and reads as their data. *)
Lemma holds_ready ch s :
  holds ch s → ch_closed ch = true →
  IsReady ch = true ∧ Reader ch = Ok (mjoin (f_Data <$> st_frames s)).
Proof.
  intros Hh Hc. pose proof (h_end _ _ Hh Hc) as He. split.
  - unfold IsReady. rewrite Hc, He, (h_count _ _ Hh). cbn. apply andb_true_iff. split.
    + apply Z.eqb_eq. lia.
    + apply forallb_forall. intros i. rewrite <- list_elem_of_In, elem_of_seqZ. intros Hi.
      apply bool_decide_eq_true.
      destruct (lookup_lt_is_Some_2 (st_frames s) (Z.to_nat i)) as [g Hg]; [lia|].
      exists g. apply (h_inputs _ _ Hh). exists (Z.to_nat i). split; [lia|done].
  - unfold Reader. rewrite He.
    replace (_ - 1 + 1) with (Z.of_nat (length (st_frames s))) by lia.
    apply read_frames_ok. intros i g Hi. apply (h_inputs _ _ Hh). eauto.
Qed.

Lemma open_not_ready ch : ch_closed ch = false → IsReady ch = false.
Proof. intros Hc. unfold IsReady. by rewrite Hc. Qed.

(** ** Refinement *)

Section refinement.
Context {P : Type} `{NextFrameProvider P} `{!NextFrameStable P} `{!NextFrameTyped P}
  `{!NextFrameFinite P}.
Implicit Type ca : ChannelAssembler P.

(** The stage represents an abstract state. *)
Definition represents ca (st : option staging) : Prop :=
  match ca_channel ca, st with
  | None, None => True
  | Some ch, Some s => holds ch s ∧ ch_closed ch = false ∧
      0 ≤ frames_size (st_frames s) ≤ maxRLPBytesPerChannelFjord
  | _, _ => False
  end.

Lemma MaxRLP_range sp t : 0 ≤ MaxRLPBytesPerChannel sp t ≤ maxRLPBytesPerChannelFjord.
Proof. unfold MaxRLPBytesPerChannel. by case_goal. Qed.

(** The staging channel once its closing frame is in. *)
Definition completes ca (data : bytes) : Prop :=
  ∃ ch, ca_channel ca = Some ch ∧ IsReady ch = true ∧ Reader ch = Ok data.

Lemma AddFrame_collect ch s f origin :
  holds ch s → ch_closed ch = false → Frame_wf f →
  0 ≤ frames_size (st_frames s) ≤ maxRLPBytesPerChannelFjord →
  let s' := mkStaging (st_id s) (st_open s) (st_frames s ++ [f]) in
  if decide (f_ID f = st_id s ∧ f_FrameNumber f = Z.of_nat (length (st_frames s)))
  then ∃ ch', AddFrame ch f origin = (Ok (), ch') ∧ holds ch' s' ∧ ch_closed ch' = f_IsLast f ∧
    0 ≤ frames_size (st_frames s')
  else ∃ e, AddFrame ch f origin = (Err e, ch).
Proof.
  intros Hh Hc Hf Hsz s'. pose proof (frameSize_wf f Hf) as Hfs.
  pose proof (holds_check ch s f Hh Hc) as Hck. unfold AddFrame. case_decide as Hd.
  - rewrite (proj2 Hck) by done. eexists. split; [done|].
    destruct Hf as [Hty Hlen]. unfold frameOverhead, MaxFrameLen, maxRLPBytesPerChannelFjord in *.
    destruct (holds_apply ch s f origin) as [H1 H2]; try done; try lia.
    split_and!; [done..|]. cbn. rewrite frames_size_snoc. lia.
  - destruct (AddFrame_check ch f) as [[]|e|w] eqn:E; [naive_solver|by exists e|].
    unfold AddFrame_check in E. by repeat case_in E.
Qed.

(** The abstract state after the frame number was looked at. *)
Lemma represents_open ca st f origin :
  represents ca st →
  represents (if f_FrameNumber f =? 0
              then ca_set_channel (Some (NewChannel (f_ID f) origin true)) ca else ca)
             (if f_FrameNumber f =? 0 then Some (mkStaging (f_ID f) origin []) else st).
Proof.
  intros Hr. case_goal; [|done]. unfold represents. cbn.
  split_and!; [apply holds_new|done..].
Qed.

Lemma ingest_step fuel origin ca st f p' :
  represents ca st → Frame_wf f → NextFrame (ca_prev ca) = (Ok f, p') →
  Origin p' = Origin (ca_prev ca) →
  let max := MaxRLPBytesPerChannel (ca_spec ca) (l1_Time (Origin ca)) in
  ∃ ca1, ca_prev ca1 = p' ∧ ca_spec ca1 = ca_spec ca ∧
  match collect origin max st f with
  | Continue st1 => ingest_loop (S fuel) origin ca = ingest_loop fuel origin ca1 ∧ represents ca1 st1
  | Complete data => ingest_loop (S fuel) origin ca = (Ok (), ca1) ∧ completes ca1 data
  end.
Proof.
  intros Hr Hf Hn Ho. unfold collect. cbn [ingest_loop]. rewrite Hn.
  apply (represents_open (ca_set_prev p' ca) st f origin) in Hr.
  set (ca0 := if f_FrameNumber f =? 0
    then ca_set_channel (Some (NewChannel (f_ID f) origin true)) (ca_set_prev p' ca)
    else ca_set_prev p' ca) in *.
  set (st0 := if f_FrameNumber f =? 0 then Some (mkStaging (f_ID f) origin []) else st) in *.
  assert (Hca0 : ca_prev ca0 = p' ∧ ca_spec ca0 = ca_spec ca) by (unfold ca0; by case_goal).
  assert (Hnone : ca_channel ca0 = None → 0 < f_FrameNumber f).
  { unfold ca0. destruct (Z.eqb_spec (f_FrameNumber f) 0); [done|].
    intros _. destruct Hf as [[_ [? ?]] _]. lia. }
  unfold represents in Hr.
  destruct (ca_channel ca0) as [ch|] eqn:Ech, st0 as [s|]; try done.
  - rewrite bool_decide_eq_false_2, andb_false_r by done.
    destruct Hr as (Hh & Hc & Hsz). pose proof (AddFrame_collect ch s f origin Hh Hc Hf Hsz) as Ha.
    cbn zeta in Ha. destruct Hca0 as [Hp0 Hs0]. case_decide as Hd.
    + destruct Ha as (ch' & -> & Hh' & Hc' & Hpos). cbn zeta.
      assert (Hmax : ca_spec (ca_set_channel (Some ch') ca0) = ca_spec ca
        ∧ Origin (ca_set_channel (Some ch') ca0) = Origin ca).
      { split; [done|]. transitivity (Origin p'); [|done]. by rewrite <- Hp0. }
      destruct Hmax as [-> ->]. unfold Size. rewrite (h_size _ _ Hh'). cbn [st_frames].
      pose proof (MaxRLP_range (ca_spec ca) (l1_Time (Origin ca))) as Hm.
      destruct (Z.ltb_spec (MaxRLPBytesPerChannel (ca_spec ca) (l1_Time (Origin ca)))
        (frames_size (st_frames s ++ [f]))).
      * by exists (resetChannel (ca_set_channel (Some ch') ca0)).
      * exists (ca_set_channel (Some ch') ca0). split_and!; [done..|].
        destruct (f_IsLast f) eqn:El.
        -- split; [done|]. exists ch'. split; [done|]. by apply holds_ready in Hh'.
        -- split; [done|]. unfold represents.
           cbn [ca_channel ca_set_channel st_frames] in *. split_and!; try done. lia.
    + destruct Ha as [e ->]. exists ca0. split_and!; try done. unfold represents. by rewrite Ech.
  - rewrite bool_decide_eq_true_2, andb_true_r by done.
    rewrite (proj2 (Z.ltb_lt _ _)) by by apply Hnone.
    destruct Hca0 as [Hp0 Hs0]. exists ca0. split_and!; try done.
    unfold represents. by rewrite Ech.
Qed.

Lemma ingest_loop_refines fuel origin ca st :
  (frames_left (ca_prev ca) < fuel)%nat → represents ca st → frames_typed (ca_prev ca) →
  let max := MaxRLPBytesPerChannel (ca_spec ca) (l1_Time (Origin ca)) in
  let '(r, ca') := ingest_loop fuel origin ca in
  ca_spec ca' = ca_spec ca ∧ frames_typed (ca_prev ca') ∧
  match r with
  | Ok () => ∃ data, collects origin max st (ca_prev ca) (Ok data) None (ca_prev ca')
      ∧ completes ca' data
  | Err e => ∃ st', collects origin max st (ca_prev ca) (Err e) st' (ca_prev ca') ∧ represents ca' st'
  | Panic w => ∃ st', collects origin max st (ca_prev ca) (Panic w) st' (ca_prev ca')
      ∧ represents ca' st'
  end.
Proof.
  revert ca st. induction fuel as [|fuel IH]; intros ca st Hfuel Hr Hty; [lia|].
  pose proof (NextFrame_typed _ Hty) as Hty'. pose proof (λ f, NextFrame_frame _ f Hty) as Hwf.
  pose proof (NextFrame_origin (ca_prev ca)) as Ho. pose proof (NextFrame_left (ca_prev ca)) as Hl.
  destruct (NextFrame (ca_prev ca)) as [[f|e|w] p'] eqn:En; cbn in Hty', Hwf, Ho, Hl.
  - specialize (Hl f eq_refl).
    destruct (ingest_step fuel origin ca st f p' Hr) as (ca1 & <- & Hs & Hc);
      [by apply Hwf|done..|]. intros max. fold max in Hc.
    destruct (collect origin max st f) as [st1|data] eqn:Ec.
    + destruct Hc as [-> Hr1]. specialize (IH ca1 st1 ltac:(lia) Hr1 Hty').
      assert (Horig : Origin ca1 = Origin ca) by exact Ho.
      cbn zeta in IH. rewrite Hs, Horig in IH. fold max in IH.
      destruct (ingest_loop fuel origin ca1) as [[[]|e|w] ca'].
      * destruct IH as (-> & ? & data & ? & ?). split_and!; try done. exists data.
        split; [by eapply collects_more|done].
      * destruct IH as (-> & ? & st' & ? & ?). split_and!; try done. exists st'.
        split; [by eapply collects_more|done].
      * destruct IH as (-> & ? & st' & ? & ?). split_and!; try done. exists st'.
        split; [by eapply collects_more|done].
    + destruct Hc as [-> Hd]. split_and!; try done. exists data.
      split; [by eapply collects_done|done].
  - cbn [ingest_loop]. rewrite En. split_and!; try done. exists st.
    split; [by apply collects_err|done].
  - cbn [ingest_loop]. rewrite En. split_and!; try done. exists st.
    split; [by apply collects_panic|done].
Qed.

(** The abstract counterpart of dropping a timed out channel. *)
Definition expire_staging (sp : ChainSpec) (origin : L1BlockRef) (st : option staging)
    : option staging :=
  s ← st;
  if (l1_Number (st_open s) +₆₄ ChannelTimeout sp (l1_Time origin)) <? l1_Number origin
  then None else Some s.

Lemma expire_represents ca st :
  represents ca st → represents (expire ca) (expire_staging (ca_spec ca) (Origin ca) st).
Proof.
  unfold represents, expire. destruct (ca_channel ca) as [ch|] eqn:E, st as [s|]; try done.
  - intros (Hh & Hc & Hs). cbn. unfold channel_timedOut, OpenBlockNumber.
    rewrite (h_open _ _ Hh). destruct (_ <? _); cbn; [done|]. by rewrite E.
  - by rewrite E.
Qed.

Lemma expire_same ca : ca_prev (expire ca) = ca_prev ca ∧ ca_spec (expire ca) = ca_spec ca.
Proof. unfold expire. by repeat case_goal. Qed.

Lemma NextRawChannel_refines ca st :
  represents ca st → frames_typed (ca_prev ca) →
  let '(r, ca') := ChannelAssembler_NextRawChannel ca in
  ∃ st', represents ca' st' ∧ frames_typed (ca_prev ca') ∧ ca_spec ca' = ca_spec ca ∧
    collects (Origin ca) (MaxRLPBytesPerChannel (ca_spec ca) (l1_Time (Origin ca)))
      (expire_staging (ca_spec ca) (Origin ca) st) (ca_prev ca) r st' (ca_prev ca').
Proof.
  intros Hr Hty. apply expire_represents in Hr. destruct (expire_same ca) as [Hp Hs].
  unfold ChannelAssembler_NextRawChannel.
  assert (Hready : match ca_channel (expire ca) with Some ch => IsReady ch | None => false end = false).
  { unfold represents in Hr. destruct (ca_channel (expire ca)) as [ch|]; [|done].
    destruct (expire_staging _ _ _) as [s|]; [|done]. by apply open_not_ready, Hr. }
  rewrite Hready.
  pose proof (ingest_loop_refines (S (frames_left (ca_prev (expire ca)))) (Origin (expire ca))
    (expire ca) _ (Nat.lt_succ_diag_r _) Hr) as Hl.
  assert (Horig : Origin (expire ca) = Origin ca) by (unfold Origin, ChannelAssembler_origin; by rewrite Hp).
  cbn zeta in Hl. rewrite Hp, Hs, Horig in Hl. specialize (Hl Hty). rewrite Hp, Horig.
  destruct (ingest_loop _ _ _) as [[[]|e|w] ca'].
  - destruct Hl as (Hs' & Hty' & data & Hc & ch & -> & -> & ->). cbn.
    exists None. split_and!; done.
  - destruct Hl as (Hs' & Hty' & st' & Hc & Hr'). by exists st'.
  - destruct Hl as (Hs' & Hty' & st' & Hc & Hr'). by exists st'.
Qed.

(** The life of an assembler: pulls, resets, flushes, and a stage below that moves
    to another L1 block. *)
Inductive assembler_reachable : ChannelAssembler P → Prop :=
| asm_new spec p : frames_typed p → assembler_reachable (NewChannelAssembler spec p)
| asm_pull ca : assembler_reachable ca →
    assembler_reachable (ChannelAssembler_NextRawChannel ca).2
| asm_reset ca base sc : assembler_reachable ca → assembler_reachable (Reset ca base sc).2
| asm_flush ca : assembler_reachable ca → assembler_reachable (FlushChannel ca).2
| asm_advance ca p' : assembler_reachable ca → frames_typed p' →
    assembler_reachable (ca_set_prev p' ca).

(** C5: the Holocene channel stage refines the abstract machine: in every reachable
    state a pull expires a timed out channel, then collects frames from the stage
    below exactly as the abstract machine does, and returns the data of the
    completed channel or the error that the stage below reported. The ingestion
    loop terminates, the internal sanity checks of the stage never fire, and the
    stage never panics by itself. *)
Theorem assembler_refines ca :
  assembler_reachable ca → ∃ st, represents ca st ∧
  let '(r, ca') := ChannelAssembler_NextRawChannel ca in
  ∃ st', represents ca' st' ∧
    collects (Origin ca) (MaxRLPBytesPerChannel (ca_spec ca) (l1_Time (Origin ca)))
      (expire_staging (ca_spec ca) (Origin ca) st) (ca_prev ca) r st' (ca_prev ca').
Proof.
  intros Hr. assert (Hinv : ∃ st, represents ca st ∧ frames_typed (ca_prev ca)).
  { induction Hr as [spec p Hp|ca Hr (st & Hi & Ht)|ca base sc Hr (st & Hi & Ht)
      |ca Hr (st & Hi & Ht)|ca p' Hr (st & Hi & Ht) Hp].
    - by exists None.
    - pose proof (NextRawChannel_refines ca st Hi Ht) as Hn.
      destruct (ChannelAssembler_NextRawChannel ca) as [r ca']. naive_solver.
    - by exists None.
    - by exists None.
    - by exists st. }
  destruct Hinv as (st & Hi & Ht). exists st. split; [done|].
  pose proof (NextRawChannel_refines ca st Hi Ht) as Hn.
  destruct (ChannelAssembler_NextRawChannel ca) as [r ca']. naive_solver.
Qed.
End refinement.

(** ** Completeness *)

Section completeness.
Context {P : Type} `{NextFrameProvider P} `{!NextFrameStable P} `{!NextFrameTyped P}
  `{!NextFrameFinite P}.
Implicit Type ca : ChannelAssembler P.

(** The stage below hands out the frames one after the other. *)
Inductive yields : P → list Frame → P → Prop :=
| yields_nil p : yields p [] p
| yields_cons p f p' fs p'' :
    NextFrame p = (Ok f, p') → yields p' fs p'' → yields p (f :: fs) p''.

Lemma collects_fun origin max st p r1 st1 p1 r2 st2 p2 :
  collects origin max st p r1 st1 p1 → collects origin max st p r2 st2 p2 →
  r1 = r2 ∧ st1 = st2 ∧ p1 = p2.
Proof.
  intros Hcol. revert r2 st2 p2.
  induction Hcol; intros r2 st2 p2 Hcol2; inversion Hcol2; subst; merge_eqs; eauto.
Qed.

Lemma frames_size_prefix (fs gs : list Frame) :
  Forall Frame_wf gs → frames_size fs ≤ frames_size (fs ++ gs).
Proof.
  intros Hgs. induction fs as [|f fs IH]; cbn; [|unfold frames_size in *; lia].
  induction Hgs as [|g gs Hg Hgs IH]; cbn; [done|].
  pose proof (frameSize_wf g Hg). unfold frameOverhead, frames_size in *. lia.
Qed.

Lemma collects_rest origin max id blk fs gs p p' :
  complete_frames id (fs ++ gs) → gs ≠ [] → Forall Frame_wf gs →
  frames_size (fs ++ gs) ≤ max → yields p gs p' →
  ∀ st, (fs = [] ∨ st = Some (mkStaging id blk fs)) →
  collects origin max st p (Ok (mjoin (f_Data <$> fs ++ gs))) None p'.
Proof.
  intros Hc Hne Hwf Hsz Hy. revert fs blk Hc Hne Hwf Hsz.
  induction Hy as [p|p f p1 gs p' Hn Hy IH]; intros fs blk Hc Hne Hwf Hsz st Hst; [done|].
  apply Forall_cons in Hwf as [Hf Hwf].
  assert (Hlf : (fs ++ f :: gs) !! length fs = Some f) by by rewrite list_lookup_middle.
  destruct Hc as (Hne' & Hlen & Hall). destruct (Hall _ _ Hlf) as (Hid & Hnum & Hlast).
  assert (Hst' : ∃ blk', (if f_FrameNumber f =? 0 then Some (mkStaging (f_ID f) origin []) else st)
    = Some (mkStaging id blk' fs)).
  { rewrite Hnum, Hid. destruct fs as [|f0 fs]; [by exists origin|].
    destruct Hst as [|Hst]; [done|]. by exists blk. }
  destruct Hst' as [blk' Hst'].
  assert (Hcol : collect origin max st f =
    if f_IsLast f then Complete (mjoin (f_Data <$> fs ++ [f]))
    else Continue (Some (mkStaging id blk' (fs ++ [f])))).
  { unfold collect. rewrite Hst'. cbn [st_id st_frames st_open].
    rewrite decide_True by done.
    assert (Hle : frames_size (fs ++ [f]) ≤ max).
    { etrans; [|exact Hsz]. replace (fs ++ f :: gs) with ((fs ++ [f]) ++ gs)
        by (by rewrite <- app_assoc). by apply frames_size_prefix. }
    by rewrite (proj2 (Z.ltb_ge _ _) Hle). }
  destruct gs as [|g gs].
  - inversion Hy; subst. rewrite Hlast, length_app, bool_decide_eq_true_2 in Hcol by (cbn; lia).
    by eapply collects_done.
  - rewrite Hlast, length_app, bool_decide_eq_false_2 in Hcol by (cbn; lia).
    eapply collects_more; [done..|].
    replace (fs ++ f :: g :: gs) with ((fs ++ [f]) ++ g :: gs) in * by (by rewrite <- app_assoc).
    apply (IH _ blk'); try done. by right.
Qed.

(** whatever the state of the assembler, once the stage below hands out a
    complete channel whose size is within the limit, the next pull returns
    exactly the data of that channel and leaves no staging channel behind. *)
Theorem assembler_complete_channel ca st id fs p' :
  represents ca st → frames_typed (ca_prev ca) →
  complete_frames id fs → Forall Frame_wf fs → yields (ca_prev ca) fs p' →
  frames_size fs ≤ MaxRLPBytesPerChannel (ca_spec ca) (l1_Time (Origin ca)) →
  let '(r, ca') := ChannelAssembler_NextRawChannel ca in
  r = Ok (mjoin (f_Data <$> fs)) ∧ ca_channel ca' = None ∧ ca_prev ca' = p'.
Proof.
  intros Hr Hty Hc Hwf Hy Hsz. pose proof (NextRawChannel_refines ca st Hr Hty) as Href.
  destruct (ChannelAssembler_NextRawChannel ca) as [r ca'].
  destruct Href as (st' & Hr' & _ & _ & Hcol).
  assert (Hne : fs ≠ []) by apply Hc.
  pose proof (collects_rest (Origin ca) _ id zeroL1 [] fs _ _ Hc Hne Hwf Hsz Hy
    (expire_staging (ca_spec ca) (Origin ca) st) (or_introl eq_refl)) as Hcol'.
  destruct (collects_fun _ _ _ _ _ _ _ _ _ _ Hcol Hcol') as (-> & -> & ->).
  split_and!; try done. unfold represents in Hr'. by destruct (ca_channel ca').
Qed.

Lemma ingest_loop_origin fuel origin ca : Origin (ingest_loop fuel origin ca).2 = Origin ca.
Proof.
  revert ca. induction fuel as [|fuel IH]; intros ca; cbn [ingest_loop]; [done|].
  pose proof (NextFrame_origin (ca_prev ca)) as Ho.
  destruct (NextFrame (ca_prev ca)) as [[f|e|w] p']; cbn [snd] in *; try exact Ho.
  set (ca0 := if f_FrameNumber f =? 0 then _ else _).
  assert (H0 : Origin ca0 = Origin ca) by (unfold ca0; case_goal; exact Ho).
  destruct (_ && _); [by rewrite IH|]. destruct (ca_channel ca0) as [ch|]; [|done].
  destruct (AddFrame ch f origin) as [[[]|?|?] ch']; [|by rewrite IH|done].
  destruct (_ <? _); [rewrite IH; exact H0|]. destruct (f_IsLast f); [exact H0|].
  rewrite IH. exact H0.
Qed.

#[export] Instance ChannelAssembler_stable : NextRawChannelStable (ChannelAssembler P).
Proof.
  intros ca. cbn. unfold ChannelAssembler_NextRawChannel.
  destruct (expire_same ca) as [Hp _].
  assert (Ho : Origin (expire ca) = Origin ca)
    by (unfold Origin, ChannelAssembler_origin; by rewrite Hp).
  destruct (match ca_channel (expire ca) with Some ch => IsReady ch | None => false end); [done|].
  pose proof (ingest_loop_origin (S (frames_left (ca_prev (expire ca)))) (Origin (expire ca))
    (expire ca)) as Hl. rewrite Ho in Hl at 2.
  destruct (ingest_loop _ _ _) as [[[]|e|w] ca']; cbn [snd] in *; try exact Hl.
  destruct (ca_channel ca') as [ch|]; [|exact Hl]. by destruct (negb _).
Qed.
End completeness.

(** ** Witnesses *)

Module AssemblerExample.
(** A non-first frame without a channel, an unfinished channel, a complete one. *)
Definition src0 : BankExample.src :=
  BankExample.mk [BankExample.fr x01 3 false; BankExample.fr x01 0 false;
                  BankExample.fr x02 0 false; BankExample.fr x02 1 true] zeroL1.
Definition src1 : BankExample.src :=
  BankExample.mk [BankExample.fr x02 0 false; BankExample.fr x02 1 true] zeroL1.
Definition ca0 := NewChannelAssembler BankExample.spec src0.
Definition ca1 := NewChannelAssembler BankExample.spec src1.
End AssemblerExample.

Lemma assembler_refines_witness :
  (ChannelAssembler_NextRawChannel AssemblerExample.ca0).1 = Ok [x02; x02] ∧
  ∃ st, represents AssemblerExample.ca0 st.
Proof.
  split; [vm_compute; reflexivity|].
  destruct (assembler_refines AssemblerExample.ca0) as (st & Hr & _); [|by exists st].
  apply asm_new. cbn. repeat constructor; by vm_compute.
Defined.

Lemma assembler_complete_channel_witness :
  (ChannelAssembler_NextRawChannel AssemblerExample.ca1).1 = Ok [x02; x02].
Proof.
  pose proof (assembler_complete_channel AssemblerExample.ca1 None (BankExample.id x02)
    (BankExample.frames AssemblerExample.src1) (BankExample.mk [] zeroL1)) as Hc.
  destruct (ChannelAssembler_NextRawChannel AssemblerExample.ca1) as [r ca'].
  destruct Hc as (-> & _); [done|cbn; repeat constructor; by vm_compute| | | | |reflexivity].
  - split_and!; [done|cbn; lia|]. intros [|[|i]] f; cbn; [..|done]; intros [= <-]; by vm_compute.
  - cbn; repeat constructor; by vm_compute.
  - repeat econstructor.
  - vm_compute. discriminate.
Defined.
