(* ===== verification/ChannelMux.v ===== *)
(** * The channel stage multiplexer

    Models [op-node/rollup/derive/channel_mux.go]: the stage that swaps the
    channel bank for the channel assembler at Holocene, on a reset or on an
    explicit transform. *)

From S2P Require Import Prelude GoBytes Errors Eth RollupConfig ChainSpec Frame Channel Stages.
From S2P Require Import ChannelBank ChannelAssembler.

(** The embedded [RawChannelProvider]. The multiplexer and its active stage share
    the stage below; it is kept in the active stage. *)
Inductive ChannelProvider (P : Type) :=
| NoChannelStage (prev : P)
| ActiveBank (cb : ChannelBank P)
| ActiveAssembler (ca : ChannelAssembler P).
Arguments NoChannelStage {P}.
Arguments ActiveBank {P}.
Arguments ActiveAssembler {P}.

Record ChannelMux (P : Type) := mkChannelMux { cm_spec : ChainSpec; cm_stage : ChannelProvider P }.
Arguments mkChannelMux {P}.
Arguments cm_spec {P}.
Arguments cm_stage {P}.

Section mux.
Context {P : Type} `{NextFrameProvider P} `{!NextFrameFinite P}.

Definition NewChannelMux (spec : ChainSpec) (prev : P) : ChannelMux P :=
  mkChannelMux spec (NoChannelStage prev).

Definition provider_prev (s : ChannelProvider P) : P :=
  match s with
  | NoChannelStage p => p
  | ActiveBank cb => cb_prev cb
  | ActiveAssembler ca => ca_prev ca
  end.
Definition cm_prev (c : ChannelMux P) : P := provider_prev (cm_stage c).
Definition provider_set_prev (p : P) (s : ChannelProvider P) : ChannelProvider P :=
  match s with
  | NoChannelStage _ => NoChannelStage p
  | ActiveBank cb => ActiveBank (cb_set_prev p cb)
  | ActiveAssembler ca => ActiveAssembler (ca_set_prev p ca)
  end.
Definition cm_set_prev (p : P) (c : ChannelMux P) : ChannelMux P :=
  mkChannelMux (cm_spec c) (provider_set_prev p (cm_stage c)).

(** Both stages report the origin of the stage below. *)
#[export] Instance ChannelMux_origin : HasOrigin (ChannelMux P) := λ c, Origin (cm_prev c).

Definition nil_stage {A} : Res A := Panic "nil RawChannelProvider".

(** Calls on the embedded stage. *)
Definition ChannelMux_NextRawChannel (c : ChannelMux P) : Res bytes * ChannelMux P :=
  match cm_stage c with
  | NoChannelStage _ => (nil_stage, c)
  | ActiveBank cb =>
    let '(r, cb) := NextRawChannel cb in (r, mkChannelMux (cm_spec c) (ActiveBank cb))
  | ActiveAssembler ca =>
    let '(r, ca) := NextRawChannel ca in (r, mkChannelMux (cm_spec c) (ActiveAssembler ca))
  end.

#[export] Instance ChannelMux_FlushChannel : ChannelFlusher (ChannelMux P) := λ c,
  match cm_stage c with
  | NoChannelStage _ => (nil_stage, c)
  | ActiveBank cb =>
    let '(r, cb) := FlushChannel cb in (r, mkChannelMux (cm_spec c) (ActiveBank cb))
  | ActiveAssembler ca =>
    let '(r, ca) := FlushChannel ca in (r, mkChannelMux (cm_spec c) (ActiveAssembler ca))
  end.

#[export] Instance ChannelMux_Reset : ResettableStage (ChannelMux P) := λ c base sysCfg,
  if spec_IsHolocene (cm_spec c) (l1_Time base) then
    let ca := match cm_stage c with
              | ActiveAssembler ca => ca
              | s => NewChannelAssembler (cm_spec c) (provider_prev s)
              end in
    let '(r, ca) := Reset ca base sysCfg in (r, mkChannelMux (cm_spec c) (ActiveAssembler ca))
  else
    let cb := match cm_stage c with
              | ActiveBank cb => cb
              | s => NewChannelBank (cm_spec c) (provider_prev s)
              end in
    let '(r, cb) := Reset cb base sysCfg in (r, mkChannelMux (cm_spec c) (ActiveBank cb)).

Definition cm_TransformHolocene (c : ChannelMux P) : Res (ChannelMux P) :=
  match cm_stage c with
  | ActiveBank cb =>
    Ok (mkChannelMux (cm_spec c) (ActiveAssembler (NewChannelAssembler (cm_spec c) (cb_prev cb))))
  | ActiveAssembler _ => Panic "Holocene ChannelAssembler already active"
  | NoChannelStage _ => Panic "unknown channel stage type"
  end.
#[export] Instance ChannelMux_Transform : ForkTransformer (ChannelMux P) := λ c f,
  match f with Holocene => cm_TransformHolocene c | _ => Ok c end.

#[export] Instance ChannelMux_provider : RawChannelProvider (ChannelMux P) := {
  NextRawChannel := ChannelMux_NextRawChannel }.

#[export] Instance ChannelMux_stable `{!NextFrameStable P, !NextFrameTyped P}
  : NextRawChannelStable (ChannelMux P).
Proof.
  intros [sp [p|cb|ca]]; cbn; [done|..]; unfold ChannelMux_NextRawChannel; cbn.
  - pose proof (NextRawChannel_origin cb) as Ho. cbn in Ho.
    destruct (ChannelBank_NextRawChannel cb) as [r cb']. exact Ho.
  - pose proof (NextRawChannel_origin ca) as Ho. cbn in Ho.
    destruct (ChannelAssembler_NextRawChannel ca) as [r ca']. exact Ho.
Qed.

(** The active stage is the one the rules of the L1 block at time [t] call for. *)
Definition stage_matches (c : ChannelMux P) (t : Z) : bool :=
  match cm_stage c with
  | NoChannelStage _ => false
  | ActiveBank _ => negb (spec_IsHolocene (cm_spec c) t)
  | ActiveAssembler _ => spec_IsHolocene (cm_spec c) t
  end.

(** Nothing is buffered. *)
Definition stage_empty (c : ChannelMux P) : Prop :=
  match cm_stage c with
  | NoChannelStage _ => True
  | ActiveBank cb => cb_channels cb = ∅ ∧ cb_channelQueue cb = []
  | ActiveAssembler ca => ca_channel ca = None
  end.

(** a reset activates exactly the channel stage that the fork rules of the reset
    origin call for, empty and reading from the same stage below; a transform to
    Holocene succeeds exactly when the bank is active, and then the assembler
    takes over without a staging channel, so buffered pre-Holocene channels are
    gone. *)
Theorem ChannelMux_swaps (c : ChannelMux P) base sc :
  let c' := (Reset c base sc).2 in
  (Reset c base sc).1 = Err io_EOF ∧ cm_prev c' = cm_prev c ∧
  stage_matches c' (l1_Time base) = true ∧ stage_empty c' ∧
  ∀ c'', Transform c Holocene = Ok c'' ↔
    (∃ cb, cm_stage c = ActiveBank cb) ∧
    c'' = mkChannelMux (cm_spec c) (ActiveAssembler (NewChannelAssembler (cm_spec c) (cm_prev c))).
Proof.
  destruct c as [sp s]. unfold Reset, ChannelMux_Reset, stage_matches, stage_empty, cm_prev.
  cbn -[spec_IsHolocene]. split_and!.
  1-4: destruct (spec_IsHolocene sp (l1_Time base)) eqn:E; destruct s;
    cbn -[spec_IsHolocene]; rewrite ?E; done.
  intros c''. unfold Transform, ChannelMux_Transform, cm_TransformHolocene. cbn.
  destruct s; naive_solver.
Qed.
End mux.
