(* ===== verification/ChannelInReader.v ===== *)
(** * The channel reader

    Models [op-node/rollup/derive/channel_in_reader.go] and [BatchReader] of
    [channel.go]: the stage that decompresses a channel and reads batches off it.
    Decompression and the RLP stream come from libraries; they are the operations
    of a class. *)

From S2P Require Import Prelude GoBytes Errors Eth RollupConfig ChainSpec SpanBatchTxs SpanBatch SpanBatchRoundtrip.
From S2P Require Import Frame Stages.

(** A decompressed RLP stream with a size limit, over zlib or brotli data; one item
    of it. *)
Class Decompress := {
  rlp_stream : Type;
  zlib_stream : Z → bytes → Res rlp_stream;
  brotli_stream : Z → bytes → rlp_stream;
  stream_Bytes : rlp_stream → Res bytes * rlp_stream;
}.

Definition ZlibCM8 : Z := 8.
Definition ZlibCM15 : Z := 15.
Definition ChannelVersionBrotli : Z := 1.

Section reader.
Context `{Decompress} `{TxLib} `{BatchRLP}.

(** [BatchReader]: the kind of compression is told from the first byte. *)
Definition BatchReader (data : bytes) (maxRLPBytesPerChannel : Z) (isFjord : bool) : Res rlp_stream :=
  match data with
  | [] => Err io_EOF
  | b :: rest =>
    if (Z.land (b2z b) 15 =? ZlibCM8) || (Z.land (b2z b) 15 =? ZlibCM15)
    then zlib_stream maxRLPBytesPerChannel data
    else if b2z b =? ChannelVersionBrotli then
      if negb isFjord then Err (ErrorsNew "cannot accept brotli compressed batch before Fjord")
      else Ok (brotli_stream maxRLPBytesPerChannel rest)
    else Err (ErrorsNew "cannot distinguish the compression algo used given type byte")
  end.

(** The function [BatchReader] returns: the next item of the stream as a batch. *)
Definition next_batch (s : rlp_stream) : Res BatchData * rlp_stream :=
  let '(r, s) := stream_Bytes s in (v ← r; decodeTyped v, s).
End reader.

Record ChannelInReader `{Decompress} (P : Type) := mkChannelInReader {
  cr_spec : ChainSpec;
  cr_cfg : Config;
  cr_nextBatchFn : option rlp_stream;
  cr_prev : P }.
Arguments mkChannelInReader {_ P}.
Arguments cr_spec {_ P}.
Arguments cr_cfg {_ P}.
Arguments cr_nextBatchFn {_ P}.
Arguments cr_prev {_ P}.

Section stage.
Context `{Decompress} `{TxLib} `{BatchRLP} {P : Type} `{RawChannelProvider P}.
Implicit Type cr : ChannelInReader P.

Definition NewChannelInReader (cfg : Config) (prev : P) : ChannelInReader P :=
  mkChannelInReader (NewChainSpec cfg) cfg None prev.

#[export] Instance ChannelInReader_origin : HasOrigin (ChannelInReader P) := λ cr, Origin (cr_prev cr).

Definition cr_set_fn (f : option rlp_stream) cr : ChannelInReader P :=
  mkChannelInReader (cr_spec cr) (cr_cfg cr) f (cr_prev cr).
Definition cr_set_prev (p : P) cr : ChannelInReader P :=
  mkChannelInReader (cr_spec cr) (cr_cfg cr) (cr_nextBatchFn cr) p.

Definition WriteChannel cr (data : bytes) : Res unit * ChannelInReader P :=
  let t := l1_Time (Origin (cr_prev cr)) in
  match BatchReader data (MaxRLPBytesPerChannel (cr_spec cr) t) (IsFjord (cr_cfg cr) t) with
  | Ok s => (Ok (), cr_set_fn (Some s) cr)
  | Err e => (Err e, cr)
  | Panic w => (Panic w, cr)
  end.
Definition NextChannel cr : ChannelInReader P := cr_set_fn None cr.

(** A decoded batch by its kind. A nil chain id makes the derivation panic. *)
Definition to_batch cr (d : BatchData) : Res Batch :=
  match d with
  | InnerSingular s => Ok (Singular s)
  | InnerSpan _ =>
    if negb (IsDelta (cr_cfg cr) (l1_Time (Origin cr))) then Err NotEnoughData
    else match cfg_L2ChainID (cr_cfg cr) with
         | None => Panic "nil pointer dereference"
         | Some chainID =>
           match DeriveSpanBatch d (cfg_BlockTime (cr_cfg cr)) (gen_L2Time (cfg_Genesis (cr_cfg cr))) chainID with
           | Ok s => Ok (Span s)
           | Err e => Err (if errors_Is e (TLevel LevelCritical) then e else NotEnoughData)
           | Panic w => Panic w
           end
         end
  end.

(** The rest of [NextBatch] once a channel is open. *)
Definition read_batch cr (s : rlp_stream) : Res Batch * ChannelInReader P :=
  let '(r, s) := next_batch s in
  match r with
  | Panic w => (Panic w, cr)
  | Err _ => (Err NotEnoughData, NextChannel cr)
  | Ok d => (to_batch cr d, cr_set_fn (Some s) cr)
  end.

Definition ChannelInReader_NextBatch cr : Res Batch * ChannelInReader P :=
  match cr_nextBatchFn cr with
  | Some s => read_batch cr s
  | None =>
    let '(r, p) := NextRawChannel (cr_prev cr) in
    let cr := cr_set_prev p cr in
    match r with
    | Panic w => (Panic w, cr)
    | Err e => (Err e, cr)
    | Ok data =>
      let '(r, cr) := WriteChannel cr data in
      match r with
      | Panic w => (Panic w, cr)
      | Err _ => (Err NotEnoughData, cr)
      | Ok () =>
        match cr_nextBatchFn cr with
        | Some s => read_batch cr s
        | None => (Panic "nil function", cr)
        end
      end
    end
  end.

#[export] Instance ChannelInReader_Reset : ResettableStage (ChannelInReader P) := λ cr _ _,
  (Err io_EOF, cr_set_fn None cr).
#[export] Instance ChannelInReader_FlushChannel : ChannelFlusher (ChannelInReader P) := λ cr,
  let '(r, p) := FlushChannel (cr_prev cr) in (r, cr_set_prev p (cr_set_fn None cr)).
#[export] Instance ChannelInReader_provider : NextBatchProvider (ChannelInReader P) :=
  {| NextBatch := ChannelInReader_NextBatch |}.

(** ** Properties *)

Lemma decoded_count r b r' : RawSpanBatch_decode r = (Ok b, r') → 0 < blockCount (payload b).
Proof.
  unfold RawSpanBatch_decode. intros Hd. apply rd_bind_ok in Hd as (p & r1 & _ & Hd).
  apply rd_bind_ok in Hd as (q & r2 & Hq & [= <- <-]). cbn [payload].
  rewrite rd_err_ok in Hq. unfold decodePayload in Hq. apply rd_bind_ok in Hq as (n & r3 & Hn & Hq).
  assert (Hpos : 0 < n).
  { unfold decodeBlockCount in Hn. apply rd_bind_ok in Hn as (m & r4 & Hm & Hn).
    rewrite rd_err_ok in Hm. apply ReadUvarint_nonneg in Hm.
    destruct (_ <? _); [done|]. destruct (Z.eqb_spec m 0); [done|]. injection Hn as <- _. lia. }
  repeat (apply rd_bind_ok in Hq as (? & ? & _ & Hq)). by injection Hq as <- _.
Qed.

Lemma length_origin_nums n bits o acc : length (origin_nums n bits o acc) = (n + length acc)%nat.
Proof. revert o acc. induction n as [|n IH]; intros o acc; [done|]. cbn [origin_nums]. rewrite IH. cbn. lia. Qed.
Lemma length_derive_blocks bt first i origins counts txs l :
  derive_blocks bt first i origins counts txs = Ok l → length l = length origins.
Proof.
  revert i counts txs l. induction origins as [|o origins IH]; intros i counts txs l Hd; [by simplify_eq/=|].
  cbn [derive_blocks] in Hd. destruct counts as [|n counts]; [done|]. destruct (_ <? _)%nat; [done|].
  inv_bind Hd. simplify_eq/=. f_equal. by eapply IH.
Qed.
Lemma derived_nonempty raw bt genesis chainID s :
  0 < blockCount (payload raw) → ToSpanBatch raw bt genesis chainID = Ok s → span_Batches s ≠ [].
Proof.
  intros Hpos Hd. unfold ToSpanBatch, RawSpanBatch_derive in Hd.
  rewrite (proj2 (Z.eqb_neq _ _)) in Hd by lia. inv_bind Hd. simplify_eq/=.
  match goal with Hb : derive_blocks _ _ _ _ _ _ = Ok _ |- _ => apply length_derive_blocks in Hb end.
  rewrite length_origin_nums in *. intros ->. cbn in *. lia.
Qed.

(** Decoded span batches have blocks: what the batch stages rely on. *)
#[export] Instance ChannelInReader_nonempty : NextBatchNonEmpty (ChannelInReader P).
Proof.
  intros cr s Hs.
  assert (Hread : ∀ cr str, (read_batch cr str).1 = Ok (Span s) → span_Batches s ≠ []).
  { clear. intros cr str. unfold read_batch, next_batch.
    destruct (stream_Bytes str) as [r str'] eqn:Hstr. destruct (v ← r; decodeTyped v) as [d|e|w] eqn:Hd; [|done..].
    apply bind_ok in Hd as (v & -> & Hd). cbn [fst]. unfold to_batch. destruct d as [x|raw]; [done|].
    destruct (negb _); [done|]. destruct (cfg_L2ChainID _); [|done].
    unfold DeriveSpanBatch. destruct (ToSpanBatch _ _ _ _) eqn:Ht; intros [= <-]; [|done..].
    eapply derived_nonempty; [|exact Ht]. unfold decodeTyped in Hd. destruct v as [|t r]; [done|].
    destruct (decide _); [inv_bind Hd; by simplify_eq|]. destruct (decide _); [|done].
    destruct (RawSpanBatch_decode r) as [x r'] eqn:Hr. inv_bind Hd. simplify_eq/=. by eapply decoded_count. }
  change (NextBatch cr) with (ChannelInReader_NextBatch cr) in Hs. unfold ChannelInReader_NextBatch in Hs.
  destruct (cr_nextBatchFn cr); [by eapply Hread|].
  destruct (NextRawChannel (cr_prev cr)) as [[data|e|w] p]; [|done..].
  destruct (WriteChannel _ data) as [[[]|e|w] cr']; [|done..].
  destruct (cr_nextBatchFn cr'); [by eapply Hread|done].
Qed.

(** The items of a stream, up to its end. *)
Inductive streams : rlp_stream → list bytes → Prop :=
| streams_end s e s' : stream_Bytes s = (Err e, s') → streams s []
| streams_item s d s' ds : stream_Bytes s = (Ok d, s') → streams s' ds → streams s (d :: ds).

(** [n] calls in a row: the results and the state after them. *)
Fixpoint pull (n : nat) cr : list (Res Batch) * ChannelInReader P :=
  match n with
  | O => ([], cr)
  | S n => let '(r, cr) := ChannelInReader_NextBatch cr in
           let '(rs, cr) := pull n cr in (r :: rs, cr)
  end.

Lemma pull_open ds bs s cr :
  streams s ds → Forall2 (λ d b, decodeTyped d = Ok b) ds bs → cr_nextBatchFn cr = Some s →
  pull (S (length ds)) cr = ((to_batch cr <$> bs) ++ [Err NotEnoughData], cr_set_fn None cr).
Proof.
  intros Hs. revert bs cr. induction Hs as [s e s' He|s d s' ds Hd Hs IH]; intros bs cr Hbs Hfn.
  - inversion_clear Hbs. cbn [length pull]. unfold ChannelInReader_NextBatch. rewrite Hfn.
    unfold read_batch, next_batch. by rewrite He.
  - inversion_clear Hbs as [|? b ? bs' Hb Hbs']. cbn [length]. cbn [pull].
    unfold ChannelInReader_NextBatch at 1. rewrite Hfn. unfold read_batch, next_batch. rewrite Hd.
    cbn [mbind res_bind]. rewrite Hb. fold (pull (S (length ds)) (cr_set_fn (Some s') cr)).
    specialize (IH bs' (cr_set_fn (Some s') cr) Hbs' eq_refl). cbn [length pull] in IH. rewrite IH. done.
Qed.

(** C39: a channel the stage opens is read to the end: one call per item returns its
    batch - a singular batch as it is, a span batch derived with the block time, the
    genesis time and the chain id of the configuration - in the order of the channel,
    and one more call moves on to the next channel. *)
Theorem channel_batches cr data p s ds bs :
  cr_nextBatchFn cr = None → NextRawChannel (cr_prev cr) = (Ok data, p) →
  (let t := l1_Time (Origin p) in
   BatchReader data (MaxRLPBytesPerChannel (cr_spec cr) t) (IsFjord (cr_cfg cr) t) = Ok s) →
  streams s ds → Forall2 (λ d b, decodeTyped d = Ok b) ds bs →
  pull (S (length ds)) cr
  = ((to_batch (cr_set_prev p cr) <$> bs) ++ [Err NotEnoughData], cr_set_prev p cr).
Proof.
  intros Hfn Hraw Hopen Hs Hbs.
  pose proof (pull_open ds bs s (cr_set_fn (Some s) (cr_set_prev p cr)) Hs Hbs eq_refl) as Hp.
  assert (Hfirst : ChannelInReader_NextBatch cr
    = ChannelInReader_NextBatch (cr_set_fn (Some s) (cr_set_prev p cr))).
  { unfold ChannelInReader_NextBatch at 1. rewrite Hfn, Hraw. unfold WriteChannel.
    change (cr_prev (cr_set_prev p cr)) with p. change (cr_spec (cr_set_prev p cr)) with (cr_spec cr).
    change (cr_cfg (cr_set_prev p cr)) with (cr_cfg cr). cbv zeta in Hopen |- *. by rewrite Hopen. }
  cbn [pull] in Hp |- *. rewrite Hfirst, Hp. f_equal. destruct cr as [spec cfg fn prev].
  cbn in Hfn. by rewrite Hfn.
Qed.
End stage.

(** ** An example: a channel with two singular batches *)

Module ReaderExample.
(** Streams are lists of items; the toy compression is one item per byte. *)
#[global] Instance decompress : Decompress := {
  rlp_stream := list bytes;
  zlib_stream _ d := Ok ((λ b, [x00; b]) <$> drop 1 d);
  brotli_stream _ d := (λ b, [x00; b]) <$> d;
  stream_Bytes s := match s with [] => (Err io_EOF, []) | d :: s => (Ok d, s) end;
}.
#[global] Instance rlp : BatchRLP := {
  rlp_EncodeSingular s := take 1 (sb_ParentHash s);
  rlp_DecodeSingular d := Ok (mkSingularBatch d 0 [] 0 []);
}.
Definition raw_src : Type := list bytes.
#[global] Instance raw_provider : RawChannelProvider raw_src := {|
  rcp_origin _ := zeroL1;
  rcp_reset p _ _ := (Err io_EOF, p);
  rcp_flush p := (Ok (), p);
  NextRawChannel p := match p with [] => (Err io_EOF, []) | d :: p => (Ok d, p) end;
|}.
Definition reader : ChannelInReader raw_src := NewChannelInReader ExampleConfig.cfg [[x78; xaa; xbb]].
Definition item (b : byte) : SingularBatch := mkSingularBatch [b] 0 [] 0 [].
End ReaderExample.
#[local] Existing Instance SpanExample.lib.

Lemma channel_batches_witness :
  (pull 3 ReaderExample.reader).1
  = [Ok (Singular (ReaderExample.item xaa)); Ok (Singular (ReaderExample.item xbb)); Err NotEnoughData].
Proof.
  rewrite (channel_batches ReaderExample.reader [x78; xaa; xbb] [] [[x00; xaa]; [x00; xbb]]
    [[x00; xaa]; [x00; xbb]]
    [InnerSingular (ReaderExample.item xaa); InnerSingular (ReaderExample.item xbb)]);
    [done|done|done|by vm_compute| |].
  - econstructor; [done|]. econstructor; [done|]. by eapply streams_end.
  - by repeat constructor.
Defined.
