(* ===== verification/BaseBatchStage.v ===== *)
(** * What the batch stages share

    Models [op-node/rollup/derive/base_batch_stage.go]: the L1 blocks a batch may
    refer to, the queue of singular batches of a span batch, and the generation of
    empty batches once the sequencing window has passed. *)

From S2P Require Import Prelude GoBytes Errors Eth RollupConfig ChainSpec SpanBatch Batches Frame Stages.

Record baseBatchStage (P L : Type) := mkBaseBatchStage {
  bs_config : Config;
  bs_prev : P;
  bs_l2 : L;
  bs_origin : L1BlockRef;
  bs_l1Blocks : list L1BlockRef;
  bs_nextSpan : list SingularBatch }.
Arguments mkBaseBatchStage {P L}.
Arguments bs_config {P L}.
Arguments bs_prev {P L}.
Arguments bs_l2 {P L}.
Arguments bs_origin {P L}.
Arguments bs_l1Blocks {P L}.
Arguments bs_nextSpan {P L}.

Section base.
Context {P L : Type} `{HasOrigin P}.
Implicit Type bs : baseBatchStage P L.

Definition newBaseBatchStage (cfg : Config) (prev : P) (l2 : L) : baseBatchStage P L :=
  mkBaseBatchStage cfg prev l2 zeroL1 [] [].

Definition bs_set_prev (p : P) bs : baseBatchStage P L :=
  mkBaseBatchStage (bs_config bs) p (bs_l2 bs) (bs_origin bs) (bs_l1Blocks bs) (bs_nextSpan bs).
Definition bs_set_nextSpan (l : list SingularBatch) bs : baseBatchStage P L :=
  mkBaseBatchStage (bs_config bs) (bs_prev bs) (bs_l2 bs) (bs_origin bs) (bs_l1Blocks bs) l.
Definition bs_set_l1Blocks (l : list L1BlockRef) bs : baseBatchStage P L :=
  mkBaseBatchStage (bs_config bs) (bs_prev bs) (bs_l2 bs) (bs_origin bs) l (bs_nextSpan bs).
Definition bs_set_origin (o : L1BlockRef) bs : baseBatchStage P L :=
  mkBaseBatchStage (bs_config bs) (bs_prev bs) (bs_l2 bs) o (bs_l1Blocks bs) (bs_nextSpan bs).

#[export] Instance baseBatchStage_origin : HasOrigin (baseBatchStage P L) := λ bs, Origin (bs_prev bs).

(** The batch gets the block it is applied on as its parent. *)
Definition with_parent (h : Hash) (b : SingularBatch) : SingularBatch :=
  mkSingularBatch h (sb_EpochNum b) (sb_EpochHash b) (sb_Timestamp b) (sb_Transactions b).
Definition popNextBatch bs (parent : L2BlockRef) : Res SingularBatch * baseBatchStage P L :=
  match bs_nextSpan bs with
  | [] => (Panic "popping non-existent span-batch, invalid state", bs)
  | b :: rest => (Ok (with_parent (l2_Hash parent) b), bs_set_nextSpan rest bs)
  end.

(** A cached batch that does not follow the parent means the one before it was
    invalid: the whole cache is dropped. *)
Definition nextFromSpanBatch bs (parent : L2BlockRef)
    : option (SingularBatch * bool) * baseBatchStage P L :=
  match bs_nextSpan bs with
  | [] => (None, bs)
  | b :: rest =>
    if sb_Timestamp b =? l2_Time parent +₆₄ cfg_BlockTime (bs_config bs)
    then (Some (with_parent (l2_Hash parent) b, bool_decide (rest = [])), bs_set_nextSpan rest bs)
    else (None, bs_set_nextSpan [] bs)
  end.

Definition originBehind bs (parent : L2BlockRef) : bool :=
  l1_Number (Origin (bs_prev bs)) <? id_Number (l2_L1Origin parent).

(** From the first block with the number on; all blocks when there is none. *)
Fixpoint from_number (n : Z) (all l1Blocks : list L1BlockRef) : list L1BlockRef :=
  match l1Blocks with
  | [] => all
  | b :: rest => if n =? l1_Number b then b :: rest else from_number n all rest
  end.
Definition advance_origins (n : Z) (l1Blocks : list L1BlockRef) : list L1BlockRef :=
  match l1Blocks with
  | [] => []
  | b :: _ => if l1_Number b <? n then from_number n l1Blocks l1Blocks else l1Blocks
  end.

Definition updateOrigins bs (parent : L2BlockRef) : baseBatchStage P L :=
  let behind := originBehind bs parent in
  let bs :=
    if negb (bool_decide (bs_origin bs = Origin (bs_prev bs))) then
      let o := Origin (bs_prev bs) in
      bs_set_l1Blocks (if behind then [] else bs_l1Blocks bs ++ [o]) (bs_set_origin o bs)
    else bs in
  bs_set_l1Blocks (advance_origins (id_Number (l2_L1Origin parent)) (bs_l1Blocks bs)) bs.

Definition base_reset bs (base : L1BlockRef) : baseBatchStage P L :=
  bs_set_nextSpan [] (bs_set_l1Blocks [base] (bs_set_origin base bs)).

Definition deriveNextEmptyBatch bs (outOfData : bool) (parent : L2BlockRef)
    : Res SingularBatch * baseBatchStage P L :=
  match bs_l1Blocks bs with
  | [] => (Panic "index out of range", bs)
  | epoch :: more =>
    let expiryEpoch := l1_Number epoch +₆₄ cfg_SeqWindowSize (bs_config bs) in
    let forceEmptyBatches :=
      ((expiryEpoch =? l1_Number (bs_origin bs)) && outOfData) || (expiryEpoch <? l1_Number (bs_origin bs)) in
    let firstOfEpoch := l1_Number epoch =? id_Number (l2_L1Origin parent) +₆₄ 1 in
    let nextTimestamp := l2_Time parent +₆₄ cfg_BlockTime (bs_config bs) in
    if negb forceEmptyBatches then (Err io_EOF, bs)
    else match more with
         | [] => (Err io_EOF, bs)
         | nextEpoch :: _ =>
           if (nextTimestamp <? l1_Time nextEpoch) || firstOfEpoch then
             (Ok (mkSingularBatch (l2_Hash parent) (l1_Number epoch) (l1_Hash epoch) nextTimestamp []), bs)
           else (Err io_EOF, bs_set_l1Blocks more bs)
         end
  end.

(** ** Properties *)

Lemma updateOrigins_base (b : baseBatchStage P L) parent :
  bs_config (updateOrigins b parent) = bs_config b ∧ bs_l2 (updateOrigins b parent) = bs_l2 b ∧
  bs_prev (updateOrigins b parent) = bs_prev b ∧ bs_origin (updateOrigins b parent) = Origin (bs_prev b).
Proof.
  unfold updateOrigins. destruct (bool_decide_reflect (bs_origin b = Origin (bs_prev b))); by cbn.
Qed.

(** A batch made up because the sequencing window of the epoch is over: empty, for
    the first buffered epoch, and either ahead of the next L1 block or the first
    block of its epoch. *)
Record forced_empty (b : baseBatchStage P L) (parent : L2BlockRef) (s : SingularBatch) : Prop := {
  fe_txs : sb_Transactions s = [];
  fe_epoch : ∃ epoch next more, bs_l1Blocks b = epoch :: next :: more ∧ sb_Epoch s = L1_ID epoch ∧
    l1_Number epoch +₆₄ cfg_SeqWindowSize (bs_config b) ≤ l1_Number (bs_origin b) ∧
    (sb_Timestamp s < l1_Time next ∨ l1_Number epoch = id_Number (l2_L1Origin parent) +₆₄ 1);
}.

Lemma deriveNextEmptyBatch_spec (b : baseBatchStage P L) outOfData parent r b' :
  deriveNextEmptyBatch b outOfData parent = (r, b') →
  match r with
  | Ok s => b' = b ∧ forced_empty b parent s ∧ sb_ParentHash s = l2_Hash parent ∧
      sb_Timestamp s = l2_Time parent +₆₄ cfg_BlockTime (bs_config b)
  | Err e => e = io_EOF
  | Panic _ => bs_l1Blocks b = []
  end.
Proof.
  unfold deriveNextEmptyBatch. destruct (bs_l1Blocks b) as [|epoch more] eqn:Hl; [by intros [= <- <-]|].
  destruct (negb _) eqn:Hforce; [by intros [= <- <-]|]. destruct more as [|next more]; [by intros [= <- <-]|].
  destruct ((_ <? l1_Time next) || _) eqn:Hgen; [|by intros [= <- <-]]. intros [= <- <-].
  split; [done|]. split; [|done]. split; [done|]. exists epoch, next, more. rewrite Hl.
  split; [done|]. split; [done|]. split; bool2prop; cbn [sb_Timestamp].
  - destruct Hforce as [[Hq _]%andb_true_iff|Hq]; bool2prop; lia.
  - destruct Hgen; bool2prop; auto.
Qed.
End base.
