(* ===== verification/SpanSingular.v ===== *)
(** * Span batches and singular batches agree

    A span batch that passes the full check can always be split into singular
    batches, and these pass the check of singular batches one after the other,
    each on top of the block before it: the batch stages may treat the blocks of a
    span batch as if they had been posted one by one. *)

From S2P Require Import Prelude GoBytes Errors Eth RollupConfig ChainSpec Geth SpanBatchTxs SpanBatch.
From S2P Require Import SysConfig L1BlockInfo Batches Frame Stages BaseBatchStage.

(** ** Splitting succeeds *)

Lemma check_blocks_extract cfg l1 safe adv idx prev els :
  check_blocks cfg l1 safe adv idx prev els = None →
  ∃ l, singular_batches l1 safe idx els = Ok l.
Proof.
  revert idx prev. induction els as [|e els IH]; intros idx prev Hc; [by eexists|].
  cbn [check_blocks singular_batches] in *.
  destruct (el_Timestamp e <=? l2_Time safe); [by eapply IH|].
  destruct (el_EpochNum e <? id_Number (l2_L1Origin safe)); [done|].
  destruct (find_origin _ _ _) as [[i o]|]; [|done].
  destruct (check_block _ _ _ _ _ _); [done|]. apply IH in Hc as (l & ->). by eexists.
Qed.

(** Stopping early is never an acceptance. *)
Lemma check_block_stop cfg l1 idx o adv e v :
  check_block cfg l1 idx o adv e = Some v → v ≠ BatchAccept.
Proof.
  unfold check_block. destruct (_ <? _); [naive_solver|]. destruct (_ <? _); [|case_match; naive_solver].
  destruct (el_Transactions e); [|naive_solver]. destruct (negb adv); [|case_match; naive_solver].
  destruct (l1 !! S idx); [|naive_solver]. destruct (_ <=? _); [naive_solver|]. case_match; naive_solver.
Qed.
Lemma check_blocks_stop cfg l1 safe adv idx prev els v :
  check_blocks cfg l1 safe adv idx prev els = Some v → v ≠ BatchAccept.
Proof.
  revert idx prev. induction els as [|e els IH]; intros idx prev Hc; [done|]. cbn [check_blocks] in Hc.
  destruct (_ <=? _); [by eapply IH|]. destruct (_ <? _); [naive_solver|].
  destruct (find_origin _ _ _) as [[i o]|]; [|naive_solver].
  destruct (check_block _ _ _ _ _ _) eqn:Hb; [|by eapply IH].
  simplify_eq. by eapply check_block_stop.
Qed.

Lemma singular_batches_nonempty l1 safe idx els l e :
  singular_batches l1 safe idx els = Ok l → e ∈ els → l2_Time safe < el_Timestamp e → l ≠ [].
Proof.
  revert idx l. induction els as [|x els IH]; intros idx l Hs He Ht; [set_solver|].
  cbn [singular_batches] in Hs. destruct (Z.leb_spec (el_Timestamp x) (l2_Time safe)) as [Hx|Hx].
  - apply list_elem_of_In in He as [->|He]; [lia|]. apply list_elem_of_In in He. by eapply IH.
  - destruct (el_EpochNum x <? _); [done|]. destruct (find_origin _ _ _) as [[i o]|]; [|done].
    inv_bind Hs. by simplify_eq/=.
Qed.

Lemma span_peek_last b e : span_peek b 0 = Ok e → last (span_Batches b) = Some e.
Proof.
  unfold span_peek. rewrite Nat.sub_0_r, take_ge by lia. destruct (last _); naive_solver.
Qed.

Section prefix.
Context {L : Type} `{SafeBlockFetcher L}.

(** What an accepted prefix says. *)
Lemma prefix_accept cfg l1 safe batch incl (l2 : L) parent :
  checkSpanBatchPrefix cfg l1 safe batch incl l2 = Ok (BatchAccept, parent) →
  ∃ epoch more e0 en,
    l1 = epoch :: more ∧ span_at batch 0 = Ok e0 ∧ last (span_Batches batch) = Some en ∧
    el_Timestamp e0 ≤ l2_Time safe +₆₄ cfg_BlockTime cfg ∧
    l2_Time safe +₆₄ cfg_BlockTime cfg ≤ el_Timestamp en ∧
    (el_Timestamp e0 = l2_Time safe +₆₄ cfg_BlockTime cfg → parent = safe) ∧
    l1_Number incl ≤ el_EpochNum e0 +₆₄ cfg_SeqWindowSize cfg ∧
    id_Number (l2_L1Origin parent) ≤ el_EpochNum e0 ≤ id_Number (l2_L1Origin parent) +₆₄ 1.
Proof.
  intros Hc. unfold checkSpanBatchPrefix in Hc. destruct l1 as [|epoch more]; [done|].
  unfold GetStartEpochNum, GetTimestamp, GetLastTimestamp, GetLastEpochNum in Hc.
  destruct (span_at batch 0) as [e0|?|?] eqn:He0; try done. cbn [mbind res_bind] in Hc.
  destruct (if el_EpochNum e0 =? _ then head more else Some epoch) as [bo|]; [|done].
  destruct (negb (IsDelta cfg (l1_Time bo))); [done|].
  destruct (span_peek batch 0) as [en|?|?] eqn:Hen; try done. cbn [mbind res_bind] in Hc.
  destruct (Z.ltb_spec (l2_Time safe +₆₄ cfg_BlockTime cfg) (el_Timestamp e0)); [by case_match|].
  destruct (Z.ltb_spec (el_Timestamp en) (l2_Time safe +₆₄ cfg_BlockTime cfg)); [by case_match|].
  apply bind_ok in Hc as (p & Hp & Hc). destruct p as [pb|v].
  2: { exfalso. unfold span_parent in Hp. repeat case_match; naive_solver. }
  destruct (CheckParentHash batch (l2_Hash pb)); [|done]. cbn [negb] in Hc.
  destruct (Z.ltb_spec (el_EpochNum e0 +₆₄ cfg_SeqWindowSize cfg) (l1_Number incl)); [done|].
  destruct (Z.ltb_spec (id_Number (l2_L1Origin pb) +₆₄ 1) (el_EpochNum e0)); [done|].
  destruct (check_origin _ _ _) as [[]|]; [|done|done].
  destruct (Z.ltb_spec (el_EpochNum e0) (id_Number (l2_L1Origin pb))); [done|]. simplify_eq.
  exists epoch, more, e0, en. split_and!; try done; [by apply span_peek_last|].
  intros Heq. unfold span_parent in Hp. rewrite Heq, Z.ltb_irrefl in Hp. by simplify_eq.
Qed.

Lemma prefix_extract_nonempty cfg l1 safe batch incl (l2 : L) parent l :
  0 < cfg_BlockTime cfg → is_u64 (l2_Time safe + cfg_BlockTime cfg) →
  checkSpanBatchPrefix cfg l1 safe batch incl l2 = Ok (BatchAccept, parent) →
  GetSingularBatches batch l1 safe = Ok l → l ≠ [].
Proof.
  intros Hbt Hu Hc Hl. apply prefix_accept in Hc as (_ & _ & _ & en & _ & _ & Hen & _ & Ht & _).
  rewrite wrap_small in Ht by done.
  eapply singular_batches_nonempty; [exact Hl|by apply last_Some_elem_of|]. lia.
Qed.
End prefix.

(** ** Replaying the blocks *)

(** The singular batches are accepted one by one. After each, the safe head is a
    block with its timestamp and L1 origin, and the L1 blocks before that origin
    are dropped. *)
Inductive replay (cfg : Config) (incl : L1BlockRef) :
    list L1BlockRef → L2BlockRef → list SingularBatch → Prop :=
| replay_nil l1 safe : replay cfg incl l1 safe []
| replay_cons l1 safe b bs :
  checkSingularBatch cfg l1 safe (with_parent (l2_Hash safe) b) incl = BatchAccept →
  (∀ safe', l2_Time safe' = sb_Timestamp b → l2_L1Origin safe' = sb_Epoch b →
     replay cfg incl (advance_origins (sb_EpochNum b) l1) safe' bs) →
  replay cfg incl l1 safe (b :: bs).

(** L1 blocks with consecutive numbers. *)
Definition consecutive (l1 : list L1BlockRef) : Prop :=
  Forall (λ b, is_u64 (l1_Number b)) l1 ∧
  ∀ i a b, l1 !! i = Some a → l1 !! S i = Some b → l1_Number b = l1_Number a + 1.

(** A run of blocks on top of one at time [t] with epoch [p]: block times apart,
    each epoch the one before or the next. *)
Fixpoint runs_on (bt t p : Z) (els : list SpanBatchElement) : Prop :=
  match els with
  | [] => True
  | e :: els => el_Timestamp e = t + bt ∧ is_u64 (t + bt) ∧
      (el_EpochNum e = p ∨ el_EpochNum e = p + 1) ∧ runs_on bt (el_Timestamp e) (el_EpochNum e) els
  end.

Section replay.
Context (cfg : Config) (incl : L1BlockRef) (l1 : list L1BlockRef) (safe : L2BlockRef).
Context (Hl1 : consecutive l1) (Hbt : 0 < cfg_BlockTime cfg).

(** The origin of a block is the current L1 block or the next one. *)
Lemma find_origin_next idx cur e :
  l1 !! idx = Some cur → el_EpochNum e = l1_Number cur ∨ el_EpochNum e = l1_Number cur + 1 →
  ∀ i o, find_origin (el_EpochNum e) idx (drop idx l1) = Some (i, o) →
  l1 !! i = Some o ∧ l1_Number o = el_EpochNum e ∧
  ((i = idx ∧ o = cur ∧ el_EpochNum e = l1_Number cur) ∨
   (i = S idx ∧ el_EpochNum e = l1_Number cur + 1)).
Proof.
  intros Hcur He i o. rewrite (drop_S _ _ _ Hcur). cbn [find_origin].
  destruct (Z.eqb_spec (l1_Number cur) (el_EpochNum e)) as [Heq|Hne].
  { intros [= <- <-]. split; [done|]. split; [done|]. left. auto. }
  destruct (l1 !! S idx) as [nx|] eqn:Hnx.
  2: { rewrite drop_ge by (by apply lookup_ge_None_1). done. }
  rewrite (drop_S _ _ _ Hnx). cbn [find_origin].
  assert (Hn : l1_Number nx = l1_Number cur + 1) by (by eapply (proj2 Hl1)).
  rewrite (proj2 (Z.eqb_eq _ _)) by lia. intros [= <- <-]. split; [done|]. split; [lia|]. right. lia.
Qed.

Lemma advance_to idx cur e i o :
  l1 !! idx = Some cur → l1 !! i = Some o → l1_Number o = el_EpochNum e →
  ((i = idx ∧ o = cur ∧ el_EpochNum e = l1_Number cur) ∨
   (i = S idx ∧ el_EpochNum e = l1_Number cur + 1)) →
  advance_origins (el_EpochNum e) (drop idx l1) = drop i l1.
Proof.
  intros Hcur Ho Hn Hcase. rewrite (drop_S _ _ _ Hcur). cbn [advance_origins].
  destruct Hcase as [(-> & -> & He)|(-> & He)].
  - rewrite (proj2 (Z.ltb_ge _ _)) by lia. by rewrite (drop_S _ _ _ Hcur).
  - rewrite (proj2 (Z.ltb_lt _ _)) by lia. cbn [from_number].
    rewrite (proj2 (Z.eqb_neq _ _)) by lia. rewrite (drop_S _ _ _ Ho). cbn [from_number].
    by rewrite (proj2 (Z.eqb_eq _ _)) by lia.
Qed.

Definition no_upgrade_txs (els : list SpanBatchElement) : Prop :=
  Forall (λ e, is_upgrade_block cfg (el_Timestamp e) = true → el_Transactions e = []) els.
Definition in_window (els : list SpanBatchElement) : Prop :=
  Forall (λ e, l1_Number incl ≤ el_EpochNum e +₆₄ cfg_SeqWindowSize cfg) els.

Lemma check_block_drift idx o adv e :
  check_block cfg l1 idx o adv e = None →
  l1_Time o ≤ el_Timestamp e ∧
  drift_check (l1_Time o +₆₄ MaxSequencerDrift (NewChainSpec cfg) (l1_Time o)) (el_Timestamp e)
    (el_Transactions e) adv (l1 !! S idx) = None ∧
  Forall (λ tx, tx_allowed (IsIsthmus cfg (el_Timestamp e)) tx = true) (el_Transactions e).
Proof.
  unfold check_block. destruct (Z.ltb_spec (el_Timestamp e) (l1_Time o)); [done|]. cbv zeta.
  fold (drift_check (l1_Time o +₆₄ MaxSequencerDrift (NewChainSpec cfg) (l1_Time o)) (el_Timestamp e)
    (el_Transactions e) adv (l1 !! S idx)).
  destruct (drift_check _ _ _ _ _); [done|].
  destruct (txs_allowed _ _) eqn:Ht; [|done]. by apply txs_allowed_spec in Ht.
Qed.

(** One block: the span check implies the singular check. *)
Lemma block_accept idx cur e i o head_ (adv : bool) :
  l1 !! idx = Some cur → l1 !! i = Some o → l1_Number o = el_EpochNum e →
  ((i = idx ∧ o = cur ∧ el_EpochNum e = l1_Number cur) ∨
   (i = S idx ∧ el_EpochNum e = l1_Number cur + 1)) →
  adv = (l1_Number cur <? el_EpochNum e) → check_block cfg l1 i o adv e = None →
  el_Timestamp e = l2_Time head_ + cfg_BlockTime cfg → is_u64 (l2_Time head_ + cfg_BlockTime cfg) →
  (is_upgrade_block cfg (el_Timestamp e) = true → el_Transactions e = []) →
  l1_Number incl ≤ el_EpochNum e +₆₄ cfg_SeqWindowSize cfg →
  checkSingularBatch cfg (drop idx l1) head_
    (mkSingularBatch (l2_Hash head_) (el_EpochNum e) (l1_Hash o) (el_Timestamp e) (el_Transactions e)) incl
  = BatchAccept.
Proof.
  intros Hcur Ho Hn Hcase Hadv Hchk Ht Hu Hup Hw.
  apply check_block_drift in Hchk as (Haft & Hd & Htx). rewrite (drop_S _ _ _ Hcur), checkSingularBatch_eq.
  cbn [sb_Timestamp sb_ParentHash sb_EpochNum sb_EpochHash sb_Transactions]. cbv zeta.
  rewrite (wrap_small 64 (l2_Time head_ + _)), <- Ht, Z.ltb_irrefl by done.
  rewrite bool_decide_eq_true_2 by done. cbn [negb]. rewrite (proj2 (Z.ltb_ge _ _)) by lia.
  assert (Hcu : is_u64 (l1_Number cur) ∧ is_u64 (el_EpochNum e)).
  { destruct Hl1 as [Hall _]. rewrite Forall_lookup in Hall. rewrite <- Hn. eauto. }
  assert (Horg : batch_origin cur (drop (S idx) l1) (el_EpochNum e) = inl o).
  { apply batch_origin_spec. destruct Hcase as [(-> & -> & He)|(-> & He)]; [by left|right].
    rewrite wrap_small by uint_lia. split; [lia|]. split; [done|]. by rewrite head_drop. }
  rewrite Horg, bool_decide_eq_true_2 by done. cbn [negb]. rewrite (proj2 (Z.ltb_ge _ _)) by lia.
  rewrite (proj2 (upgrade_spec _ _)) by done.
  assert (Hd' : drift_check (l1_Time o +₆₄ MaxSequencerDrift (NewChainSpec cfg) (l1_Time o)) (el_Timestamp e)
    (el_Transactions e) (negb (l1_Number cur =? l1_Number o)) (head (drop (S idx) l1)) = None).
  { rewrite head_drop. destruct Hcase as [(-> & -> & He)|(-> & He)].
    - rewrite Z.eqb_refl. cbn [negb]. rewrite Hadv, (proj2 (Z.ltb_ge _ _)) in Hd by lia. done.
    - rewrite Hn, (proj2 (Z.eqb_neq _ _)) by lia. rewrite Hadv, (proj2 (Z.ltb_lt _ _)) in Hd by lia.
      apply drift_check_spec in Hd. apply drift_check_spec. naive_solver. }
  rewrite Hd'. by rewrite (proj2 (txs_allowed_spec _ _)).
Qed.

Lemma blocks_replay els : ∀ idx cur head_ prev (adv : bool),
  l1 !! idx = Some cur → l2_Time safe ≤ l2_Time head_ →
  id_Number (l2_L1Origin safe) ≤ l1_Number cur →
  runs_on (cfg_BlockTime cfg) (l2_Time head_) (l1_Number cur) els →
  match prev with None => els = [] ∨ ∃ e rest, els = e :: rest ∧ adv = (l1_Number cur <? el_EpochNum e)
                | Some p => el_EpochNum p = l1_Number cur end →
  no_upgrade_txs els → in_window els →
  check_blocks cfg l1 safe adv idx prev els = None →
  ∃ l, singular_batches l1 safe idx els = Ok l ∧ length l = length els ∧
    replay cfg incl (drop idx l1) head_ l.
Proof.
  induction els as [|e els IH]; intros idx cur head_ prev adv Hcur Hsafe Hnum Hrun Hprev Hup Hwin Hchk.
  { exists []. split; [done|]. split; [done|]. constructor. }
  cbn [runs_on] in Hrun. destruct Hrun as (Ht & Hu & He & Hrun).
  inversion_clear Hup as [|? ? Hup1 Hup']. inversion_clear Hwin as [|? ? Hw1 Hwin'].
  cbn [check_blocks singular_batches] in *.
  rewrite (proj2 (Z.leb_gt _ _)) in Hchk |- * by lia.
  rewrite (proj2 (Z.ltb_ge (el_EpochNum e) _)) in Hchk |- * by lia.
  destruct (find_origin (el_EpochNum e) idx (drop idx l1)) as [[i o]|] eqn:Hf; [|done].
  destruct (find_origin_next idx cur e Hcur He i o Hf) as (Ho & Hn & Hcase).
  set (advanced := match prev with None => adv | Some p => el_EpochNum p <? el_EpochNum e end) in *.
  assert (Hadv : advanced = (l1_Number cur <? el_EpochNum e)).
  { unfold advanced. destruct prev as [p|]; [by rewrite Hprev|]. naive_solver. }
  destruct (check_block cfg l1 i o advanced e) eqn:Hb; [done|].
  assert (Hacc := block_accept idx cur e i o head_ advanced Hcur Ho Hn Hcase Hadv Hb Ht Hu Hup1 Hw1).
  assert (Hrec : ∀ h, l2_Time h = el_Timestamp e → ∃ l, singular_batches l1 safe i els = Ok l ∧
    length l = length els ∧ replay cfg incl (drop i l1) h l).
  { intros h Hh. apply (IH i o h (Some e) adv); [done|lia|lia|by rewrite Hh, Hn|done|done|done|done]. }
  destruct (Hrec (mkL2BlockRef zeroHash 0 zeroHash (el_Timestamp e) zeroBlockID 0) eq_refl)
    as (l & Hl & Hlen & _).
  rewrite Hl. cbn [mbind res_bind]. eexists. split; [done|]. split; [cbn; by rewrite Hlen|].
  constructor; [exact Hacc|]. cbn [sb_Timestamp sb_EpochNum]. intros h Hh _.
  rewrite (advance_to idx cur e i o) by done.
  destruct (Hrec h Hh) as (l' & Hl' & _ & Hr). rewrite Hl in Hl'. by injection Hl' as ->.
Qed.
End replay.

(** Later epochs are in the window of the first one. *)
Lemma window_grows cfg incl t p els :
  runs_on (cfg_BlockTime cfg) t p els →
  Forall (λ e, is_u64 (el_EpochNum e + cfg_SeqWindowSize cfg)) els →
  l1_Number incl ≤ p + cfg_SeqWindowSize cfg → in_window cfg incl els.
Proof.
  revert t p. induction els as [|e els IH]; intros t p Hrun Hu Hp; [constructor|].
  destruct Hrun as (_ & _ & He & Hrun). inversion_clear Hu as [|? ? Hu1 Hu'].
  assert (l1_Number incl ≤ el_EpochNum e + cfg_SeqWindowSize cfg) by lia.
  constructor; [by rewrite wrap_small|]. by eapply IH.
Qed.

Section theorem.
Context {L : Type} `{SafeBlockFetcher L} `{Geth}.

End theorem.

(** ** An example: two blocks across an epoch *)

Module ReplayExample.
Definition epoch : L1BlockRef := mkL1BlockRef (replicate 32 x01) 100 (replicate 32 x00) 1000.
Definition next : L1BlockRef := mkL1BlockRef (replicate 32 x02) 101 (replicate 32 x01) 1012.
Definition incl : L1BlockRef := mkL1BlockRef (replicate 32 x05) 105 (replicate 32 x04) 1060.
Definition safe : L2BlockRef :=
  mkL2BlockRef (replicate 32 x03) 5 (replicate 32 x06) 1010 (L1_ID epoch) 5.
Definition batch : SpanBatch :=
  mkSpanBatch (replicate 20 x03) (replicate 20 x02) 0 0
    [mkSpanBatchElement 100 1012 [[x02; xaa]]; mkSpanBatchElement 101 1014 []] 0 [] None.
(** No safe blocks are needed for a batch that does not overlap. *)
#[global] Instance no_blocks : SafeBlockFetcher unit := {
  L2BlockRefByNumber _ _ := Err (ErrorsNew "not available");
  PayloadByNumber _ _ := Err (ErrorsNew "not available");
}.
End ReplayExample.

