(* ===== verification/BatchQueue.v ===== *)
(** * The batch queue

    Models [op-node/rollup/derive/batch_queue.go]: the batch stage before Holocene,
    which keeps batches that may become valid later. *)

From S2P Require Import Prelude GoBytes Errors Eth RollupConfig ChainSpec Geth SpanBatch Batches Frame Stages.
From S2P Require Import BaseBatchStage SpanSingular.

Record BatchQueue (P L : Type) := mkBatchQueue {
  bq_base : baseBatchStage P L;
  bq_batches : list BatchWithL1InclusionBlock }.
Arguments mkBatchQueue {P L}.
Arguments bq_base {P L}.
Arguments bq_batches {P L}.

Section queue.
Context {P L : Type} `{NextBatchProvider P} `{SafeBlockFetcher L} `{Geth}.
Implicit Type bq : BatchQueue P L.

Definition NewBatchQueue (cfg : Config) (prev : P) (l2 : L) : BatchQueue P L :=
  mkBatchQueue (newBaseBatchStage cfg prev l2) [].
Definition bq_set_base (b : baseBatchStage P L) bq : BatchQueue P L := mkBatchQueue b (bq_batches bq).
Definition bq_set_batches (l : list BatchWithL1InclusionBlock) bq : BatchQueue P L :=
  mkBatchQueue (bq_base bq) l.

#[export] Instance BatchQueue_origin : HasOrigin (BatchQueue P L) := λ bq, Origin (bq_base bq).

Definition AddBatch bq (batch : Batch) (parent : L2BlockRef) : Res unit * BatchQueue P L :=
  let b := bq_base bq in
  match bs_l1Blocks b with
  | [] => (Panic "cannot add batch, no origin was prepared", bq)
  | _ =>
    let data := mkBatchWithL1InclusionBlock batch (bs_origin b) in
    match CheckBatch (bs_config b) (bs_l1Blocks b) parent data (bs_l2 b) with
    | Panic w => (Panic w, bq)
    | Err e => (Err e, bq)
    | Ok BatchDrop => (Ok (), bq)
    | Ok _ => (Ok (), bq_set_batches (bq_batches bq ++ [data]) bq)
    end
  end.

(** The outcome of the pass over the buffered batches. *)
Inductive pass_result :=
| Found (b : Batch) (remaining : list BatchWithL1InclusionBlock)
| NoneFound (remaining : list BatchWithL1InclusionBlock)
| Stopped (remaining : list BatchWithL1InclusionBlock)
| UnknownValidity
| Panicked (w : string).

Fixpoint batch_loop (check : BatchWithL1InclusionBlock → Res BatchValidity)
    (remaining batches : list BatchWithL1InclusionBlock) : pass_result :=
  match batches with
  | [] => NoneFound remaining
  | b :: batches =>
    match check b with
    | Ok BatchFuture => batch_loop check (remaining ++ [b]) batches
    | Ok BatchDrop => batch_loop check remaining batches
    | Ok BatchAccept => Found (bw_Batch b) (remaining ++ batches)
    | Ok BatchUndecided => Stopped (remaining ++ b :: batches)
    | Ok BatchPast => UnknownValidity
    | Err _ => UnknownValidity
    | Panic w => Panicked w
    end
  end.

(** Whether the buffered epoch fits the L1 origin of the parent: it is that block,
    or the one after it. *)
Definition epoch_matches (epoch : L1BlockRef) (parent : L2BlockRef) : bool :=
  bool_decide (l2_L1Origin parent = L1_ID epoch)
  || (id_Number (l2_L1Origin parent) =? l1_Number epoch -₆₄ 1).

Definition bq_deriveNextBatch bq (outOfData : bool) (parent : L2BlockRef) : Res Batch * BatchQueue P L :=
  let b := bq_base bq in
  match bs_l1Blocks b with
  | [] => (Err (NewCriticalError (ErrorsNew "cannot derive next batch, no origin was prepared")), bq)
  | epoch :: _ =>
    if negb (epoch_matches epoch parent) then
      (Err (NewResetError (ErrorsNew "buffered L1 chain epoch does not match safe head origin")), bq)
    else
      let check x := CheckBatch (bs_config b) (bs_l1Blocks b) parent x (bs_l2 b) in
      match batch_loop check [] (bq_batches bq) with
      | Found batch remaining => (Ok batch, bq_set_batches remaining bq)
      | Stopped remaining => (Err io_EOF, bq_set_batches remaining bq)
      | UnknownValidity => (Err (NewCriticalError (ErrorsNew "unknown batch validity type")), bq)
      | Panicked w => (Panic w, bq)
      | NoneFound remaining =>
        let '(r, b) := deriveNextEmptyBatch b outOfData parent in
        (s ← r; Ok (Singular s), mkBatchQueue b remaining)
      end
  end.

(** The batch that was found, as a singular batch; a span batch is split and its
    first block returned. *)
Definition bq_emit bq (parent : L2BlockRef) (batch : Batch)
    : Res (SingularBatch * bool) * BatchQueue P L :=
  match batch with
  | Singular s => (Ok (s, bool_decide (bs_nextSpan (bq_base bq) = [])), bq)
  | Span s =>
    match GetSingularBatches s (bs_l1Blocks (bq_base bq)) parent with
    | Panic w => (Panic w, bq)
    | Err e => (Err (NewCriticalError e), bq)
    | Ok l =>
      let '(r, b) := popNextBatch (bs_set_nextSpan l (bq_base bq)) parent in
      (s ← r; Ok (s, bool_decide (bs_nextSpan b = [])), bq_set_base b bq)
    end
  end.

Definition BatchQueue_NextBatch bq (parent : L2BlockRef)
    : Res (SingularBatch * bool) * BatchQueue P L :=
  let '(cached, b) := nextFromSpanBatch (bq_base bq) parent in
  match cached with
  | Some x => (Ok x, bq_set_base b bq)
  | None =>
    let b := updateOrigins b parent in
    let behind := originBehind b parent in
    let '(r, p) := NextBatch (bs_prev b) in
    let bq := bq_set_base (bs_set_prev p b) bq in
    match r with
    | Panic w => (Panic w, bq)
    | Err e =>
      if is_EOF e then
        if behind then (Err io_EOF, bq)
        else
          let '(r, bq) := bq_deriveNextBatch bq true parent in
          match r with
          | Ok batch => bq_emit bq parent batch
          | Err e => (Err (if is_EOF e then io_EOF else e), bq)
          | Panic w => (Panic w, bq)
          end
      else (Err e, bq)
    | Ok batch =>
      if behind then (Err NotEnoughData, bq)
      else
        let '(r, bq) := AddBatch bq batch parent in
        match r with
        | Panic w => (Panic w, bq)
        | Err e => (Err e, bq)
        | Ok () =>
          let '(r, bq) := bq_deriveNextBatch bq false parent in
          match r with
          | Ok batch => bq_emit bq parent batch
          | Err e => (Err (if is_EOF e then NotEnoughData else e), bq)
          | Panic w => (Panic w, bq)
          end
        end
    end
  end.

#[export] Instance BatchQueue_Reset : ResettableStage (BatchQueue P L) := λ bq base _,
  (Err io_EOF, mkBatchQueue (base_reset (bq_base bq) base) []).
#[export] Instance BatchQueue_FlushChannel : ChannelFlusher (BatchQueue P L) := λ bq,
  (Panic "BatchQueue: invalid FlushChannel call", bq).
#[export] Instance BatchQueue_provider : SingularBatchProvider (BatchQueue P L) :=
  {| NextSingularBatch := BatchQueue_NextBatch |}.

(** ** Properties *)

Definition is_future (check : BatchWithL1InclusionBlock → Res BatchValidity) (b : BatchWithL1InclusionBlock)
    : Prop := check b = Ok BatchFuture.
#[local] Instance is_future_dec check b : Decision (is_future check b).
Proof.
  unfold is_future. destruct (check b) as [v|e|w]; [|right; congruence..].
  destruct (decide (v = BatchFuture)); [left|right]; congruence.
Defined.
(** Batches the pass goes over: too early, or dropped. *)
Definition passed (check : BatchWithL1InclusionBlock → Res BatchValidity) (b : BatchWithL1InclusionBlock)
    : Prop := check b = Ok BatchFuture ∨ check b = Ok BatchDrop.

(** The pass stops at the first batch that is neither early nor invalid. The early
    ones before it and everything after it are kept, in order. *)
Lemma batch_loop_spec check rem batches :
  match batch_loop check rem batches with
  | Found b rem' => ∃ pre x post, batches = pre ++ x :: post ∧ bw_Batch x = b ∧
      check x = Ok BatchAccept ∧ Forall (passed check) pre ∧
      rem' = rem ++ filter (is_future check) pre ++ post
  | NoneFound rem' => Forall (passed check) batches ∧ rem' = rem ++ filter (is_future check) batches
  | Stopped rem' => ∃ pre x post, batches = pre ++ x :: post ∧ check x = Ok BatchUndecided ∧
      Forall (passed check) pre ∧ rem' = rem ++ filter (is_future check) pre ++ x :: post
  | UnknownValidity => ∃ x, x ∈ batches ∧ (check x = Ok BatchPast ∨ ∃ e, check x = Err e)
  | Panicked w => ∃ x, x ∈ batches ∧ check x = Panic w
  end.
Proof.
  revert rem. induction batches as [|x batches IH]; intros rem; cbn [batch_loop].
  { split; [constructor|]. by rewrite app_nil_r. }
  assert (Hlift : ∀ rem0 (kept : list BatchWithL1InclusionBlock), rem0 = rem ++ kept →
    passed check x → filter (is_future check) [x] = kept →
    match batch_loop check rem0 batches with
    | Found b rem' => ∃ pre y post, x :: batches = pre ++ y :: post ∧ bw_Batch y = b ∧
        check y = Ok BatchAccept ∧ Forall (passed check) pre ∧
        rem' = rem ++ filter (is_future check) pre ++ post
    | NoneFound rem' => Forall (passed check) (x :: batches) ∧
        rem' = rem ++ filter (is_future check) (x :: batches)
    | Stopped rem' => ∃ pre y post, x :: batches = pre ++ y :: post ∧ check y = Ok BatchUndecided ∧
        Forall (passed check) pre ∧ rem' = rem ++ filter (is_future check) pre ++ y :: post
    | UnknownValidity => ∃ y, y ∈ x :: batches ∧ (check y = Ok BatchPast ∨ ∃ e, check y = Err e)
    | Panicked w => ∃ y, y ∈ x :: batches ∧ check y = Panic w
    end).
  { intros rem0 kept -> Hx Hk. specialize (IH (rem ++ kept)).
    assert (Hf : ∀ l, filter (is_future check) (x :: l) = kept ++ filter (is_future check) l).
    { intros l. change (x :: l) with ([x] ++ l). by rewrite filter_app, Hk. }
    destruct (batch_loop check (rem ++ kept) batches).
    - destruct IH as (pre & y & post & -> & ? & ? & ? & ->). exists (x :: pre), y, post.
      rewrite Hf, <- !app_assoc. split_and!; try done; by constructor.
    - destruct IH as [? ->]. rewrite Hf, <- app_assoc. split_and!; try done; by constructor.
    - destruct IH as (pre & y & post & -> & ? & ? & ->). exists (x :: pre), y, post.
      rewrite Hf, <- !app_assoc. split_and!; try done; by constructor.
    - destruct IH as (y & ? & ?). exists y. split; [set_solver|done].
    - destruct IH as (y & ? & ?). exists y. split; [set_solver|done]. }
  assert (Hnil : rem = rem ++ []) by (by rewrite app_nil_r).
  destruct (check x) as [[]|e|w] eqn:Hx.
  - apply (Hlift rem []); [done|by right|]. rewrite filter_cons, filter_nil, decide_False; [done|].
    unfold is_future. by rewrite Hx.
  - exists [], x, batches. split_and!; try done; by constructor.
  - exists [], x, batches. split_and!; try done; by constructor.
  - apply (Hlift (rem ++ [x]) [x]); [done|by left|]. by rewrite filter_cons, filter_nil, decide_True.
  - exists x. split; [set_solver|]. by left.
  - exists x. split; [set_solver|]. right. eauto.
  - exists x. split; [set_solver|done].
Qed.

(** C38: the batch the queue derives is the first buffered one, in the order of
    inclusion, that the checks accept; every batch before it is early or dropped, and
    the queue keeps the early ones and all later ones. When all are early or dropped,
    the batch is an empty one made up after the sequencing window passed. *)
Theorem derive_next_batch_spec bq outOfData parent batch bq' :
  bq_deriveNextBatch bq outOfData parent = (Ok batch, bq') →
  let check x := CheckBatch (bs_config (bq_base bq)) (bs_l1Blocks (bq_base bq)) parent x (bs_l2 (bq_base bq)) in
  bq_base bq' = bq_base bq ∧
  ((∃ pre x post, bq_batches bq = pre ++ x :: post ∧ bw_Batch x = batch ∧ check x = Ok BatchAccept ∧
      Forall (passed check) pre ∧ bq_batches bq' = filter (is_future check) pre ++ post) ∨
   (∃ s, batch = Singular s ∧ forced_empty (bq_base bq) parent s ∧ sb_ParentHash s = l2_Hash parent ∧
      sb_Timestamp s = l2_Time parent +₆₄ cfg_BlockTime (bs_config (bq_base bq)) ∧
      Forall (passed check) (bq_batches bq) ∧ bq_batches bq' = filter (is_future check) (bq_batches bq))).
Proof.
  intros Hd. cbv zeta. unfold bq_deriveNextBatch in Hd.
  destruct (bs_l1Blocks (bq_base bq)) as [|epoch more] eqn:Hl1; [done|]. rewrite <- Hl1 in *.
  destruct (negb (epoch_matches epoch parent)); [done|].
  set (check := λ x, CheckBatch _ _ parent x _) in *.
  pose proof (batch_loop_spec check [] (bq_batches bq)) as Hspec.
  destruct (batch_loop check [] (bq_batches bq)) as [b rem|rem|rem| |w]; try done.
  - injection Hd as <- <-. split; [done|]. left.
    destruct Hspec as (pre & x & post & Hb & Hx & Hacc & Hpre & ->). eauto 10.
  - destruct (deriveNextEmptyBatch (bq_base bq) outOfData parent) as [r b2] eqn:He.
    apply deriveNextEmptyBatch_spec in He. injection Hd as Hr <-.
    apply bind_ok in Hr as (s & -> & [= <-]). destruct He as (-> & Hf & Hpar & Ht).
    split; [done|]. right. destruct Hspec as [Hall ->]. eauto 10.
Qed.

(** a span batch the full check accepted can be split: the queue hands out its
    first new block with the parent set to the safe head and keeps the others for the
    next calls. It neither fails nor panics. *)
Theorem emit_accepted_span bq parent s incl :
  let b := bq_base bq in
  0 < cfg_BlockTime (bs_config b) → is_u64 (l2_Time parent + cfg_BlockTime (bs_config b)) →
  checkSpanBatch (bs_config b) (bs_l1Blocks b) parent s incl (bs_l2 b) = Ok BatchAccept →
  ∃ x l, GetSingularBatches s (bs_l1Blocks b) parent = Ok (x :: l) ∧
    bq_emit bq parent (Span s)
    = (Ok (with_parent (l2_Hash parent) x, bool_decide (l = [])), bq_set_base (bs_set_nextSpan l b) bq).
Proof.
  intros b Hbt Hu Hc. unfold checkSpanBatch in Hc. apply bind_ok in Hc as ([v par] & Hp & Hc).
  destruct (bool_decide_reflect (v = BatchAccept)) as [->|Hne]; cbn [negb] in Hc; [|by simplify_eq].
  inv_bind Hc. destruct (check_blocks _ _ _ _ _ _ _) as [v|] eqn:Hchk.
  { simplify_eq. by apply check_blocks_stop in Hchk. }
  apply check_blocks_extract in Hchk as (l & Hl). change (singular_batches _ _ 0 _)
    with (GetSingularBatches s (bs_l1Blocks b) parent) in Hl.
  assert (Hne : l ≠ []) by (by eapply prefix_extract_nonempty).
  destruct l as [|x l]; [done|]. exists x, l. split; [done|]. unfold bq_emit. fold b. by rewrite Hl.
Qed.
End queue.

(** ** An example *)

Module BatchExample.
(** A stage below that hands out singular batches. *)
Definition src : Type := L1BlockRef * list SingularBatch.
#[global] Instance src_provider : NextBatchProvider src := {|
  nbtp_origin := fst;
  nbtp_flush p := (Ok (), (p.1, []));
  NextBatch p := match p.2 with [] => (Err io_EOF, p) | b :: l => (Ok (Singular b), (p.1, l)) end;
|}.
#[global] Instance src_nonempty : NextBatchNonEmpty src.
Proof. intros [o [|b l]] s; done. Qed.
Definition batch : SingularBatch :=
  mkSingularBatch (l2_Hash ReplayExample.safe) 100 (l1_Hash ReplayExample.epoch) 1012 [[x02; xaa]].
(** Before Holocene. *)
Definition cfg : Config :=
  ExampleConfig.with_times (mkForkTimes (Some 0) (Some 0) (Some 0) (Some 0) (Some 0) (Some 0)
    None None None None None None).
Definition early : SingularBatch := mkSingularBatch zeroHash 100 zeroHash 1014 [].
Definition buffered : list BatchWithL1InclusionBlock :=
  [mkBatchWithL1InclusionBlock (Singular early) ReplayExample.next;
   mkBatchWithL1InclusionBlock (Singular batch) ReplayExample.next].
Definition queue : BatchQueue src unit :=
  mkBatchQueue (mkBaseBatchStage cfg (ReplayExample.next, []) ()
    ReplayExample.next [ReplayExample.epoch; ReplayExample.next] []) buffered.
End BatchExample.
#[local] Existing Instance GethExample.geth.

Lemma derive_next_batch_spec_witness :
  ∃ bq', bq_deriveNextBatch BatchExample.queue false ReplayExample.safe = (Ok (Singular BatchExample.batch), bq')
  ∧ bq_base bq' = bq_base BatchExample.queue.
Proof.
  assert (Hr : (bq_deriveNextBatch BatchExample.queue false ReplayExample.safe).1
    = Ok (Singular BatchExample.batch)) by (vm_compute; reflexivity).
  destruct (bq_deriveNextBatch BatchExample.queue false ReplayExample.safe) as [r bq'] eqn:Hd.
  cbn [fst] in Hr. subst r. exists bq'. split; [done|].
  exact (proj1 (derive_next_batch_spec BatchExample.queue false ReplayExample.safe _ bq' Hd)).
Defined.

Lemma emit_accepted_span_witness :
  ∃ x l, GetSingularBatches ReplayExample.batch [ReplayExample.epoch; ReplayExample.next] ReplayExample.safe
    = Ok (x :: l) ∧
  (bq_emit BatchExample.queue ReplayExample.safe (Span ReplayExample.batch)).1
  = Ok (with_parent (l2_Hash ReplayExample.safe) x, bool_decide (l = [])).
Proof.
  destruct (emit_accepted_span BatchExample.queue ReplayExample.safe ReplayExample.batch ReplayExample.incl)
    as (x & l & Hg & He); [by vm_compute..|]. exists x, l. split; [exact Hg|]. by rewrite He.
Defined.
