(* ===== verification/BatchStage.v ===== *)
(** * The batch stage

    Models [op-node/rollup/derive/batch_stage.go]: the batch stage from Holocene on,
    which takes batches strictly in order and flushes the channel of an invalid
    one. *)

From S2P Require Import Prelude GoBytes Errors Eth RollupConfig ChainSpec Geth SpanBatch Batches Frame Stages.
From S2P Require Import BaseBatchStage SpanSingular BatchQueue.

Record BatchStage (P L : Type) := mkBatchStage { bst_base : baseBatchStage P L }.
Arguments mkBatchStage {P L}.
Arguments bst_base {P L}.

Section stage.
Context {P L : Type} `{NextBatchProvider P} `{SafeBlockFetcher L}.
Implicit Type bs : BatchStage P L.

Definition NewBatchStage (cfg : Config) (prev : P) (l2 : L) : BatchStage P L :=
  mkBatchStage (newBaseBatchStage cfg prev l2).

#[export] Instance BatchStage_origin : HasOrigin (BatchStage P L) := λ bs, Origin (bst_base bs).

Definition bst_flush bs : Res unit * BatchStage P L :=
  let '(r, p) := FlushChannel (bs_prev (bst_base bs)) in
  (r, mkBatchStage (bs_set_prev p (bs_set_nextSpan [] (bst_base bs)))).

(** Drop the channel and ask for more data. *)
Definition flush_and_continue {A} bs : Res A * BatchStage P L :=
  let '(r, bs) := bst_flush bs in
  match r with Panic w => (Panic w, bs) | _ => (Err NotEnoughData, bs) end.

Definition nextSingularBatchCandidate bs (parent : L2BlockRef) : Res SingularBatch * BatchStage P L :=
  let '(cached, b) := nextFromSpanBatch (bst_base bs) parent in
  match cached with
  | Some (s, _) => (Ok s, mkBatchStage b)
  | None =>
    let '(r, p) := NextBatch (bs_prev b) in
    let b := bs_set_prev p b in
    match r with
    | Panic w => (Panic w, mkBatchStage b)
    | Err e => (Err e, mkBatchStage b)
    | Ok (Singular s) => (Ok s, mkBatchStage b)
    | Ok (Span s) =>
      match checkSpanBatchPrefix (bs_config b) (bs_l1Blocks b) parent s (bs_origin b) (bs_l2 b) with
      | Panic w => (Panic w, mkBatchStage b)
      | Err e => (Err e, mkBatchStage b)
      | Ok (BatchPast, _) => (Err NotEnoughData, mkBatchStage b)
      | Ok (BatchDrop, _) => flush_and_continue (mkBatchStage b)
      | Ok (BatchUndecided, _) => (Err NotEnoughData, mkBatchStage b)
      | Ok (BatchFuture, _) =>
        (Err (NewCriticalError (ErrorsNew "impossible future batch validity")), mkBatchStage b)
      | Ok (BatchAccept, _) =>
        match GetSingularBatches s (bs_l1Blocks b) parent with
        | Panic w => (Panic w, mkBatchStage b)
        | Err _ => flush_and_continue (mkBatchStage b)
        | Ok l =>
          let '(r, b) := popNextBatch (bs_set_nextSpan l b) parent in (r, mkBatchStage b)
        end
      end
    end
  end.

Definition BatchStage_NextBatch bs (parent : L2BlockRef)
    : Res (SingularBatch * bool) * BatchStage P L :=
  let b := updateOrigins (bst_base bs) parent in
  if originBehind b parent || (id_Number (l2_L1Origin parent) =? l1_Number (bs_origin b)) then
    let '(r, p) := NextBatch (bs_prev b) in
    let bs := mkBatchStage (bs_set_prev p b) in
    match r with
    | Panic w => (Panic w, bs)
    | Err e => (Err e, bs)
    | Ok _ => (Err NotEnoughData, bs)
    end
  else
    match bs_l1Blocks b with
    | epoch :: _ :: _ =>
      if negb (epoch_matches epoch parent) then
        (Err (NewResetError (ErrorsNew "buffered L1 chain epoch does not match safe head origin")),
         mkBatchStage b)
      else
        let '(r, bs) := nextSingularBatchCandidate (mkBatchStage b) parent in
        match r with
        | Panic w => (Panic w, bs)
        | Err e =>
          if is_EOF e then
            let '(r, b) := deriveNextEmptyBatch (bst_base bs) true parent in
            (s ← r; Ok (s, true), mkBatchStage b)
          else (Err e, bs)
        | Ok batch =>
          let b := bst_base bs in
          match checkSingularBatch (bs_config b) (bs_l1Blocks b) parent batch (bs_origin b) with
          | BatchAccept => (Ok (batch, true), bs)
          | BatchPast => (Err NotEnoughData, bs)
          | BatchDrop => flush_and_continue bs
          | BatchUndecided => (Err NotEnoughData, bs)
          | BatchFuture => (Err (NewCriticalError (ErrorsNew "impossible batch validity")), bs)
          end
        end
    | _ => (Err (NewCriticalError (ErrorsNew "unexpected low buffered origin count")), mkBatchStage b)
    end.

#[export] Instance BatchStage_Reset : ResettableStage (BatchStage P L) := λ bs base _,
  (Err io_EOF, mkBatchStage (base_reset (bst_base bs) base)).
#[export] Instance BatchStage_FlushChannel : ChannelFlusher (BatchStage P L) := bst_flush.
#[export] Instance BatchStage_provider : SingularBatchProvider (BatchStage P L) :=
  {| NextSingularBatch := BatchStage_NextBatch |}.

(** ** Properties *)

(** Only the cache and the stage below change while a candidate is looked for. *)
Record same_base (b b' : baseBatchStage P L) : Prop := {
  sb_config : bs_config b' = bs_config b;
  sb_l2 : bs_l2 b' = bs_l2 b;
  sb_origin : bs_origin b' = bs_origin b;
  sb_l1Blocks : bs_l1Blocks b' = bs_l1Blocks b;
}.

Lemma flush_same {A} bs (r : Res A) bs' :
  flush_and_continue bs = (r, bs') →
  same_base (bst_base bs) (bst_base bs') ∧
  (r = Err NotEnoughData ∨ ∃ w (p : P), r = Panic w ∧ (FlushChannel p).1 = Panic w).
Proof.
  unfold flush_and_continue, bst_flush. destruct (FlushChannel (bs_prev (bst_base bs))) as [f p] eqn:Hf.
  destruct f as [u|e|w]; intros [= <- <-]; (split; [done|]); [by left..|].
  right. exists w, (bs_prev (bst_base bs)). by rewrite Hf.
Qed.

(** After Holocene no batch is kept for later. *)
Lemma holocene_no_future cfg l1 safe incl :
  IsHolocene cfg (l1_Time incl) = true →
  (∀ b, checkSingularBatch cfg l1 safe b incl ≠ BatchFuture) ∧
  (∀ b (l2 : L) p, checkSpanBatchPrefix cfg l1 safe b incl l2 ≠ Ok (BatchFuture, p)).
Proof.
  intros Hh. split.
  - intros b. destruct l1 as [|epoch more]; [done|]. rewrite checkSingularBatch_eq. cbv zeta. rewrite Hh.
    unfold batch_origin, drift_check. repeat case_match; simplify_eq/=; done.
  - intros b l2 p. unfold checkSpanBatchPrefix. destruct l1 as [|epoch more]; [done|]. rewrite Hh.
    destruct (GetStartEpochNum b); try done. cbn [mbind res_bind].
    destruct (if _ : bool then head more else Some epoch); [|done].
    destruct (negb (IsDelta _ _)); [done|].
    destruct (GetTimestamp b); try done. cbn [mbind res_bind].
    destruct (GetLastTimestamp b); try done. cbn [mbind res_bind].
    repeat (destruct (_ <? _); [done|]).
    destruct (span_parent _ _ _ _) as [[pb|v]|e|w] eqn:Hp; try done; cbn [mbind res_bind].
    + destruct (GetLastEpochNum b); cbn [mbind res_bind]; repeat case_match; done.
    + intros [= ->]. unfold span_parent in Hp. repeat case_match; simplify_eq.
Qed.

(** The outcomes of looking for a candidate. *)
Inductive candidate_outcome (b : baseBatchStage P L) (parent : L2BlockRef) : Res SingularBatch → Prop :=
| co_batch s : candidate_outcome b parent (Ok s)
| co_more : candidate_outcome b parent (Err NotEnoughData)
| co_prev_err (p : P) e : (NextBatch p).1 = Err e → candidate_outcome b parent (Err e)
| co_prev_panic (p : P) w : (NextBatch p).1 = Panic w → candidate_outcome b parent (Panic w)
| co_flush_panic (p : P) w : (FlushChannel p).1 = Panic w → candidate_outcome b parent (Panic w)
| co_l2_panic n w : L2BlockRefByNumber (bs_l2 b) n = Panic w → candidate_outcome b parent (Panic w).

Lemma prefix_panic cfg l1 safe batch incl (l2 : L) w :
  span_Batches batch ≠ [] → cfg_BlockTime cfg ≠ 0 →
  checkSpanBatchPrefix cfg l1 safe batch incl l2 = Panic w → ∃ n, L2BlockRefByNumber l2 n = Panic w.
Proof.
  intros Hne Hbt. unfold checkSpanBatchPrefix. destruct l1 as [|epoch more]; [done|].
  assert (Hat : ∃ e, span_at batch 0 = Ok e).
  { unfold span_at. destruct (span_Batches batch); [done|]. by eexists. }
  assert (Hpk : ∃ e, span_peek batch 0 = Ok e).
  { unfold span_peek. rewrite Nat.sub_0_r, take_ge by lia.
    destruct (last (span_Batches batch)) eqn:Hl; [by eexists|]. by apply last_None in Hl. }
  destruct Hat as (e0 & He0), Hpk as (en & Hen).
  unfold GetStartEpochNum, GetTimestamp, GetLastTimestamp, GetLastEpochNum. rewrite He0, Hen.
  cbn [mbind res_bind]. destruct (if _ : bool then head more else Some epoch); [|done].
  destruct (negb (IsDelta _ _)); [done|]. repeat (destruct (_ <? _); [done|]).
  destruct (span_parent _ _ _ _) as [[pb|v]|e|w'] eqn:Hp; cbn [mbind res_bind]; try (repeat case_match; done).
  intros [= ->]. unfold span_parent in Hp. destruct (_ <? _); [|done]. destruct (_ <? _); [done|].
  rewrite (proj2 (Z.eqb_neq _ _)) in Hp by done. destruct (negb _); [done|].
  case_match eqn:Hf; simplify_eq. by eexists.
Qed.

Lemma candidate_spec `{!NextBatchNonEmpty P} bs parent r bs' :
  0 < cfg_BlockTime (bs_config (bst_base bs)) →
  is_u64 (l2_Time parent + cfg_BlockTime (bs_config (bst_base bs))) →
  IsHolocene (bs_config (bst_base bs)) (l1_Time (bs_origin (bst_base bs))) = true →
  nextSingularBatchCandidate bs parent = (r, bs') →
  same_base (bst_base bs) (bst_base bs') ∧ candidate_outcome (bst_base bs) parent r.
Proof.
  intros Hbt Hu Hhol. unfold nextSingularBatchCandidate.
  destruct (nextFromSpanBatch (bst_base bs) parent) as [cached b] eqn:Hn.
  assert (Hb : same_base (bst_base bs) b).
  { unfold nextFromSpanBatch in Hn. repeat case_match; by simplify_eq/=. }
  destruct cached as [[s last]|]; [intros [= <- <-]; split; [done|constructor]|].
  destruct (NextBatch (bs_prev b)) as [nb p] eqn:Hnb. destruct Hb as [Hcfg Hl2 Horg Hl1].
  destruct nb as [[s|s]|e|w]; cbn [bs_set_prev bs_config bs_l1Blocks bs_origin bs_l2].
  1,3,4: intros [= <- <-]; split; [by split|].
  - constructor.
  - apply (co_prev_err _ _ (bs_prev b)). by rewrite Hnb.
  - apply (co_prev_panic _ _ (bs_prev b)). by rewrite Hnb.
  - rewrite Hcfg, Hl1, Horg, Hl2.
    destruct (checkSpanBatchPrefix _ _ _ _ _ _) as [[v pb]|e|w] eqn:Hp.
    2: { exfalso. revert Hp. clear. unfold checkSpanBatchPrefix. destruct (bs_l1Blocks _); [done|].
      unfold GetStartEpochNum, GetTimestamp, GetLastTimestamp, GetLastEpochNum, span_at, span_peek, span_parent.
      intros Hp. repeat (case_match; simplify_eq/=; try done). }
    2: { intros [= <- <-]. split; [by split|].
      apply prefix_panic in Hp as (n & Hn'); [|apply (NextBatch_nonempty (bs_prev b)); by rewrite Hnb|lia].
      by eapply co_l2_panic. }
    destruct v.
    + intros Hf. apply flush_same in Hf as [[] Hr]. split; [by split; etrans|].
      destruct Hr as [-> | (w & q & -> & Hw)]; [constructor|by eapply co_flush_panic].
    + destruct (GetSingularBatches s _ _) as [l|e|w] eqn:Hg.
      * assert (Hl : l ≠ []) by (by eapply prefix_extract_nonempty).
        destruct l as [|x l]; [done|]. cbn. intros [= <- <-]. split; [by split|constructor].
      * intros Hf. apply flush_same in Hf as [[] Hr]. split; [by split; etrans|].
        destruct Hr as [-> | (w & q & -> & Hw)]; [constructor|by eapply co_flush_panic].
      * exfalso. revert Hg. clear. unfold GetSingularBatches. generalize 0%nat as i.
        induction (span_Batches s) as [|e els IH]; intros i Hg; [done|]. cbn [singular_batches] in Hg.
        destruct (_ <=? _); [by eapply IH|]. destruct (_ <? _); [done|].
        destruct (find_origin _ _ _) as [[j o]|]; [|done].
        destruct (singular_batches _ _ j els) eqn:Hr; simplify_eq/=. by eapply IH.
    + intros [= <- <-]. split; [by split|constructor].
    + by apply holocene_no_future in Hp.
    + intros [= <- <-]. split; [by split|constructor].
Qed.

Lemma stage_batch `{!NextBatchNonEmpty P} bs parent b last bs' :
  0 < cfg_BlockTime (bs_config (bst_base bs)) →
  is_u64 (l2_Time parent + cfg_BlockTime (bs_config (bst_base bs))) →
  IsHolocene (bs_config (bst_base bs)) (l1_Time (Origin bs)) = true →
  BatchStage_NextBatch bs parent = (Ok (b, last), bs') →
  let base := bst_base bs' in
  last = true ∧ sb_ParentHash b = l2_Hash parent ∧
  sb_Timestamp b = l2_Time parent +₆₄ cfg_BlockTime (bs_config base) ∧
  (forced_empty base parent b ∨
   ∃ epoch more origin, bs_l1Blocks base = epoch :: more ∧
     singular_valid (bs_config base) epoch more parent b (bs_origin base) origin).
Proof.
  intros Hbt Hu Hhol Hnext. cbv zeta. unfold BatchStage_NextBatch in Hnext.
  destruct (updateOrigins_base (bst_base bs) parent) as (Hcfg & Hl2 & Hprev & Horg).
  set (b0 := updateOrigins (bst_base bs) parent) in *.
  destruct (originBehind b0 parent || _).
  { destruct (NextBatch (bs_prev b0)) as [[]]; simplify_eq. }
  destruct (bs_l1Blocks b0) as [|epoch [|next more]] eqn:Hl1; [done..|].
  destruct (negb (epoch_matches epoch parent)); [done|].
  destruct (nextSingularBatchCandidate (mkBatchStage b0) parent) as [r bs1] eqn:Hc.
  assert (Hb0 : bst_base (mkBatchStage b0) = b0) by done.
  apply candidate_spec in Hc as [Hsame _]; rewrite ?Hb0, ?Hcfg, ?Horg; [|done..].
  rewrite Hb0 in Hsame. destruct Hsame as [Hcfg1 Hl21 Horg1 Hl11].
  destruct r as [s|e|w]; [|destruct (is_EOF e); [|done]|done].
  - destruct (checkSingularBatch _ _ _ _ _) eqn:Hchk; try done.
    + destruct (flush_and_continue bs1) as [r bs2] eqn:Hf. apply flush_same in Hf as [_ [-> |(? & ? & -> & _)]]; done.
    + injection Hnext as <- <- <-. split; [done|].
      apply singular_accept_rules in Hchk as (epoch' & more' & o & Heq & Hv).
      pose proof (sv_time _ _ _ _ _ _ _ Hv). pose proof (sv_parent _ _ _ _ _ _ _ Hv).
      split; [done|]. split; [done|]. right. eauto.
  - destruct (deriveNextEmptyBatch (bst_base bs1) true parent) as [r b2] eqn:Hd.
    apply deriveNextEmptyBatch_spec in Hd. injection Hnext as Hr <-.
    apply bind_ok in Hr as (s & -> & [= <- <-]). destruct Hd as (-> & Hf & Hpar & Ht).
    split; [done|]. split; [done|]. split; [done|]. by left.
Qed.

(** The configuration never changes. *)
Lemma flush_config {A} bs : bs_config (bst_base (flush_and_continue (A:=A) bs).2) = bs_config (bst_base bs).
Proof. unfold flush_and_continue, bst_flush. by repeat case_match; simplify_eq/=. Qed.
Lemma span_config b parent : bs_config (nextFromSpanBatch (L:=L) b parent).2 = bs_config (P:=P) b.
Proof. unfold nextFromSpanBatch. by repeat case_match. Qed.
Lemma candidate_config bs parent :
  bs_config (bst_base (nextSingularBatchCandidate bs parent).2) = bs_config (bst_base bs).
Proof.
  unfold nextSingularBatchCandidate. rewrite <- (span_config (bst_base bs) parent).
  destruct (nextFromSpanBatch (bst_base bs) parent) as [[[s l]|] b]; [done|].
  destruct (NextBatch (bs_prev b)) as [[[s|s]|e|w] p]; try done.
  destruct (checkSpanBatchPrefix _ _ _ _ _ _) as [[[] pb]|e|w]; try done; [by rewrite flush_config|].
  destruct (GetSingularBatches _ _ _) as [l|e|w]; [|by rewrite flush_config|done].
  unfold popNextBatch. by destruct l.
Qed.
Lemma empty_config b o parent : bs_config (deriveNextEmptyBatch (P:=P) (L:=L) b o parent).2 = bs_config b.
Proof. unfold deriveNextEmptyBatch. by repeat case_match. Qed.
Lemma stage_config bs parent :
  bs_config (bst_base (BatchStage_NextBatch bs parent).2) = bs_config (bst_base bs).
Proof.
  destruct (updateOrigins_base (bst_base bs) parent) as (Hcfg & _). unfold BatchStage_NextBatch.
  destruct (_ || _); [by destruct (NextBatch _) as [[]]|].
  destruct (bs_l1Blocks _) as [|epoch [|next more]]; [done..|]. destruct (negb _); [done|].
  pose proof (candidate_config (mkBatchStage (updateOrigins (bst_base bs) parent)) parent) as Hc.
  cbn [bst_base] in Hc. rewrite <- Hcfg, <- Hc.
  destruct (nextSingularBatchCandidate _ parent) as [[s|e|w] bs1]; [| |done].
  - destruct (checkSingularBatch _ _ _ _ _); try done. by rewrite flush_config.
  - destruct (is_EOF e); [|done]. cbn [snd]. rewrite <- (empty_config (bst_base bs1) true parent).
    by destruct (deriveNextEmptyBatch (bst_base bs1) true parent).
Qed.

(** C15: from Holocene on, a batch the stage hands out builds on the block it is asked
    for and has the next timestamp, and it either satisfies the rules for singular
    batches or is an empty batch made up after the sequencing window passed. *)
Theorem batch_stage_sound `{!NextBatchNonEmpty P} bs parent b last bs' :
  0 < cfg_BlockTime (bs_config (bst_base bs)) →
  is_u64 (l2_Time parent + cfg_BlockTime (bs_config (bst_base bs))) →
  IsHolocene (bs_config (bst_base bs)) (l1_Time (Origin bs)) = true →
  BatchStage_NextBatch bs parent = (Ok (b, last), bs') →
  let base := bst_base bs' in
  last = true ∧ sb_ParentHash b = l2_Hash parent ∧
  sb_Timestamp b = l2_Time parent +₆₄ cfg_BlockTime (bs_config base) ∧
  (forced_empty base parent b ∨
   ∃ epoch more origin, bs_l1Blocks base = epoch :: more ∧
     singular_valid (bs_config base) epoch more parent b (bs_origin base) origin).
Proof. apply stage_batch. Qed.

(** The errors the stage makes itself. *)
Definition stage_error (e : error) : Prop :=
  e = NotEnoughData ∨ e = io_EOF ∨
  e = NewResetError (ErrorsNew "buffered L1 chain epoch does not match safe head origin") ∨
  e = NewCriticalError (ErrorsNew "unexpected low buffered origin count").

(** from Holocene on, the stage never panics by itself and never reaches the
    states it calls impossible: a panic comes from the stage below or the L2 source,
    and an error is one of the four kinds above or comes from the stage below. *)
Theorem batch_stage_safe `{!NextBatchNonEmpty P} bs parent :
  0 < cfg_BlockTime (bs_config (bst_base bs)) →
  is_u64 (l2_Time parent + cfg_BlockTime (bs_config (bst_base bs))) →
  IsHolocene (bs_config (bst_base bs)) (l1_Time (Origin bs)) = true →
  match (BatchStage_NextBatch bs parent).1 with
  | Ok _ => True
  | Err e => stage_error e ∨ ∃ p : P, (NextBatch p).1 = Err e
  | Panic w => (∃ p : P, (NextBatch p).1 = Panic w) ∨ (∃ p : P, (FlushChannel p).1 = Panic w) ∨
      ∃ n, L2BlockRefByNumber (bs_l2 (bst_base bs)) n = Panic w
  end.
Proof.
  intros Hbt Hu Hhol. unfold BatchStage_NextBatch.
  destruct (updateOrigins_base (bst_base bs) parent) as (Hcfg & Hl2 & Hprev & Horg).
  set (b0 := updateOrigins (bst_base bs) parent) in *.
  destruct (originBehind b0 parent || _).
  { destruct (NextBatch (bs_prev b0)) as [nb p] eqn:Hnb.
    assert (Hnb1 : (NextBatch (bs_prev b0)).1 = nb) by (by rewrite Hnb).
    destruct nb; cbn; unfold stage_error; eauto. }
  destruct (bs_l1Blocks b0) as [|epoch [|next more]] eqn:Hl1; [unfold stage_error; cbn; auto..|].
  destruct (negb (epoch_matches epoch parent)); [unfold stage_error; cbn; auto|].
  destruct (nextSingularBatchCandidate (mkBatchStage b0) parent) as [r bs1] eqn:Hc.
  assert (Hb0 : bst_base (mkBatchStage b0) = b0) by done.
  apply candidate_spec in Hc as [Hsame Hout]; rewrite ?Hb0, ?Hcfg, ?Horg; [|done..].
  rewrite Hb0 in Hsame, Hout. destruct Hsame as [Hcfg1 Hl21 Horg1 Hl11].
  assert (Hempty : match (let '(r, b) := deriveNextEmptyBatch (bst_base bs1) true parent in
      (s ← r; Ok (s, true), mkBatchStage b)).1 with
    | Ok _ => True | Err e => stage_error e | Panic _ => False end).
  { destruct (deriveNextEmptyBatch (bst_base bs1) true parent) as [r' b2] eqn:Hd.
    apply deriveNextEmptyBatch_spec in Hd. destruct r' as [s|e|w]; cbn; [done| |by rewrite Hl11, Hl1 in Hd].
    subst. unfold stage_error. auto. }
  destruct r as [s|e|w].
  - destruct (checkSingularBatch _ _ _ _ _) eqn:Hchk; cbn; unfold stage_error; auto.
    + destruct (flush_and_continue bs1) as [r bs2] eqn:Hf.
      apply flush_same in Hf as [_ [-> |(w & p & -> & Hw)]]; cbn; eauto.
    + exfalso. revert Hchk. apply holocene_no_future. by rewrite Hcfg1, Horg1, Hcfg, Horg.
  - assert (He : stage_error e ∨ ∃ p : P, (NextBatch p).1 = Err e)
      by (inversion Hout; unfold stage_error; eauto).
    destruct (is_EOF e); [|done].
    destruct ((let '(r, b) := deriveNextEmptyBatch (bst_base bs1) true parent in
      (s ← r; Ok (s, true), mkBatchStage b)).1); [done|by left|done].
  - cbn. rewrite <- Hl2. inversion Hout; eauto.
Qed.
End stage.

(** ** An example *)

Module StageExample.
Definition stage : BatchStage BatchExample.src unit :=
  mkBatchStage (mkBaseBatchStage ExampleConfig.cfg (ReplayExample.next, [BatchExample.batch]) ()
    ReplayExample.next [ReplayExample.epoch; ReplayExample.next] []).
End StageExample.

Lemma batch_stage_sound_witness :
  (BatchStage_NextBatch StageExample.stage ReplayExample.safe).1 = Ok (BatchExample.batch, true) ∧
  sb_Timestamp BatchExample.batch = l2_Time ReplayExample.safe +₆₄ 2.
Proof.
  assert (Hr : BatchStage_NextBatch StageExample.stage ReplayExample.safe
    = (Ok (BatchExample.batch, true), mkBatchStage (mkBaseBatchStage ExampleConfig.cfg
        (ReplayExample.next, []) () ReplayExample.next [ReplayExample.epoch; ReplayExample.next] [])))
    by (vm_compute; reflexivity).
  split; [by rewrite Hr|].
  destruct (batch_stage_sound StageExample.stage ReplayExample.safe BatchExample.batch true _
    ltac:(by vm_compute) ltac:(by vm_compute) ltac:(by vm_compute) Hr) as (_ & _ & Ht & _). exact Ht.
Defined.

Lemma batch_stage_safe_witness :
  match (BatchStage_NextBatch StageExample.stage ReplayExample.safe).1 with
  | Panic _ => False
  | _ => True
  end.
Proof.
  pose proof (batch_stage_safe StageExample.stage ReplayExample.safe
    ltac:(by vm_compute) ltac:(by vm_compute) ltac:(by vm_compute)) as Hs.
  destruct (BatchStage_NextBatch StageExample.stage ReplayExample.safe).1 as [| |w]; [done..|].
  destruct Hs as [[[o [|b l]] Hp]|[[[o l] Hp]|[n Hn]]]; done.
Defined.
