(* ===== verification/BatchMux.v ===== *)
(** * The batch stage multiplexer

    Models [op-node/rollup/derive/batch_mux.go]: the stage that swaps the batch
    queue for the batch stage at Holocene. *)

From S2P Require Import Prelude GoBytes Errors Eth RollupConfig ChainSpec Geth SpanBatch Batches Frame Stages.
From S2P Require Import BaseBatchStage BatchQueue BatchStage.

(** The active stage; the stage below and the L2 source are shared with it. *)
Inductive BatchProvider (P L : Type) :=
| NoBatchStage (prev : P) (l2 : L)
| ActiveQueue (bq : BatchQueue P L)
| ActiveStage (bs : BatchStage P L).
Arguments NoBatchStage {P L}.
Arguments ActiveQueue {P L}.
Arguments ActiveStage {P L}.

Record BatchMux (P L : Type) := mkBatchMux { bm_cfg : Config; bm_stage : BatchProvider P L }.
Arguments mkBatchMux {P L}.
Arguments bm_cfg {P L}.
Arguments bm_stage {P L}.

Section mux.
Context {P L : Type} `{NextBatchProvider P} `{SafeBlockFetcher L} `{Geth}.
Implicit Type m : BatchMux P L.

Definition NewBatchMux (cfg : Config) (prev : P) (l2 : L) : BatchMux P L :=
  mkBatchMux cfg (NoBatchStage prev l2).

Definition stage_prev (s : BatchProvider P L) : P :=
  match s with
  | NoBatchStage p _ => p
  | ActiveQueue bq => bs_prev (bq_base bq)
  | ActiveStage bs => bs_prev (bst_base bs)
  end.
Definition stage_l2 (s : BatchProvider P L) : L :=
  match s with
  | NoBatchStage _ l => l
  | ActiveQueue bq => bs_l2 (bq_base bq)
  | ActiveStage bs => bs_l2 (bst_base bs)
  end.
Definition bm_prev m : P := stage_prev (bm_stage m).

#[export] Instance BatchMux_origin : HasOrigin (BatchMux P L) := λ m, Origin (bm_prev m).

Definition nil_batch_stage {A} : Res A := Panic "nil SingularBatchProvider".

Definition BatchMux_NextBatch m (parent : L2BlockRef) : Res (SingularBatch * bool) * BatchMux P L :=
  match bm_stage m with
  | NoBatchStage _ _ => (nil_batch_stage, m)
  | ActiveQueue bq =>
    let '(r, bq) := NextSingularBatch bq parent in (r, mkBatchMux (bm_cfg m) (ActiveQueue bq))
  | ActiveStage bs =>
    let '(r, bs) := NextSingularBatch bs parent in (r, mkBatchMux (bm_cfg m) (ActiveStage bs))
  end.

#[export] Instance BatchMux_FlushChannel : ChannelFlusher (BatchMux P L) := λ m,
  match bm_stage m with
  | NoBatchStage _ _ => (nil_batch_stage, m)
  | ActiveQueue bq => let '(r, bq) := FlushChannel bq in (r, mkBatchMux (bm_cfg m) (ActiveQueue bq))
  | ActiveStage bs => let '(r, bs) := FlushChannel bs in (r, mkBatchMux (bm_cfg m) (ActiveStage bs))
  end.

#[export] Instance BatchMux_Reset : ResettableStage (BatchMux P L) := λ m base sysCfg,
  if IsHolocene (bm_cfg m) (l1_Time base) then
    let bs := match bm_stage m with
              | ActiveStage bs => bs
              | s => NewBatchStage (bm_cfg m) (stage_prev s) (stage_l2 s)
              end in
    let '(r, bs) := Reset bs base sysCfg in (r, mkBatchMux (bm_cfg m) (ActiveStage bs))
  else
    let bq := match bm_stage m with
              | ActiveQueue bq => bq
              | s => NewBatchQueue (bm_cfg m) (stage_prev s) (stage_l2 s)
              end in
    let '(r, bq) := Reset bq base sysCfg in (r, mkBatchMux (bm_cfg m) (ActiveQueue bq)).

(** The L1 blocks and the origin move to the new stage, batches do not. *)
Definition bm_TransformHolocene m : Res (BatchMux P L) :=
  match bm_stage m with
  | ActiveQueue bq =>
    let b := bq_base bq in
    let n := newBaseBatchStage (bm_cfg m) (bs_prev b) (bs_l2 b) in
    Ok (mkBatchMux (bm_cfg m)
          (ActiveStage (mkBatchStage (bs_set_origin (bs_origin b) (bs_set_l1Blocks (bs_l1Blocks b) n)))))
  | ActiveStage _ => Panic "Holocene BatchStage already active"
  | NoBatchStage _ _ => Panic "unknown batch stage type"
  end.
#[export] Instance BatchMux_Transform : ForkTransformer (BatchMux P L) := λ m f,
  if decide (f = Holocene) then bm_TransformHolocene m else Ok m.

#[export] Instance BatchMux_provider : SingularBatchProvider (BatchMux P L) :=
  {| NextSingularBatch := BatchMux_NextBatch |}.

(** ** Properties *)

(** The shared part of the active stage. *)
Definition active_base m : option (baseBatchStage P L) :=
  match bm_stage m with
  | NoBatchStage _ _ => None
  | ActiveQueue bq => Some (bq_base bq)
  | ActiveStage bs => Some (bst_base bs)
  end.
Definition is_holocene_stage m : bool := match bm_stage m with ActiveStage _ => true | _ => false end.
Definition buffered_batches m : list BatchWithL1InclusionBlock :=
  match bm_stage m with ActiveQueue bq => bq_batches bq | _ => [] end.

(** a reset activates exactly the batch stage that the fork rules ask for at the
    new origin, on the same stage below, with that origin as the only known L1 block
    and nothing buffered. The upgrade to Holocene turns the queue into the new stage
    and keeps the L1 blocks and the origin, drops every buffered batch, and panics when
    no queue is active. *)
Theorem BatchMux_swaps m base sc :
  let m' := (Reset m base sc).2 in
  (Reset m base sc).1 = Err io_EOF ∧ bm_prev m' = bm_prev m ∧
  is_holocene_stage m' = IsHolocene (bm_cfg m) (l1_Time base) ∧ buffered_batches m' = [] ∧
  (∃ b, active_base m' = Some b ∧ bs_l1Blocks b = [base] ∧ bs_origin b = base ∧ bs_nextSpan b = []) ∧
  match Transform m Holocene with
  | Ok m2 => is_holocene_stage m = false ∧ is_holocene_stage m2 = true ∧ bm_prev m2 = bm_prev m ∧
      ∃ b b2, active_base m = Some b ∧ active_base m2 = Some b2 ∧ bs_l1Blocks b2 = bs_l1Blocks b ∧
        bs_origin b2 = bs_origin b ∧ bs_nextSpan b2 = []
  | Err _ => False
  | Panic _ => ∀ bq, bm_stage m ≠ ActiveQueue bq
  end.
Proof.
  destruct m as [cfg [p l2|bq|bs]]; unfold Reset, BatchMux_Reset, Transform, BatchMux_Transform, bm_TransformHolocene,
    bm_prev, is_holocene_stage, buffered_batches, active_base;
    cbn [bm_cfg bm_stage]; destruct (IsHolocene cfg (l1_Time base)); cbn; split_and!; naive_solver.
Qed.
End mux.
