(* ===== verification/AttributesQueue.v ===== *)
(** * The attributes queue

    Models [op-node/rollup/derive/attributes_queue.go]: the last stage of the
    pipeline, which turns batches into payload attributes. A batch is kept until its
    attributes are made, and the last attributes are kept so that the block can be
    replaced by one with deposits only. *)

From S2P Require Import Prelude GoBytes Errors Eth RollupConfig ChainSpec Geth SysConfig Deposits L1BlockInfo.
From S2P Require Import UpgradeTxs SpanBatch Batches Frame Stages L1Traversal Attributes BaseBatchStage SpanSingular BatchQueue BatchStage BatchMux.

(** [AttributesBuilder] *)
Class AttributesBuilder (B : Type) := PrepareAttributes : B → L2BlockRef → BlockID → Res PayloadAttributes.

#[export] Instance FetchingAttributesBuilder_builder `{Geth} `{NUTBundles} {L} `{L1Source L} {L2}
  `{SystemConfigL2Fetcher L2} : AttributesBuilder (FetchingAttributesBuilder L L2) := PreparePayloadAttributes.

Record AttributesWithParent := mkAttributesWithParent {
  awp_Attributes : PayloadAttributes;
  awp_Parent : L2BlockRef;
  awp_Concluding : bool;
  awp_DerivedFrom : L1BlockRef }.

Definition awp_WithDepositsOnly (a : AttributesWithParent) : AttributesWithParent :=
  mkAttributesWithParent (WithDepositsOnly (awp_Attributes a)) (awp_Parent a) (awp_Concluding a)
    (awp_DerivedFrom a).
Definition awp_IsDerived (a : AttributesWithParent) : bool := negb (bool_decide (awp_DerivedFrom a = zeroL1)).

Record AttributesQueue (P B : Type) := mkAttributesQueue {
  aq_config : Config;
  aq_builder : B;
  aq_prev : P;
  aq_batch : option SingularBatch;
  aq_concluding : bool;
  aq_lastAttribs : option AttributesWithParent }.
Arguments mkAttributesQueue {P B}.
Arguments aq_config {P B}.
Arguments aq_builder {P B}.
Arguments aq_prev {P B}.
Arguments aq_batch {P B}.
Arguments aq_concluding {P B}.
Arguments aq_lastAttribs {P B}.

Section queue.
Context {P B : Type} `{SingularBatchProvider P} `{AttributesBuilder B}.
Implicit Type aq : AttributesQueue P B.

Definition NewAttributesQueue (cfg : Config) (builder : B) (prev : P) : AttributesQueue P B :=
  mkAttributesQueue cfg builder prev None false None.

#[export] Instance AttributesQueue_origin : HasOrigin (AttributesQueue P B) := λ aq, Origin (aq_prev aq).

Definition aq_set_prev (p : P) aq : AttributesQueue P B :=
  mkAttributesQueue (aq_config aq) (aq_builder aq) p (aq_batch aq) (aq_concluding aq) (aq_lastAttribs aq).
Definition aq_set_batch (b : option SingularBatch) (c : bool) aq : AttributesQueue P B :=
  mkAttributesQueue (aq_config aq) (aq_builder aq) (aq_prev aq) b c (aq_lastAttribs aq).
Definition aq_set_last (a : option AttributesWithParent) aq : AttributesQueue P B :=
  mkAttributesQueue (aq_config aq) (aq_builder aq) (aq_prev aq) (aq_batch aq) (aq_concluding aq) a.

Definition createNextAttributes aq (batch : SingularBatch) (l2SafeHead : L2BlockRef) : Res PayloadAttributes :=
  if negb (bool_decide (sb_ParentHash batch = l2_Hash l2SafeHead)) then
    Err (NewResetError (ErrorsNew "valid batch has bad parent hash"))
  else if negb (l2_Time l2SafeHead +₆₄ cfg_BlockTime (aq_config aq) =? sb_Timestamp batch) then
    Err (NewResetError (ErrorsNew "valid batch has bad timestamp"))
  else
    attrs ← PrepareAttributes (aq_builder aq) l2SafeHead (sb_Epoch batch);
    Ok (pa_set_Transactions (pa_Transactions attrs ++ sb_Transactions batch) (pa_set_NoTxPool true attrs)).

(** The batch to work on: the one that is kept, or else the next one. *)
Definition aq_pull aq (parent : L2BlockRef) : Res SingularBatch * AttributesQueue P B :=
  match aq_batch aq with
  | Some batch => (Ok batch, aq)
  | None =>
    let '(r, p) := NextSingularBatch (aq_prev aq) parent in
    let aq := aq_set_prev p aq in
    match r with
    | Ok (batch, concluding) => (Ok batch, aq_set_batch (Some batch) concluding aq)
    | Err e => (Err e, aq)
    | Panic w => (Panic w, aq)
    end
  end.

Definition NextAttributes aq (parent : L2BlockRef) : Res AttributesWithParent * AttributesQueue P B :=
  let '(r, aq) := aq_pull aq parent in
  match r with
  | Err e => (Err e, aq)
  | Panic w => (Panic w, aq)
  | Ok batch =>
    match createNextAttributes aq batch parent with
    | Err e => (Err e, aq)
    | Panic w => (Panic w, aq)
    | Ok attrs =>
      let attr := mkAttributesWithParent attrs parent (aq_concluding aq) (Origin aq) in
      (Ok attr, aq_set_batch None false (aq_set_last (Some attr) aq))
    end
  end.

Definition aq_reset aq : AttributesQueue P B := aq_set_last None (aq_set_batch None false aq).
#[export] Instance AttributesQueue_Reset : ResettableStage (AttributesQueue P B) := λ aq _ _,
  (Err io_EOF, aq_reset aq).

Definition DepositsOnlyAttributes aq (parent : BlockID) (derivedFrom : L1BlockRef)
    : Res AttributesWithParent * AttributesQueue P B :=
  match aq_batch aq, aq_lastAttribs aq with
  | Some _, _ => (Err (ErrorsNew "unexpected buffered batch"), aq)
  | None, None => (Err (ErrorsNew "no attributes generated yet"), aq)
  | None, Some last =>
    if negb (bool_decide (derivedFrom = awp_DerivedFrom last)) then
      (Err (ErrorsNew "unexpected derivation origin"), aq)
    else if negb (bool_decide (parent = L2_ID (awp_Parent last))) then
      (Err (ErrorsNew "unexpected parent"), aq)
    else
      let '(r, p) := FlushChannel (aq_prev aq) in
      let aq := aq_set_prev p aq in
      match r with
      | Panic w => (Panic w, aq)
      | _ =>
        let attrs := awp_WithDepositsOnly last in
        (Ok attrs, aq_set_last (Some attrs) aq)
      end
  end.

(** ** Properties *)

(** What the queue relies on: the batches of the stage below extend the block they
    were asked for, and contain no deposits. *)
Definition extends (cfg : Config) (parent : L2BlockRef) (b : SingularBatch) : Prop :=
  sb_ParentHash b = l2_Hash parent ∧ sb_Timestamp b = l2_Time parent +₆₄ cfg_BlockTime cfg ∧
  Forall (λ tx, is_deposit_tx tx = false) (sb_Transactions b).
End queue.

Class SoundBatches (P : Type) `{SingularBatchProvider P} := {
  batches_from : Config → P → Prop;
  batch_extends cfg p parent b c p' :
    batches_from cfg p → is_u64 (l2_Time parent + cfg_BlockTime cfg) →
    NextSingularBatch p parent = (Ok (b, c), p') → extends cfg parent b;
}.

Section sound.
Context {P B : Type} `{SingularBatchProvider P} `{AttributesBuilder B}.
Implicit Type aq : AttributesQueue P B.

(** The attributes for a batch on top of what the builder prepared. *)
Definition with_batch (a : PayloadAttributes) (b : SingularBatch) : PayloadAttributes :=
  pa_set_Transactions (pa_Transactions a ++ sb_Transactions b) (pa_set_NoTxPool true a).

Lemma create_extends aq b parent :
  extends (aq_config aq) parent b →
  createNextAttributes aq b parent
  = (a ← PrepareAttributes (aq_builder aq) parent (sb_Epoch b); Ok (with_batch a b)).
Proof.
  intros (Hp & Ht & _). unfold createNextAttributes. rewrite bool_decide_eq_true_2 by done.
  by rewrite Ht, Z.eqb_refl.
Qed.

(** a batch of a sound stage below always becomes attributes, unless the builder
    fails: the checks of the parent hash and the timestamp never fire. The
    transactions of the batch follow those of the builder, the attributes name the
    L1 block they are derived from, and the batch is kept exactly when it has not been
    turned into attributes. *)
Theorem next_attributes_sound `{!SoundBatches P} aq parent :
  batches_from (aq_config aq) (aq_prev aq) → aq_batch aq = None →
  is_u64 (l2_Time parent + cfg_BlockTime (aq_config aq)) →
  let '(pulled, p) := NextSingularBatch (aq_prev aq) parent in
  let '(r, aq') := NextAttributes aq parent in
  aq_prev aq' = p ∧
  match pulled with
  | Ok (b, c) =>
    match PrepareAttributes (aq_builder aq) parent (sb_Epoch b) with
    | Ok a =>
      let out := mkAttributesWithParent (with_batch a b) parent c (Origin p) in
      r = Ok out ∧ aq_batch aq' = None ∧ aq_lastAttribs aq' = Some out
    | Err e => r = Err e ∧ aq_batch aq' = Some b ∧ aq_lastAttribs aq' = aq_lastAttribs aq
    | Panic w => r = Panic w
    end
  | Err e => r = Err e ∧ aq_batch aq' = None ∧ aq_lastAttribs aq' = aq_lastAttribs aq
  | Panic w => r = Panic w
  end.
Proof.
  intros Hs Hb Hu. unfold NextAttributes, aq_pull. rewrite Hb.
  destruct (NextSingularBatch (aq_prev aq) parent) as [[[b c]|e|w] p] eqn:Hn; cbn; [|done..].
  apply batch_extends with (cfg := aq_config aq) in Hn; [|done..].
  rewrite create_extends by done. cbn [aq_builder aq_set_batch aq_set_prev].
  by destruct (PrepareAttributes _ _ _) as [a|e|w].
Qed.

(** a batch is not lost when the builder fails: once a later attempt for the same
    block finds a builder that works, the attributes are made from the very batch, and
    nothing is pulled from the stage below in between. *)
Theorem batch_survives_errors aq parent b bd a :
  aq_batch aq = Some b → extends (aq_config aq) parent b →
  PrepareAttributes bd parent (sb_Epoch b) = Ok a →
  (∀ e, PrepareAttributes (aq_builder aq) parent (sb_Epoch b) = Err e →
     NextAttributes aq parent = (Err e, aq)) ∧
  let aq2 := mkAttributesQueue (aq_config aq) bd (aq_prev aq) (Some b) (aq_concluding aq) (aq_lastAttribs aq) in
  let '(r, aq') := NextAttributes aq2 parent in
  r = Ok (mkAttributesWithParent (with_batch a b) parent (aq_concluding aq) (Origin aq)) ∧
  aq_prev aq' = aq_prev aq ∧ aq_batch aq' = None.
Proof.
  intros Hb Hx Ha. split.
  - intros e He. unfold NextAttributes, aq_pull. rewrite Hb, create_extends by done. by rewrite He.
  - unfold NextAttributes, aq_pull. cbn [aq_batch]. rewrite create_extends by done. cbn [aq_builder].
    by rewrite Ha.
Qed.

Lemma WithDepositsOnly_batch a b :
  IsDepositsOnly a = true → Forall (λ tx, is_deposit_tx tx = false) (sb_Transactions b) →
  WithDepositsOnly (with_batch a b) = pa_set_NoTxPool true a.
Proof.
  intros Ha Hb. apply WithDepositsOnly_id in Ha.
  assert (Htx : List.filter is_deposit_tx (pa_Transactions a) = pa_Transactions a)
    by (by rewrite <- Ha at 2).
  unfold WithDepositsOnly, with_batch. cbn. rewrite List.filter_app, Htx.
  assert (List.filter is_deposit_tx (sb_Transactions b) = []) as ->.
  { clear -Hb. induction Hb as [|tx txs Htx _ IH]; cbn; [done|]. by rewrite Htx. }
  rewrite app_nil_r. by destruct a.
Qed.

(** C33: the block of an invalid batch is replaced by what the builder prepared, without
    the batch: after attributes were made, asking for the deposits-only version for
    the same parent and origin flushes the channel below and returns the builder's
    deposits; asking again returns the same. Any other parent or origin is refused
    and changes nothing. *)
Theorem deposits_only_replacement aq aq1 parent b out a p :
  aq_batch aq = Some b → extends (aq_config aq) parent b →
  PrepareAttributes (aq_builder aq) parent (sb_Epoch b) = Ok a → IsDepositsOnly a = true →
  NextAttributes aq parent = (Ok out, aq1) → FlushChannel (aq_prev aq) = (Ok (), p) →
  (∃ aq2, DepositsOnlyAttributes aq1 (L2_ID parent) (awp_DerivedFrom out)
     = (Ok (mkAttributesWithParent (pa_set_NoTxPool true a) parent (aq_concluding aq) (Origin aq)), aq2) ∧
     aq_prev aq2 = p ∧
     ∀ p2, FlushChannel p = (Ok (), p2) → DepositsOnlyAttributes aq2 (L2_ID parent) (awp_DerivedFrom out)
       = (Ok (mkAttributesWithParent (pa_set_NoTxPool true a) parent (aq_concluding aq) (Origin aq)),
          aq_set_prev p2 aq2)) ∧
  (∀ id o, (id ≠ L2_ID parent ∨ o ≠ awp_DerivedFrom out) →
     ∃ e, DepositsOnlyAttributes aq1 id o = (Err e, aq1)).
Proof.
  intros Hb Hx Ha Hd Hnext Hflush. pose proof Hx as (_ & _ & Hnd).
  assert (Hrep : WithDepositsOnly (with_batch a b) = pa_set_NoTxPool true a) by (by apply WithDepositsOnly_batch).
  assert (Hrep2 : WithDepositsOnly (pa_set_NoTxPool true a) = pa_set_NoTxPool true a).
  { apply WithDepositsOnly_id. by rewrite IsDepositsOnly_spec in *. }
  unfold NextAttributes, aq_pull in Hnext. rewrite Hb, create_extends, Ha in Hnext by done.
  cbn in Hnext. injection Hnext as <- <-. split.
  - eexists. split; [|split].
    + cbn. rewrite !bool_decide_eq_true_2, Hflush by done. unfold awp_WithDepositsOnly. cbn.
      rewrite Hrep. reflexivity.
    + done.
    + cbn. intros p2 Hp2. rewrite !bool_decide_eq_true_2, Hp2 by done. unfold awp_WithDepositsOnly. cbn.
      by rewrite Hrep2.
  - intros id o Hne. unfold DepositsOnlyAttributes. cbn.
    case_bool_decide; [case_bool_decide|]; cbn; [naive_solver|by eexists..].
Qed.
End sound.

(** ** The Holocene batch stage is sound *)

Lemma allowed_not_deposit i tx : tx_allowed i tx = true → is_deposit_tx tx = false.
Proof.
  destruct tx as [|b tx]; cbn; [done|]. by intros [?%negb_true_iff _]%andb_true_iff.
Qed.

#[export] Program Instance BatchStage_sound {P L} `{NextBatchProvider P} `{SafeBlockFetcher L} `{Geth}
    `{!NextBatchNonEmpty P} : SoundBatches (BatchStage P L) := {
  batches_from cfg bs := bs_config (bst_base bs) = cfg ∧ 0 < cfg_BlockTime cfg ∧
    IsHolocene cfg (l1_Time (Origin bs)) = true }.
Next Obligation.
  intros P L ? ? ? ? cfg bs parent b c bs' (<- & Hbt & Hh) Hu Hn. cbn in Hn.
  pose proof (stage_config bs parent) as Hcfg. rewrite Hn in Hcfg. cbn in Hcfg.
  apply stage_batch in Hn as (_ & Hp & Ht & Hv); [|done..]. rewrite Hcfg in Ht.
  split; [done|]. split; [done|]. destruct Hv as [Hf|(epoch & more & o & _ & Hv)].
  - rewrite (fe_txs _ _ _ Hf). constructor.
  - eapply Forall_impl; [apply (sv_txs _ _ _ _ _ _ _ Hv)|]. intros tx. apply allowed_not_deposit.
Qed.

Definition mux_batches {P L} `{NextBatchProvider P} `{SafeBlockFetcher L} `{Geth} `{!NextBatchNonEmpty P}
    (cfg : Config) (m : BatchMux P L) : Prop :=
  match bm_stage m with ActiveStage bs => batches_from cfg bs | _ => False end.
#[export] Program Instance BatchMux_sound {P L} `{NextBatchProvider P} `{SafeBlockFetcher L} `{Geth}
    `{!NextBatchNonEmpty P} : SoundBatches (BatchMux P L) := { batches_from := mux_batches }.
Next Obligation.
  intros P L ? ? ? ? cfg [c s] parent b last m' Hs Hu. cbn. unfold BatchMux_NextBatch. cbn.
  destruct s as [| |bs]; [done..|]. cbn.
  destruct (BatchStage_NextBatch bs parent) as [r bs1] eqn:Hn. intros [= -> <-].
  by eapply (batch_extends cfg bs).
Qed.

(** ** An example: a batch stage and a builder that prepares one deposit *)

Module QueueExample.
Definition prepared : PayloadAttributes :=
  mkPayloadAttributes 1012 zeroHash zeroAddress None None [[DepositTxType; x01]] true (Some 30000000) None None.
#[global] Instance builder : AttributesBuilder bool := λ ok _ _,
  if ok then Ok prepared else Err (NewTemporaryError (ErrorsNew "no connection")).
Definition queue : AttributesQueue (BatchStage BatchExample.src unit) bool :=
  NewAttributesQueue ExampleConfig.cfg true StageExample.stage.
(** The same batch is kept because the builder failed. *)
Definition kept (ok : bool) : AttributesQueue (BatchStage BatchExample.src unit) bool :=
  mkAttributesQueue ExampleConfig.cfg ok StageExample.stage (Some BatchExample.batch) true None.
Lemma batch_ok : extends ExampleConfig.cfg ReplayExample.safe BatchExample.batch.
Proof. by split_and!; [vm_compute..|repeat constructor]. Qed.
End QueueExample.

Lemma next_attributes_sound_witness :
  (NextAttributes QueueExample.queue ReplayExample.safe).1
  = Ok (mkAttributesWithParent (with_batch QueueExample.prepared BatchExample.batch) ReplayExample.safe true
          ReplayExample.next).
Proof.
  assert (Hfrom : batches_from ExampleConfig.cfg StageExample.stage)
    by (split; [done|]; split; by vm_compute).
  pose proof (next_attributes_sound QueueExample.queue ReplayExample.safe Hfrom eq_refl
    ltac:(by vm_compute)) as Hs.
  destruct (NextSingularBatch (aq_prev QueueExample.queue) ReplayExample.safe) as [pulled p] eqn:Hp.
  destruct (NextAttributes QueueExample.queue ReplayExample.safe) as [r aq'].
  assert (Hpull : pulled = Ok (BatchExample.batch, true) ∧ Origin p = ReplayExample.next).
  { by revert Hp; vm_compute; intros [= <- <-]. }
  destruct Hpull as [-> Ho]. destruct Hs as (_ & Hr & _).
  cbn [fst]. rewrite Hr. do 2 f_equal. exact Ho.
Defined.

Lemma batch_survives_errors_witness :
  NextAttributes (QueueExample.kept false) ReplayExample.safe
  = (Err (NewTemporaryError (ErrorsNew "no connection")), QueueExample.kept false).
Proof.
  destruct (batch_survives_errors (QueueExample.kept false) ReplayExample.safe BatchExample.batch true
    QueueExample.prepared eq_refl QueueExample.batch_ok eq_refl) as [Hf _].
  by apply Hf.
Defined.

Lemma deposits_only_replacement_witness :
  match DepositsOnlyAttributes (NextAttributes (QueueExample.kept true) ReplayExample.safe).2
    (L2_ID ReplayExample.safe) ReplayExample.next with
  | (Ok a, _) => pa_Transactions (awp_Attributes a) = [[DepositTxType; x01]]
  | _ => False
  end.
Proof.
  destruct (NextAttributes (QueueExample.kept true) ReplayExample.safe) as [r aq1] eqn:Hn.
  assert (Hr : ∃ out, r = Ok out ∧ awp_DerivedFrom out = ReplayExample.next).
  { revert Hn. vm_compute. intros [= <- _]. by eexists. }
  destruct Hr as (out & -> & Ho).
  destruct (deposits_only_replacement (QueueExample.kept true) aq1 ReplayExample.safe BatchExample.batch out
    QueueExample.prepared (FlushChannel StageExample.stage).2 eq_refl QueueExample.batch_ok eq_refl eq_refl
    Hn ltac:(by vm_compute)) as [(aq2 & Hd & _) _].
  rewrite Ho in Hd. cbn [snd]. by rewrite Hd.
Defined.
