(* ===== verification/Pipeline.v ===== *)
(** * The derivation pipeline

    Models [op-node/rollup/derive/pipeline.go] and [check_l1.go]: the stages strung
    together, the reset that walks back far enough to see all channels again, the swap of
    stages at a fork, and the step that pulls attributes or moves on to the next L1
    block. *)

From S2P Require Import Prelude GoBytes Errors Eth RollupConfig ChainSpec Geth SysConfig Deposits L1BlockInfo.
From S2P Require Import Commitment UpgradeTxs SpanBatchTxs SpanBatch Batches Frame Stages L1Traversal Attributes.
From S2P Require Import DataSource FrameQueue ChannelBank ChannelAssembler ChannelMux ChannelInReader BaseBatchStage.
From S2P Require Import BatchQueue BatchStage BatchMux AttributesQueue.

(** ** A stage on top of another

    Every stage owns the one below it. The pipeline also keeps a pointer to each of them
    to reset or transform it; a call through such a pointer acts on the stage inside. *)

Class StageOver (S P : Type) := { below : S → P; set_below : P → S → S }.
Definition on_below {S P A : Type} `{StageOver S P} (f : P → Res A * P) (s : S) : Res A * S :=
  let '(r, p) := f (below s) in (r, set_below p s).

(** Looking below and replacing what is there go together. *)
Class StageOverLaws (S P : Type) `{StageOver S P} := {
  below_set p s : below (set_below p s) = p;
  set_below_set p q s : set_below p (set_below q s) = set_below p s;
  set_below_below s : set_below (below s) s = s;
}.

#[export] Instance AttributesQueue_over {P B} : StageOver (AttributesQueue P B) P :=
  {| below := aq_prev; set_below := aq_set_prev |}.
Definition bm_set_prev {P L} (p : P) (m : BatchMux P L) : BatchMux P L :=
  mkBatchMux (bm_cfg m)
    match bm_stage m with
    | NoBatchStage _ l2 => NoBatchStage p l2
    | ActiveQueue bq => ActiveQueue (bq_set_base (bs_set_prev p (bq_base bq)) bq)
    | ActiveStage bs => ActiveStage (mkBatchStage (bs_set_prev p (bst_base bs)))
    end.
#[export] Instance BatchMux_over {P L} : StageOver (BatchMux P L) P :=
  {| below := bm_prev; set_below := bm_set_prev |}.
#[export] Instance ChannelInReader_over `{Decompress} {P} : StageOver (ChannelInReader P) P :=
  {| below := cr_prev; set_below := cr_set_prev |}.
#[export] Instance ChannelMux_over {P} : StageOver (ChannelMux P) P :=
  {| below := cm_prev; set_below := cm_set_prev |}.
#[export] Instance FrameQueue_over {P} : StageOver (FrameQueue P) P :=
  {| below := fq_prev; set_below := fq_set_prev |}.
#[export] Instance L1Retrieval_over {P L D} : StageOver (L1Retrieval P L D) P :=
  {| below := l1r_prev; set_below := l1r_set_prev |}.

#[export] Instance AttributesQueue_over_laws {P B} : StageOverLaws (AttributesQueue P B) P.
Proof. by split; intros; repeat match goal with s : AttributesQueue _ _ |- _ => destruct s end. Qed.
#[export] Instance BatchMux_over_laws {P L} : StageOverLaws (BatchMux P L) P.
Proof. by split; intros; repeat match goal with s : BatchMux _ _ |- _ => destruct s as [? [|[[]]|[[]]]] end. Qed.
#[export] Instance ChannelInReader_over_laws `{Decompress} {P} : StageOverLaws (ChannelInReader P) P.
Proof. by split; intros; repeat match goal with s : ChannelInReader _ |- _ => destruct s end. Qed.
#[export] Instance ChannelMux_over_laws {P} : StageOverLaws (ChannelMux P) P.
Proof. by split; intros; repeat match goal with s : ChannelMux _ |- _ => destruct s as [? [|[]|[]]] end. Qed.
#[export] Instance FrameQueue_over_laws {P} : StageOverLaws (FrameQueue P) P.
Proof. by split; intros; repeat match goal with s : FrameQueue _ |- _ => destruct s end. Qed.
#[export] Instance L1Retrieval_over_laws {P L D} : StageOverLaws (L1Retrieval P L D) P.
Proof. by split; intros; repeat match goal with s : L1Retrieval _ _ _ |- _ => destruct s end. Qed.

(** ** The L1 traversal in use *)

Inductive traversal (L : Type) :=
| Following (t : L1Traversal L)
| ManagedBySupervisor (t : L1TraversalManaged L).
Arguments Following {L}.
Arguments ManagedBySupervisor {L}.

Section traversal.
Context `{Geth} {L : Type} `{L1Source L}.

#[export] Instance traversal_origin : HasOrigin (traversal L) := λ t,
  match t with Following t => Origin t | ManagedBySupervisor t => Origin t end.
Definition on_traversal {A} (f : L1Traversal L → Res A * L1Traversal L)
    (g : L1TraversalManaged L → Res A * L1TraversalManaged L) (t : traversal L) : Res A * traversal L :=
  match t with
  | Following t => let '(r, t) := f t in (r, Following t)
  | ManagedBySupervisor t => let '(r, t) := g t in (r, ManagedBySupervisor t)
  end.
#[export] Instance traversal_blocks : NextBlockProvider (traversal L) := {
  NextL1Block := on_traversal NextL1Block NextL1Block;
  SystemConfigOf t :=
    match t with Following t => SystemConfigOf t | ManagedBySupervisor t => SystemConfigOf t end }.
#[export] Instance traversal_Reset : ResettableStage (traversal L) := λ t base sc,
  on_traversal (λ t, Reset t base sc) (λ t, Reset t base sc) t.
#[export] Instance traversal_stage : l1TraversalStage (traversal L) := {
  AdvanceL1Block := on_traversal AdvanceL1Block AdvanceL1Block }.

#[export] Instance traversal_stable : NextL1BlockStable (traversal L).
Proof.
  intros [t|t]; cbn; [unfold L1Traversal_NextL1Block; by destruct (l1t_done t)|].
  unfold L1TraversalManaged_NextL1Block. by destruct (l1m_done t).
Qed.
End traversal.

(** ** The L1 origin transition *)

Definition VerifyNewL1Origin {L} `{L1Source L} (unsafeOrigin : L1BlockRef) (l1 : L) (newOrigin : L1BlockRef)
    : Res unit :=
  if (l1_Number newOrigin =? l1_Number unsafeOrigin) && negb (bool_decide (newOrigin = unsafeOrigin)) then
    Err (NewResetError (ErrorsNew "l1 origin was inconsistent with l2 unsafe head origin, need reset to resolve"))
  else if (l1_Number newOrigin =? l1_Number unsafeOrigin +₆₄ 1)
          && negb (bool_decide (l1_ParentHash newOrigin = l1_Hash unsafeOrigin)) then
    Err (NewResetError (ErrorsNew "l2 unsafe head origin is no longer canonical, need reset to resolve"))
  else if l1_Number unsafeOrigin +₆₄ 1 <? l1_Number newOrigin then
    canonical ← map_err (temporary "failed to fetch canonical L1 block at slot")
      (L1BlockRefByNumber l1 (l1_Number unsafeOrigin));
    if negb (bool_decide (canonical = unsafeOrigin)) then
      Err (NewResetError (ErrorsNew "l2 unsafe head origin is no longer canonical, need reset to resolve"))
    else Ok ()
  else Ok ().

(** ** The pipeline *)

(** [L2Source], as far as it is used. *)
Class L2Source (L2 : Type) := {
  l2s_safe :: SafeBlockFetcher L2;
  l2s_config :: SystemConfigL2Fetcher L2;
  L2BlockRefByHash : L2 → Hash → Res L2BlockRef;
}.

Section pipeline.
(** The libraries, the L1 and L2 sources and the alt-DA backend. *)
Context `{Geth} `{NUTBundles} `{Decompress} `{TxLib} `{BatchRLP}.
Context {L : Type} `{L1Source L} {L2 : Type} `{L2Source L2} {D : Type} `{AltDALaws L D}.

Abbreviation Retrieval := (L1Retrieval (traversal L) L D).
Abbreviation Frames := (FrameQueue Retrieval).
Abbreviation Channels := (ChannelMux Frames).
Abbreviation Reader := (ChannelInReader Channels).
Abbreviation Batches := (BatchMux Reader L2).
Abbreviation Attributes := (AttributesQueue Batches (FetchingAttributesBuilder L L2)).

(** The stages below the attributes queue are inside it, and the alt-DA backend is inside
    the data source of the L1 retrieval; [resetting] counts the stages that are done. *)
Record DerivationPipeline := mkPipeline {
  dp_rollupCfg : Config;
  dp_l1Fetcher : L;
  dp_l2 : L2;
  dp_resetting : nat;
  dp_attrib : Attributes;
  dp_origin : L1BlockRef;
  dp_resetL2Safe : L2BlockRef;
  dp_resetSysConfig : SystemConfig;
  dp_engineIsReset : bool }.
Implicit Type dp : DerivationPipeline.

Definition NewDerivationPipeline (rollupCfg : Config) (depSet : option (list Z)) (l1Fetcher : L)
    (hasBlobs : bool) (altDA : D) (l2Source : L2) (managedBySupervisor : bool) : Res DerivationPipeline :=
  let l1Traversal :=
    if managedBySupervisor then ManagedBySupervisor (NewL1TraversalManaged rollupCfg l1Fetcher)
    else Following (NewL1Traversal rollupCfg l1Fetcher) in
  let dataSrc := NewDataSourceFactory rollupCfg l1Fetcher hasBlobs altDA in
  let l1Src := NewL1Retrieval dataSrc l1Traversal in
  let frameQueue := NewFrameQueue rollupCfg l1Src in
  let channelMux := NewChannelMux (NewChainSpec rollupCfg) frameQueue in
  let chInReader := NewChannelInReader rollupCfg channelMux in
  let batchMux := NewBatchMux rollupCfg chInReader l2Source in
  attrBuilder ← NewFetchingAttributesBuilder rollupCfg depSet l1Fetcher l2Source;
  let attributesQueue := NewAttributesQueue rollupCfg attrBuilder batchMux in
  Ok (mkPipeline rollupCfg l1Fetcher l2Source 0 attributesQueue zeroL1 zeroL2 zeroSystemConfig false).

Definition stages_count : nat := 8.

Definition dp_set_attrib (a : Attributes) dp : DerivationPipeline :=
  mkPipeline (dp_rollupCfg dp) (dp_l1Fetcher dp) (dp_l2 dp) (dp_resetting dp) a
    (dp_origin dp) (dp_resetL2Safe dp) (dp_resetSysConfig dp) (dp_engineIsReset dp).
Definition dp_set_resetting (n : nat) dp : DerivationPipeline :=
  mkPipeline (dp_rollupCfg dp) (dp_l1Fetcher dp) (dp_l2 dp) n (dp_attrib dp)
    (dp_origin dp) (dp_resetL2Safe dp) (dp_resetSysConfig dp) (dp_engineIsReset dp).
Definition dp_set_origin (o : L1BlockRef) dp : DerivationPipeline :=
  mkPipeline (dp_rollupCfg dp) (dp_l1Fetcher dp) (dp_l2 dp) (dp_resetting dp) (dp_attrib dp)
    o (dp_resetL2Safe dp) (dp_resetSysConfig dp) (dp_engineIsReset dp).
Definition dp_set_reset (safe : L2BlockRef) (sc : SystemConfig) dp : DerivationPipeline :=
  mkPipeline (dp_rollupCfg dp) (dp_l1Fetcher dp) (dp_l2 dp) (dp_resetting dp) (dp_attrib dp)
    (dp_origin dp) safe sc (dp_engineIsReset dp).
Definition dp_set_engineIsReset (b : bool) dp : DerivationPipeline :=
  mkPipeline (dp_rollupCfg dp) (dp_l1Fetcher dp) (dp_l2 dp) (dp_resetting dp) (dp_attrib dp)
    (dp_origin dp) (dp_resetL2Safe dp) (dp_resetSysConfig dp) b.

Definition DerivationReady dp : bool := dp_engineIsReset dp && (stages_count <=? dp_resetting dp)%nat.

Definition dp_Reset dp : DerivationPipeline :=
  dp_set_engineIsReset false (dp_set_reset zeroL2 zeroSystemConfig (dp_set_resetting 0 dp)).
Definition ConfirmEngineReset dp : DerivationPipeline := dp_set_engineIsReset true dp.

(** Calls on a stage of the pipeline. *)
Definition on_attrib {A} (f : Attributes → Res A * Attributes) dp : Res A * DerivationPipeline :=
  let '(r, a) := f (dp_attrib dp) in (r, dp_set_attrib a dp).
Definition on_batches {A} (f : Batches → Res A * Batches) : DerivationPipeline → Res A * DerivationPipeline :=
  on_attrib (on_below f).
Definition on_reader {A} (f : Reader → Res A * Reader) : DerivationPipeline → Res A * DerivationPipeline :=
  on_batches (on_below f).
Definition on_channels {A} (f : Channels → Res A * Channels) : DerivationPipeline → Res A * DerivationPipeline :=
  on_reader (on_below f).
Definition on_frames {A} (f : Frames → Res A * Frames) : DerivationPipeline → Res A * DerivationPipeline :=
  on_channels (on_below f).
Definition on_retrieval {A} (f : Retrieval → Res A * Retrieval) : DerivationPipeline → Res A * DerivationPipeline :=
  on_frames (on_below f).
Definition on_l1 {A} (f : traversal L → Res A * traversal L) : DerivationPipeline → Res A * DerivationPipeline :=
  on_retrieval (on_below f).

(** The backend is shared with the data source. *)
Definition l1r_altDA (r : Retrieval) : D := dsf_altDAFetcher (l1r_dataSrc r).
Definition on_altDA {A} (f : D → Res A * D) : DerivationPipeline → Res A * DerivationPipeline :=
  on_retrieval (λ r, let '(x, d) := f (l1r_altDA r) in (x, l1r_set_dataSrc (dsf_set_altDA d (l1r_dataSrc r)) r)).

(** [stages[i].Reset], in the order of the list of stages. *)
Definition reset_stage (i : nat) (base : L1BlockRef) (sc : SystemConfig) dp : Res unit * DerivationPipeline :=
  match i with
  | 0%nat => on_l1 (λ s, Reset s base sc) dp
  | 1%nat => on_retrieval (λ s, Reset s base sc) dp
  | 2%nat => on_altDA (λ s, Reset s base sc) dp
  | 3%nat => on_frames (λ s, Reset s base sc) dp
  | 4%nat => on_channels (λ s, Reset s base sc) dp
  | 5%nat => on_reader (λ s, Reset s base sc) dp
  | 6%nat => on_batches (λ s, Reset s base sc) dp
  | 7%nat => on_attrib (λ s, Reset s base sc) dp
  | _ => (Panic "index out of range", dp)
  end.

(** A transform that panics leaves the stage as it is. *)
Definition transform_stage {S} `{ForkTransformer S} (f : ForkName) (s : S) : Res unit * S :=
  match Transform s f with
  | Ok s' => (Ok (), s')
  | Err e => (Err e, s)
  | Panic w => (Panic w, s)
  end.
(** Of the stages, the frame queue and the two multiplexers are transformers. *)
Definition transformStages (oldOrigin newOrigin : L1BlockRef) dp : Res unit * DerivationPipeline :=
  let fork := IsActivationBlock (dp_rollupCfg dp) (l1_Time oldOrigin) (l1_Time newOrigin) in
  if decide (fork = NoFork) then (Ok (), dp)
  else
    match on_frames (transform_stage fork) dp with
    | (Ok (), dp) =>
      match on_channels (transform_stage fork) dp with
      | (Ok (), dp) => on_batches (transform_stage fork) dp
      | r => r
      end
    | r => r
    end.

(** The walk back over the L2 chain, from a block and its L1 origin to a block
    whose origin is old enough. *)
Fixpoint walk_back (fuel : nat) dp (l1Origin : BlockID) (pipelineL2 : L2BlockRef) (pipelineOrigin : L1BlockRef)
    : Res (L2BlockRef * L1BlockRef) :=
  let genesis := cfg_Genesis (dp_rollupCfg dp) in
  let afterL2Genesis := id_Number (gen_L2 genesis) <? l2_Number pipelineL2 in
  let afterL1Genesis := id_Number (gen_L1 genesis) <? id_Number (l2_L1Origin pipelineL2) in
  let afterChannelTimeout :=
    id_Number l1Origin <? id_Number (l2_L1Origin pipelineL2)
      +₆₄ ChannelTimeout (NewChainSpec (dp_rollupCfg dp)) (l1_Time pipelineOrigin) in
  if afterL2Genesis && afterL1Genesis && afterChannelTimeout then
    match fuel with
    | O => Panic "out of fuel"
    | S fuel =>
      match L2BlockRefByHash (dp_l2 dp) (l2_ParentHash pipelineL2) with
      | Panic w => Panic w
      | Err _ => Err (NewResetError (ErrorsNew "failed to fetch L2 parent block"))
      | Ok parent =>
        origin ← map_err (temporary "failed to fetch the new L1 progress")
          (L1BlockRefByHash (dp_l1Fetcher dp) (id_Hash (l2_L1Origin parent)));
        walk_back fuel dp l1Origin parent origin
      end
    end
  else Ok (pipelineL2, pipelineOrigin).

(** The number of the block bounds the walk to the genesis block. *)
Definition initialReset (resetL2Safe : L2BlockRef) dp : Res DerivationPipeline :=
  origin ← map_err (temporary "failed to fetch the new L1 progress")
    (L1BlockRefByHash (dp_l1Fetcher dp) (id_Hash (l2_L1Origin resetL2Safe)));
  '(pipelineL2, pipelineOrigin) ←
    walk_back (Z.to_nat (l2_Number resetL2Safe)) dp (l2_L1Origin resetL2Safe) resetL2Safe origin;
  sysCfg ← map_err (temporary "failed to fetch L1 config of L2 block")
    (SystemConfigByL2Hash (dp_l2 dp) (l2_Hash pipelineL2));
  Ok (dp_set_reset resetL2Safe sysCfg (dp_set_origin pipelineOrigin dp)).

Definition EngineELSyncing_target : target := TSentinel SEngineELSyncing.

(** One step of the reset of the stages. *)
Definition reset_step dp (pendingSafeHead : L2BlockRef) : Res (option AttributesWithParent) * DerivationPipeline :=
  if negb (dp_engineIsReset dp) then (Err (NewResetError ErrEngineResetReq), dp)
  else
    match (if decide (pendingSafeHead ≠ dp_resetL2Safe dp) then initialReset pendingSafeHead dp else Ok dp) with
    | Panic w => (Panic w, dp)
    | Err e => (Err (Errorf "failed initial reset work" e), dp)
    | Ok dp =>
      let '(r, dp) := reset_stage (dp_resetting dp) (dp_origin dp) (dp_resetSysConfig dp) dp in
      match r with
      | Panic w => (Panic w, dp)
      | Err e =>
        if is_EOF e then (Ok None, dp_set_resetting (S (dp_resetting dp)) dp)
        else (Err (Errorf "stage failed resetting" e), dp)
      | Ok () => (Ok None, dp)
      end
    end.

(** Follow the origin of the last stage. *)
Definition follow_origin dp : Res unit * DerivationPipeline :=
  let prevOrigin := dp_origin dp in
  let newOrigin := Origin (dp_attrib dp) in
  if decide (prevOrigin ≠ newOrigin) then
    match VerifyNewL1Origin prevOrigin (dp_l1Fetcher dp) newOrigin with
    | Panic w => (Panic w, dp)
    | Err e => (Err (Errorf "failed to verify L1 origin transition" e), dp)
    | Ok () =>
      match transformStages prevOrigin newOrigin dp with
      | (Ok (), dp) => (Ok (), dp_set_origin newOrigin dp)
      | r => r
      end
    end
  else (Ok (), dp).

Definition Step dp (pendingSafeHead : L2BlockRef) : Res (option AttributesWithParent) * DerivationPipeline :=
  if (dp_resetting dp <? stages_count)%nat then reset_step dp pendingSafeHead
  else
    match follow_origin dp with
    | (Panic w, dp) => (Panic w, dp)
    | (Err e, dp) => (Err e, dp)
    | (Ok (), dp) =>
      let '(r, dp) := on_attrib (λ a, NextAttributes a pendingSafeHead) dp in
      match r with
      | Ok attrib => (Ok (Some attrib), dp)
      | Panic w => (Panic w, dp)
      | Err e =>
        if is_EOF e then
          let '(r, dp) := on_l1 AdvanceL1Block dp in
          (u ← r; Ok None, dp)
        else if errors_Is e EngineELSyncing_target then (Err e, dp)
        else (Err (Errorf "derivation failed" e), dp)
      end
    end.

(** ** The walk back *)

(** A block is old enough if there is nothing before it, or all channels that were
    open at the L1 origin of the safe head were opened after its L1 origin. *)
Definition old_enough dp (safe b : L2BlockRef) (origin : L1BlockRef) : Prop :=
  let genesis := cfg_Genesis (dp_rollupCfg dp) in
  l2_Number b ≤ id_Number (gen_L2 genesis) ∨
  id_Number (l2_L1Origin b) ≤ id_Number (gen_L1 genesis) ∨
  id_Number (l2_L1Origin b) +₆₄ ChannelTimeout (NewChainSpec (dp_rollupCfg dp)) (l1_Time origin)
    ≤ id_Number (l2_L1Origin safe).

(** The blocks the walk visits, each with its L1 origin: parents of blocks that are
    not old enough. *)
Inductive visits dp (safe : L2BlockRef) : L2BlockRef → L1BlockRef → Prop :=
| visits_start origin :
    L1BlockRefByHash (dp_l1Fetcher dp) (id_Hash (l2_L1Origin safe)) = Ok origin → visits dp safe safe origin
| visits_parent b o parent origin :
    visits dp safe b o → ¬ old_enough dp safe b o →
    L2BlockRefByHash (dp_l2 dp) (l2_ParentHash b) = Ok parent →
    L1BlockRefByHash (dp_l1Fetcher dp) (id_Hash (l2_L1Origin parent)) = Ok origin →
    visits dp safe parent origin.

(** Parents have smaller numbers. *)
Definition numbers_descend dp (safe : L2BlockRef) : Prop :=
  ∀ b o parent, visits dp safe b o → L2BlockRefByHash (dp_l2 dp) (l2_ParentHash b) = Ok parent →
  l2_Number parent < l2_Number b.

Definition walk_panics dp (w : string) : Prop :=
  (∃ h, L2BlockRefByHash (dp_l2 dp) h = Panic w) ∨ (∃ h, L1BlockRefByHash (dp_l1Fetcher dp) h = Panic w) ∨
  (∃ h, SystemConfigByL2Hash (dp_l2 dp) h = Panic w).

Lemma walk_back_spec fuel dp safe b o :
  0 ≤ id_Number (gen_L2 (cfg_Genesis (dp_rollupCfg dp))) → numbers_descend dp safe →
  l2_Number b ≤ Z.of_nat fuel → visits dp safe b o →
  match walk_back fuel dp (l2_L1Origin safe) b o with
  | Ok (b', o') => visits dp safe b' o' ∧ old_enough dp safe b' o'
  | Err e => outer_level e = Some LevelTemporary ∨ outer_level e = Some LevelReset
  | Panic w => walk_panics dp w
  end.
Proof.
  intros Hg Hnum. revert b o. induction fuel as [|fuel IH]; intros b o Hf Hv; cbn [walk_back];
    destruct (_ && _) eqn:Hafter.
  2,4: split; [done|]; unfold old_enough; rewrite !andb_false_iff, !Z.ltb_ge in Hafter; tauto.
  - bool2prop. lia.
  - assert (Hold : ¬ old_enough dp safe b o).
    { rewrite !andb_true_iff, !Z.ltb_lt in Hafter. unfold old_enough. lia. }
    destruct (L2BlockRefByHash (dp_l2 dp) (l2_ParentHash b)) as [p|e|w] eqn:Hp;
      [|by right|by left; eexists].
    destruct (L1BlockRefByHash (dp_l1Fetcher dp) (id_Hash (l2_L1Origin p))) as [o'|e|w] eqn:Ho; cbn;
      [|by left|by right; left; eexists].
    apply IH; [|by eapply visits_parent]. specialize (Hnum _ _ _ Hv Hp). lia.
Qed.

Lemma initial_reset_ok dp safe :
  0 ≤ id_Number (gen_L2 (cfg_Genesis (dp_rollupCfg dp))) → 0 ≤ l2_Number safe → numbers_descend dp safe →
  match initialReset safe dp with
  | Ok dp' => ∃ b origin sc, visits dp safe b origin ∧ old_enough dp safe b origin ∧
      SystemConfigByL2Hash (dp_l2 dp) (l2_Hash b) = Ok sc ∧
      dp' = dp_set_reset safe sc (dp_set_origin origin dp)
  | Err e => outer_level e = Some LevelTemporary ∨ outer_level e = Some LevelReset
  | Panic w => walk_panics dp w
  end.
Proof.
  intros Hg Hs Hnum. unfold initialReset.
  destruct (L1BlockRefByHash (dp_l1Fetcher dp) _) as [o|e|w] eqn:Ho; cbn [map_err mbind res_bind];
    [|by left|by right; left; eexists].
  pose proof (walk_back_spec (Z.to_nat (l2_Number safe)) dp safe safe o Hg Hnum ltac:(lia)
    ltac:(by apply visits_start)) as Hw.
  destruct (walk_back _ _ _ _ _) as [[b origin]|e|w]; cbn [mbind res_bind]; [|done..].
  destruct Hw as [Hv Hold].
  destruct (SystemConfigByL2Hash (dp_l2 dp) (l2_Hash b)) as [sc|e|w] eqn:Hsc; cbn;
    [|by left|by right; right; eexists].
  by exists b, origin, sc.
Qed.

(** a move of the L1 origin is accepted exactly when the old origin is still part of
    the chain of the new one, as far as it can be told: the same block, the parent of
    the new one, or the block that the L1 source names at its height. *)
Theorem verify_origin_spec (old : L1BlockRef) (l1 : L) (new : L1BlockRef) :
  VerifyNewL1Origin old l1 new = Ok () ↔
  (l1_Number new = l1_Number old → new = old) ∧
  (l1_Number new = l1_Number old +₆₄ 1 → l1_ParentHash new = l1_Hash old) ∧
  (l1_Number old +₆₄ 1 < l1_Number new → L1BlockRefByNumber l1 (l1_Number old) = Ok old).
Proof.
  unfold VerifyNewL1Origin.
  destruct (Z.eqb_spec (l1_Number new) (l1_Number old)) as [Hn|Hn]; cbn [andb].
  - case_bool_decide as Heq; cbn [negb]; [|naive_solver].
    destruct (Z.eqb_spec (l1_Number new) (l1_Number old +₆₄ 1)) as [Hm|Hm]; cbn [andb];
      [case_bool_decide; cbn [negb]; [|naive_solver]|];
      (destruct (Z.ltb_spec (l1_Number old +₆₄ 1) (l1_Number new)); [|naive_solver lia]);
      destruct (L1BlockRefByNumber _ _) as [c| |]; cbn; try case_bool_decide; naive_solver.
  - destruct (Z.eqb_spec (l1_Number new) (l1_Number old +₆₄ 1)) as [Hm|Hm]; cbn [andb];
      [case_bool_decide; cbn [negb]; [|naive_solver]|];
      (destruct (Z.ltb_spec (l1_Number old +₆₄ 1) (l1_Number new)); [|naive_solver lia]);
      destruct (L1BlockRefByNumber _ _) as [c| |]; cbn; try case_bool_decide; naive_solver.
Qed.
End pipeline.
