(* ===== verification/PipelineInv.v ===== *)
(** * Invariants of the pipeline

    Properties of the definitions of [Pipeline]: what pulling from the end of the
    pipeline keeps of the stages below, the state after a reset, and the stages that
    are active before and after a fork. *)

From S2P Require Import Prelude GoBytes Errors Eth RollupConfig ChainSpec Geth SysConfig Deposits L1BlockInfo.
From S2P Require Import Commitment UpgradeTxs SpanBatchTxs SpanBatch Batches Frame Stages L1Traversal Attributes.
From S2P Require Import DataSource FrameQueue ChannelBank ChannelAssembler ChannelMux ChannelInReader BaseBatchStage.
From S2P Require Import BatchQueue BatchStage BatchMux AttributesQueue AltDAState AltDA Pipeline SpanBatchRoundtrip.

(** ** What a batch stage keeps of the stage below

    A property of the stage below that its own calls keep is kept by the calls of the
    stage on top. *)

Section kept.
Context {P L : Type} `{NextBatchProvider P} `{SafeBlockFetcher L} `{Geth} (Q : P → Prop).
Hypothesis next_keeps : ∀ p, Q p → Q (NextBatch p).2.
Hypothesis flush_keeps : ∀ p, Q p → Q (FlushChannel p).2.

Abbreviation keeps b := (Q (bs_prev b)).

Lemma updateOrigins_keeps (b : baseBatchStage P L) parent : keeps b → keeps (updateOrigins b parent).
Proof. by destruct (updateOrigins_base b parent) as (_ & _ & -> & _). Qed.
Lemma nextFromSpan_keeps (b : baseBatchStage P L) parent : keeps b → keeps (nextFromSpanBatch b parent).2.
Proof. unfold nextFromSpanBatch. by repeat case_match. Qed.
Lemma popNext_keeps (b : baseBatchStage P L) parent : keeps b → keeps (popNextBatch b parent).2.
Proof. unfold popNextBatch. by case_match. Qed.
Lemma emptyBatch_keeps (b : baseBatchStage P L) o parent : keeps b → keeps (deriveNextEmptyBatch b o parent).2.
Proof. unfold deriveNextEmptyBatch. by repeat case_match. Qed.

Lemma deriveNextBatch_keeps (bq : BatchQueue P L) o parent :
  keeps (bq_base bq) → keeps (bq_base (bq_deriveNextBatch bq o parent).2).
Proof.
  intros Hq. unfold bq_deriveNextBatch. destruct (bs_l1Blocks _); [done|]. destruct (negb _); [done|].
  destruct (batch_loop _ _ _); try done.
  pose proof (emptyBatch_keeps (bq_base bq) o parent Hq).
  by destruct (deriveNextEmptyBatch (bq_base bq) o parent).
Qed.
Lemma emit_keeps (bq : BatchQueue P L) parent b :
  keeps (bq_base bq) → keeps (bq_base (bq_emit bq parent b).2).
Proof.
  intros Hq. unfold bq_emit. destruct b as [s|s]; [done|].
  destruct (GetSingularBatches _ _ _) as [l| |]; [|done..].
  pose proof (popNext_keeps (bs_set_nextSpan l (bq_base bq)) parent Hq).
  by destruct (popNextBatch (bs_set_nextSpan l (bq_base bq)) parent).
Qed.
Lemma AddBatch_keeps (bq : BatchQueue P L) b parent :
  keeps (bq_base bq) → keeps (bq_base (AddBatch bq b parent).2).
Proof. unfold AddBatch. intros Hq. by repeat case_match. Qed.

Lemma queue_keeps (bq : BatchQueue P L) parent :
  keeps (bq_base bq) → keeps (bq_base (BatchQueue_NextBatch bq parent).2).
Proof.
  intros Hq. unfold BatchQueue_NextBatch.
  pose proof (nextFromSpan_keeps (bq_base bq) parent Hq) as Hb.
  destruct (nextFromSpanBatch (bq_base bq) parent) as [[x|] b]; [done|]. cbn [snd] in Hb.
  apply (updateOrigins_keeps _ parent), next_keeps in Hb.
  destruct (NextBatch (bs_prev (updateOrigins b parent))) as [r p]. cbn [snd] in Hb.
  set (bq1 := bq_set_base (bs_set_prev p (updateOrigins b parent)) bq).
  assert (Hq1 : keeps (bq_base bq1)) by done. clearbody bq1. destruct r as [batch|e|w]; [| |done].
  - destruct (originBehind _ _); [done|]. apply (AddBatch_keeps _ batch parent) in Hq1.
    destruct (AddBatch bq1 batch parent) as [[[]|e|w] bq2]; [|done..]. cbn [snd] in Hq1.
    apply (deriveNextBatch_keeps _ false parent) in Hq1.
    destruct (bq_deriveNextBatch bq2 false parent) as [[b'|e|w] bq3]; [|done..]. by apply emit_keeps.
  - destruct (is_EOF e); [|done]. destruct (originBehind _ _); [done|].
    apply (deriveNextBatch_keeps _ true parent) in Hq1.
    destruct (bq_deriveNextBatch bq1 true parent) as [[b'|e'|w] bq3]; [|done..]. by apply emit_keeps.
Qed.

Lemma stage_flush_keeps (bs : BatchStage P L) : keeps (bst_base bs) → keeps (bst_base (bst_flush bs).2).
Proof.
  intros Hq%flush_keeps. unfold bst_flush. by destruct (FlushChannel (bs_prev (bst_base bs))).
Qed.
Lemma flush_continue_keeps {A} (bs : BatchStage P L) :
  keeps (bst_base bs) → keeps (bst_base (flush_and_continue (A:=A) bs).2).
Proof.
  intros Hq%stage_flush_keeps. unfold flush_and_continue. by destruct (bst_flush bs) as [[] bs'].
Qed.
Lemma candidate_keeps (bs : BatchStage P L) parent :
  keeps (bst_base bs) → keeps (bst_base (nextSingularBatchCandidate bs parent).2).
Proof.
  intros Hq. unfold nextSingularBatchCandidate.
  pose proof (nextFromSpan_keeps (bst_base bs) parent Hq) as Hb.
  destruct (nextFromSpanBatch (bst_base bs) parent) as [[[s l]|] b]; [done|]. cbn [snd] in Hb.
  apply next_keeps in Hb. destruct (NextBatch (bs_prev b)) as [[[s|s]|e|w] p]; try done. cbn [snd] in Hb.
  destruct (checkSpanBatchPrefix _ _ _ _ _ _) as [[[] pb]|e|w]; try done; [by apply flush_continue_keeps|].
  destruct (GetSingularBatches _ _ _) as [l|e|w]; [|by apply flush_continue_keeps|done].
  pose proof (popNext_keeps (bs_set_nextSpan l (bs_set_prev p b)) parent Hb).
  by destruct (popNextBatch (bs_set_nextSpan l (bs_set_prev p b)) parent).
Qed.
Lemma stage_keeps (bs : BatchStage P L) parent :
  keeps (bst_base bs) → keeps (bst_base (BatchStage_NextBatch bs parent).2).
Proof.
  intros Hq%(updateOrigins_keeps _ parent). unfold BatchStage_NextBatch.
  destruct (_ || _). { apply next_keeps in Hq. by destruct (NextBatch _) as [[]]. }
  destruct (bs_l1Blocks _) as [|epoch [|next more]]; [done..|]. destruct (negb _); [done|].
  pose proof (candidate_keeps (mkBatchStage (updateOrigins (bst_base bs) parent)) parent Hq) as Hc.
  destruct (nextSingularBatchCandidate _ parent) as [[s|e|w] bs1]; [| |done]; cbn [snd] in Hc.
  - destruct (checkSingularBatch _ _ _ _ _); try done. by apply flush_continue_keeps.
  - destruct (is_EOF e); [|done]. pose proof (emptyBatch_keeps (bst_base bs1) true parent Hc).
    by destruct (deriveNextEmptyBatch (bst_base bs1) true parent).
Qed.

Lemma mux_keeps (m : BatchMux P L) parent : Q (bm_prev m) → Q (bm_prev (BatchMux_NextBatch m parent).2).
Proof.
  destruct m as [cfg [p l2|bq|bs]]; unfold BatchMux_NextBatch; cbn; intros Hq; [done|..].
  - apply (queue_keeps _ parent) in Hq. by destruct (BatchQueue_NextBatch bq parent).
  - apply (stage_keeps _ parent) in Hq. by destruct (BatchStage_NextBatch bs parent).
Qed.
End kept.

(** The same for the channel reader. *)
Section reader_kept.
Context `{Decompress} `{TxLib} `{BatchRLP} {P : Type} `{RawChannelProvider P} (Q : P → Prop).
Hypothesis raw_keeps : ∀ p, Q p → Q (NextRawChannel p).2.
Hypothesis flush_keeps : ∀ p, Q p → Q (FlushChannel p).2.

Lemma read_batch_keeps (cr : ChannelInReader P) s : Q (cr_prev cr) → Q (cr_prev (read_batch cr s).2).
Proof. unfold read_batch. by destruct (next_batch s) as [[]]. Qed.
Lemma reader_keeps (cr : ChannelInReader P) : Q (cr_prev cr) → Q (cr_prev (NextBatch cr).2).
Proof.
  intros Hq. cbn. unfold ChannelInReader_NextBatch. destruct (cr_nextBatchFn cr); [by apply read_batch_keeps|].
  apply raw_keeps in Hq. destruct (NextRawChannel (cr_prev cr)) as [[data|e|w] p]; [|done..]. cbn [snd] in Hq.
  unfold WriteChannel. destruct (BatchReader _ _ _); [|done..]. cbn. by apply read_batch_keeps.
Qed.
Lemma reader_flush_keeps (cr : ChannelInReader P) : Q (cr_prev cr) → Q (cr_prev (FlushChannel cr).2).
Proof.
  intros Hq%flush_keeps. unfold FlushChannel at 1, ChannelInReader_FlushChannel.
  by destruct (FlushChannel (cr_prev cr)).
Qed.
End reader_kept.

(** ** The active stages *)

(** [None] before the first reset, then whether the Holocene stage is active. *)
Definition cm_kind {P} (c : ChannelMux P) : option bool :=
  match cm_stage c with NoChannelStage _ => None | ActiveBank _ => Some false | ActiveAssembler _ => Some true end.
Definition bm_kind {P L} (m : BatchMux P L) : option bool :=
  match bm_stage m with NoBatchStage _ _ => None | ActiveQueue _ => Some false | ActiveStage _ => Some true end.

Section kinds.
Context {P : Type} `{NextFrameProvider P} `{!NextFrameFinite P}.

Definition channels_are (k : option bool) (sp : ChainSpec) (c : ChannelMux P) : Prop :=
  cm_kind c = k ∧ cm_spec c = sp.
Lemma raw_keeps_kind k sp (c : ChannelMux P) : channels_are k sp c → channels_are k sp (NextRawChannel c).2.
Proof.
  destruct c as [s [p|cb|ca]]; cbn; unfold ChannelMux_NextRawChannel; cbn; [done|..].
  - by destruct (ChannelBank_NextRawChannel cb).
  - by destruct (ChannelAssembler_NextRawChannel ca).
Qed.
Lemma flush_keeps_kind k sp (c : ChannelMux P) : channels_are k sp c → channels_are k sp (FlushChannel c).2.
Proof. by destruct c as [s [p|cb|ca]]. Qed.
Lemma set_prev_kind k sp (c : ChannelMux P) p : channels_are k sp c → channels_are k sp (set_below p c).
Proof. by destruct c as [s [q|cb|ca]]. Qed.
Lemma reset_kind k sp (c : ChannelMux P) base sc :
  channels_are k sp c → channels_are (Some (spec_IsHolocene sp (l1_Time base))) sp (Reset c base sc).2.
Proof.
  intros [_ <-]. unfold Reset, ChannelMux_Reset, channels_are, cm_kind.
  destruct (spec_IsHolocene (cm_spec c) (l1_Time base)); by destruct (cm_stage c).
Qed.
Lemma transform_kind k sp (c : ChannelMux P) f :
  channels_are (Some k) sp c → (f = Holocene → k = false) →
  ∃ c', transform_stage f c = (Ok (), c') ∧ channels_are (Some (bool_decide (f = Holocene) || k)) sp c'.
Proof.
  unfold transform_stage, Transform, ChannelMux_Transform, channels_are, cm_kind.
  intros [Hk Hs] Hf. destruct (decide (f = Holocene)) as [->|Hne].
  - rewrite Hf in Hk by done. unfold cm_TransformHolocene.
    destruct c as [s [p|cb|ca]]; simplify_eq/=. by eexists.
  - rewrite bool_decide_eq_false_2 by done. exists c. by destruct f.
Qed.
End kinds.

Section batch_kinds.
Context {P L : Type} `{NextBatchProvider P} `{SafeBlockFetcher L} `{Geth}.

Definition batches_are (k : option bool) (cfg : Config) (m : BatchMux P L) : Prop :=
  bm_kind m = k ∧ bm_cfg m = cfg.
Lemma next_keeps_kind k cfg (m : BatchMux P L) parent :
  batches_are k cfg m → batches_are k cfg (NextSingularBatch m parent).2.
Proof.
  destruct m as [c [p l|bq|bs]]; cbn; unfold BatchMux_NextBatch; cbn; [done|..].
  - by destruct (BatchQueue_NextBatch bq parent).
  - by destruct (BatchStage_NextBatch bs parent).
Qed.
Lemma set_prev_batch_kind k cfg (m : BatchMux P L) p : batches_are k cfg m → batches_are k cfg (set_below p m).
Proof. by destruct m as [c [q l|bq|bs]]. Qed.
Lemma reset_batch_kind k cfg (m : BatchMux P L) base sc :
  batches_are k cfg m → batches_are (Some (IsHolocene cfg (l1_Time base))) cfg (Reset m base sc).2.
Proof.
  intros [_ <-]. unfold Reset, BatchMux_Reset, batches_are, bm_kind.
  destruct (IsHolocene (bm_cfg m) (l1_Time base)); by destruct (bm_stage m).
Qed.
Lemma transform_batch_kind k cfg (m : BatchMux P L) f :
  batches_are (Some k) cfg m → (f = Holocene → k = false) →
  ∃ m', transform_stage f m = (Ok (), m') ∧ below m' = below m ∧
    batches_are (Some (bool_decide (f = Holocene) || k)) cfg m'.
Proof.
  unfold transform_stage, Transform, BatchMux_Transform, batches_are, bm_kind.
  intros [Hk Hs] Hf. destruct (decide (f = Holocene)) as [->|Hne].
  - rewrite Hf in Hk by done. unfold bm_TransformHolocene.
    destruct m as [c [p l|bq|bs]]; simplify_eq/=. by eexists.
  - rewrite bool_decide_eq_false_2 by done. by exists m.
Qed.
End batch_kinds.

(** ** The stages of the pipeline *)

Section pipeline_inv.
Context `{Geth} `{NUTBundles} `{Decompress} `{TxLib} `{BatchRLP}.
Context {L : Type} `{L1Source L} {L2 : Type} `{L2Source L2} {D : Type} `{AltDALaws L D}.
Implicit Type dp : DerivationPipeline (L:=L) (L2:=L2) (D:=D).

Definition batches_of dp := below (dp_attrib dp).
Definition reader_of dp := below (batches_of dp).
Definition channels_of dp := below (reader_of dp).
Definition frames_of dp := below (channels_of dp).
Definition retrieval_of dp := below (frames_of dp).
Definition l1_of dp := below (retrieval_of dp).

Lemma on_below_snd {S P A} `{StageOver S P} (f : P → Res A * P) (s : S) :
  (on_below f s).2 = set_below (f (below s)).2 s.
Proof. unfold on_below. by destruct (f (below s)). Qed.
Lemma on_below_fst {S P A} `{StageOver S P} (f : P → Res A * P) (s : S) :
  (on_below f s).1 = (f (below s)).1.
Proof. unfold on_below. by destruct (f (below s)). Qed.
Lemma on_attrib_snd {A} (f : _ → Res A * _) dp : (on_attrib f dp).2 = dp_set_attrib (f (dp_attrib dp)).2 dp.
Proof. unfold on_attrib. by destruct (f (dp_attrib dp)). Qed.
Lemma on_attrib_fst {A} (f : _ → Res A * _) dp : (on_attrib f dp).1 = (f (dp_attrib dp)).1.
Proof. unfold on_attrib. by destruct (f (dp_attrib dp)). Qed.

(** A call on a stage replaces that stage and leaves those on top alone. *)
Ltac stage_calls :=
  unfold on_l1, on_retrieval, on_frames, on_channels, on_reader, on_batches,
    l1_of, retrieval_of, frames_of, channels_of, reader_of, batches_of;
  repeat first [rewrite on_attrib_snd | rewrite on_attrib_fst | rewrite on_below_snd | rewrite on_below_fst];
  cbn [dp_attrib dp_set_attrib]; rewrite ?below_set.

Lemma batches_on_batches {A} (f : _ → Res A * _) dp :
  batches_of (on_batches f dp).2 = (f (batches_of dp)).2 ∧ (on_batches f dp).1 = (f (batches_of dp)).1.
Proof. by stage_calls. Qed.
Lemma batches_on_reader {A} (f : _ → Res A * _) dp :
  batches_of (on_reader f dp).2 = set_below (f (reader_of dp)).2 (batches_of dp).
Proof. by stage_calls. Qed.
Lemma channels_on_channels {A} (f : _ → Res A * _) dp :
  channels_of (on_channels f dp).2 = (f (channels_of dp)).2 ∧ (on_channels f dp).1 = (f (channels_of dp)).1.
Proof. by stage_calls. Qed.
Lemma batches_on_channels {A} (f : _ → Res A * _) dp :
  ∃ p, batches_of (on_channels f dp).2 = set_below p (batches_of dp).
Proof. unfold on_channels. rewrite batches_on_reader. by eexists. Qed.
Lemma channels_on_frames {A} (f : _ → Res A * _) dp :
  channels_of (on_frames f dp).2 = set_below (f (frames_of dp)).2 (channels_of dp) ∧
  (on_frames f dp).1 = (f (frames_of dp)).1.
Proof. by stage_calls. Qed.

(** Which stages are active, as far as they have been reset. *)
Definition kinds dp (kc kb : option bool) : Prop :=
  channels_are kc (NewChainSpec (dp_rollupCfg dp)) (channels_of dp) ∧
  batches_are kb (dp_rollupCfg dp) (batches_of dp).

(** What a call on a stage leaves of the pipeline itself. *)
Definition same_pipeline dp dp' : Prop :=
  dp_rollupCfg dp' = dp_rollupCfg dp ∧ dp_resetting dp' = dp_resetting dp ∧ dp_origin dp' = dp_origin dp ∧
  dp_resetL2Safe dp' = dp_resetL2Safe dp ∧ dp_engineIsReset dp' = dp_engineIsReset dp ∧
  dp_l1Fetcher dp' = dp_l1Fetcher dp ∧ dp_resetSysConfig dp' = dp_resetSysConfig dp.
Lemma on_attrib_same {A} (f : _ → Res A * _) dp : same_pipeline dp (on_attrib f dp).2.
Proof. rewrite on_attrib_snd. done. Qed.

Lemma kinds_on_frames {A} (f : _ → Res A * _) dp kc kb : kinds dp kc kb → kinds (on_frames f dp).2 kc kb.
Proof.
  intros [Hc Hb]. destruct (channels_on_frames f dp) as [Hcc _].
  destruct (batches_on_channels (on_below f) dp) as [p Hbb].
  destruct (on_attrib_same (on_below (on_below (on_below (on_below f)))) dp) as [Hcfg _].
  unfold kinds. rewrite Hcc. change (on_frames f dp) with (on_channels (on_below f) dp). rewrite Hbb.
  change (on_attrib _ dp) with (on_channels (on_below f) dp) in Hcfg. rewrite Hcfg.
  split; [by apply set_prev_kind|by apply set_prev_batch_kind].
Qed.
Lemma kinds_on_l1 {A} (f : _ → Res A * _) dp kc kb : kinds dp kc kb → kinds (on_l1 f dp).2 kc kb.
Proof. apply kinds_on_frames. Qed.
Lemma kinds_on_retrieval {A} (f : _ → Res A * _) dp kc kb : kinds dp kc kb → kinds (on_retrieval f dp).2 kc kb.
Proof. apply kinds_on_frames. Qed.

Lemma kinds_on_channels {A} (f : _ → Res A * _) dp kc kc' kb :
  kinds dp kc kb →
  (∀ c, channels_are kc (NewChainSpec (dp_rollupCfg dp)) c →
        channels_are kc' (NewChainSpec (dp_rollupCfg dp)) (f c).2) →
  kinds (on_channels f dp).2 kc' kb.
Proof.
  intros [Hc Hb] Hf. destruct (channels_on_channels f dp) as [Hcc _].
  destruct (batches_on_channels f dp) as [p Hbb].
  destruct (on_attrib_same (on_below (on_below (on_below f))) dp) as [Hcfg _].
  unfold kinds. rewrite Hcc, Hbb. change (on_attrib _ dp) with (on_channels f dp) in Hcfg. rewrite Hcfg.
  split; [by apply Hf|by apply set_prev_batch_kind].
Qed.

Lemma kinds_on_batches {A} (f : _ → Res A * _) dp kc kb kb' :
  kinds dp kc kb →
  (∀ m, batches_are kb (dp_rollupCfg dp) m → batches_are kb' (dp_rollupCfg dp) (f m).2) →
  (∀ m, channels_are kc (NewChainSpec (dp_rollupCfg dp)) (below (below m)) →
        channels_are kc (NewChainSpec (dp_rollupCfg dp)) (below (below (f m).2))) →
  kinds (on_batches f dp).2 kc kb'.
Proof.
  intros [Hc Hb] Hf Hg. destruct (batches_on_batches f dp) as [Hbb _].
  destruct (on_attrib_same (on_below f) dp) as [Hcfg _].
  unfold kinds, channels_of, reader_of. rewrite Hbb. change (on_attrib _ dp) with (on_batches f dp) in Hcfg.
  rewrite Hcfg. split; [by apply Hg|by apply Hf].
Qed.

(** Pulling attributes pulls at most once from the stage below. *)
Lemma next_attributes_prev {P B} `{SingularBatchProvider P} `{AttributesBuilder B} (aq : AttributesQueue P B) parent :
  aq_prev (NextAttributes aq parent).2 = aq_prev aq ∨
  aq_prev (NextAttributes aq parent).2 = (NextSingularBatch (aq_prev aq) parent).2.
Proof.
  unfold NextAttributes, aq_pull. destruct (aq_batch aq) as [b|].
  - left. by destruct (createNextAttributes aq b parent).
  - right. destruct (NextSingularBatch (aq_prev aq) parent) as [[[b c]|e|w] p]; [|done..].
    by destruct (createNextAttributes _ b parent).
Qed.

Lemma kinds_on_next dp safe kc kb :
  kinds dp kc kb → kinds (on_attrib (λ a, NextAttributes a safe) dp).2 kc kb.
Proof.
  intros [Hc Hb]. rewrite on_attrib_snd. unfold kinds, channels_of, reader_of, batches_of.
  cbn [dp_attrib dp_set_attrib dp_rollupCfg].
  destruct (next_attributes_prev (dp_attrib dp) safe) as [Hp|Hp]; cbn [below AttributesQueue_over];
    rewrite Hp; [done|].
  split; [|by apply next_keeps_kind].
  apply (mux_keeps (λ cr, channels_are kc (NewChainSpec (dp_rollupCfg dp)) (below cr))); [| |done].
  - intros cr. apply (reader_keeps (channels_are kc (NewChainSpec (dp_rollupCfg dp)))).
    intros c. apply raw_keeps_kind.
  - intros cr. apply (reader_flush_keeps (channels_are kc (NewChainSpec (dp_rollupCfg dp)))).
    intros c. apply flush_keeps_kind.
Qed.

(** *** Reset *)

Definition holocene_at dp : bool := IsHolocene (dp_rollupCfg dp) (l1_Time (dp_origin dp)).
(** The stages that have been reset follow the fork rules of the origin. *)
Definition stages_follow dp : Prop := ∃ kc kb, kinds dp kc kb ∧
  ((4 < dp_resetting dp)%nat → kc = Some (holocene_at dp)) ∧
  ((6 < dp_resetting dp)%nat → kb = Some (holocene_at dp)).

Lemma mux_reset_prev (m : BatchMux (ChannelInReader (ChannelMux (FrameQueue (L1Retrieval (traversal L) L D)))) L2) base sc :
  below (Reset m base sc).2 = below m.
Proof.
  destruct m as [cfg [p l2|bq|bs]]; unfold Reset, BatchMux_Reset; cbn [bm_cfg bm_stage];
    by destruct (IsHolocene cfg (l1_Time base)).
Qed.

Lemma reset_stage_same i base sc dp : same_pipeline dp (reset_stage i base sc dp).2.
Proof.
  by destruct i as [|[|[|[|[|[|[|[|i]]]]]]]]; try apply on_attrib_same.
Qed.

Lemma reset_stage_kinds i dp sc kc kb :
  let base := dp_origin dp in
  kinds dp kc kb →
  kinds (reset_stage i base sc dp).2
    (if (i =? 4)%nat then Some (holocene_at dp) else kc) (if (i =? 6)%nat then Some (holocene_at dp) else kb).
Proof.
  intros base Hk. destruct i as [|[|[|[|[|[|[|[|i]]]]]]]]; cbn [reset_stage Nat.eqb].
  - by apply kinds_on_l1.
  - by apply kinds_on_retrieval.
  - by apply kinds_on_retrieval.
  - by apply kinds_on_frames.
  - eapply kinds_on_channels; [done|]. intros c Hc. exact (reset_kind kc _ c base sc Hc).
  - destruct Hk as [Hc Hb]. split; unfold on_reader.
    + unfold channels_of, reader_of. destruct (batches_on_batches (on_below (λ s, Reset s base sc)) dp) as [-> _].
      rewrite on_below_snd, below_set. exact Hc.
    + destruct (batches_on_batches (on_below (λ s, Reset s base sc)) dp) as [-> _].
      rewrite on_below_snd. by apply set_prev_batch_kind.
  - eapply kinds_on_batches; [done|intros m Hm; exact (reset_batch_kind kb _ m base sc Hm)|].
    intros m Hm. by rewrite mux_reset_prev.
  - by unfold kinds, channels_of, reader_of, batches_of; rewrite on_attrib_snd.
  - done.
Qed.

Lemma initial_reset_same safe dp dp' :
  initialReset safe dp = Ok dp' →
  dp_rollupCfg dp' = dp_rollupCfg dp ∧ dp_attrib dp' = dp_attrib dp ∧ dp_resetting dp' = dp_resetting dp.
Proof. unfold initialReset. intros Hi. inv_bind Hi. destruct a0. inv_bind Hi. by simplify_eq. Qed.

Lemma kinds_ext dp dp' kc kb :
  dp_rollupCfg dp' = dp_rollupCfg dp → dp_attrib dp' = dp_attrib dp → kinds dp kc kb → kinds dp' kc kb.
Proof. unfold kinds, channels_of, reader_of, batches_of. by intros -> ->. Qed.

(** Outside of a reset there is nothing to keep: the step after [dp_Reset] may move
    the origin, later ones must not. *)
Lemma reset_step_follow dp safe :
  (dp_resetting dp < 8)%nat → ((0 < dp_resetting dp)%nat → safe = dp_resetL2Safe dp) →
  stages_follow dp → stages_follow (reset_step dp safe).2.
Proof.
  intros Hr Hsafe Hf. unfold reset_step. destruct (negb _); [done|].
  assert (Hmid : ∀ dp1, (if decide (safe ≠ dp_resetL2Safe dp) then initialReset safe dp else Ok dp) = Ok dp1 →
    stages_follow dp1 ∧ (dp_resetting dp1 < 8)%nat).
  { intros dp1. case_decide as Hne; [|by intros [= <-]]. intros (Hc & Ha & Hn)%initial_reset_same.
    destruct (dp_resetting dp) as [|n] eqn:Hz; [|exfalso; apply Hne, Hsafe; lia].
    destruct Hf as (kc & kb & Hk & _). split; [|lia]. exists kc, kb.
    split; [by eapply kinds_ext|]. rewrite Hn. split; lia. }
  destruct (if decide _ then _ else _) as [dp1|e|w]; [|done..].
  destruct (Hmid dp1 eq_refl) as [(kc & kb & Hk & Hkc & Hkb) Hr1].
  pose proof (reset_stage_same (dp_resetting dp1) (dp_origin dp1) (dp_resetSysConfig dp1) dp1) as Hsame.
  pose proof (reset_stage_kinds (dp_resetting dp1) dp1 (dp_resetSysConfig dp1) kc kb Hk) as Hk2.
  cbv zeta in Hk2. destruct (reset_stage _ _ _ dp1) as [r dp2]. cbn [snd] in *.
  destruct Hsame as (Hcfg & Hn & Ho & _).
  assert (Hfol : ∀ n, (n ≤ S (dp_resetting dp1))%nat → stages_follow (dp_set_resetting n dp2)).
  { intros n Hle. eexists _, _. split; [eapply kinds_ext; [| |exact Hk2]; done|].
    unfold holocene_at in *. cbn [dp_resetting dp_set_resetting dp_rollupCfg dp_origin]. rewrite Hcfg, Ho.
    split; intros Hlt; [destruct (Nat.eqb_spec (dp_resetting dp1) 4)|destruct (Nat.eqb_spec (dp_resetting dp1) 6)];
      try done; [apply Hkc|apply Hkb]; lia. }
  assert (Heq : dp2 = dp_set_resetting (dp_resetting dp1) dp2) by (destruct dp2; cbn in *; by rewrite Hn).
  destruct r as [[]|e|w]; [rewrite Heq; apply Hfol; lia| |rewrite Heq; apply Hfol; lia].
  destruct (is_EOF e); cbn; [|rewrite Heq]; apply Hfol; lia.
Qed.

(** *** Forks *)

(** No other fork activates in the same L1 step as Holocene. *)
Definition holocene_alone (c : Config) (t t' : Z) : Prop :=
  IsHolocene c t = false → IsHolocene c t' = true →
  ∀ f, f ∈ scheduleableForks → fork_active c f t = false → fork_active c f t' = true → f = Holocene.

Lemma activation_loop_spec c t t' l :
  let g := IsActivationBlock_loop c t t' l in
  (g ≠ NoFork → g ∈ l ∧ fork_active c g t = false ∧ fork_active c g t' = true) ∧
  (g = NoFork → ∀ f, f ∈ l → f ≠ NoFork → fork_active c f t = false → fork_active c f t' = false).
Proof.
  induction l as [|f l [IH1 IH2]]; cbn; [split; [done|by intros _ f ?%not_elem_of_nil]|].
  destruct (fork_active c f t' && negb (fork_active c f t)) eqn:Hf.
  - apply andb_true_iff in Hf as [H1' H2'%negb_true_iff]. split; [by split; [left|]|].
    intros -> g _ _ _. by unfold fork_active in H1'.
  - split; [intros Hn; destruct (IH1 Hn) as (? & ? & ?); by split; [right|]|].
    intros Hn g [->|Hg]%elem_of_cons Hg0 Ht; [|by apply IH2].
    destruct (fork_active c f t'); [|done]. by rewrite Ht in Hf.
Qed.

Lemma activation_alone c t t' :
  t ≤ t' → holocene_alone c t t' →
  let f := IsActivationBlock c t t' in
  (f = Holocene → IsHolocene c t = false) ∧ IsHolocene c t' = bool_decide (f = Holocene) || IsHolocene c t.
Proof.
  intros Hle Halone f. destruct (activation_loop_spec c t t' scheduleableForks) as [Hs1 Hs2].
  change (IsActivationBlock_loop c t t' scheduleableForks) with f in Hs1, Hs2.
  assert (Hin : Holocene ∈ scheduleableForks) by (by apply (bool_decide_unpack _)).
  assert (Hf : f = Holocene → IsHolocene c t = false ∧ IsHolocene c t' = true).
  { intros Hf. rewrite Hf in Hs1. by destruct Hs1 as (_ & ? & ?). }
  split; [by intros [? _]%Hf|].
  destruct (IsHolocene c t) eqn:Ht. { rewrite orb_true_r. by eapply fork_active_mono. }
  rewrite orb_false_r. destruct (IsHolocene c t') eqn:Ht'; symmetry.
  - apply bool_decide_eq_true. destruct (decide (f = NoFork)) as [Hn|Hn].
    + specialize (Hs2 Hn Holocene Hin ltac:(done) Ht). unfold IsHolocene in Ht'. congruence.
    + destruct (Hs1 Hn) as (? & ? & ?). by apply Halone.
  - apply bool_decide_eq_false. by intros [_ ?]%Hf.
Qed.

Lemma transform_stages_kinds dp old new k :
  kinds dp (Some k) (Some k) →
  let f := IsActivationBlock (dp_rollupCfg dp) (l1_Time old) (l1_Time new) in
  (f = Holocene → k = false) →
  ∃ dp', transformStages old new dp = (Ok (), dp') ∧ same_pipeline dp dp' ∧
    kinds dp' (Some (bool_decide (f = Holocene) || k)) (Some (bool_decide (f = Holocene) || k)).
Proof.
  intros Hk f Hf. unfold transformStages. fold f. case_decide as Hn. { exists dp. by rewrite Hn. }
  pose proof (kinds_on_frames (transform_stage f) dp _ _ Hk) as Hk1.
  assert (Hfr : (on_frames (transform_stage f) dp).1 = Ok ()).
  { destruct (channels_on_frames (transform_stage f) dp) as [_ ->]. by destruct f. }
  pose proof (on_attrib_same (on_below (on_below (on_below (on_below (transform_stage f))))) dp) as Hs1.
  change (on_attrib _ dp) with (on_frames (transform_stage f) dp) in Hs1.
  destruct (on_frames (transform_stage f) dp) as [r1 dp1]. cbn [fst snd] in Hk1, Hfr, Hs1. subst r1.
  assert (Hch : (on_channels (transform_stage f) dp1).1 = Ok () ∧
    kinds (on_channels (transform_stage f) dp1).2 (Some (bool_decide (f = Holocene) || k)) (Some k)).
  { split.
    - destruct (channels_on_channels (transform_stage f) dp1) as [_ ->].
      destruct (transform_kind k _ _ f (proj1 Hk1) Hf) as (c' & -> & _). done.
    - eapply kinds_on_channels; [done|]. intros c Hc.
      by destruct (transform_kind k _ c f Hc Hf) as (c' & -> & ?). }
  pose proof (on_attrib_same (on_below (on_below (on_below (transform_stage f)))) dp1) as Hs2.
  change (on_attrib _ dp1) with (on_channels (transform_stage f) dp1) in Hs2.
  destruct (on_channels (transform_stage f) dp1) as [r2 dp2]. cbn [fst snd] in Hch, Hs2.
  destruct Hch as [-> Hk2].
  pose proof (on_attrib_same (on_below (transform_stage f)) dp2) as Hs3.
  change (on_attrib _ dp2) with (on_batches (transform_stage f) dp2) in Hs3.
  assert (Hb : (on_batches (transform_stage f) dp2).1 = Ok () ∧
    kinds (on_batches (transform_stage f) dp2).2 (Some (bool_decide (f = Holocene) || k))
      (Some (bool_decide (f = Holocene) || k))).
  { split.
    - destruct (batches_on_batches (transform_stage f) dp2) as [_ ->].
      destruct (transform_batch_kind k _ _ f (proj2 Hk2) Hf) as (c' & -> & _). done.
    - destruct (transform_batch_kind k _ _ f (proj2 Hk2) Hf) as (c' & Ht & Hbl & Hm).
      destruct (batches_on_batches (transform_stage f) dp2) as [Hbb _]. rewrite Ht in Hbb.
      destruct Hs3 as [Hcfg _]. unfold kinds, channels_of, reader_of. rewrite Hbb, Hcfg. cbn [snd].
      rewrite Hbl. split; [apply Hk2|done]. }
  destruct (on_batches (transform_stage f) dp2) as [r3 dp3]. cbn [fst snd] in Hb, Hs3.
  destruct Hb as [-> Hk3]. exists dp3. split_and!; [done| |done].
  unfold same_pipeline in *. naive_solver congruence.
Qed.

(** *** Steps *)

(** What the surroundings promise for a step: the safe head stays during a reset, L1
    timestamps grow, and Holocene activates alone. *)
Definition step_allowed dp (safe : L2BlockRef) : Prop :=
  let t := l1_Time (dp_origin dp) in
  let t' := l1_Time (Origin (dp_attrib dp)) in
  ((0 < dp_resetting dp < 8)%nat → safe = dp_resetL2Safe dp) ∧
  ((8 ≤ dp_resetting dp)%nat → t ≤ t' ∧ holocene_alone (dp_rollupCfg dp) t t').

Lemma follow_origin_follow dp safe :
  (8 ≤ dp_resetting dp)%nat → step_allowed dp safe → stages_follow dp →
  stages_follow (follow_origin dp).2 ∧ (8 ≤ dp_resetting (follow_origin dp).2)%nat.
Proof.
  intros Hr [_ Hal] (kc & kb & Hk & Hkc & Hkb). destruct (Hal Hr) as [Hle Halone].
  rewrite Hkc, Hkb in Hk by lia.
  assert (Hsame : stages_follow dp) by (eexists _, _; by split).
  unfold follow_origin. case_decide as Hne; [|done].
  destruct (VerifyNewL1Origin _ _ _) as [[]|e|w]; [|done..].
  destruct (activation_alone _ _ _ Hle Halone) as [Hf Hh].
  destruct (transform_stages_kinds dp (dp_origin dp) (Origin (dp_attrib dp)) _ Hk Hf)
    as (dp' & -> & (Hcfg & Hn & _) & Hk'). cbn [snd]. split; [|cbn; lia].
  unfold holocene_at in Hk'. rewrite <-Hh in Hk'. eexists _, _. split; [by apply (kinds_ext dp' (dp_set_origin (Origin (dp_attrib dp)) dp') _ _ eq_refl eq_refl)|].
  unfold holocene_at. cbn [dp_rollupCfg dp_origin dp_set_origin]. by rewrite Hcfg.
Qed.

Lemma step_follow dp safe : step_allowed dp safe → stages_follow dp → stages_follow (Step dp safe).2.
Proof.
  intros Hal Hf. unfold Step. unfold stages_count. destruct (Nat.ltb_spec (dp_resetting dp) 8) as [Hr|Hr].
  { apply reset_step_follow; [done|by intros; apply Hal|done]. }
  destruct (follow_origin_follow dp safe Hr Hal Hf) as [Hf1 Hr1].
  destruct (follow_origin dp) as [[[]|e|w] dp1]; [|done..]. cbn [snd] in *. clear Hal Hf Hr dp.
  assert (Hkeep : ∀ dp2, (∀ kc kb, kinds dp1 kc kb → kinds dp2 kc kb) → same_pipeline dp1 dp2 → stages_follow dp2).
  { intros dp2 Hk (Hcfg & Hn & Ho & _). destruct Hf1 as (kc & kb & Hk1 & Hkc & Hkb).
    exists kc, kb. unfold holocene_at in *. rewrite Hcfg, Hn, Ho. auto. }
  pose proof (on_attrib_same (λ a, NextAttributes a safe) dp1) as Hs.
  pose proof (λ kc kb, kinds_on_next dp1 safe kc kb) as Hk.
  destruct (on_attrib _ dp1) as [[a|e|w] dp2]; cbn [snd] in *; [by apply Hkeep| |by apply Hkeep].
  destruct (is_EOF e); [|destruct (errors_Is _ _); by apply Hkeep].
  pose proof (on_attrib_same (on_below (on_below (on_below (on_below (on_below (on_below AdvanceL1Block)))))) dp2) as Hs2.
  change (on_attrib _ dp2) with (on_l1 AdvanceL1Block dp2) in Hs2.
  pose proof (λ kc kb, kinds_on_l1 AdvanceL1Block dp2 kc kb) as Hk2.
  destruct (on_l1 AdvanceL1Block dp2) as [r dp3]. cbn [snd] in *. apply Hkeep; [by auto|].
  unfold same_pipeline in *. naive_solver congruence.
Qed.

(** *** Reachable states *)

Inductive reachable : DerivationPipeline (L:=L) (L2:=L2) (D:=D) → Prop :=
| reach_new cfg depSet l1 blobs altDA l2 managed dp :
    NewDerivationPipeline cfg depSet l1 blobs altDA l2 managed = Ok dp → reachable dp
| reach_step dp safe : reachable dp → step_allowed dp safe → reachable (Step dp safe).2
| reach_reset dp : reachable dp → reachable (dp_Reset dp)
| reach_confirm dp : reachable dp → reachable (ConfirmEngineReset dp)
| reach_provide dp next :
    reachable dp → reachable (on_l1 (on_traversal (λ t, (Ok (), t)) (λ t, ProvideNextL1 t next)) dp).2.

Lemma reachable_follow dp : reachable dp → stages_follow dp.
Proof.
  induction 1 as [cfg depSet l1 blobs altDA l2 managed dp Hn|dp safe _ IH Hal|dp _ IH|dp _ IH|dp next _ IH].
  - unfold NewDerivationPipeline in Hn. inv_bind Hn. simplify_eq. exists None, None. by split; [|split; cbn; lia].
  - by apply step_follow.
  - destruct IH as (kc & kb & Hk & _). exists kc, kb. split; [done|]. cbn. split; lia.
  - exact IH.
  - destruct IH as (kc & kb & Hk & Hkc & Hkb). exists kc, kb.
    set (f := on_traversal _ _). split; [by apply (kinds_on_l1 f)|].
    destruct (on_attrib_same (on_below (on_below (on_below (on_below (on_below (on_below f)))))) dp)
      as (Hcfg & Hn & Ho & _). change (on_attrib _ dp) with (on_l1 f dp) in *.
    unfold holocene_at in *. by rewrite Hcfg, Hn, Ho.
Qed.



(** *** A reset, start to end *)

Lemma channels_reset_prev (c : ChannelMux (FrameQueue (L1Retrieval (traversal L) L D))) base sc :
  below (Reset c base sc).2 = below c.
Proof.
  destruct c as [sp [p|cb|ca]]; unfold Reset, ChannelMux_Reset; cbn [cm_spec cm_stage];
    by destruct (spec_IsHolocene sp (l1_Time base)).
Qed.
Lemma reader_on_reader {A} (f : _ → Res A * _) dp :
  reader_of (on_reader f dp).2 = (f (reader_of dp)).2 ∧ (on_reader f dp).1 = (f (reader_of dp)).1.
Proof. by stage_calls. Qed.
Lemma frames_on_frames {A} (f : _ → Res A * _) dp :
  frames_of (on_frames f dp).2 = (f (frames_of dp)).2 ∧ (on_frames f dp).1 = (f (frames_of dp)).1.
Proof. by stage_calls. Qed.
Lemma retrieval_on_retrieval {A} (f : _ → Res A * _) dp :
  retrieval_of (on_retrieval f dp).2 = (f (retrieval_of dp)).2 ∧ (on_retrieval f dp).1 = (f (retrieval_of dp)).1.
Proof. by stage_calls. Qed.
Lemma retrieval_on_l1 {A} (f : _ → Res A * _) dp :
  retrieval_of (on_l1 f dp).2 = set_below (f (l1_of dp)).2 (retrieval_of dp) ∧ (on_l1 f dp).1 = (f (l1_of dp)).1.
Proof. by stage_calls. Qed.

(** Stage [i] is as a reset to [base] leaves it. *)
Definition done_at (i : nat) (base : L1BlockRef) (sc : SystemConfig) dp : Prop :=
  match i with
  | 0%nat => Origin (l1_of dp) = base ∧ SystemConfigOf (l1_of dp) = sc
  | 1%nat => is_Some (l1r_datas (retrieval_of dp))
  | 3%nat => fq_frames (frames_of dp) = []
  | 4%nat => stage_empty (channels_of dp)
  | 5%nat => cr_nextBatchFn (reader_of dp) = None
  | 6%nat => buffered_batches (batches_of dp) = [] ∧
      ∃ b, active_base (batches_of dp) = Some b ∧ bs_l1Blocks b = [base] ∧ bs_origin b = base ∧ bs_nextSpan b = []
  | 7%nat => aq_batch (dp_attrib dp) = None ∧ aq_lastAttribs (dp_attrib dp) = None
  | _ => True
  end.
Definition cleared (i : nat) (base : L1BlockRef) (sc : SystemConfig) dp : Prop :=
  ∀ j, (j < i)%nat → done_at j base sc dp.

(** The data of [base] can be opened. *)
Definition opens base (sc : SystemConfig) dp : Prop :=
  ∃ it, OpenData (l1r_dataSrc (retrieval_of dp)) base (sc_BatcherAddr sc) = Ok it.

(** The stage below stage [i] is the same, and with it all below that. *)
Definition same_below (i : nat) dp dp' : Prop :=
  match i with
  | 0%nat => True
  | 1%nat => l1_of dp' = l1_of dp
  | 3%nat => retrieval_of dp' = retrieval_of dp
  | 4%nat => frames_of dp' = frames_of dp
  | 5%nat => channels_of dp' = channels_of dp
  | 6%nat => reader_of dp' = reader_of dp
  | 7%nat => batches_of dp' = batches_of dp
  | _ => False
  end.
Lemma cleared_next i base sc dp dp' :
  same_below i dp dp' → cleared i base sc dp → done_at i base sc dp' → cleared (S i) base sc dp'.
Proof.
  intros Hs Hc Hi j Hj. destruct (decide (j = i)) as [->|Hne]; [done|].
  assert (Hd : done_at j base sc dp) by (apply Hc; lia). clear Hc Hi. revert Hs Hd.
  destruct i as [|[|[|[|[|[|[|[|i]]]]]]]]; try done;
    destruct j as [|[|[|[|[|[|[|j]]]]]]]; try (exfalso; lia); cbn [same_below done_at];
    unfold l1_of, retrieval_of, frames_of, channels_of, reader_of; try done; by intros ->.
Qed.

Lemma batches_reset_done (m : BatchMux (ChannelInReader (ChannelMux (FrameQueue (L1Retrieval (traversal L) L D)))) L2)
    base sc :
  let m' := (Reset m base sc).2 in
  (Reset m base sc).1 = Err io_EOF ∧ buffered_batches m' = [] ∧
  ∃ b, active_base m' = Some b ∧ bs_l1Blocks b = [base] ∧ bs_origin b = base ∧ bs_nextSpan b = [].
Proof.
  destruct m as [cfg [p l2|bq|bs]]; unfold Reset, BatchMux_Reset; cbn [bm_cfg bm_stage];
    destruct (IsHolocene cfg (l1_Time base)); cbn; eauto 10.
Qed.
Lemma channels_reset_done (c : ChannelMux (FrameQueue (L1Retrieval (traversal L) L D))) base sc :
  (Reset c base sc).1 = Err io_EOF ∧ stage_empty (Reset c base sc).2.
Proof.
  destruct c as [sp [p|cb|ca]]; unfold Reset, ChannelMux_Reset; cbn [cm_spec cm_stage];
    by destruct (spec_IsHolocene sp (l1_Time base)).
Qed.

Lemma reset_stage_clears i base sc dp :
  (i < 8)%nat → cleared i base sc dp → ((i ≤ 1)%nat → opens base sc dp) →
  (reset_stage i base sc dp).1 = Err io_EOF ∧ cleared (S i) base sc (reset_stage i base sc dp).2 ∧
  ((S i ≤ 1)%nat → opens base sc (reset_stage i base sc dp).2).
Proof.
  intros Hi Hc Ho. destruct i as [|[|[|[|[|[|[|[|i]]]]]]]]; cbn [reset_stage]; [..|lia].
  2-8: split; [|split; [|lia]].
  - destruct (retrieval_on_l1 (λ s, Reset s base sc) dp) as [Hr ->].
    split; [by destruct (l1_of dp)|]. split.
    + eapply cleared_next; [done..|]. cbn [done_at]. unfold l1_of at 1 2. rewrite Hr, below_set.
      by destruct (l1_of dp).
    + intros _. destruct (Ho ltac:(lia)) as [it Hit]. exists it. rewrite Hr. exact Hit.
  - destruct (retrieval_on_retrieval (λ s, Reset s base sc) dp) as [_ ->].
    destruct (Ho ltac:(lia)) as [it Hit]. unfold Reset, L1Retrieval_Reset. by rewrite Hit.
  - destruct (Ho ltac:(lia)) as [it Hit].
    destruct (retrieval_on_retrieval (λ s, Reset s base sc) dp) as [Hr _].
    assert (Hx : Reset (retrieval_of dp) base sc = (Err io_EOF, l1r_set_datas (Some it) (retrieval_of dp)))
      by (unfold Reset, L1Retrieval_Reset; by rewrite Hit). cbv beta in Hr. rewrite Hx in Hr.
    eapply cleared_next; [|done|]; cbn [same_below done_at]; unfold l1_of; rewrite Hr; [done|by eexists].
  - unfold on_altDA. destruct (retrieval_on_retrieval (λ r,
      let '(x, d) := Reset (l1r_altDA r) base sc in (x, l1r_set_dataSrc (dsf_set_altDA d (l1r_dataSrc r)) r)) dp)
      as [_ ->]. pose proof (altda_Reset_done (l1r_altDA (retrieval_of dp)) base sc) as He.
    by destruct (Reset (l1r_altDA (retrieval_of dp)) base sc).
  - unfold on_altDA. destruct (retrieval_on_retrieval (λ r,
      let '(x, d) := Reset (l1r_altDA r) base sc in (x, l1r_set_dataSrc (dsf_set_altDA d (l1r_dataSrc r)) r)) dp)
      as [Hr _]. destruct (Reset (l1r_altDA (retrieval_of dp)) base sc) as [x d]. cbn [snd] in Hr.
    intros j Hj. pose proof (Hc j) as Hcj. destruct j as [|[|[|j]]]; cbn [done_at] in *; [| |done|lia].
    + unfold l1_of. rewrite Hr. apply Hcj. lia.
    + rewrite Hr. apply Hcj. lia.
  - by destruct (frames_on_frames (λ s, Reset s base sc) dp) as [_ ->].
  - destruct (frames_on_frames (λ s, Reset s base sc) dp) as [Hr _].
    eapply cleared_next; [|done|]; cbn [same_below done_at]; unfold retrieval_of; by rewrite Hr.
  - destruct (channels_on_channels (λ s, Reset s base sc) dp) as [_ ->]. apply channels_reset_done.
  - destruct (channels_on_channels (λ s, Reset s base sc) dp) as [Hr _].
    eapply cleared_next; [|done|]; cbn [same_below done_at]; unfold frames_of; rewrite Hr;
      [apply channels_reset_prev|apply channels_reset_done].
  - by destruct (reader_on_reader (λ s, Reset s base sc) dp) as [_ ->].
  - destruct (reader_on_reader (λ s, Reset s base sc) dp) as [Hr _].
    eapply cleared_next; [|done|]; cbn [same_below done_at]; unfold channels_of; by rewrite Hr.
  - destruct (batches_on_batches (λ s, Reset s base sc) dp) as [_ ->]. apply batches_reset_done.
  - destruct (batches_on_batches (λ s, Reset s base sc) dp) as [Hr _].
    eapply cleared_next; [|done|]; cbn [same_below done_at]; unfold reader_of; rewrite Hr;
      [apply mux_reset_prev|apply batches_reset_done].
  - by rewrite on_attrib_fst.
  - eapply cleared_next; [|done|]; cbn [same_below done_at]; unfold batches_of; by rewrite on_attrib_snd.
Qed.

(** The pipeline [k] stages into the reset that [initialReset] prepared. *)
Record resetting_at (k : nat) (safe : L2BlockRef) (base : L1BlockRef) (sc : SystemConfig) dp : Prop := {
  ra_resetting : dp_resetting dp = k;
  ra_engine : dp_engineIsReset dp = true;
  ra_safe : dp_resetL2Safe dp = safe;
  ra_origin : dp_origin dp = base;
  ra_config : dp_resetSysConfig dp = sc;
  ra_cleared : cleared k base sc dp;
  ra_opens : (k ≤ 1)%nat → opens base sc dp;
}.

Lemma resetting_step k safe base sc dp :
  (k < 8)%nat → resetting_at k safe base sc dp →
  (Step dp safe).1 = Ok None ∧ resetting_at (S k) safe base sc (Step dp safe).2.
Proof.
  intros Hk [Hr He Hs Ho Hsc Hc Hop]. unfold Step, stages_count. rewrite Hr.
  rewrite (proj2 (Nat.ltb_lt k 8)) by done. unfold reset_step. rewrite He. cbn [negb].
  rewrite decide_False by naive_solver. rewrite Hr, Ho, Hsc.
  destruct (reset_stage_clears k base sc dp Hk Hc Hop) as (H1' & H2' & H3').
  pose proof (reset_stage_same k base sc dp) as (S1 & S2 & S3 & S4 & S5 & S6 & S7).
  destruct (reset_stage k base sc dp) as [r dp2]. cbn [fst snd] in *. subst r.
  change (is_EOF io_EOF) with true. cbn [fst snd]. split; [done|]. split; cbn; [|congruence..|exact H2'|exact H3']. by rewrite S2, Hr.
Qed.

Lemma resetting_steps n k safe base sc dp :
  (n + k ≤ 8)%nat → resetting_at k safe base sc dp →
  resetting_at (n + k) safe base sc (Nat.iter n (λ dp, (Step dp safe).2) dp).
Proof.
  intros Hn Hk. induction n as [|n IH]; [done|]. cbn [Nat.iter Nat.add nat_rect].
  apply resetting_step; [lia|]. apply IH. lia.
Qed.

(** C21: a reset completes: once [initialReset] has found its starting point and the data
    of that L1 block can be opened, eight steps with the same safe head reset the eight
    stages one by one. After them the pipeline is ready, its L1 origin is the starting
    point, and every stage is empty and at that origin. *)
Theorem reset_completes dp safe dp1 :
  dp_resetting dp = 0%nat → dp_engineIsReset dp = true → safe ≠ dp_resetL2Safe dp →
  initialReset safe dp = Ok dp1 → opens (dp_origin dp1) (dp_resetSysConfig dp1) dp →
  let dp' := Nat.iter 8 (λ dp, (Step dp safe).2) dp in
  DerivationReady dp' = true ∧ dp_origin dp' = dp_origin dp1 ∧ Origin (dp_attrib dp') = dp_origin dp1 ∧
  cleared 8 (dp_origin dp1) (dp_resetSysConfig dp1) dp'.
Proof.
  intros Hr He Hs Hi Hop dp'.
  assert (Hra : resetting_at 0 safe (dp_origin dp1) (dp_resetSysConfig dp1) dp1).
  { pose proof Hi as (_ & Hatt & Hn)%initial_reset_same.
    unfold initialReset in Hi. inv_bind Hi. destruct a0 as [b origin]. inv_bind Hi. simplify_eq.
    split; cbn; try congruence; [by intros j Hj; lia|]. intros _. exact Hop. }
  assert (Hsame : (Step dp safe).2 = (Step dp1 safe).2).
  { destruct Hra as [Hr1 He1 Hs1 _ _ _ _]. unfold Step, stages_count. rewrite Hr, Hr1. cbn [Nat.ltb Nat.leb].
    unfold reset_step. rewrite He, He1. cbn [negb]. rewrite decide_True, Hi by done.
    rewrite decide_False by (rewrite Hs1; by intros Hx). done. }
  assert (H8 : resetting_at 8 safe (dp_origin dp1) (dp_resetSysConfig dp1) dp').
  { unfold dp'. change 8%nat with (7 + 1)%nat. rewrite Nat.iter_add. cbn [Nat.iter nat_rect]. rewrite Hsame.
    apply (resetting_steps 7 1); [lia|]. by apply resetting_step; [lia|]. }
  destruct H8 as [Hr8 He8 _ Ho8 _ Hc8 _]. split_and!; [|done| |done].
  - unfold DerivationReady. by rewrite He8, Hr8.
  - destruct (Hc8 0%nat) as [Ho _]; [lia|]. exact Ho.
Qed.

(** *** The origin of the attributes *)

(** The origin of the pipeline's end is that of its start, whatever is in between. *)
Lemma origin_frames dp : Origin (dp_attrib dp) = Origin (frames_of dp).
Proof. done. Qed.
Lemma origin_channels dp : Origin (dp_attrib dp) = Origin (channels_of dp).
Proof. done. Qed.
Lemma origin_batches dp : Origin (dp_attrib dp) = Origin (batches_of dp).
Proof. done. Qed.

Lemma transform_frames_origin f (s : FrameQueue (L1Retrieval (traversal L) L D)) :
  Origin (transform_stage f s).2 = Origin s.
Proof. by destruct f. Qed.
Lemma transform_channels_origin f (s : ChannelMux (FrameQueue (L1Retrieval (traversal L) L D))) :
  Origin (transform_stage f s).2 = Origin s.
Proof. destruct f; try done. by destruct s as [sp [p|cb|ca]]. Qed.
Lemma transform_batches_origin f
    (s : BatchMux (ChannelInReader (ChannelMux (FrameQueue (L1Retrieval (traversal L) L D)))) L2) :
  Origin (transform_stage f s).2 = Origin s.
Proof.
  unfold transform_stage, Transform, BatchMux_Transform. case_decide; [|done]. by destruct s as [cfg [p l|bq|bs]].
Qed.

Lemma transform_stages_origin old new dp :
  Origin (dp_attrib (transformStages old new dp).2) = Origin (dp_attrib dp).
Proof.
  unfold transformStages. set (f := IsActivationBlock _ _ _). case_decide; [done|].
  assert (H1' : Origin (dp_attrib (on_frames (transform_stage f) dp).2) = Origin (dp_attrib dp)).
  { rewrite !origin_frames. destruct (frames_on_frames (transform_stage f) dp) as [-> _].
    apply transform_frames_origin. }
  destruct (on_frames (transform_stage f) dp) as [[[]|e|w] dp1]; [|done..]. cbn [snd] in H1'. rewrite <-H1'.
  assert (H2' : Origin (dp_attrib (on_channels (transform_stage f) dp1).2) = Origin (dp_attrib dp1)).
  { rewrite !origin_channels. destruct (channels_on_channels (transform_stage f) dp1) as [-> _].
    apply transform_channels_origin. }
  destruct (on_channels (transform_stage f) dp1) as [[[]|e|w] dp2]; [|done..]. cbn [snd] in H2'. rewrite <-H2'.
  rewrite !origin_batches. destruct (batches_on_batches (transform_stage f) dp2) as [-> _].
  apply transform_batches_origin.
Qed.

Lemma follow_origin_ok dp dp' :
  follow_origin dp = (Ok (), dp') → dp_origin dp' = Origin (dp_attrib dp').
Proof.
  unfold follow_origin. case_decide as Hne.
  - destruct (VerifyNewL1Origin _ _ _) as [[]|e|w]; [|done..].
    pose proof (transform_stages_origin (dp_origin dp) (Origin (dp_attrib dp)) dp) as Ho.
    destruct (transformStages _ _ dp) as [[[]|e|w] dp1]; [|done..]. intros [= <-]. symmetry. exact Ho.
  - intros [= <-]. destruct (decide (dp_origin dp = Origin (dp_attrib dp))); [done|]. by destruct Hne.
Qed.

(** Pulling attributes does not move the origin. *)
Lemma next_attributes_origin dp safe :
  Origin (dp_attrib (on_attrib (λ a, NextAttributes a safe) dp).2) = Origin (dp_attrib dp).
Proof.
  rewrite on_attrib_snd, !origin_batches. unfold batches_of. cbn [dp_attrib dp_set_attrib].
  destruct (next_attributes_prev (dp_attrib dp) safe) as [Hp|Hp]; cbn [below AttributesQueue_over];
    rewrite Hp; [done|].
  set (o := Origin (aq_prev (dp_attrib dp))).
  apply (mux_keeps (λ cr, Origin cr = o)); [| |done].
  - intros cr. apply (reader_keeps (λ c, Origin c = o)). intros c <-. apply NextRawChannel_origin.
  - intros cr. apply (reader_flush_keeps (λ c, Origin c = o)). by intros [sp [p|cb|ca]].
Qed.

(** What [NextAttributes] returns is built on the parent. *)
Lemma next_attributes_out {P B} `{SingularBatchProvider P} `{AttributesBuilder B} (aq : AttributesQueue P B)
    parent out aq' :
  NextAttributes aq parent = (Ok out, aq') →
  ∃ b a, PrepareAttributes (aq_builder aq) parent (sb_Epoch b) = Ok a ∧
    sb_ParentHash b = l2_Hash parent ∧ sb_Timestamp b = l2_Time parent +₆₄ cfg_BlockTime (aq_config aq) ∧
    awp_Attributes out = with_batch a b ∧ awp_Parent out = parent ∧ awp_DerivedFrom out = Origin aq'.
Proof.
  unfold NextAttributes, aq_pull. intros Hn.
  assert (Hc : ∃ b (aq1 : AttributesQueue P B), createNextAttributes aq1 b parent = Ok (awp_Attributes out) ∧
    aq_builder aq1 = aq_builder aq ∧ aq_config aq1 = aq_config aq ∧ awp_Parent out = parent ∧
    awp_DerivedFrom out = Origin aq').
  { destruct (aq_batch aq) as [b|].
    - destruct (createNextAttributes aq b parent) as [x|e|w] eqn:Hc; simplify_eq. by exists b, aq.
    - destruct (NextSingularBatch _ _) as [[[b c]|e|w] p]; [|done..].
      destruct (createNextAttributes _ b parent) as [x|e|w] eqn:Hc; simplify_eq. by eexists b, _. }
  destruct Hc as (b & aq1 & Hc & Hb & Hcfg & Hp & Hd). unfold createNextAttributes in Hc.
  case_bool_decide as Hh; [|done]. cbn [negb] in Hc.
  destruct (Z.eqb_spec (l2_Time parent +₆₄ cfg_BlockTime (aq_config aq1)) (sb_Timestamp b)) as [Ht|]; [|done].
  cbn [negb] in Hc. inv_bind Hc. simplify_eq. exists b, a. rewrite Hcfg in Ht. rewrite Hb in *. by split_and!.
Qed.

(** Following the origin leaves the queue and its builder alone. *)
Lemma on_below_queue {A} (f : _ → Res A * _) dp :
  aq_builder (dp_attrib (on_batches f dp).2) = aq_builder (dp_attrib dp) ∧
  aq_config (dp_attrib (on_batches f dp).2) = aq_config (dp_attrib dp).
Proof. unfold on_batches. by rewrite on_attrib_snd, on_below_snd. Qed.
Lemma follow_origin_queue dp :
  aq_builder (dp_attrib (follow_origin dp).2) = aq_builder (dp_attrib dp) ∧
  aq_config (dp_attrib (follow_origin dp).2) = aq_config (dp_attrib dp).
Proof.
  unfold follow_origin. case_decide; [|done]. destruct (VerifyNewL1Origin _ _ _) as [[]|e|w]; [|done..].
  assert (Ht : ∀ old new, aq_builder (dp_attrib (transformStages old new dp).2) = aq_builder (dp_attrib dp) ∧
    aq_config (dp_attrib (transformStages old new dp).2) = aq_config (dp_attrib dp)).
  { intros old new. unfold transformStages. set (f := IsActivationBlock _ _ _). case_decide; [done|].
    pose proof (on_below_queue (on_below (on_below (on_below (transform_stage f)))) dp) as [B1 C1].
    change (on_batches _ dp) with (on_frames (transform_stage f) dp) in B1, C1.
    destruct (on_frames (transform_stage f) dp) as [[[]|e|w] dp1]; [|done..]. cbn [snd] in B1, C1.
    pose proof (on_below_queue (on_below (on_below (transform_stage f))) dp1) as [B2 C2].
    change (on_batches _ dp1) with (on_channels (transform_stage f) dp1) in B2, C2.
    destruct (on_channels (transform_stage f) dp1) as [[[]|e|w] dp2]; cbn [snd] in *; [|by rewrite B2, C2..].
    destruct (on_below_queue (transform_stage f) dp2) as [-> ->]. by rewrite B2, C2. }
  specialize (Ht (dp_origin dp) (Origin (dp_attrib dp))).
  by destruct (transformStages _ _ dp) as [[[]|e|w] dp1].
Qed.

(** C7: attributes that a step returns extend the safe head it was given: they combine the
    attributes prepared for the safe head and the epoch of a batch with the transactions
    of that batch, the batch names the hash of the safe head as parent and the timestamp
    one block later, and the L1 block they are derived from is the origin of the
    pipeline. *)
Theorem step_attributes_sound dp safe out dp' :
  Step dp safe = (Ok (Some out), dp') →
  awp_Parent out = safe ∧ awp_DerivedFrom out = dp_origin dp' ∧
  ∃ b a, PreparePayloadAttributes (aq_builder (dp_attrib dp)) safe (sb_Epoch b) = Ok a ∧
    sb_ParentHash b = l2_Hash safe ∧
    sb_Timestamp b = l2_Time safe +₆₄ cfg_BlockTime (aq_config (dp_attrib dp)) ∧
    awp_Attributes out = with_batch a b.
Proof.
  unfold Step. destruct (_ <? _)%nat.
  { unfold reset_step. intros Hr. by repeat case_match; simplify_eq. }
  pose proof (follow_origin_ok dp) as Ho. pose proof (follow_origin_queue dp) as Hq.
  destruct (follow_origin dp) as [[[]|e|w] dp1]; [|done..]. specialize (Ho _ eq_refl). cbn [snd] in Hq.
  pose proof (next_attributes_origin dp1 safe) as Hn. destruct Hq as [Hb Hc].
  unfold on_attrib in *. destruct (NextAttributes (dp_attrib dp1) safe) as [r aq'] eqn:Hna. cbn [snd] in Hn.
  destruct r as [x|e|w]; [| |done].
  - intros [= -> <-]. apply next_attributes_out in Hna as (b & a & Ha & Hh & Ht & Hw & Hp & Hd).
    rewrite Hb, Hc in *. split; [done|]. split; [|by exists b, a].
    cbn [dp_origin dp_set_attrib]. rewrite Hd, Ho, <-Hn. done.
  - destruct (is_EOF e); [destruct (on_l1 _ _) as [[[]|?|?] ?]; done|]. by destruct (errors_Is _ _).
Qed.

End pipeline_inv.

(** ** An example: a chain without batches *)

Module PipelineExample.
#[global] Existing Instance GethExample.geth.
#[global] Existing Instance BundleExample.bundles.
#[global] Existing Instance SpanExample.lib.
Definition hash (n : Z) : Hash := be_bytes 32 n.
(** L1 blocks every 12 seconds from block 100 on. *)
Definition l1_block (n : Z) : L1BlockRef := mkL1BlockRef (hash n) n (hash (n - 1)) (1000 + 12 * (n - 100)).
Definition l1_info (n : Z) : BlockInfo :=
  mkBlockInfo (hash n) (hash (n - 1)) n (1000 + 12 * (n - 100)) zeroHash 7 (Some 1) (Some 0) (Some zeroHash).
Inductive l1_node := L1Node.
#[global] Instance l1_source : L1Source l1_node := {
  L1BlockRefByNumber _ n := Ok (l1_block n);
  L1BlockRefByHash _ h := Ok (l1_block (be_val h));
  InfoByHash _ h := Ok (l1_info (be_val h));
  FetchReceipts _ h := Ok (l1_info (be_val h), []);
  InfoAndTxsByHash _ _ := Ok [];
  GetBlobsByHash _ _ _ := Ok [] }.
(** Six L2 blocks per L1 block. *)
Definition l2_block (n : Z) : L2BlockRef :=
  mkL2BlockRef (hash n) n (hash (n - 1)) (1000 + 2 * n) (L1_ID (l1_block (100 + n / 6))) (n mod 6).
Inductive l2_node := L2Node.
#[global] Instance l2_safe : SafeBlockFetcher l2_node := {
  L2BlockRefByNumber _ n := Ok (l2_block n);
  PayloadByNumber _ _ := Err (ErrorsNew "not available") }.
#[global] Instance l2_config : SystemConfigL2Fetcher l2_node := λ _ _, Ok L1InfoExample.sc.
#[global] Instance l2_source : L2Source l2_node := { L2BlockRefByHash _ h := Ok (l2_block (be_val h)) }.

Abbreviation pipeline := (DerivationPipeline (L:=l1_node) (L2:=l2_node) (D:=AltDADisabled)).
Definition safe : L2BlockRef := l2_block 13.
Definition initial (cfg : Config) : pipeline :=
  mkPipeline cfg L1Node L2Node 0
    (NewAttributesQueue cfg (mkAttributesBuilder cfg None L1Node L2Node false)
      (NewBatchMux cfg (NewChannelInReader cfg (NewChannelMux (NewChainSpec cfg) (NewFrameQueue cfg
        (NewL1Retrieval (NewDataSourceFactory cfg L1Node true Disabled)
          (Following (NewL1Traversal cfg L1Node)))))) L2Node)) zeroL1 zeroL2 zeroSystemConfig false.
Definition fresh (cfg : Config) : pipeline := ConfirmEngineReset (initial cfg).
Definition steps (n : nat) (cfg : Config) : pipeline := Nat.iter n (λ dp, (Step dp safe).2) (fresh cfg).
(** The reset walks back to the last block with the genesis L1 origin. *)
Ltac node_calls_at H := cbn [L1BlockRefByHash L2BlockRefByHash l1_source l2_source l2_block l1_block l2_L1Origin l2_ParentHash L1_ID id_Hash l1_Hash dp_l1Fetcher dp_l2] in H.
Ltac node_calls_goal := cbn [L1BlockRefByHash L2BlockRefByHash l1_source l2_source l2_block l1_block l2_L1Origin l2_ParentHash L1_ID id_Hash l1_Hash dp_l1Fetcher dp_l2].
Lemma hash_val n : 0 ≤ n < 1000 → be_val (hash n) = n.
Proof. intros Hn. unfold hash. apply be_val_be_bytes_small. split; [lia|]. by apply (Z.lt_trans _ 1000); [lia|]. Qed.
Lemma visited b o :
  visits (fresh ExampleConfig.cfg) safe b o →
  ∃ n, 5 ≤ n ≤ 13 ∧ b = l2_block n ∧ o = l1_block (100 + n / 6).
Proof.
  assert (Ho : ∀ n x, 0 ≤ n ≤ 13 → L1BlockRefByHash (L:=l1_node) L1Node (id_Hash (l2_L1Origin (l2_block n))) = Ok x →
    x = l1_block (100 + n / 6)).
  { intros n x Hn. node_calls_goal. rewrite hash_val; [congruence|].
    pose proof (Z.div_lt_upper_bound n 6 100). pose proof (Z.div_pos n 6). lia. }
  induction 1 as [origin Hor|b o parent origin _ (n & Hn & -> & ->) Hold Hp Hor].
  { exists 13. split; [lia|]. split; [done|]. by apply (Ho 13). }
  assert (Hge : 6 ≤ n).
  { destruct (Z.le_gt_cases 6 n) as [|Hlt]; [done|]. destruct Hold. right; left. cbn.
    rewrite (Z.div_small n 6) by lia. lia. }
  node_calls_at Hp. rewrite hash_val in Hp by lia. injection Hp as <-.
  exists (n - 1). split; [lia|]. split; [done|]. apply (Ho (n - 1)); [lia|done].
Qed.
Lemma descends : numbers_descend (fresh ExampleConfig.cfg) safe.
Proof.
  intros b o parent (n & Hn & -> & _)%visited. node_calls_goal. rewrite hash_val by lia. intros [= <-]. cbn. lia.
Qed.

Lemma reset_origin :
  match initialReset safe (fresh ExampleConfig.cfg) with Ok dp' => dp_origin dp' = l1_block 100 | _ => False end.
Proof. vm_compute. reflexivity. Qed.

Lemma initial_reachable cfg : InteropTime (cfg_times cfg) = None → reachable (initial cfg).
Proof.
  intros Hi. apply (reach_new cfg None L1Node true Disabled L2Node false).
  unfold NewDerivationPipeline, NewFetchingAttributesBuilder. by rewrite Hi.
Qed.
(** The first eight steps reset the stages. *)
Lemma steps_reachable n : (n ≤ 8)%nat → reachable (steps n ExampleConfig.cfg).
Proof.
  induction n as [|n IH]; intros Hn; [by apply reach_confirm, initial_reachable|].
  change (steps (S n) ExampleConfig.cfg) with (Step (steps n ExampleConfig.cfg) safe).2.
  apply reach_step; [apply IH; lia|].
  assert (Hr : dp_resetting (steps n ExampleConfig.cfg) = n ∧
    ((0 < n)%nat → safe = dp_resetL2Safe (steps n ExampleConfig.cfg))).
  { clear IH. do 8 (destruct n as [|n]; [split; [vm_compute; reflexivity|intros ?; lia || (vm_compute; reflexivity)]|]).
    lia. }
  destruct Hr as [Hr Hs]. unfold step_allowed. rewrite Hr. split; [intros ?; apply Hs; lia|lia].
Qed.
Lemma derived :
  match Step (steps 20 ExampleConfig.cfg) safe with
  | (Ok (Some out), dp') => dp_origin dp' = l1_block 112 ∧ pa_Timestamp (awp_Attributes out) = 1028
  | _ => False
  end.
Proof. vm_compute. done. Qed.

(** Holocene in the same L1 step as Granite. *)
Definition together : Config :=
  ExampleConfig.with_times (mkForkTimes (Some 0) (Some 0) (Some 0) (Some 0) (Some 0) (Some 1006) (Some 1006)
    None None None None None).
End PipelineExample.




Lemma reset_completes_witness :
  DerivationReady (PipelineExample.steps 8 ExampleConfig.cfg) = true ∧
  dp_origin (PipelineExample.steps 8 ExampleConfig.cfg) = PipelineExample.l1_block 100.
Proof.
  pose proof PipelineExample.reset_origin as Ho.
  destruct (initialReset PipelineExample.safe (PipelineExample.fresh ExampleConfig.cfg)) as [dp1|e|w] eqn:Hi; [|destruct Ho..].
  destruct (reset_completes (PipelineExample.fresh ExampleConfig.cfg) PipelineExample.safe dp1)
    as (Hr & Ho' & _).
  - reflexivity.
  - reflexivity.
  - apply (bool_decide_unpack _). vm_compute. exact I.
  - exact Hi.
  - rewrite Ho. eexists. vm_compute. reflexivity.
  - split; [exact Hr|]. rewrite <-Ho. exact Ho'.
Defined.

Lemma step_attributes_sound_witness :
  ∃ out dp', Step (PipelineExample.steps 20 ExampleConfig.cfg) PipelineExample.safe = (Ok (Some out), dp') ∧
  awp_Parent out = PipelineExample.safe ∧ awp_DerivedFrom out = PipelineExample.l1_block 112.
Proof.
  pose proof PipelineExample.derived as Hd.
  destruct (Step (PipelineExample.steps 20 ExampleConfig.cfg) PipelineExample.safe) as [[[out|]|e|w] dp'] eqn:Hs;
    [|destruct Hd..].
  destruct (step_attributes_sound _ _ _ _ Hs) as (Hp & Ho & _).
  exists out, dp'. split; [reflexivity|]. split; [exact Hp|]. rewrite Ho. exact (proj1 Hd).
Defined.
