(* ===== verification/SyncStart.v ===== *)
(** * The search for the sync start

    Models [op-node/rollup/sync/start.go] and the configuration of [config.go]: from the
    heads of the execution engine, walk back over the L2 chain to a safe head that is old
    enough, and drop the unsafe blocks whose L1 origin is no longer canonical. The retries
    of [op-service/retry/operation.go] are part of it. *)

From S2P Require Import Prelude GoBytes Errors Eth RollupConfig L1Traversal.

(** ** Retries

    [op i] is the outcome of attempt [i]; the wait between attempts is not modelled. *)
Fixpoint Do0_loop {A} (i attempts : nat) (err : error) (op : nat → Res A) : Res A :=
  match attempts with
  | O => Err (Errorf "operation failed permanently" err)
  | S attempts =>
    match op i with
    | Ok a => Ok a
    | Err e => Do0_loop (S i) attempts e op
    | Panic w => Panic w
    end
  end.
Definition retry_Do {A} (maxAttempts : nat) (op : nat → Res A) : Res A :=
  match maxAttempts with
  | O => Err (ErrorsNew "need at least 1 attempt to run op")
  | _ => Do0_loop 0 maxAttempts (ErrorsNew "") op
  end.

(** ** Configuration *)

Inductive Mode := CLSync | ELSync.
#[export] Instance Mode_eq_dec : EqDecision Mode.
Proof. solve_decision. Defined.

(** [OffsetELSafe] is a [time.Duration]: nanoseconds, signed. *)
Record SyncConfig := mkSyncConfig {
  sy_SyncMode : Mode;
  sy_SyncModeReqResp : bool;
  sy_SkipSyncStartCheck : bool;
  sy_SupportsPostFinalizationELSync : bool;
  sy_L2FollowSourceEndpoint : string;
  sy_NeedInitialResetEngine : bool;
  sy_OffsetELSafe : Z }.

Definition SyncConfig_Check (c : SyncConfig) : Res unit :=
  if sy_OffsetELSafe c <? 0 then Err (ErrorsNew "sync.offset-el-safe must be >= 0")
  else if (0 <? sy_OffsetELSafe c) && negb (bool_decide (sy_SyncMode c = ELSync)) then
    Err (ErrorsNew "sync.offset-el-safe is only supported with EL sync")
  else Ok ().
Definition FollowSourceEnabled (c : SyncConfig) : bool := negb (bool_decide (sy_L2FollowSourceEndpoint c = ""%string)).

(** ** The chain of the execution engine *)

Inductive BlockLabel := UnsafeLabel | SafeLabel | FinalizedLabel.

Class L2Chain (C : Type) := {
  chain_ByHash : C → Hash → Res L2BlockRef;
  chain_ByLabel : C → BlockLabel → Res L2BlockRef;
  chain_ByNumber : C → Z → Res L2BlockRef;
}.

Record FindHeadsResult := mkHeads {
  fh_Unsafe : L2BlockRef; fh_Safe : L2BlockRef; fh_Finalized : L2BlockRef }.
#[export] Instance FindHeadsResult_eq_dec : EqDecision FindHeadsResult.
Proof. solve_decision. Defined.
Definition fh_set_Unsafe (b : L2BlockRef) (r : FindHeadsResult) := mkHeads b (fh_Safe r) (fh_Finalized r).
Definition fh_set_Safe (b : L2BlockRef) (r : FindHeadsResult) := mkHeads (fh_Unsafe r) b (fh_Finalized r).

Definition MaxReorgSeqWindows : Z := 5.
Definition RecoverMinSeqWindows : Z := 14.

(** ** Offsets *)

Definition time_Second : Z := 1000000000.
Definition DurationToBlocks (offset blockTime : Z) : Z :=
  if (offset <=? 0) || (blockTime =? 0) then 0
  else
    let sec := offset / time_Second in
    (sec +₆₄ blockTime -₆₄ 1) / blockTime.

Definition OffsetBlockNum (offset blockTime head genesis : Z) : Z :=
  let n := DurationToBlocks offset blockTime in
  if (n =? 0) || (head <=? genesis) then head
  else
    let maxRetract := head -₆₄ genesis in
    let n := if maxRetract <? n then maxRetract else n in
    head -₆₄ n.

Section find.
Context {L : Type} `{L1Source L} {C : Type} `{L2Chain C}.
Implicit Types (cfg : Config) (s : SyncConfig).

Definition currentHeads cfg (l2 : C) : Res FindHeadsResult :=
  finalized ← map_err (Errorf "failed to find the finalized L2 block")
    match chain_ByLabel l2 FinalizedLabel with
    | Err e => if is_NotFound e then chain_ByHash l2 (id_Hash (gen_L2 (cfg_Genesis cfg))) else Err e
    | r => r
    end;
  safe ← match chain_ByLabel l2 SafeLabel with
    | Err e => if is_NotFound e then Ok finalized else Err (Errorf "failed to find the safe L2 block" e)
    | r => r
    end;
  unsafe ← map_err (Errorf "failed to find the L2 head block") (chain_ByLabel l2 UnsafeLabel);
  Ok (mkHeads unsafe safe finalized).

Definition L2HeadsForELSyncWithOffset cfg (l2 : C) s (tip : L2BlockRef) : Res FindHeadsResult :=
  let target := OffsetBlockNum (sy_OffsetELSafe s) (cfg_BlockTime cfg) (l2_Number tip)
                  (id_Number (gen_L2 (cfg_Genesis cfg))) in
  derived ← (if target <? l2_Number tip
    then map_err (Errorf "EL sync offset-derived head") (chain_ByNumber l2 target)
    else Ok tip);
  Ok (mkHeads tip derived derived).

(** ** The walk

    The variables of the loop. *)
Record walk := mkWalk {
  w_result : FindHeadsResult;
  w_n : L2BlockRef;
  w_highest : L2BlockRef;
  w_l1Block : L1BlockRef;
  w_ahead : bool;
  w_ready : bool }.

(** The L1 block at the height of the origin of [n], and whether the L1 source does not
    have it yet. *)
Definition origin_by_number (l1 : L) (n : L2BlockRef) : Res (L1BlockRef * bool) :=
  match retry_Do 5 (λ _, L1BlockRefByNumber l1 (id_Number (l2_L1Origin n))) with
  | Ok b => Ok (b, false)
  | Err e =>
    if is_NotFound e then Ok (zeroL1, true)
    else Err (Errorf "failed to retrieve block from L1 for comparison" e)
  | Panic w => Panic w
  end.
Definition fetch_origin (l1 : L) (n : L2BlockRef) (l1Block : L1BlockRef) (ahead : bool) : Res (L1BlockRef * bool) :=
  let origin := l2_L1Origin n in
  if bool_decide (id_Hash origin = l1_ParentHash l1Block) then
    b ← map_err (Errorf "failed to retrieve L1 block")
      (retry_Do 5 (λ _, L1BlockRefByHash l1 (id_Hash origin)));
    Ok (b, false)
  else if bool_decide (l1Block = zeroL1) || negb (bool_decide (id_Hash origin = l1_Hash l1Block)) then
    origin_by_number l1 n
  else Ok (l1Block, ahead).

(** Check [n] against the genesis data and the finalized block. *)
Definition check_chain cfg (finalized n : L2BlockRef) (l1Block : L1BlockRef) (ahead : bool) : Res unit :=
  let genesis := cfg_Genesis cfg in
  _ ← (if l2_Number n =? id_Number (gen_L2 genesis) then
         if negb (bool_decide (l2_Hash n = id_Hash (gen_L2 genesis))) then
           Err (Errorf "L2: genesis" WrongChainErr)
         else if negb ahead && negb (bool_decide (l1_Hash l1Block = id_Hash (gen_L1 genesis))) then
           Err (Errorf "L1: genesis" WrongChainErr)
         else Ok ()
       else Ok ());
  if (l2_Number n =? l2_Number finalized) && negb (bool_decide (l2_Hash n = l2_Hash finalized)) then
    Err (Errorf "finalized" ReorgFinalizedErr)
  else Ok ().

(** Take [n] for the unsafe head if there is none, unless that is too far back. *)
Definition pick_unsafe cfg (prevUnsafe n : L2BlockRef) (r : FindHeadsResult) : Res FindHeadsResult :=
  if bool_decide (fh_Unsafe r = zeroL2) then
    if id_Number (l2_L1Origin n) +₆₄ (MaxReorgSeqWindows *₆₄ SyncLookback cfg) <? id_Number (l2_L1Origin prevUnsafe)
    then Err (Errorf "traversed back too deep" TooDeepReorgErr)
    else Ok (fh_set_Unsafe n r)
  else Ok r.

(** Keep or discard the candidates, by the L1 origin of [n]. *)
Definition judge_origin (n : L2BlockRef) (l1Block : L1BlockRef) (ahead : bool) (r : FindHeadsResult)
    (highest : L2BlockRef) : FindHeadsResult * L2BlockRef :=
  if ahead then (r, zeroL2)
  else if bool_decide (l1_Hash l1Block = id_Hash (l2_L1Origin n)) then
    (r, if bool_decide (highest = zeroL2) then n else highest)
  else (fh_set_Unsafe zeroL2 r, zeroL2).

(** Check the L1 origin of [n] against the one of its parent. *)
Definition check_parent (n parent : L2BlockRef) (l1Block : L1BlockRef) : Res unit :=
  if negb (bool_decide (l2_L1Origin parent = l2_L1Origin n)) then
    if negb (id_Number (l2_L1Origin parent) +₆₄ 1 =? id_Number (l2_L1Origin n)) then
      Err (ErrorsNew "l2 parent has L1 origin that is not before")
    else if negb (l2_SequenceNumber n =? 0) then
      Err (ErrorsNew "l2 block has parent with different L1 origin, but non-zero sequence number")
    else if bool_decide (l1_Hash l1Block = id_Hash (l2_L1Origin n))
            && negb (bool_decide (l1_ParentHash l1Block = id_Hash (l2_L1Origin parent))) then
      Err (ErrorsNew "parent L2 block has unexpected origin")
    else Ok ()
  else if negb (l2_SequenceNumber parent +₆₄ 1 =? l2_SequenceNumber n) then
    Err (ErrorsNew "sequence number inconsistency")
  else Ok ().

(** One iteration: go on, or return the heads. *)
Definition find_step cfg (l1 : L) (l2 : C) s (prevUnsafe : L2BlockRef) (w : walk) : Res (walk + FindHeadsResult) :=
  let n := w_n w in
  '(l1Block, ahead) ← fetch_origin l1 n (w_l1Block w) (w_ahead w);
  _ ← check_chain cfg (fh_Finalized (w_result w)) n l1Block ahead;
  result ← pick_unsafe cfg prevUnsafe n (w_result w);
  let '(result, highest) := judge_origin n l1Block ahead result (w_highest w) in
  let ready := w_ready w
    || (l2_Number n <=? l2_Number (fh_Safe result))
       && (id_Number (l2_L1Origin n) +₆₄ SyncLookback cfg <? id_Number (l2_L1Origin highest))
       && (l2_SequenceNumber n =? 0) in
  if l2_Number n =? l2_Number (fh_Finalized result) then Ok (inr (fh_set_Safe n result))
  else if sy_SkipSyncStartCheck s && bool_decide (l2_Hash highest = l2_Hash n) then
    Ok (inl (mkWalk result (fh_Safe result) highest l1Block ahead ready))
  else
    parent ← map_err (Errorf "failed to fetch L2 block by hash") (chain_ByHash l2 (l2_ParentHash n));
    _ ← check_parent n parent l1Block;
    if ready then Ok (inr (fh_set_Safe parent result))
    else Ok (inl (mkWalk result parent highest l1Block ahead ready)).

(** The loop; [None] when it does not return within [fuel] iterations. *)
Fixpoint find_loop (fuel : nat) cfg (l1 : L) (l2 : C) s (prevUnsafe : L2BlockRef) (w : walk) : option (Res FindHeadsResult) :=
  match fuel with
  | O => None
  | S fuel =>
    match find_step cfg l1 l2 s prevUnsafe w with
    | Ok (inl w') => find_loop fuel cfg l1 l2 s prevUnsafe w'
    | Ok (inr r) => Some (Ok r)
    | Err e => Some (Err e)
    | Panic x => Some (Panic x)
    end
  end.

(** The engine was synced but has no finality, or lost blocks it had finalized. *)
Definition no_finality cfg (r : FindHeadsResult) : bool :=
  let genesis := cfg_Genesis cfg in
  bool_decide (l2_Hash (fh_Finalized r) = id_Hash (gen_L2 genesis))
  && bool_decide (l2_Hash (fh_Safe r) = id_Hash (gen_L2 genesis))
  && (id_Number (gen_L2 genesis) <? l2_Number (fh_Unsafe r))
  && (id_Number (gen_L1 genesis) +₆₄ (RecoverMinSeqWindows *₆₄ cfg_SeqWindowSize cfg)
        <? id_Number (l2_L1Origin (fh_Unsafe r))).
Definition rewound (r : FindHeadsResult) : bool :=
  (l2_Number (fh_Unsafe r) <? l2_Number (fh_Finalized r)) || (l2_Number (fh_Unsafe r) <? l2_Number (fh_Safe r)).

Definition start_walk (r : FindHeadsResult) : walk := mkWalk r (fh_Unsafe r) zeroL2 zeroL1 false false.

Definition FindL2Heads (fuel : nat) cfg (l1 : L) (l2 : C) s : option (Res FindHeadsResult) :=
  match currentHeads cfg l2 with
  | Err e => Some (Err (Errorf "failed to fetch current L2 forkchoice state" e))
  | Panic x => Some (Panic x)
  | Ok result =>
    if no_finality cfg result || rewound result then
      Some (L2HeadsForELSyncWithOffset cfg l2 s (fh_Unsafe result))
    else find_loop fuel cfg l1 l2 s (fh_Unsafe result) (start_walk result)
  end.

(** ** Offsets cover the duration

    The retraction ends between the genesis block and the head, and covers the whole
    seconds of the offset unless the genesis block stops it. *)
Lemma DurationToBlocks_cover offset blockTime :
  0 < offset < 2 ^ 63 → 0 < blockTime < 2 ^ 63 →
  let n := DurationToBlocks offset blockTime in
  offset / time_Second ≤ n * blockTime < offset / time_Second + blockTime.
Proof.
  intros Ho Hb. unfold DurationToBlocks, time_Second.
  rewrite (proj2 (Z.leb_gt _ _)), (proj2 (Z.eqb_neq _ _)) by lia. cbn.
  change (2 ^ 63) with 9223372036854775808 in *.
  assert (0 ≤ offset / 1000000000 < 17179869184) as Hs
    by (split; [apply Z.div_pos|apply Z.div_lt_upper_bound]; lia).
  rewrite (wrap_small 64 (_ + _)), wrap_small by (uint_unfold; lia).
  set (q := offset / 1000000000) in *.
  pose proof (Z.div_mod (q + blockTime - 1) blockTime ltac:(lia)).
  pose proof (Z.mod_pos_bound (q + blockTime - 1) blockTime ltac:(lia)). lia.
Qed.

Lemma OffsetBlockNum_bounds offset blockTime head genesis :
  0 ≤ offset < 2 ^ 63 → 0 < blockTime < 2 ^ 63 → 0 ≤ genesis ≤ head → is_u64 head →
  let t := OffsetBlockNum offset blockTime head genesis in
  genesis ≤ t ≤ head ∧
  (t = genesis ∨ offset / time_Second ≤ (head - t) * blockTime < offset / time_Second + blockTime).
Proof.
  intros Ho Hb Hg Hh t. subst t. unfold OffsetBlockNum.
  destruct (decide (offset = 0)) as [->|Hpos].
  { cbn. split; [lia|]. right. rewrite Z.div_0_l by done. lia. }
  pose proof (DurationToBlocks_cover offset blockTime ltac:(lia) Hb) as Hn. cbn zeta in Hn.
  set (n := DurationToBlocks offset blockTime) in *.
  assert (0 ≤ offset / time_Second) by (apply Z.div_pos; unfold time_Second; lia).
  assert (0 ≤ n) by nia. unfold is_uint in Hh. destruct (Z.eqb_spec n 0) as [Hz|Hz]; cbn [orb].
  { split; [lia|]. right. rewrite Hz in Hn. lia. }
  destruct (Z.leb_spec head genesis); [split; [lia|left; lia]|].
  rewrite (wrap_small 64 (head - genesis)) by (unfold is_uint; lia).
  destruct (Z.ltb_spec (head - genesis) n); rewrite wrap_small by (unfold is_uint; lia);
    (split; [lia|]); [left; lia|right]. by replace (head - (head - n)) with n by lia.
Qed.

(** after an engine sync, or when the engine lost its finality data, the safe and the
    finalized head are the same block, behind the synced tip by at least the whole seconds
    of the configured offset and by less than one block more, unless the genesis block
    stops the retraction. *)
Theorem el_sync_offset cfg (l2 : C) s tip r :
  0 ≤ sy_OffsetELSafe s < 2 ^ 63 → 0 < cfg_BlockTime cfg < 2 ^ 63 →
  0 ≤ id_Number (gen_L2 (cfg_Genesis cfg)) ≤ l2_Number tip → is_u64 (l2_Number tip) →
  (∀ n b, chain_ByNumber l2 n = Ok b → l2_Number b = n) →
  L2HeadsForELSyncWithOffset cfg l2 s tip = Ok r →
  fh_Unsafe r = tip ∧ fh_Finalized r = fh_Safe r ∧
  id_Number (gen_L2 (cfg_Genesis cfg)) ≤ l2_Number (fh_Safe r) ≤ l2_Number tip ∧
  (l2_Number (fh_Safe r) = id_Number (gen_L2 (cfg_Genesis cfg)) ∨
   sy_OffsetELSafe s / time_Second ≤ (l2_Number tip - l2_Number (fh_Safe r)) * cfg_BlockTime cfg
     < sy_OffsetELSafe s / time_Second + cfg_BlockTime cfg).
Proof.
  intros Ho Hb Hg Hu Hn Hr. unfold L2HeadsForELSyncWithOffset in Hr.
  pose proof (OffsetBlockNum_bounds _ _ _ _ Ho Hb Hg Hu) as Ht. cbn zeta in Ht.
  set (t := OffsetBlockNum _ _ _ _) in *. inv_bind Hr. simplify_eq. cbn. split_and!; try done.
  all: assert (l2_Number a = t) as -> by
    (destruct (Z.ltb_spec t (l2_Number tip)); [rewrite map_err_ok in Hb0; by apply Hn|simplify_eq; lia]).
  all: tauto.
Qed.

(** ** What the walk finds *)

(** The blocks reached from the head of the engine over parent hashes. *)
Inductive descends (l2 : C) (head : L2BlockRef) : L2BlockRef → Prop :=
| descends_head : descends l2 head head
| descends_parent b p : descends l2 head b → chain_ByHash l2 (l2_ParentHash b) = Ok p → descends l2 head p.

(** The L1 blocks the source has at a height, and their ancestors. *)
Inductive on_l1 (l1 : L) : L1BlockRef → Prop :=
| on_number n b : L1BlockRefByNumber l1 n = Ok b → on_l1 l1 b
| on_parent c b : on_l1 l1 c → L1BlockRefByHash l1 (l1_ParentHash c) = Ok b → on_l1 l1 b.

(** The origin of a block is on the L1 chain; or the source is not that far yet. *)
Definition canonical_origin (l1 : L) (n : L2BlockRef) : Prop :=
  ∃ b, on_l1 l1 b ∧ l1_Hash b = id_Hash (l2_L1Origin n).
Definition plausible (l1 : L) (n : L2BlockRef) : Prop :=
  canonical_origin l1 n ∨
  ∃ e, L1BlockRefByNumber l1 (id_Number (l2_L1Origin n)) = Err e ∧ is_NotFound e = true.

(** From [u] down to a block, all origins are plausible. *)
Inductive plausible_path (l1 : L) (l2 : C) (u : L2BlockRef) : L2BlockRef → Prop :=
| path_here : plausible l1 u → plausible_path l1 l2 u u
| path_parent b p : plausible_path l1 l2 u b → chain_ByHash l2 (l2_ParentHash b) = Ok p →
    plausible l1 p → plausible_path l1 l2 u p.

Lemma retry_same {A} k (r : Res A) :
  retry_Do (S k) (λ _, r) = map_err (Errorf "operation failed permanently") r.
Proof.
  cbn. destruct r as [a|e|w]; [done| |done]. cbn. generalize 1%nat as i.
  induction k as [|k IH]; intros i; cbn; [done|apply IH].
Qed.

Lemma origin_by_number_spec (l1 : L) n b a :
  origin_by_number l1 n = Ok (b, a) → if a then b = zeroL1 ∧ plausible l1 n else on_l1 l1 b.
Proof.
  unfold origin_by_number. rewrite retry_same.
  destruct (L1BlockRefByNumber l1 _) as [r|e|w] eqn:Hr; cbn; [..|done];
    [intros [= -> <-]; by eapply on_number|].
  case_match eqn:He; [|done]. intros [= <- <-]. split; [done|right; by eexists].
Qed.

Lemma fetch_origin_spec (l1 : L) n l1Block ahead b a :
  (∀ b, L1BlockRefByHash l1 zeroHash ≠ Ok b) →
  l1Block = zeroL1 ∨ on_l1 l1 l1Block → (ahead = true → l1Block = zeroL1) →
  fetch_origin l1 n l1Block ahead = Ok (b, a) →
  if a then b = zeroL1 ∧ plausible l1 n else on_l1 l1 b.
Proof.
  intros Hz Hl Ha. unfold fetch_origin. case_bool_decide as Hp.
  - rewrite retry_same. intros Hf. inv_bind Hf. rewrite !map_err_ok in Hb. simplify_eq. rewrite Hp in Hb.
    destruct Hl as [->|Hl]; [by apply Hz in Hb|by eapply on_parent].
  - case_bool_decide as Hb0; cbn [orb]; [apply origin_by_number_spec|].
    case_bool_decide; cbn [negb]; [|apply origin_by_number_spec].
    intros [= -> ->]. destruct a; [by rewrite Ha in Hb0|by destruct Hl].
Qed.

Section walk.
Context (cfg : Config) (l1 : L) (l2 : C) (s : SyncConfig) (cur : FindHeadsResult).
Let head : L2BlockRef := fh_Unsafe cur.
Let fin : L2BlockRef := fh_Finalized cur.

(** The unsafe head is the last block of the path to the current one. *)
Definition leads_to (u n : L2BlockRef) : Prop :=
  u = n ∨ ∃ b, plausible_path l1 l2 u b ∧ chain_ByHash l2 (l2_ParentHash b) = Ok n.
(** The highest block with a canonical origin, if there is one. *)
Definition highest_ok (u highest : L2BlockRef) : Prop :=
  highest = zeroL2 ∨ u ≠ zeroL2 ∧ canonical_origin l1 highest ∧ plausible_path l1 l2 u highest.

Record walk_inv (w : walk) : Prop := {
  wi_n : descends l2 head (w_n w);
  wi_heads : fh_Finalized (w_result w) = fin ∧ fh_Safe (w_result w) = fh_Safe cur;
  wi_above : l2_Number fin ≤ l2_Number (w_n w);
  wi_l1 : w_l1Block w = zeroL1 ∨ on_l1 l1 (w_l1Block w);
  wi_ahead : w_ahead w = true → w_l1Block w = zeroL1;
  wi_unsafe : fh_Unsafe (w_result w) = zeroL2 ∨ leads_to (fh_Unsafe (w_result w)) (w_n w);
  wi_highest : highest_ok (fh_Unsafe (w_result w)) (w_highest w);
  wi_ready : w_ready w = false }.

(** Once a block is judged, it ends the path, or there is no unsafe head. *)
Lemma judge_spec n l1Block (ahead : bool) r r' highest r2 highest2 :
  (if ahead then l1Block = zeroL1 ∧ plausible l1 n else on_l1 l1 l1Block) →
  fh_Unsafe r = zeroL2 ∨ leads_to (fh_Unsafe r) n → highest_ok (fh_Unsafe r) highest →
  pick_unsafe cfg head n r = Ok r' → judge_origin n l1Block ahead r' highest = (r2, highest2) →
  fh_Safe r2 = fh_Safe r ∧ fh_Finalized r2 = fh_Finalized r ∧
  (fh_Unsafe r2 = zeroL2 ∧ highest2 = zeroL2 ∨ plausible_path l1 l2 (fh_Unsafe r2) n) ∧
  highest_ok (fh_Unsafe r2) highest2.
Proof.
  intros Ha Hu Hh Hp Hj.
  assert (fh_Safe r' = fh_Safe r ∧ fh_Finalized r' = fh_Finalized r ∧ leads_to (fh_Unsafe r') n ∧
    highest_ok (fh_Unsafe r') highest ∧ (fh_Unsafe r' = zeroL2 → n = zeroL2)) as (HS & HF & HL & HH & HZ).
  { unfold pick_unsafe in Hp. case_bool_decide as Hz; [case_match; [done|]|]; simplify_eq; cbn.
    - split_and!; try done; [by left|]. destruct Hh as [->|[]]; [by left|done].
    - by destruct Hu. }
  assert (Hpath : plausible l1 n → plausible_path l1 l2 (fh_Unsafe r') n).
  { intros Hn. destruct HL as [->|(b & Hb & Hc)]; [by apply path_here|by eapply path_parent]. }
  unfold judge_origin in Hj. destruct ahead; [|case_bool_decide as Hc]; simplify_eq; cbn.
  - split_and!; try done; [right; naive_solver|by left].
  - assert (canonical_origin l1 n) as Hcan by (by exists l1Block).
    split_and!; try done; [right; apply Hpath; by left|].
    case_bool_decide; [|done]. destruct (decide (fh_Unsafe r2 = zeroL2)) as [Hz|Hz].
    + left. by apply HZ.
    + right. split_and!; try done. apply Hpath. by left.
  - split_and!; try done; by left.
Qed.

(** Heads that the search may return: the safe head is on the chain of the engine at or
    above the finalized block. Either the walk came down to the finalized block, or it
    stopped at a block that is not above the previous safe head, with a whole window of L1
    blocks between its origin and a canonical one, and the safe head is the parent. All
    blocks up to the unsafe head have plausible origins; there is no unsafe head only if
    the origin of the finalized block itself is not canonical. *)
Definition found (r : FindHeadsResult) : Prop :=
  fh_Finalized r = fin ∧ descends l2 head (fh_Safe r) ∧ l2_Number fin ≤ l2_Number (fh_Safe r) ∧
  (l2_Number (fh_Safe r) = l2_Number fin ∧ l2_Hash (fh_Safe r) = l2_Hash fin ∧
     (fh_Unsafe r = zeroL2 ∨ plausible_path l1 l2 (fh_Unsafe r) (fh_Safe r)) ∨
   ∃ b h, plausible_path l1 l2 (fh_Unsafe r) b ∧ chain_ByHash l2 (l2_ParentHash b) = Ok (fh_Safe r) ∧
     l2_Number b ≤ l2_Number (fh_Safe cur) ∧
     plausible_path l1 l2 (fh_Unsafe r) h ∧ canonical_origin l1 h ∧
     id_Number (l2_L1Origin b) +₆₄ SyncLookback cfg < id_Number (l2_L1Origin h)).

Hypothesis no_skip : sy_SkipSyncStartCheck s = false.
Hypothesis no_zero : ∀ b, L1BlockRefByHash l1 zeroHash ≠ Ok b.
(** Block numbers go up by one. *)
Hypothesis numbers : ∀ b p, descends l2 head b → chain_ByHash l2 (l2_ParentHash b) = Ok p →
  l2_Number p + 1 = l2_Number b.

Lemma find_step_spec w : walk_inv w →
  match find_step cfg l1 l2 s head w with
  | Ok (inl w') => walk_inv w' ∧ l2_Number (w_n w') + 1 = l2_Number (w_n w)
  | Ok (inr r) => found r
  | _ => True
  end.
Proof.
  intros [Hn [Hfin Hsafe] Hab Hl Ha Hu Hh Hr]. unfold find_step.
  destruct (fetch_origin _ _ _ _) as [[b a]| |] eqn:Hf; cbn; [|done..].
  apply fetch_origin_spec in Hf; [|done..].
  destruct (check_chain _ _ _ _ _) as [[]| |] eqn:Hc; cbn; [|done..].
  destruct (pick_unsafe _ _ _ _) as [r1| |] eqn:Hp; cbn; [|done..].
  destruct (judge_origin _ _ _ _ _) as [r2 highest] eqn:Hj.
  destruct (judge_spec _ _ _ _ _ _ _ _ Hf Hu Hh Hp Hj) as (HS & HF & HP & HH).
  rewrite Hsafe in HS. rewrite Hfin in HF. rewrite Hr, HF, HS, no_skip. cbn [orb andb].
  destruct (Z.eqb_spec (l2_Number (w_n w)) (l2_Number fin)) as [Heq|Hneq].
  { unfold found. cbn. split_and!; try done. left. split_and!; [done| |naive_solver].
    unfold check_chain in Hc. rewrite Hfin in Hc. inv_bind Hc. rewrite Heq, Z.eqb_refl in Hc.
    cbn [andb] in Hc. by case_bool_decide. }
  destruct (chain_ByHash l2 _) as [p| |] eqn:Hpar; cbn; [|done..].
  destruct (check_parent _ _ _) as [[]| |]; cbn; [|done..].
  pose proof (numbers _ _ Hn Hpar) as Hnum.
  destruct (_ && _) eqn:Hready; cbn [orb].
  - bool2prop. unfold found. cbn. split_and!; [done|by eapply descends_parent|lia|]. right.
    destruct HH as [->|(? & ? & ?)]; [cbn in *; uint_lia|].
    destruct HP as [[]|HP]; [done|]. exists (w_n w), highest. split_and!; done.
  - split; [|done]. split; cbn; try done; [by eapply descends_parent|lia| | |].
    + destruct a; [left; naive_solver|by right].
    + intros ->. naive_solver.
    + destruct HP as [[]|HP]; [by left|right; right; eauto].
Qed.

Lemma find_loop_spec fuel w : walk_inv w → l2_Number (w_n w) - l2_Number fin < Z.of_nat fuel →
  ∃ r, find_loop fuel cfg l1 l2 s head w = Some r ∧ ∀ h, r = Ok h → found h.
Proof.
  revert w. induction fuel as [|fuel IH]; intros w Hw Hfuel; [destruct Hw; lia|]. cbn.
  pose proof (find_step_spec w Hw) as Hs.
  destruct (find_step cfg l1 l2 s head w) as [[w'|r]| |]; [|eexists; split; [done|naive_solver]..].
  destruct Hs as [Hw' Hnum]. apply IH; [done|lia].
Qed.
End walk.

Lemma start_inv (l1 : L) (l2 : C) cur : rewound cur = false → walk_inv l1 l2 cur (start_walk cur).
Proof.
  unfold rewound. intros Hr. bool2prop. split; cbn; try done;
    [apply descends_head|by left|right; by left|by left].
Qed.


(** with the sync start check skipped, the search never returns when the unsafe head is
    the safe head, above the finalized block and with a canonical L1 origin: it jumps from
    that block to itself forever. *)
Theorem skip_check_diverges cfg (l1 : L) (l2 : C) s b l1b fin fuel :
  currentHeads cfg l2 = Ok (mkHeads b b fin) → no_finality cfg (mkHeads b b fin) = false →
  sy_SkipSyncStartCheck s = true → b ≠ zeroL2 →
  l2_Number fin < l2_Number b → l2_Number b ≠ id_Number (gen_L2 (cfg_Genesis cfg)) →
  L1BlockRefByNumber l1 (id_Number (l2_L1Origin b)) = Ok l1b →
  l1_Hash l1b = id_Hash (l2_L1Origin b) → l1_ParentHash l1b ≠ l1_Hash l1b → l1_Hash l1b ≠ zeroHash →
  FindL2Heads fuel cfg l1 l2 s = None.
Proof.
  intros Hc Hf Hs Hz Hlt Hgen Hl Hcan Hpar Hzero. unfold FindL2Heads. rewrite Hc, Hf. cbn [orb].
  replace (rewound _) with false by (unfold rewound; cbn; symmetry; apply orb_false_iff; rewrite !Z.ltb_ge; lia).
  assert (Hstep : ∀ l1B highest ready, fetch_origin l1 b l1B false = Ok (l1b, false) →
    highest = zeroL2 ∨ highest = b →
    ∃ ready', find_step cfg l1 l2 s b (mkWalk (mkHeads b b fin) b highest l1B false ready) =
      Ok (inl (mkWalk (mkHeads b b fin) b b l1b false ready'))).
  { intros l1B highest ready Hfetch Hh. unfold find_step. cbn. rewrite Hfetch. cbn. unfold check_chain.
    rewrite (proj2 (Z.eqb_neq _ _) Hgen), (proj2 (Z.eqb_neq (l2_Number b) (l2_Number fin))) by lia. cbn.
    unfold pick_unsafe. cbn. rewrite (bool_decide_eq_false_2 (b = zeroL2)) by done. cbn.
    rewrite (bool_decide_eq_true_2 (l1_Hash l1b = _)) by done.
    assert (Heq : (if bool_decide (highest = zeroL2) then b else highest) = b)
      by (destruct Hh as [->| ->]; by case_bool_decide).
    rewrite Heq. cbn. rewrite (proj2 (Z.eqb_neq (l2_Number b) (l2_Number fin))) by lia.
    rewrite Hs, (bool_decide_eq_true_2 (l2_Hash b = l2_Hash b)) by done. by eexists. }
  assert (Hloop : ∀ fuel l1B highest ready, fetch_origin l1 b l1B false = Ok (l1b, false) →
    highest = zeroL2 ∨ highest = b →
    find_loop fuel cfg l1 l2 s b (mkWalk (mkHeads b b fin) b highest l1B false ready) = None).
  { clear fuel. intros fuel. induction fuel as [|fuel IH]; intros l1B highest ready Hfetch Hh; [done|].
    cbn. destruct (Hstep l1B highest ready Hfetch Hh) as [ready' ->]. apply IH; [|by right].
    unfold fetch_origin. rewrite bool_decide_eq_false_2 by congruence.
    rewrite (bool_decide_eq_false_2 (l1b = zeroL1)) by (by intros ->).
    by rewrite bool_decide_eq_true_2. }
  apply Hloop; [|by left]. unfold fetch_origin. rewrite bool_decide_eq_false_2 by (rewrite <- Hcan; done).
  rewrite bool_decide_eq_true_2 by done. cbn [orb]. unfold origin_by_number. by rewrite retry_same, Hl.
Qed.

(** when the L1 origin of the finalized block is no longer canonical and the engine has
    nothing on top of it, the search succeeds with an empty unsafe head. *)
Theorem finalized_origin_reorged cfg (l1 : L) (l2 : C) s b l1b fuel :
  currentHeads cfg l2 = Ok (mkHeads b b b) → no_finality cfg (mkHeads b b b) = false → b ≠ zeroL2 →
  l2_Number b ≠ id_Number (gen_L2 (cfg_Genesis cfg)) → id_Hash (l2_L1Origin b) ≠ zeroHash →
  L1BlockRefByNumber l1 (id_Number (l2_L1Origin b)) = Ok l1b → l1_Hash l1b ≠ id_Hash (l2_L1Origin b) →
  FindL2Heads (S fuel) cfg l1 l2 s = Some (Ok (mkHeads zeroL2 b b)).
Proof.
  intros Hc Hf Hz Hgen Hzero Hl Hcan. unfold FindL2Heads. rewrite Hc, Hf.
  replace (rewound _) with false by (unfold rewound; cbn; by rewrite !Z.ltb_irrefl).
  cbn [orb find_loop]. unfold find_step, start_walk. cbn [w_n w_l1Block w_ahead w_result w_highest fh_Unsafe].
  unfold fetch_origin. rewrite bool_decide_eq_false_2 by done. rewrite bool_decide_eq_true_2 by done.
  cbn [orb]. unfold origin_by_number. rewrite retry_same, Hl. cbn. unfold check_chain.
  rewrite (proj2 (Z.eqb_neq _ _) Hgen), Z.eqb_refl. cbn.
  rewrite (bool_decide_eq_true_2 (l2_Hash b = l2_Hash b)) by done. cbn.
  unfold pick_unsafe. cbn. rewrite (bool_decide_eq_false_2 (b = zeroL2)) by done. cbn.
  rewrite (bool_decide_eq_false_2 (l1_Hash l1b = _)) by done. cbn. by rewrite Z.eqb_refl.
Qed.
End find.

(** ** A chain of two L2 blocks per L1 block, whose L1 chain was reorged at block 117 and
    is known up to block 118. *)
Module SyncExample.
Definition l1_hash (n : Z) : Hash := be_bytes 32 ((if 117 <=? n then 2000 else 1000) + n).
Definition l1_block (n : Z) : L1BlockRef := mkL1BlockRef (l1_hash n) n (l1_hash (n - 1)) (12 * n).
Definition l1_blocks : list L1BlockRef := l1_block <$> seqZ 100 19.
Definition l2_block (n : Z) : L2BlockRef :=
  mkL2BlockRef (be_bytes 32 (5000 + n)) n (be_bytes 32 (5000 + n - 1)) (6 * n)
    (mkBlockID (be_bytes 32 (1100 + n / 2)) (100 + n / 2)) (n mod 2).
Definition l2_blocks : list L2BlockRef := l2_block <$> seqZ 1 40.

Definition find {A} (p : A → bool) (l : list A) : Res A :=
  match List.find p l with Some a => Ok a | None => Err (Sentinel SNotFound) end.
Inductive l1_node := L1Node.
#[global] Instance l1_source : L1Source l1_node := {
  L1BlockRefByNumber _ n := find (λ b, l1_Number b =? n) l1_blocks;
  L1BlockRefByHash _ h := find (λ b, bool_decide (l1_Hash b = h)) l1_blocks;
  InfoByHash _ _ := Err (Sentinel SNotFound);
  FetchReceipts _ _ := Err (Sentinel SNotFound);
  InfoAndTxsByHash _ _ := Err (Sentinel SNotFound);
  GetBlobsByHash _ _ _ := Err (Sentinel SNotFound) }.
(** An engine with its unsafe, safe and finalized heads. *)
Record engine := Engine { at_unsafe : Z; at_safe : Z; at_finalized : Z }.
#[global] Instance engine_chain : L2Chain engine := {
  chain_ByHash _ h := find (λ b, bool_decide (l2_Hash b = h)) l2_blocks;
  chain_ByLabel e l := Ok (l2_block
    match l with UnsafeLabel => at_unsafe e | SafeLabel => at_safe e | FinalizedLabel => at_finalized e end);
  chain_ByNumber _ n := find (λ b, l2_Number b =? n) l2_blocks }.
Definition sync (skip : bool) : SyncConfig := mkSyncConfig CLSync false skip false "" false 0.
Definition heads (e : engine) : FindHeadsResult :=
  mkHeads (l2_block (at_unsafe e)) (l2_block (at_safe e)) (l2_block (at_finalized e)).

Lemma find_in {A} (p : A → bool) l a : find p l = Ok a → a ∈ l ∧ p a = true.
Proof.
  unfold find. destruct (List.find p l) eqn:Hf; [|done]. intros [= ->].
  apply find_some in Hf as [? ?]. by rewrite list_elem_of_In.
Qed.
Lemma parent_number b p :
  b ∈ l2_blocks → find (λ x, bool_decide (l2_Hash x = l2_ParentHash b)) l2_blocks = Ok p →
  l2_Number p + 1 = l2_Number b.
Proof.
  intros Hb Hp.
  assert (Hall : forallb (λ b, match find (λ x, bool_decide (l2_Hash x = l2_ParentHash b)) l2_blocks with
    | Ok p => l2_Number p + 1 =? l2_Number b | _ => true end) l2_blocks = true) by (vm_compute; reflexivity).
  rewrite forallb_forall in Hall. specialize (Hall b). rewrite Hp in Hall.
  apply Z.eqb_eq, Hall. by apply list_elem_of_In.
Qed.
Lemma numbers (e : engine) u b p : u ∈ l2_blocks → descends e u b → chain_ByHash e (l2_ParentHash b) = Ok p →
  l2_Number p + 1 = l2_Number b.
Proof.
  intros Hu Hd. apply parent_number.
  induction Hd as [|b q _ IH Hp]; [done|]. by apply find_in in Hp as [? _].
Qed.
Lemma no_zero b : L1BlockRefByHash L1Node zeroHash ≠ Ok b.
Proof.
  replace (L1BlockRefByHash L1Node zeroHash) with (Err (A:=L1BlockRef) (Sentinel SNotFound)); [done|].
  vm_compute. reflexivity.
Qed.
End SyncExample.
Import SyncExample.


Lemma el_sync_offset_witness :
  let s := mkSyncConfig ELSync false false false "" false 25000000000 in
  L2HeadsForELSyncWithOffset ExampleConfig.cfg (Engine 40 30 2) s (l2_block 40) =
    Ok (mkHeads (l2_block 40) (l2_block 27) (l2_block 27)) ∧
  25000000000 / time_Second ≤ (40 - 27) * 2 < 25000000000 / time_Second + 2.
Proof.
  intros s. assert (Hr : L2HeadsForELSyncWithOffset ExampleConfig.cfg (Engine 40 30 2) s (l2_block 40) =
    Ok (mkHeads (l2_block 40) (l2_block 27) (l2_block 27))) by (vm_compute; reflexivity).
  split; [exact Hr|].
  destruct (el_sync_offset ExampleConfig.cfg (Engine 40 30 2) s (l2_block 40) _
    ltac:(split; vm_compute; done) ltac:(split; vm_compute; done) ltac:(split; vm_compute; done)
    ltac:(split; vm_compute; done) ltac:(intros n b [_ Hb]%find_in; by apply Z.eqb_eq in Hb) Hr)
    as (_ & _ & _ & [Hg|Hc]); [discriminate Hg|exact Hc].
Defined.

Lemma skip_check_diverges_witness :
  FindL2Heads 1000 ExampleConfig.cfg L1Node (Engine 20 20 2) (sync true) = None.
Proof.
  apply (skip_check_diverges ExampleConfig.cfg L1Node (Engine 20 20 2) (sync true) (l2_block 20) (l1_block 110)
    (l2_block 2) 1000); [vm_compute; reflexivity..| | | | | | |]; vm_compute; done.
Defined.

Lemma finalized_origin_reorged_witness :
  FindL2Heads 1 ExampleConfig.cfg L1Node (Engine 35 35 35) (sync false) =
    Some (Ok (mkHeads zeroL2 (l2_block 35) (l2_block 35))).
Proof.
  apply (finalized_origin_reorged ExampleConfig.cfg L1Node (Engine 35 35 35) (sync false) (l2_block 35)
    (l1_block 117) 0); vm_compute; done.
Defined.
