(* ===== verification/Events.v ===== *)
(** * Events of the node

    The parts of the node talk to each other through events: [op-node/rollup/event.go],
    [derive/deriver.go], [finality/finalizer.go] and the events of [op-node/rollup/engine].
    An emitted event is queued and handled later, so a handler is a computation that
    changes the state of its part and puts out events and calls, in order. Start and
    insertion times, which are only used for metrics, are left out. *)

From S2P Require Import Prelude GoBytes Errors Eth AttributesQueue.

(** [eth.ExecutionPayloadEnvelope] and [eth.PayloadInfo]. *)
Record ExecutionPayloadEnvelope := mkEnvelope {
  env_ParentBeaconBlockRoot : option Hash;
  env_ExecutionPayload : ExecutionPayload }.
#[export] Instance ExecutionPayloadEnvelope_eq_dec : EqDecision ExecutionPayloadEnvelope.
Proof. solve_decision. Defined.
Record PayloadInfo := mkPayloadInfo { pi_ID : bytes; pi_Timestamp : Z }.

Inductive Event :=
| L1TemporaryErrorEvent (err : error)
| EngineTemporaryErrorEvent (err : error)
| ResetEvent (err : error)
| CriticalErrorEvent (err : error)
| DeriverIdleEvent (origin : L1BlockRef)
| ExhaustedL1Event (l1Ref : L1BlockRef) (lastL2 : L2BlockRef)
| ProvideL1Traversal (nextL1 : L1BlockRef)
| DeriverL1StatusEvent (origin : L1BlockRef) (lastL2 : L2BlockRef)
| DeriverMoreEvent
| ConfirmReceivedAttributesEvent
| ConfirmPipelineResetEvent
| DerivedAttributesEvent (attributes : AttributesWithParent)
| PipelineStepEvent (pendingSafe : L2BlockRef)
| DepositsOnlyPayloadAttributesRequestEvent (parent : BlockID) (derivedFrom : L1BlockRef)
| ForkchoiceUpdateEvent (unsafe safe finalized : L2BlockRef)
| ForkchoiceUpdateInitEvent (unsafe safe finalized : L2BlockRef)
| UnsafeUpdateEvent (ref : L2BlockRef)
| PromoteCrossUnsafeEvent (ref : L2BlockRef)
| PendingSafeUpdateEvent (pendingSafe unsafe : L2BlockRef)
| LocalSafeUpdateEvent (ref : L2BlockRef) (source : L1BlockRef)
| SafeDerivedEvent (safe : L2BlockRef) (source : L1BlockRef)
| EngineResetConfirmedEvent (localUnsafe crossUnsafe localSafe crossSafe finalized : L2BlockRef)
| FinalizedUpdateEvent (ref : L2BlockRef)
| InteropInvalidateBlockEvent (invalidated : L1BlockRef) (attributes : AttributesWithParent)
| InteropReplacedBlockEvent (ref : L1BlockRef) (envelope : ExecutionPayloadEnvelope)
| BuildStartEvent (attributes : AttributesWithParent)
| BuildStartedEvent (info : PayloadInfo) (parent : L2BlockRef) (concluding : bool) (derivedFrom : L1BlockRef)
| BuildSealEvent (info : PayloadInfo) (concluding : bool) (derivedFrom : L1BlockRef)
| BuildSealedEvent (info : PayloadInfo) (concluding : bool) (derivedFrom : L1BlockRef)
    (envelope : ExecutionPayloadEnvelope) (ref : L2BlockRef)
| BuildInvalidEvent (attributes : AttributesWithParent) (err : error)
| InvalidPayloadAttributesEvent (attributes : AttributesWithParent) (err : error)
| BuildCancelEvent (info : PayloadInfo) (force : bool)
| PayloadSealInvalidEvent (info : PayloadInfo) (err : error) (concluding : bool) (derivedFrom : L1BlockRef)
| PayloadSealExpiredErrorEvent (info : PayloadInfo) (err : error) (concluding : bool) (derivedFrom : L1BlockRef)
| PayloadProcessEvent (concluding : bool) (derivedFrom : L1BlockRef)
    (envelope : ExecutionPayloadEnvelope) (ref : L2BlockRef)
| PayloadSuccessEvent (concluding : bool) (derivedFrom : L1BlockRef)
    (envelope : ExecutionPayloadEnvelope) (ref : L2BlockRef)
| PayloadInvalidEvent (envelope : ExecutionPayloadEnvelope) (err : error)
| ResetEngineRequestEvent
| TryFinalizeEvent.

(** ** Handlers

    A computation on a state [S] that puts out [O] in order. What was put out and changed
    before an error stays. *)
Definition Act (O S A : Type) : Type := S → Res A * S * list O.

#[export] Instance Act_ret {O S} : MRet (Act O S) := λ A a s, (Ok a, s, []).
#[export] Instance Act_bind {O S} : MBind (Act O S) := λ A B k m s,
  match m s with
  | (Ok a, s, out) => let '(r, s, out') := k a s in (r, s, out ++ out')
  | (Err e, s, out) => (Err e, s, out)
  | (Panic w, s, out) => (Panic w, s, out)
  end.

Section act.
Context {O S : Type}.
Definition get : Act O S S := λ s, (Ok s, s, []).
Definition gets {A} (f : S → A) : Act O S A := λ s, (Ok (f s), s, []).
Definition modify (f : S → S) : Act O S unit := λ s, (Ok (), f s, []).
Definition put_out (o : O) : Act O S unit := λ s, (Ok (), s, [o]).
Definition lift {A} (r : Res A) : Act O S A := λ s, (r, s, []).
Definition fail {A} (e : error) : Act O S A := lift (Err e).
(** Run a call and look at its error, as [if err := ...; err != nil] does. *)
Definition try {A} (m : Act O S A) : Act O S (error + A) := λ s,
  match m s with
  | (Ok a, s, out) => (Ok (inr a), s, out)
  | (Err e, s, out) => (Ok (inl e), s, out)
  | (Panic w, s, out) => (Panic w, s, out)
  end.

(** The parts of a run. *)
Definition act_res {A} (m : Act O S A) (s : S) : Res A := (m s).1.1.
Definition act_state {A} (m : Act O S A) (s : S) : S := (m s).1.2.
Definition act_out {A} (m : Act O S A) (s : S) : list O := (m s).2.
End act.

(** Run the known steps of a computation. *)
Ltac act_run :=
  unfold act_res, act_state, act_out, mbind, Act_bind, mret, Act_ret, get, gets, modify, put_out, fail, lift;
  cbn [fst snd app negb andb orb].
(** Case on the innermost tests of a computation, running what becomes known. *)
Ltac act_case :=
  match goal with |- context [match ?x with _ => _ end] =>
    lazymatch x with
    | context [match _ with _ => _ end] => fail
    | _ => let E := fresh "E" in destruct x eqn:E; act_run
    end
  end.
Ltac act_cases := act_run; repeat (act_case; try done).
