(* ===== verification/Finalizer.v ===== *)
(** * Finality

    Models [op-node/rollup/finality/finalizer.go] and [altda.go]: which L2 blocks were
    derived from which L1 blocks is remembered for a while, and a signal that an L1 block
    is final makes the L2 blocks derived up to it final, once the L1 source confirms that
    both are on the canonical chain. *)

From stdpp Require Import sorting.
From S2P Require Import Prelude GoBytes Errors Eth RollupConfig Geth L1Traversal AltDA AttributesQueue Events SyncStart.

Definition defaultFinalityLookback : Z := 4 * 32 + 1.
Definition finalityDelay : Z := 64.

Record FinalizerConfig := mkFinalizerConfig {
  fcfg_FinalityLookback : option Z; fcfg_FinalityDelay : option Z }.

Definition calcFinalityLookback (cfg : Config) (finalizerCfg : option FinalizerConfig) : Z :=
  match finalizerCfg ≫= fcfg_FinalityLookback with
  | Some n => n
  | None =>
    match cfg_AltDAConfig cfg with
    | Some a =>
      let lkb := ada_DAChallengeWindow a +₆₄ ada_DAResolveWindow a +₆₄ 1 in
      if defaultFinalityLookback <? lkb then lkb else defaultFinalityLookback
    | None => defaultFinalityLookback
    end
  end.
Definition calcFinalityDelay (finalizerCfg : option FinalizerConfig) : Z :=
  match finalizerCfg ≫= fcfg_FinalityDelay with Some n => n | None => finalityDelay end.

Record FinalityData := mkFinalityData { fd_L2Block : L2BlockRef; fd_L1Block : BlockID }.

Record Finalizer := mkFinalizer {
  fi_cfg : Config;
  fi_supervisorEnabled : bool;
  fi_finalizedL1 : L1BlockRef;
  fi_lastFinalizedL2 : L2BlockRef;
  fi_triedFinalizeAt : Z;
  fi_finalityData : list FinalityData;
  fi_finalityLookback : Z;
  fi_finalityDelay : Z }.

Definition fi_set_finalizedL1 (r : L1BlockRef) fi : Finalizer :=
  mkFinalizer (fi_cfg fi) (fi_supervisorEnabled fi) r (fi_lastFinalizedL2 fi) (fi_triedFinalizeAt fi)
    (fi_finalityData fi) (fi_finalityLookback fi) (fi_finalityDelay fi).
Definition fi_set_lastFinalizedL2 (r : L2BlockRef) fi : Finalizer :=
  mkFinalizer (fi_cfg fi) (fi_supervisorEnabled fi) (fi_finalizedL1 fi) r (fi_triedFinalizeAt fi)
    (fi_finalityData fi) (fi_finalityLookback fi) (fi_finalityDelay fi).
Definition fi_set_tried (n : Z) fi : Finalizer :=
  mkFinalizer (fi_cfg fi) (fi_supervisorEnabled fi) (fi_finalizedL1 fi) (fi_lastFinalizedL2 fi) n
    (fi_finalityData fi) (fi_finalityLookback fi) (fi_finalityDelay fi).
Definition fi_set_data (d : list FinalityData) fi : Finalizer :=
  mkFinalizer (fi_cfg fi) (fi_supervisorEnabled fi) (fi_finalizedL1 fi) (fi_lastFinalizedL2 fi)
    (fi_triedFinalizeAt fi) d (fi_finalityLookback fi) (fi_finalityDelay fi).

(** A lookback that is too large to allocate is not considered. *)
Definition NewFinalizer (cfg : Config) (finalizerCfg : option FinalizerConfig) (supervisorEnabled : bool)
    : Finalizer :=
  mkFinalizer cfg supervisorEnabled zeroL1 zeroL2 0 []
    (calcFinalityLookback cfg finalizerCfg) (calcFinalityDelay finalizerCfg).

(** What the finalizer puts out: events, and calls of the engine controller. *)
Inductive fi_out := FiEmit (ev : Event) | PromoteFinalizedCall (ref : L2BlockRef).
Abbreviation Fi := (Act fi_out Finalizer).
Definition fi_emit (ev : Event) : Fi unit := put_out (FiEmit ev).

Definition OnL1Finalized (l1Origin : L1BlockRef) : Fi unit :=
  fi ← get;
  if l1_Number l1Origin <? l1_Number (fi_finalizedL1 fi) then mret ()
  else
    _ ← (if negb (bool_decide (fi_finalizedL1 fi = l1Origin))
         then modify (λ fi, fi_set_finalizedL1 l1Origin (fi_set_tried 0 fi)) else mret ());
    fi_emit TryFinalizeEvent.

Definition onDerivationIdle (derivedFrom : L1BlockRef) : Fi unit :=
  fi ← get;
  if bool_decide (fi_finalizedL1 fi = zeroL1) then mret ()
  else if negb (fi_triedFinalizeAt fi =? 0)
          && (l1_Number derivedFrom <=? fi_triedFinalizeAt fi +₆₄ fi_finalityDelay fi) then mret ()
  else
    _ ← modify (fi_set_tried (l1_Number derivedFrom));
    fi_emit TryFinalizeEvent.

(** The last entry that is newer than what was finalized and derived from a finalized block. *)
Fixpoint find_finalized (finalizedL1 : Z) (data : list FinalityData) (finalizedL2 : L2BlockRef)
    (derivedFrom : BlockID) : L2BlockRef * BlockID :=
  match data with
  | [] => (finalizedL2, derivedFrom)
  | fd :: data =>
    if (l2_Number finalizedL2 <? l2_Number (fd_L2Block fd)) && (id_Number (fd_L1Block fd) <=? finalizedL1)
    then find_finalized finalizedL1 data (fd_L2Block fd) (fd_L1Block fd)
    else find_finalized finalizedL1 data finalizedL2 derivedFrom
  end.

Section finalizer.
Context {L : Type} `{L1Source L}.

Definition tryFinalize (l1Fetcher : L) : Fi unit :=
  fi ← get;
  let '(finalizedL2, finalizedDerivedFrom) :=
    find_finalized (l1_Number (fi_finalizedL1 fi)) (fi_finalityData fi) (fi_lastFinalizedL2 fi) zeroBlockID in
  if bool_decide (finalizedDerivedFrom = zeroBlockID) then mret ()
  else
    match L1BlockRefByNumber l1Fetcher (l1_Number (fi_finalizedL1 fi)) with
    | Panic w => lift (Panic w)
    | Err e => fi_emit (L1TemporaryErrorEvent (Errorf "failed to check if on finalizing L1 chain" e))
    | Ok signalRef =>
      if negb (bool_decide (l1_Hash signalRef = l1_Hash (fi_finalizedL1 fi))) then
        fi_emit (ResetEvent (ErrorsNew "need to reset, finalized L1 block is not canonical"))
      else
        match L1BlockRefByNumber l1Fetcher (id_Number finalizedDerivedFrom) with
        | Panic w => lift (Panic w)
        | Err e => fi_emit (L1TemporaryErrorEvent (Errorf "failed to check if on finalizing L1 chain" e))
        | Ok derivedRef =>
          if negb (bool_decide (l1_Hash derivedRef = id_Hash finalizedDerivedFrom)) then
            fi_emit (ResetEvent (ErrorsNew "need to reset, not on the finalizing L1 chain"))
          else put_out (PromoteFinalizedCall finalizedL2)
        end
    end.
End finalizer.

(** Slicing from one beyond the end panics, which happens for a lookback of zero. *)
Definition onDerivedSafeBlock (l2Safe : L2BlockRef) (derivedFrom : L1BlockRef) : Fi unit :=
  fi ← get;
  if IsInterop (fi_cfg fi) (l2_Time l2Safe) && fi_supervisorEnabled fi then mret ()
  else
    let data := fi_finalityData fi in
    match last data with
    | Some lst =>
      if id_Number (fd_L1Block lst) <? l1_Number derivedFrom then
        if fi_finalityLookback fi <=? Z.of_nat (length data) then
          if fi_finalityLookback fi <? 1 then lift (Panic "slice bounds out of range")
          else
            modify (fi_set_data (drop 1 (take (Z.to_nat (fi_finalityLookback fi)) data)
                                 ++ [mkFinalityData l2Safe (L1_ID derivedFrom)]))
        else modify (fi_set_data (data ++ [mkFinalityData l2Safe (L1_ID derivedFrom)]))
      else
        modify (fi_set_data (take (pred (length data)) data ++ [mkFinalityData l2Safe (fd_L1Block lst)]))
    | None =>
      if fi_finalityLookback fi <=? 0 then lift (Panic "slice bounds out of range")
      else modify (fi_set_data [mkFinalityData l2Safe (L1_ID derivedFrom)])
    end.

Definition fi_onReset : Fi unit := modify (λ fi, fi_set_tried 0 (fi_set_data [] fi)).

(** The events the finalizer reacts to; the result says whether it did. *)
Definition Finalizer_OnEvent {L} `{L1Source L} (l1Fetcher : L) (ev : Event) : Fi bool :=
  match ev with
  | SafeDerivedEvent safe source => _ ← onDerivedSafeBlock safe source; mret true
  | DeriverIdleEvent origin => _ ← onDerivationIdle origin; mret true
  | ResetEvent _ => _ ← fi_onReset; mret true
  | TryFinalizeEvent => _ ← tryFinalize l1Fetcher; mret true
  | ForkchoiceUpdateEvent _ _ finalized => _ ← modify (fi_set_lastFinalizedL2 finalized); mret true
  | _ => mret false
  end.

(** ** Alt-DA

    The signals of L1 go to the backend, which signals the finalizer in turn. *)
Class AltDABackend (D : Type) := {
  backend_Finalize : L1BlockRef → D → option L1BlockRef * D;
  backend_OnFinalizedHeadSignal : D → D;
}.
#[export] Instance DA_backend `{Geth} {S} `{DAStorage S} : AltDABackend (DA S) := {
  backend_Finalize := Finalize; backend_OnFinalizedHeadSignal := OnFinalizedHeadSignal }.

Record AltDAFinalizer (D : Type) := mkAltDAFinalizer { af_inner : Finalizer; af_backend : D }.
Arguments mkAltDAFinalizer {D}.
Arguments af_inner {D}.
Arguments af_backend {D}.

Definition NewAltDAFinalizer {D} `{AltDABackend D} (cfg : Config) (finalizerCfg : option FinalizerConfig)
    (supervisorEnabled : bool) (backend : D) : AltDAFinalizer D :=
  mkAltDAFinalizer (NewFinalizer cfg finalizerCfg supervisorEnabled) (backend_OnFinalizedHeadSignal backend).
Definition on_inner {D A} (m : Fi A) : Act fi_out (AltDAFinalizer D) A := λ af,
  let '(r, fi, out) := m (af_inner af) in (r, mkAltDAFinalizer fi (af_backend af), out).
Definition AltDAFinalizer_OnEvent {L} `{L1Source L} {D} (l1Fetcher : L) (ev : Event)
    : Act fi_out (AltDAFinalizer D) bool := on_inner (Finalizer_OnEvent l1Fetcher ev).
Definition AltDAFinalizer_OnL1Finalized {D} `{AltDABackend D} (l1Origin : L1BlockRef)
    : Act fi_out (AltDAFinalizer D) unit := λ af,
  let '(signal, backend) := backend_Finalize l1Origin (af_backend af) in
  let af := mkAltDAFinalizer (af_inner af) backend in
  match signal with
  | Some ref => on_inner (OnL1Finalized ref) af
  | None => (Ok (), af, [])
  end.

(** ** Runs

    The history of a finalizer: the events it handled with the L1 source at the time, and
    the finality signals of L1, the latest first. *)
Inductive fi_input (L : Type) := InEvent (l1 : L) (ev : Event) | InFinalized (ref : L1BlockRef).
Arguments InEvent {L}.
Arguments InFinalized {L}.

Section runs.
Context {L : Type} `{L1Source L}.
Implicit Types (fi : Finalizer) (h : list (fi_input L)).

Definition fi_step (i : fi_input L) : Fi unit :=
  match i with
  | InEvent l1 ev => _ ← Finalizer_OnEvent l1 ev; mret ()
  | InFinalized ref => OnL1Finalized ref
  end.

Inductive fi_run (cfg : Config) (fcfg : option FinalizerConfig) (sup : bool) : list (fi_input L) → Finalizer → Prop :=
| run_new : fi_run cfg fcfg sup [] (NewFinalizer cfg fcfg sup)
| run_step h fi i : fi_run cfg fcfg sup h fi → act_res (fi_step i) fi = Ok () →
    fi_run cfg fcfg sup (i :: h) (act_state (fi_step i) fi).

(** The blocks that were derived since the last reset, with their L1 blocks. *)
Fixpoint derived h : list (L2BlockRef * L1BlockRef) :=
  match h with
  | [] => []
  | InEvent _ (ResetEvent _) :: _ => []
  | InEvent _ (SafeDerivedEvent safe source) :: h => (safe, source) :: derived h
  | _ :: h => derived h
  end.

(** An entry records an L1 block at or above the one its L2 block was derived from. *)
Definition recorded (ds : list (L2BlockRef * L1BlockRef)) (fd : FinalityData) : Prop :=
  ∃ src s' src', (fd_L2Block fd, src) ∈ ds ∧ (s', src') ∈ ds ∧ fd_L1Block fd = L1_ID src' ∧
    l1_Number src ≤ l1_Number src'.

Record fi_inv h fi : Prop := {
  fin_recorded : Forall (recorded (derived h)) (fi_finalityData fi);
  fin_sorted : StronglySorted (λ a b, id_Number (fd_L1Block a) < id_Number (fd_L1Block b)) (fi_finalityData fi);
  fin_window : Z.of_nat (length (fi_finalityData fi)) ≤ Z.max 0 (fi_finalityLookback fi);
  fin_signal : fi_finalizedL1 fi = zeroL1 ∨ InFinalized (fi_finalizedL1 fi) ∈ h }.

Lemma recorded_mono ds ds' fd : (∀ x, x ∈ ds → x ∈ ds') → recorded ds fd → recorded ds' fd.
Proof. intros Hs (src & s' & src' & ? & ? & ? & ?). exists src, s', src'. auto. Qed.

Lemma Forall_sublist {A} (P : A → Prop) l k : sublist l k → Forall P k → Forall P l.
Proof. rewrite !Forall_forall. eauto using elem_of_sublist. Qed.
Lemma sorted_middle {A} (R : A → A → Prop) l k : sublist l k → StronglySorted R k → StronglySorted R l.
Proof.
  induction 1 as [|x l k Hl IH|x l k Hl IH]; [done|..]; intros [? ?]%StronglySorted_inv; [|by apply IH].
  constructor; [by apply IH|]. by eapply Forall_sublist.
Qed.

Definition entry_lt (a b : FinalityData) : Prop := id_Number (fd_L1Block a) < id_Number (fd_L1Block b).

(** A new entry after some of the old ones keeps the invariant. *)
Lemma extend_inv h fi safe source l1 (l : list FinalityData) b :
  fi_inv h fi → sublist l (fi_finalityData fi) →
  recorded (derived (InEvent l1 (SafeDerivedEvent safe source) :: h)) b → Forall (λ a, entry_lt a b) l →
  Z.of_nat (length l) + 1 ≤ fi_finalityLookback fi →
  fi_inv (InEvent l1 (SafeDerivedEvent safe source) :: h) (fi_set_data (l ++ [b]) fi).
Proof.
  intros [Hr Hs Hw Hf] Hl Hb Hlt Hlen. split; cbn.
  - apply Forall_app. split; [|by repeat constructor].
    eapply Forall_impl; [by eapply Forall_sublist|]. cbn. intros fd. apply recorded_mono. set_solver.
  - apply StronglySorted_app_2; [|by eapply sorted_middle|by repeat constructor].
    intros x y Hx ->%list_elem_of_singleton. by eapply Forall_forall in Hlt.
  - rewrite length_app. cbn. lia.
  - rewrite elem_of_cons. naive_solver.
Qed.

Lemma onDerived_inv h fi safe source l1 :
  fi_inv h fi → act_res (onDerivedSafeBlock safe source) fi = Ok () →
  fi_inv (InEvent l1 (SafeDerivedEvent safe source) :: h) (act_state (onDerivedSafeBlock safe source) fi).
Proof.
  intros Hi. pose proof Hi as [Hr Hs Hw Hf].
  assert (Hnew : recorded (derived (InEvent l1 (SafeDerivedEvent safe source) :: h))
    (mkFinalityData safe (L1_ID source))) by (exists source, safe, source; cbn; set_solver).
  unfold onDerivedSafeBlock. act_run.
  destruct (_ && _); act_run.
  { intros _. split; cbn; [|done..|rewrite elem_of_cons; naive_solver].
    eapply Forall_impl; [exact Hr|]. intros fd. apply recorded_mono. set_solver. }
  destruct (last (fi_finalityData fi)) as [lst|] eqn:Hl; cbn.
  2: { apply last_None in Hl. destruct (Z.leb_spec (fi_finalityLookback fi) 0); cbn; [done|]. intros _.
       apply (extend_inv h fi _ _ _ []); [done|apply sublist_nil_l|done|done|cbn; lia]. }
  apply last_Some in Hl as [l Hl].
  assert (Hlt : Forall (λ a, entry_lt a lst) l).
  { rewrite Hl in Hs. apply StronglySorted_app in Hs as (Hlt & _). apply Forall_forall. set_solver. }
  destruct (Z.ltb_spec (id_Number (fd_L1Block lst)) (l1_Number source)) as [Hn|Hn].
  - assert (Hall : Forall (λ a, entry_lt a (mkFinalityData safe (L1_ID source))) (fi_finalityData fi)).
    { rewrite Hl. apply Forall_app. split; [|by repeat constructor].
      eapply Forall_impl; [exact Hlt|]. unfold entry_lt. cbn. lia. }
    destruct (Z.leb_spec (fi_finalityLookback fi) (Z.of_nat (length (fi_finalityData fi)))); cbn.
    + destruct (Z.ltb_spec (fi_finalityLookback fi) 1); cbn; [done|]. intros _.
      assert (Hsub : sublist (drop 1 (take (Z.to_nat (fi_finalityLookback fi)) (fi_finalityData fi))) (fi_finalityData fi))
        by (etrans; [apply sublist_drop|apply sublist_take]).
      apply extend_inv; [done|done|done|by eapply Forall_sublist|].
      rewrite length_drop, length_take. lia.
    + intros _. apply extend_inv; try done. lia.
  - intros _. rewrite Hl in *. rewrite length_app, Nat.add_1_r. cbn [pred]. rewrite take_app_length.
    apply extend_inv; [done|rewrite Hl; by apply sublist_inserts_r| | |].
    + apply Forall_app in Hr as [_ (src & s' & src' & ? & ? & He & ?)%Forall_singleton].
      exists source, s', src'. cbn. rewrite He in *. cbn in *. split_and!; [set_solver..|done|lia].
    + exact Hlt.
    + rewrite length_app in Hw. cbn in Hw. lia.
Qed.

(** A step that leaves the entries alone. *)
Lemma same_data_inv h fi fi' i :
  fi_inv h fi → derived (i :: h) = derived h → fi_finalityData fi' = fi_finalityData fi →
  fi_finalityLookback fi' = fi_finalityLookback fi →
  (fi_finalizedL1 fi' = fi_finalizedL1 fi ∨ i = InFinalized (fi_finalizedL1 fi')) → fi_inv (i :: h) fi'.
Proof.
  intros [Hr Hs Hw Hf] Hd Hdata Hlb Hsig. split; rewrite ?Hdata, ?Hlb, ?Hd; try done.
  rewrite elem_of_cons. destruct Hsig as [->|<-]; naive_solver.
Qed.

(** [tryFinalize] changes nothing itself. *)
Lemma tryFinalize_state (l1 : L) fi : act_state (tryFinalize l1) fi = fi.
Proof. unfold tryFinalize, fi_emit. by act_cases. Qed.

Lemma step_inv h fi i : fi_inv h fi → act_res (fi_step i) fi = Ok () → fi_inv (i :: h) (act_state (fi_step i) fi).
Proof.
  intros Hi. destruct i as [l1 ev|ref]; cbn [fi_step].
  2: { intros _. unfold OnL1Finalized, fi_emit. act_run.
       destruct (_ <? _); act_run; [apply (same_data_inv h fi); auto|].
       case_bool_decide; act_run; apply (same_data_inv h fi); auto. }
  assert (Hseq : ∀ m : Fi unit, act_res (_ ← (_ ← m; mret true); mret ()) fi = Ok () →
    act_res m fi = Ok () ∧ act_state (_ ← (_ ← m; mret true); mret ()) fi = act_state m fi).
  { intros m. act_run. by destruct (m fi) as [[[[]| |] ?] ?]. }
  destruct ev; try (intros _; by apply (same_data_inv h fi); auto); cbn [Finalizer_OnEvent]; intros Hok.
  - apply Hseq in Hok as [Hok ->]. destruct Hi. split; cbn; try done; [constructor|lia|].
    rewrite elem_of_cons. naive_solver.
  - apply Hseq in Hok as [Hok ->]. unfold onDerivationIdle, fi_emit. act_run.
    case_bool_decide; act_run; [by apply (same_data_inv h fi); auto|].
    destruct (_ && _); act_run; by apply (same_data_inv h fi); auto.
  - apply Hseq in Hok as [Hok ->]. by apply onDerived_inv.
  - apply Hseq in Hok as [Hok ->]. rewrite tryFinalize_state. by apply (same_data_inv h fi); auto.
Qed.

Lemma run_inv cfg fcfg sup h fi : fi_run cfg fcfg sup h fi → fi_inv h fi.
Proof.
  induction 1 as [|h fi i _ IH Hok]; [|by apply step_inv].
  split; cbn; [constructor|constructor|lia|by left].
Qed.

(** What the loop over the entries picks: nothing, or an eligible entry with the highest
    L2 block among the eligible ones. *)
Definition eligible (fin : Z) (fd : FinalityData) : Prop := id_Number (fd_L1Block fd) ≤ fin.
Lemma find_finalized_spec fin data b src b' src' :
  find_finalized fin data b src = (b', src') →
  l2_Number b ≤ l2_Number b' ∧
  (b' = b ∧ src' = src ∨ l2_Number b < l2_Number b' ∧ mkFinalityData b' src' ∈ data ∧ id_Number src' ≤ fin) ∧
  Forall (λ fd, eligible fin fd → l2_Number (fd_L2Block fd) ≤ l2_Number b') data.
Proof.
  revert b src. induction data as [|[fb fs] data IH]; cbn; intros b src;
    [intros [= <- <-]; split_and!; [lia|by left|constructor]|].
  destruct (_ && _) eqn:He; intros Hf; apply IH in Hf as (Hle & Hc & Hall); clear IH; bool2prop.
  - split_and!; [lia| |constructor; [done|exact Hall]].
    right. destruct Hc as [[-> ->]|(? & ? & ?)]; (split; [lia|split; [set_solver|lia]]).
  - split_and!; [done|rewrite elem_of_cons; naive_solver|].
    constructor; [|exact Hall]. unfold eligible. cbn. lia.
Qed.

(** C11: an L2 block is only made final when it is safe to: it was derived from L1 since the
    last reset, a finality signal covers the L1 block it was derived from, and the L1
    source confirms at that moment that the signalled block and the recorded L1 block are
    both canonical. It is newer than what was final before, and no recorded block with a
    final L1 block is higher. *)
Theorem finalize_safe cfg fcfg sup h fi i b :
  fi_run cfg fcfg sup h fi → PromoteFinalizedCall b ∈ act_out (fi_step i) fi →
  ∃ l1 src rec fin sig canon, i = InEvent l1 TryFinalizeEvent ∧ fin = fi_finalizedL1 fi ∧
    (b, src) ∈ derived h ∧ l1_Number src ≤ id_Number rec ≤ l1_Number fin ∧
    (fin = zeroL1 ∨ InFinalized fin ∈ h) ∧
    L1BlockRefByNumber l1 (l1_Number fin) = Ok sig ∧ l1_Hash sig = l1_Hash fin ∧
    L1BlockRefByNumber l1 (id_Number rec) = Ok canon ∧ l1_Hash canon = id_Hash rec ∧
    l2_Number (fi_lastFinalizedL2 fi) < l2_Number b ∧
    Forall (λ fd, id_Number (fd_L1Block fd) ≤ l1_Number fin → l2_Number (fd_L2Block fd) ≤ l2_Number b)
      (fi_finalityData fi).
Proof.
  intros [Hr _ _ Hf]%run_inv. destruct i as [l1 ev|ref]; cbn [fi_step].
  2: { unfold OnL1Finalized, fi_emit. act_cases; set_solver. }
  assert (Hseq : ∀ m : Fi unit, PromoteFinalizedCall b ∈ act_out (_ ← (_ ← m; mret true); mret ()) fi →
    PromoteFinalizedCall b ∈ act_out m fi).
  { intros m. act_run. destruct (m fi) as [[[[]| |] ?] ?]; cbn; by rewrite ?app_nil_r. }
  destruct ev; try (act_run; set_solver); cbn [Finalizer_OnEvent]; intros Hin; apply Hseq in Hin; clear Hseq.
  - unfold onDerivationIdle, fi_emit in Hin. revert Hin. act_cases; set_solver.
  - unfold onDerivedSafeBlock in Hin. revert Hin. act_cases; set_solver.
  - unfold tryFinalize, fi_emit in Hin. revert Hin. act_run.
    destruct (find_finalized _ _ _ _) as [b' rec] eqn:Hff. case_bool_decide as Hz; act_run; [set_solver|].
    destruct (L1BlockRefByNumber l1 (l1_Number _)) as [sig| |] eqn:Hsig; act_run; [|set_solver..].
    case_bool_decide as Hs; act_run; [|set_solver].
    destruct (L1BlockRefByNumber l1 (id_Number rec)) as [canon| |] eqn:Hcan; act_run; [|set_solver..].
    case_bool_decide as Hc; act_run; [|set_solver].
    rewrite list_elem_of_singleton. intros [= ->].
    apply find_finalized_spec in Hff as (_ & [[_ ->]|(Hnew & Hel & Hle)] & Hall); [done|].
    eapply Forall_forall in Hr as (src & s' & src' & Hsrc & _ & Hrec & Hnum); [|exact Hel]. cbn in *.
    exists l1, src, rec, (fi_finalizedL1 fi), sig, canon. rewrite Hrec in *. cbn in *. by split_and!.
Qed.
End runs.

(** A lookback of zero, which the configuration allows, makes the first derived block
    panic. *)
Lemma zero_lookback_panics cfg d sup safe source :
  IsInterop cfg (l2_Time safe) && sup = false →
  act_res (onDerivedSafeBlock safe source) (NewFinalizer cfg (Some (mkFinalizerConfig (Some 0) d)) sup) =
    Panic "slice bounds out of range".
Proof. intros Hi. unfold onDerivedSafeBlock. act_run. cbn [NewFinalizer fi_cfg fi_supervisorEnabled]. by rewrite Hi. Qed.

(** Two blocks derived from L1 blocks 110 and 111, and a signal that 110 is final. *)
Module FinalizerExample.
Import SyncExample.
Definition history : list (fi_input l1_node) :=
  [InFinalized (l1_block 110); InEvent L1Node (SafeDerivedEvent (l2_block 13) (l1_block 111));
   InEvent L1Node (SafeDerivedEvent (l2_block 12) (l1_block 110))].
Definition at_end : Finalizer :=
  foldr (λ i fi, act_state (fi_step i) fi) (NewFinalizer ExampleConfig.cfg None false) history.
Lemma runs : fi_run ExampleConfig.cfg None false history at_end.
Proof.
  refine (run_step _ _ _ _ _ _ (run_step _ _ _ _ _ _ (run_step _ _ _ _ _ _ (run_new _ _ _) _) _) _);
    vm_compute; reflexivity.
Qed.
Lemma promotes : PromoteFinalizedCall (l2_block 12) ∈ act_out (fi_step (InEvent L1Node TryFinalizeEvent)) at_end.
Proof.
  replace (act_out _ _) with [PromoteFinalizedCall (l2_block 12)]; [set_solver|]. vm_compute. reflexivity.
Qed.
End FinalizerExample.

Import SyncExample.
Lemma finalize_safe_witness :
  ∃ fin, fin = fi_finalizedL1 FinalizerExample.at_end ∧
    (fin = zeroL1 ∨ InFinalized fin ∈ FinalizerExample.history).
Proof.
  destruct (finalize_safe ExampleConfig.cfg None false FinalizerExample.history FinalizerExample.at_end
    (InEvent L1Node TryFinalizeEvent) (l2_block 12) FinalizerExample.runs FinalizerExample.promotes)
    as (l1 & src & rec & fin & sig & canon & _ & Hfin & _ & _ & Hsig & _).
  exists fin. split; [exact Hfin|exact Hsig].
Defined.
