(* ===== verification/PayloadsQueue.v ===== *)
(** * The queue of unsafe payloads

    Models [op-node/rollup/engine/payloads_queue.go]: payloads that came in ahead of
    derivation, in a heap by block number, bounded in memory. *)

From S2P Require Import Prelude GoBytes GoHeap Errors Eth AttributesQueue Events.

Record payloadAndSize := mkPayloadAndSize { ps_envelope : ExecutionPayloadEnvelope; ps_size : Z }.
Definition env_number (e : ExecutionPayloadEnvelope) : Z := ep_BlockNumber (env_ExecutionPayload e).
Definition env_hash (e : ExecutionPayloadEnvelope) : Hash := ep_BlockHash (env_ExecutionPayload e).
(** The order of [payloadsByNumber.Less]. *)
Definition ps_key (p : payloadAndSize) : Z := env_number (ps_envelope p).

Definition payloadMemFixedCost : Z := 1000.
Definition payloadTxMemOverhead : Z := 24.
Definition payloadMemSize (p : ExecutionPayloadEnvelope) : Z :=
  foldl (λ out tx, out +₆₄ (Z.of_nat (length tx) +₆₄ payloadTxMemOverhead)) payloadMemFixedCost
    (ep_Transactions (env_ExecutionPayload p)).

Record PayloadsQueue := mkPayloadsQueue {
  upq_pq : list payloadAndSize;
  upq_currentSize : Z;
  upq_MaxSize : Z;
  upq_blockHashes : gset Hash;
  upq_SizeFn : ExecutionPayloadEnvelope → Z }.
Implicit Type q : PayloadsQueue.

Definition upq_set pq size hashes q : PayloadsQueue :=
  mkPayloadsQueue pq size (upq_MaxSize q) hashes (upq_SizeFn q).

Definition NewPayloadsQueue (maxSize : Z) (sizeFn : ExecutionPayloadEnvelope → Z) : PayloadsQueue :=
  mkPayloadsQueue [] 0 maxSize ∅ sizeFn.
Definition upq_Len q : nat := length (upq_pq q).
Definition upq_MemSize q : Z := upq_currentSize q.
Definition upq_Peek q : option ExecutionPayloadEnvelope := ps_envelope <$> head (upq_pq q).

Definition upq_Pop q : option ExecutionPayloadEnvelope * PayloadsQueue :=
  match upq_pq q with
  | [] => (None, q)
  | _ =>
    match heap_Pop ps_key (upq_pq q) with
    | Some (ps, pq) =>
      (Some (ps_envelope ps),
       upq_set pq (upq_currentSize q -₆₄ ps_size ps) (upq_blockHashes q ∖ {[env_hash (ps_envelope ps)]}) q)
    | None => (None, q)
    end
  end.

(** Drop payloads until the size is allowed; every turn takes one off the queue. *)
Fixpoint push_evict (fuel : nat) (e : ExecutionPayloadEnvelope) q : Res unit * PayloadsQueue :=
  if upq_MaxSize q <? upq_currentSize q then
    match fuel with
    | O => (Panic "nil payload", q)
    | S fuel =>
      match upq_Pop q with
      | (None, q) => (Panic "nil payload", q)
      | (Some env, q) =>
        if bool_decide (env_hash env = env_hash e) then
          (Err (ErrorsNew "cannot add payload, since it has the oldest block number in queue"), q)
        else push_evict fuel e q
      end
    end
  else (Ok (), q).

Definition upq_Push (e : option ExecutionPayloadEnvelope) q : Res unit * PayloadsQueue :=
  match e with
  | None => (Err (ErrorsNew "cannot add nil payload"), q)
  | Some e =>
    if bool_decide (env_hash e ∈ upq_blockHashes q) then (Err (ErrorsNew "cannot add duplicate payload"), q)
    else
      let size := upq_SizeFn q e in
      if upq_MaxSize q <? size then (Err (ErrorsNew "payload mem size is larger than max queue size"), q)
      else
        let q := upq_set (heap_Push ps_key (mkPayloadAndSize e size) (upq_pq q)) (upq_currentSize q +₆₄ size)
                   ({[env_hash e]} ∪ upq_blockHashes q) q in
        push_evict (upq_Len q) e q
  end.

(** Whether the payload at the front has to go, for the heads of the engine. *)
Definition inapplicable (unsafe safe : L2BlockRef) (p : ExecutionPayload) : bool :=
  bool_decide (ep_BlockHash p = l2_Hash unsafe)
  || (ep_BlockNumber p <=? l2_Number safe)
  || (ep_BlockNumber p <=? l2_Number unsafe)
  || (ep_BlockNumber p =? l2_Number unsafe +₆₄ 1) && negb (bool_decide (ep_ParentHash p = l2_Hash unsafe)).

Fixpoint drop_loop (fuel : nat) (unsafe safe : L2BlockRef) q : PayloadsQueue :=
  match upq_Peek q, fuel with
  | Some next, S fuel =>
    if inapplicable unsafe safe (env_ExecutionPayload next)
    then drop_loop fuel unsafe safe (upq_Pop q).2
    else q
  | _, _ => q
  end.
Definition DropInapplicableUnsafePayloads (unsafe safe : L2BlockRef) q : PayloadsQueue :=
  drop_loop (upq_Len q) unsafe safe q.

(** ** The invariant *)

Fixpoint sum_sizes (l : list payloadAndSize) : Z :=
  match l with [] => 0 | p :: l => ps_size p + sum_sizes l end.
Definition ps_hash (p : payloadAndSize) : Hash := env_hash (ps_envelope p).

(** The heap is ordered, its sizes add up to the recorded size, and the set holds the
    hashes of its payloads, which are distinct. *)
Record queue_ok q : Prop := {
  qo_heap : is_heap ps_key (upq_pq q);
  qo_size : upq_currentSize q = sum_sizes (upq_pq q);
  qo_sizes : Forall (λ p, 0 ≤ ps_size p ≤ upq_MaxSize q) (upq_pq q);
  qo_hashes : upq_blockHashes q = list_to_set (ps_hash <$> upq_pq q);
  qo_nodup : NoDup (ps_hash <$> upq_pq q) }.
Record queue_inv q : Prop := {
  qi_ok : queue_ok q;
  qi_bound : upq_currentSize q ≤ upq_MaxSize q;
  (* twice the bound is no overflow *)
  qi_max : 0 ≤ upq_MaxSize q < 2 ^ 63 }.

Lemma sum_sizes_perm l k : l ≡ₚ k → sum_sizes l = sum_sizes k.
Proof. induction 1; cbn in *; lia. Qed.
Lemma sum_sizes_nonneg l m : Forall (λ p, 0 ≤ ps_size p ≤ m) l → 0 ≤ sum_sizes l.
Proof. induction 1; cbn in *; lia. Qed.

Lemma pop_ok q a l : queue_ok q → upq_pq q = a :: l → is_u64 (upq_currentSize q) →
  ∃ q', upq_Pop q = (Some (ps_envelope a), q') ∧ queue_ok q' ∧ upq_pq q' ≡ₚ l ∧
    upq_MaxSize q' = upq_MaxSize q ∧ upq_SizeFn q' = upq_SizeFn q ∧
    upq_currentSize q' = upq_currentSize q - ps_size a ∧ Forall (λ b, ps_key a ≤ ps_key b) l.
Proof.
  intros [Hh Hs Hz Hb Hn] Hq Hu. rewrite Hq in *.
  destruct (heap_Pop_spec ps_key a l Hh) as (l' & Hp & Hh' & Hperm & Hmin).
  unfold upq_Pop. rewrite Hq, Hp. eexists. split; [done|].
  apply Forall_cons in Hz as [Ha Hz]. pose proof (sum_sizes_nonneg _ _ Hz). cbn in Hs, Hn, Hb.
  apply NoDup_cons in Hn as [Hnin Hn].
  assert (Hw : upq_currentSize q -₆₄ ps_size a = sum_sizes l')
    by (rewrite (sum_sizes_perm _ _ Hperm), wrap_small; uint_lia).
  split_and!; try done; cbn; [|rewrite wrap_small; uint_lia].
  split; cbn; [done|exact Hw|by rewrite Hperm| |].
  - rewrite Hb. apply set_eq. intros x. rewrite elem_of_difference, elem_of_union, elem_of_singleton.
    rewrite !elem_of_list_to_set. fold (ps_hash a). rewrite Hperm. set_solver.
  - by rewrite Hperm.
Qed.

(** What a call drops has numbers that are not above those it keeps. *)
Definition lower (dropped kept : list payloadAndSize) : Prop :=
  ∀ d k, d ∈ dropped → k ∈ kept → ps_key d ≤ ps_key k.

(** The payloads of [l] after dropping some: the new one [e] is dropped exactly when the
    call fails. *)
Definition evicted (e : ExecutionPayloadEnvelope) (l : list payloadAndSize) (r : Res unit) q : Prop :=
  ∃ dropped, l ≡ₚ dropped ++ upq_pq q ∧ lower dropped (upq_pq q) ∧
    match r with
    | Ok _ => Forall (λ d, ps_hash d ≠ env_hash e) dropped
    | Err _ => Exists (λ d, ps_hash d = env_hash e) dropped
    | Panic _ => False
    end.

Lemma evicted_cons e a l l' r q :
  evicted e l' r q → l' ≡ₚ l → Forall (λ b, ps_key a ≤ ps_key b) l → ps_hash a ≠ env_hash e →
  evicted e (a :: l) r q.
Proof.
  intros (ds & Hp & Hlow & Hr) Hl Hmin Ha. exists (a :: ds). split_and!.
  - cbn. by rewrite <- Hl, Hp.
  - intros d k [->|Hd]%elem_of_cons Hk; [|by apply Hlow]. eapply Forall_forall in Hmin; [exact Hmin|].
    rewrite <- Hl, Hp. set_solver.
  - destruct r; [by constructor|by right|done].
Qed.

Lemma push_evict_spec fuel e s q :
  queue_ok q → 0 ≤ upq_MaxSize q < 2 ^ 63 → upq_currentSize q ≤ 2 * upq_MaxSize q →
  upq_currentSize q - s ≤ upq_MaxSize q → (∀ p, p ∈ upq_pq q → ps_hash p = env_hash e → ps_size p = s) →
  (length (upq_pq q) ≤ fuel)%nat →
  let '(r, q') := push_evict fuel e q in
  queue_inv q' ∧ upq_MaxSize q' = upq_MaxSize q ∧ evicted e (upq_pq q) r q'.
Proof.
  revert q. induction fuel as [|fuel IH]; intros q Hq Hm Hc Hs He Hf; cbn [push_evict];
    pose proof (qo_size q Hq) as Hsum; pose proof (sum_sizes_nonneg _ _ (qo_sizes q Hq)) as Hnn;
    (destruct (Z.ltb_spec (upq_MaxSize q) (upq_currentSize q)) as [Hlt|Hge];
      [|split_and!; [by split|done|exists []; split_and!; [done|intros d k Hd; by apply not_elem_of_nil in Hd|constructor]]]);
    destruct (upq_pq q) as [|a l] eqn:Hpq; [cbn in Hsum; lia|cbn in Hf; lia|cbn in Hsum; lia|].
  destruct (pop_ok q a l Hq Hpq) as (q' & -> & Hok & Hperm & Hmax & _ & Hcur & Hmin); [uint_unfold; lia|].
  assert (Ha : 0 ≤ ps_size a) by (pose proof (qo_sizes q Hq) as Hz; rewrite Hpq in Hz; inversion Hz; lia).
  case_bool_decide as Hae.
  - specialize (He a ltac:(set_solver) Hae). split_and!; [split; [done|lia..]|done|].
    exists [a]. split_and!; [by rewrite Hperm| |by constructor].
    intros d k ->%list_elem_of_singleton Hk. rewrite Hperm in Hk. by eapply Forall_forall in Hmin.
  - specialize (IH q' Hok ltac:(lia) ltac:(lia) ltac:(lia)).
    rewrite (Permutation_length Hperm) in IH.
    specialize (IH ltac:(intros p Hp; apply He; rewrite Hperm in Hp; set_solver) ltac:(cbn in Hf; lia)).
    destruct (push_evict fuel e q') as [r q2]. destruct IH as (Hinv & Hmax2 & Hev).
    split_and!; [done|congruence|]. by eapply evicted_cons.
Qed.

Lemma queue_push_ok (e : ExecutionPayloadEnvelope) q :
  queue_inv q → 0 ≤ upq_SizeFn q e →
  let '(r, q') := upq_Push (Some e) q in
  queue_inv q' ∧ upq_MaxSize q' = upq_MaxSize q ∧
  (env_hash e ∈ upq_blockHashes q ∨ upq_MaxSize q < upq_SizeFn q e → q' = q ∧ is_ok r = false) ∧
  (env_hash e ∉ upq_blockHashes q ∧ upq_SizeFn q e ≤ upq_MaxSize q →
     evicted e (mkPayloadAndSize e (upq_SizeFn q e) :: upq_pq q) r q').
Proof.
  intros Hq Hs. unfold upq_Push.
  case_bool_decide as Hdup; [split_and!; try done; naive_solver|].
  destruct (Z.ltb_spec (upq_MaxSize q) (upq_SizeFn q e)) as [Hbig|Hfit];
    [split_and!; try done; naive_solver lia|].
  destruct Hq as [[Hh Hsz Hz Hb Hn] Hbd Hm].
  set (x := mkPayloadAndSize e (upq_SizeFn q e)).
  destruct (heap_Push_spec ps_key x (upq_pq q) Hh) as [Hh' Hp].
  set (q1 := upq_set _ _ _ q).
  assert (Hnin : env_hash e ∉ ps_hash <$> upq_pq q) by (rewrite Hb in Hdup; set_solver).
  pose proof (sum_sizes_nonneg _ _ Hz).
  assert (Hq1 : queue_ok q1).
  { subst q1. unfold upq_set. split; cbn [upq_pq upq_currentSize upq_MaxSize upq_blockHashes];
      [done| |by rewrite Hp; constructor| |by rewrite Hp; constructor].
    - rewrite (sum_sizes_perm _ _ Hp). cbn [sum_sizes x ps_size]. rewrite wrap_small; uint_lia.
    - rewrite Hb, Hp. done. }
  assert (Hcur : upq_currentSize q1 = upq_currentSize q + upq_SizeFn q e) by (cbn; apply wrap_small; uint_lia).
  assert (Hm1 : upq_MaxSize q1 = upq_MaxSize q) by done.
  assert (Hin1 : upq_pq q1 = heap_Push ps_key x (upq_pq q)) by done. clearbody q1.
  pose proof (push_evict_spec (upq_Len q1) e (upq_SizeFn q e) q1 Hq1 ltac:(lia) ltac:(lia) ltac:(lia)) as Hev.
  specialize (Hev ltac:(rewrite Hin1; intros p Hin He; rewrite Hp in Hin; set_solver) ltac:(done)).
  rewrite Hin1 in Hev.
  destruct (push_evict _ e q1) as [r q']. destruct Hev as (Hinv & Hmax & ds & Hd & Hlow & Hr).
  split_and!; [done|lia|intros [?|?]; [done|lia]|]. intros _. exists ds. split_and!; [|done|done].
  by rewrite <- Hd, <- Hp.
Qed.

(** C25: adding an unsafe payload keeps the queue consistent: a heap by block number, with
    the recorded size, within the memory bound, and with the hashes of its payloads. The
    call never panics. It refuses nil, duplicate and oversized payloads without a change;
    otherwise it makes room by dropping payloads with the lowest block numbers only, and
    fails exactly when the new payload is among them. *)
Theorem push_spec (e : ExecutionPayloadEnvelope) q :
  queue_inv q → 0 ≤ upq_SizeFn q e →
  let '(r, q') := upq_Push (Some e) q in
  queue_inv q' ∧ upq_MaxSize q' = upq_MaxSize q ∧
  (env_hash e ∈ upq_blockHashes q ∨ upq_MaxSize q < upq_SizeFn q e → q' = q ∧ is_ok r = false) ∧
  (env_hash e ∉ upq_blockHashes q ∧ upq_SizeFn q e ≤ upq_MaxSize q →
     evicted e (mkPayloadAndSize e (upq_SizeFn q e) :: upq_pq q) r q').
Proof. apply queue_push_ok. Qed.

Lemma drop_loop_spec fuel unsafe safe q :
  queue_inv q → (length (upq_pq q) ≤ fuel)%nat →
  let q' := drop_loop fuel unsafe safe q in
  queue_inv q' ∧
  (∃ dropped, upq_pq q ≡ₚ dropped ++ upq_pq q' ∧
     Forall (λ d, inapplicable unsafe safe (env_ExecutionPayload (ps_envelope d)) = true) dropped) ∧
  (∀ next, upq_Peek q' = Some next → inapplicable unsafe safe (env_ExecutionPayload next) = false).
Proof.
  assert (Hstop : ∀ q, queue_inv q →
    (∀ next, upq_Peek q = Some next → inapplicable unsafe safe (env_ExecutionPayload next) = false) →
    queue_inv q ∧ (∃ dropped, upq_pq q ≡ₚ dropped ++ upq_pq q ∧
      Forall (λ d, inapplicable unsafe safe (env_ExecutionPayload (ps_envelope d)) = true) dropped) ∧
    (∀ next, upq_Peek q = Some next → inapplicable unsafe safe (env_ExecutionPayload next) = false)).
  { intros q1 Hq1 Hn. split_and!; [done| |done]. by exists []. }
  revert q. induction fuel as [|fuel IH]; intros q Hq Hf; cbn [drop_loop];
    (destruct (upq_Peek q) as [next|] eqn:Hpk; [|apply Hstop; [exact Hq|]; intros ? Hn; by rewrite Hpk in Hn]);
    pose proof Hpk as Hpk'; unfold upq_Peek in Hpk'; (destruct (upq_pq q) as [|a l] eqn:Hpq; [done|]);
    cbn in Hpk'; simplify_eq; [cbn in Hf; lia|]; rewrite <- Hpq.
  destruct (inapplicable _ _ _) eqn:Hin; [|apply Hstop; [exact Hq|]; rewrite Hpk; by intros ? [= <-]].
  destruct Hq as [Hok Hb Hm]. pose proof (qo_size q Hok) as Hsum.
  pose proof (sum_sizes_nonneg _ _ (qo_sizes q Hok)).
  destruct (pop_ok q a l Hok Hpq) as (q' & Hpop & Hok' & Hperm & Hmax & _ & Hcur & _); [uint_unfold; lia|].
  rewrite Hpop. cbn [snd].
  assert (Ha : 0 ≤ ps_size a) by (pose proof (qo_sizes q Hok) as Hz; rewrite Hpq in Hz; inversion Hz; lia).
  destruct (IH q') as (Hinv & (ds & Hd & Hall) & Hhead);
    [split; [done|lia..]|rewrite (Permutation_length Hperm); cbn in Hf; lia|].
  split_and!; [done| |done]. exists (a :: ds). split; [|by constructor].
  rewrite Hpq. cbn. by rewrite <- Hd, Hperm.
Qed.

(** A payload for the block after the unsafe head. *)
Definition extends (unsafe safe : L2BlockRef) (p : ExecutionPayload) : Prop :=
  l2_Number safe ≤ l2_Number unsafe ∧ ep_BlockNumber p = l2_Number unsafe + 1 ∧
  ep_ParentHash p = l2_Hash unsafe ∧ ep_BlockHash p ≠ l2_Hash unsafe.


Lemma pop_SizeFn q : upq_SizeFn (upq_Pop q).2 = upq_SizeFn q.
Proof. unfold upq_Pop. repeat case_match; done. Qed.
Lemma push_SizeFn e q : upq_SizeFn (upq_Push e q).2 = upq_SizeFn q.
Proof.
  assert (Hev : ∀ fuel x q, upq_SizeFn (push_evict fuel x q).2 = upq_SizeFn q).
  { clear. induction fuel as [|fuel IH]; intros x q; cbn [push_evict]; destruct (_ <? _); try done.
    pose proof (pop_SizeFn q) as Hp. destruct (upq_Pop q) as [[env|] q']; cbn in *; [|done].
    case_bool_decide; cbn; by rewrite ?IH. }
  destruct e as [e|]; cbn [upq_Push]; [|done]. case_bool_decide; [done|].
  destruct (_ <? _); [done|]. by rewrite Hev.
Qed.

(** Three payloads fit in the queue. *)
Module PayloadExample.
Definition payload (n : Z) (parent : byte) : ExecutionPayloadEnvelope :=
  mkEnvelope None (mkExecutionPayload (replicate 32 parent) zeroAddress [] [] [] [] n 30000000 0 1012 [] 0
    (be_bytes 32 n) [] None None None None).
Definition push (q : PayloadsQueue) (n : Z) : PayloadsQueue := (upq_Push (Some (payload n x01)) q).2.
Definition empty : PayloadsQueue := NewPayloadsQueue 3000 payloadMemSize.
Definition full : PayloadsQueue := foldl push empty [12; 10; 11].
Lemma empty_inv : queue_inv empty.
Proof. split; [|cbn; lia|cbn; lia]. split; cbn; [apply heap_nil|done|constructor|done|constructor]. Qed.
Lemma push_inv q n : queue_inv q ∧ upq_SizeFn q = payloadMemSize →
  queue_inv (push q n) ∧ upq_SizeFn (push q n) = payloadMemSize.
Proof.
  intros [Hq Hs]. unfold push. rewrite push_SizeFn. split; [|done].
  pose proof (queue_push_ok (payload n x01) q Hq) as Hp.
  destruct (upq_Push _ q) as [r q']. apply Hp. rewrite Hs. discriminate.
Qed.
Lemma full_inv : queue_inv full ∧ upq_SizeFn full = payloadMemSize.
Proof. apply push_inv, push_inv, push_inv. split; [exact empty_inv|reflexivity]. Qed.
End PayloadExample.

(** A fourth payload drops the lowest one; one below all of them is refused. *)
Lemma push_spec_witness :
  let '(r, q') := upq_Push (Some (PayloadExample.payload 13 x01)) PayloadExample.full in
  r = Ok () ∧ ps_key <$> upq_pq q' = [11; 12; 13] ∧ queue_inv q'.
Proof.
  pose proof (proj1 PayloadExample.full_inv) as Hf.
  pose proof (push_spec (PayloadExample.payload 13 x01) PayloadExample.full Hf) as Hp.
  destruct (upq_Push _ _) as [r q'] eqn:Hr. split_and!.
  - apply (f_equal fst) in Hr. cbn [fst] in Hr. rewrite <- Hr. vm_compute. reflexivity.
  - apply (f_equal snd) in Hr. cbn [snd] in Hr. rewrite <- Hr. vm_compute. reflexivity.
  - apply Hp. rewrite (proj2 PayloadExample.full_inv). discriminate.
Defined.

