(* ===== verification/Consolidate.v ===== *)
(** * Matching derived attributes against a block

    Models [op-node/rollup/attributes/engine_consolidate.go]: whether a block that the
    engine already has is the one that derived attributes would build. What the code only
    logs about a mismatch is left out. *)

From S2P Require Import Prelude GoBytes Errors Eth RollupConfig AttributesQueue Events.

(** The execution client library: EIP-1559 parameters in attributes and in the extra data
    of a block, and the root of an empty list of withdrawals. *)
Class EIP1559Lib := {
  ValidateHolocene1559Params : bytes → Res unit;
  DecodeHolocene1559Params : bytes → Z * Z;
  ValidateOptimismExtraData : Config → Z → bytes → Res unit;
  DecodeOptimismExtraData : Config → Z → bytes → Z * Z * option Z;
  EmptyWithdrawalsHash : Hash;
}.

Definition ErrCanyonMustHaveWithdrawals : error :=
  ErrorsNew "canyon: expected withdrawals in block to be non-nil and empty".
Definition ErrCanyonWithdrawalsRoot : error :=
  ErrorsNew "canyon: expected withdrawalsRoot in block to be default".
Definition ErrBedrockMustHaveEmptyWithdrawals : error :=
  ErrorsNew "bedrock: expected withdrawals in attributes to be nil".
Definition ErrIsthmusMustHaveWithdrawalsRoot : error :=
  ErrorsNew "isthmus: expected withdrawalsRoot in block to be non-nil".

Section consolidate.
Context `{EIP1559Lib}.
Implicit Types (cfg : Config) (attrs : PayloadAttributes) (block : ExecutionPayload).

Definition checkParentBeaconBlockRootMatch (attrRoot blockRoot : option Hash) : Res unit :=
  match blockRoot with
  | None =>
    match attrRoot with
    | Some _ => Err (ErrorsNew "expected non-nil parent beacon block root but got nil")
    | None => Ok ()
    end
  | Some b =>
    match attrRoot with
    | None => Err (ErrorsNew "expected nil parent beacon block root but got non-nil")
    | Some a =>
      if negb (bool_decide (b = a)) then Err (ErrorsNew "parent beacon block root does not match") else Ok ()
    end
  end.

Definition checkExtraDataParamsMatch cfg (blockTimestamp : Z) (attrParams : option bytes)
    (attrMinBaseFee : option Z) (blockExtraData : bytes) : Res unit :=
  match attrParams with
  | Some params =>
    _ ← map_err (Errorf "invalid attributes EIP1559 parameters") (ValidateHolocene1559Params params);
    let '(ad, ae) := DecodeHolocene1559Params params in
    '(ad, ae) ← (if ad =? 0 then
        match cfg_ChainOpConfig cfg with
        | None => Panic "nil optimism config"
        | Some op =>
          match EIP1559DenominatorCanyon op with
          | None => Panic "nil denominator"
          | Some d => Ok (d, EIP1559Elasticity op)
          end
        end
      else Ok (ad, ae));
    _ ← map_err (Errorf "invalid block extraData") (ValidateOptimismExtraData cfg blockTimestamp blockExtraData);
    let '(bd, be, bm) := DecodeOptimismExtraData cfg blockTimestamp blockExtraData in
    if negb (ad =? bd) || negb (ae =? be) then Err (ErrorsNew "eip1559 parameters do not match")
    else
      match bm, attrMinBaseFee with
      | None, None => Ok ()
      | Some b, Some a => if negb (b =? a) then Err (ErrorsNew "minBaseFee does not match") else Ok ()
      | _, _ => Err (ErrorsNew "minBaseFee does not match")
      end
  | None =>
    match blockExtraData with
    | [] => Ok ()
    | _ => Err (ErrorsNew "nil EIP1559Params in attributes but non-nil extraData in block")
    end
  end.

Definition checkWithdrawals cfg attrs block : Res unit :=
  let isCanyon := IsCanyon cfg (ep_Timestamp block) in
  let isIsthmus := IsIsthmus cfg (ep_Timestamp block) in
  _ ← (if isCanyon then
      if negb (bool_decide (ep_Withdrawals block = Some [])) then Err (Errorf "block" ErrCanyonMustHaveWithdrawals)
      else if negb (bool_decide (pa_Withdrawals attrs = Some [])) then
        Err (Errorf "attributes" ErrCanyonMustHaveWithdrawals)
      else if negb isIsthmus then
        match ep_WithdrawalsRoot block with
        | Some r =>
          if negb (bool_decide (r = EmptyWithdrawalsHash)) then Err (Errorf "got" ErrCanyonWithdrawalsRoot)
          else Ok ()
        | None => Ok ()
        end
      else Ok ()
    else
      match pa_Withdrawals attrs with
      | Some _ => Err (Errorf "got" ErrBedrockMustHaveEmptyWithdrawals)
      | None => Ok ()
      end);
  if isIsthmus then
    match ep_WithdrawalsRoot block with
    | None => Err ErrIsthmusMustHaveWithdrawalsRoot
    | Some _ => Ok ()
    end
  else Ok ().

(** The loop over the transactions. *)
Fixpoint txs_match (expected got : list Data) : Res unit :=
  match expected, got with
  | otx :: expected, tx :: got =>
    if negb (bool_decide (otx = tx)) then Err (ErrorsNew "transaction does not match") else txs_match expected got
  | [], _ => Ok ()
  | _ :: _, [] => Panic "index out of range"
  end.

Definition AttributesMatchBlock cfg attrs (parentHash : Hash) (envelope : ExecutionPayloadEnvelope) : Res unit :=
  let block := env_ExecutionPayload envelope in
  if negb (bool_decide (parentHash = ep_ParentHash block)) then Err (ErrorsNew "parent hash field does not match")
  else if negb (pa_Timestamp attrs =? ep_Timestamp block) then Err (ErrorsNew "timestamp field does not match")
  else if negb (bool_decide (pa_PrevRandao attrs = ep_PrevRandao block)) then
    Err (ErrorsNew "random field does not match")
  else if negb (length (pa_Transactions attrs) =? length (ep_Transactions block))%nat then
    Err (ErrorsNew "transaction count does not match")
  else
    _ ← txs_match (pa_Transactions attrs) (ep_Transactions block);
    _ ← match pa_GasLimit attrs with
        | None => Err (ErrorsNew "expected gaslimit in attributes to not be nil")
        | Some g => if negb (g =? ep_GasLimit block) then Err (ErrorsNew "gas limit does not match") else Ok ()
        end;
    _ ← checkWithdrawals cfg attrs block;
    _ ← checkParentBeaconBlockRootMatch (pa_ParentBeaconBlockRoot attrs) (env_ParentBeaconBlockRoot envelope);
    if negb (bool_decide (pa_SuggestedFeeRecipient attrs = ep_FeeRecipient block)) then
      Err (ErrorsNew "fee recipient data does not match")
    else
      checkExtraDataParamsMatch cfg (ep_Timestamp block) (pa_EIP1559Params attrs) (pa_MinBaseFee attrs)
        (ep_ExtraData block).

(** ** What a match means *)

(** The fee parameters that attributes ask for: zeros stand for the constants of the chain. *)
Definition asked_params cfg (params : bytes) : option (Z * Z) :=
  let '(d, e) := DecodeHolocene1559Params params in
  if d =? 0 then
    op ← cfg_ChainOpConfig cfg; c ← EIP1559DenominatorCanyon op; Some (c, EIP1559Elasticity op)
  else Some (d, e).

Definition extra_data_matches cfg attrs block : Prop :=
  match pa_EIP1559Params attrs with
  | None => ep_ExtraData block = []
  | Some params =>
    ValidateHolocene1559Params params = Ok () ∧
    ValidateOptimismExtraData cfg (ep_Timestamp block) (ep_ExtraData block) = Ok () ∧
    ∃ p, asked_params cfg params = Some p ∧
      DecodeOptimismExtraData cfg (ep_Timestamp block) (ep_ExtraData block) = (p, pa_MinBaseFee attrs)
  end.

Definition withdrawals_match cfg attrs block : Prop :=
  (if IsCanyon cfg (ep_Timestamp block)
   then ep_Withdrawals block = Some [] ∧ pa_Withdrawals attrs = Some [] ∧
     (IsIsthmus cfg (ep_Timestamp block) = false →
        ∀ r, ep_WithdrawalsRoot block = Some r → r = EmptyWithdrawalsHash)
   else pa_Withdrawals attrs = None) ∧
  (IsIsthmus cfg (ep_Timestamp block) = true → is_Some (ep_WithdrawalsRoot block)).

Record block_matches cfg attrs (parentHash : Hash) (envelope : ExecutionPayloadEnvelope) : Prop := {
  bm_parent : ep_ParentHash (env_ExecutionPayload envelope) = parentHash;
  bm_time : ep_Timestamp (env_ExecutionPayload envelope) = pa_Timestamp attrs;
  bm_random : ep_PrevRandao (env_ExecutionPayload envelope) = pa_PrevRandao attrs;
  bm_txs : ep_Transactions (env_ExecutionPayload envelope) = pa_Transactions attrs;
  bm_gas : pa_GasLimit attrs = Some (ep_GasLimit (env_ExecutionPayload envelope));
  bm_withdrawals : withdrawals_match cfg attrs (env_ExecutionPayload envelope);
  bm_root : env_ParentBeaconBlockRoot envelope = pa_ParentBeaconBlockRoot attrs;
  bm_recipient : ep_FeeRecipient (env_ExecutionPayload envelope) = pa_SuggestedFeeRecipient attrs;
  bm_extra : extra_data_matches cfg attrs (env_ExecutionPayload envelope) }.

Lemma txs_match_ok expected got :
  length expected = length got → txs_match expected got = Ok () ↔ got = expected.
Proof.
  revert got. induction expected as [|t l IH]; intros [|t' l'] Hl; cbn in *; try done.
  case_bool_decide; cbn; [|naive_solver]. rewrite IH by lia. naive_solver.
Qed.

Lemma beacon_root_ok a b : checkParentBeaconBlockRootMatch a b = Ok () ↔ b = a.
Proof. destruct a, b; cbn; try case_bool_decide; naive_solver. Qed.

Lemma withdrawals_ok cfg attrs block : checkWithdrawals cfg attrs block = Ok () ↔ withdrawals_match cfg attrs block.
Proof.
  unfold checkWithdrawals, withdrawals_match.
  destruct (IsCanyon _ _), (IsIsthmus _ _), (ep_WithdrawalsRoot block) as [r|]; cbn;
    repeat (case_bool_decide; cbn); destruct (pa_Withdrawals attrs); cbn; naive_solver.
Qed.

Lemma extra_data_ok cfg attrs block :
  checkExtraDataParamsMatch cfg (ep_Timestamp block) (pa_EIP1559Params attrs) (pa_MinBaseFee attrs)
    (ep_ExtraData block) = Ok () ↔ extra_data_matches cfg attrs block.
Proof.
  unfold checkExtraDataParamsMatch, extra_data_matches, asked_params.
  destruct (pa_EIP1559Params attrs) as [params|]; [|destruct (ep_ExtraData block); naive_solver].
  destruct (ValidateHolocene1559Params params) as [[]| |]; cbn; [|naive_solver..].
  destruct (DecodeHolocene1559Params params) as [d e].
  destruct (ValidateOptimismExtraData _ _ _) as [[]| |];
    destruct (d =? 0); cbn; destruct (cfg_ChainOpConfig cfg) as [op|]; cbn;
    try destruct (EIP1559DenominatorCanyon op); cbn;
    destruct (DecodeOptimismExtraData _ _ _) as [[bd be] bm]; cbn;
    repeat match goal with |- context [?a =? ?b] => destruct (Z.eqb_spec a b) end; cbn;
    destruct bm, (pa_MinBaseFee attrs); cbn;
    repeat match goal with |- context [?a =? ?b] => destruct (Z.eqb_spec a b) end; cbn; naive_solver.
Qed.

(** C13: a block of the engine is taken for the derived one exactly when it builds on the
    expected parent and agrees with the attributes in the time, randomness, all
    transactions in order, gas limit, withdrawals of its fork, beacon root, fee recipient
    and the fee parameters in its extra data. *)
Theorem attributes_match_iff cfg attrs parentHash envelope :
  AttributesMatchBlock cfg attrs parentHash envelope = Ok () ↔ block_matches cfg attrs parentHash envelope.
Proof.
  unfold AttributesMatchBlock.
  assert (Hsplit : ∀ (r : Res unit) k, (_ ← r; k) = Ok () ↔ r = Ok () ∧ k = Ok ()).
  { intros [[]| |] k; cbn; naive_solver. }
  case_bool_decide as Hp; cbn [negb]; [|split; [done|by intros []]].
  destruct (Z.eqb_spec (pa_Timestamp attrs) (ep_Timestamp (env_ExecutionPayload envelope))) as [Ht|Ht];
    cbn [negb]; [|split; [done|by intros []]].
  case_bool_decide as Hr; cbn [negb]; [|split; [done|intros []; congruence]].
  destruct (Nat.eqb_spec (length (pa_Transactions attrs)) (length (ep_Transactions (env_ExecutionPayload envelope))))
    as [Hl|Hl]; cbn [negb]; [|split; [done|intros []; congruence]].
  rewrite !Hsplit, txs_match_ok, withdrawals_ok, beacon_root_ok by done.
  case_bool_decide as Hf; cbn [negb]; [|split; [naive_solver|intros []; congruence]].
  rewrite extra_data_ok. split.
  - intros (? & Hg & ? & ? & ?). split; try done. destruct (pa_GasLimit attrs) as [g|]; [|done].
    destruct (Z.eqb_spec g (ep_GasLimit (env_ExecutionPayload envelope))); by subst.
  - intros []. split_and!; try done. rewrite bm_gas0. by rewrite Z.eqb_refl.
Qed.
End consolidate.
