(* ===== verification/AttributesHandler.v ===== *)
(** * Applying attributes to the engine

    Models [op-node/rollup/attributes/attributes.go]: the handler that holds the attributes
    derived last, and on every move of the pending safe head either consolidates the block
    the engine already has, starts to build one, or asks for new attributes. *)

From S2P Require Import Prelude GoBytes Errors Eth RollupConfig Geth SysConfig Deposits L1BlockInfo L1Traversal.
From S2P Require Import AttributesQueue Events Consolidate.

(** The [L2] interface of the handler. *)
Class L2Payloads (L2 : Type) := EnvelopeByNumber : L2 → Z → Res ExecutionPayloadEnvelope.

Record AttributesHandler := mkAttributesHandler {
  ah_attributes : option AttributesWithParent;
  ah_sentAttributes : bool }.
Implicit Type eq : AttributesHandler.
Definition ah_set_sent (b : bool) eq : AttributesHandler := mkAttributesHandler (ah_attributes eq) b.

Definition NewAttributesHandler : AttributesHandler := mkAttributesHandler None false.

(** What the handler puts out: events, and calls of the engine controller. *)
Inductive ah_out :=
| AhEmit (ev : Event)
| RequestPendingSafeUpdateCall
| TryUpdatePendingSafeCall (ref : L2BlockRef) (concluding : bool) (source : L1BlockRef)
| TryUpdateLocalSafeCall (ref : L2BlockRef) (concluding : bool) (source : L1BlockRef).
Abbreviation Ah := (Act ah_out AttributesHandler).
Definition ah_emit (ev : Event) : Ah unit := put_out (AhEmit ev).

Definition forceResetLocked : Ah unit := modify (λ _, mkAttributesHandler None false).

Section handler.
Context `{Geth} `{EIP1559Lib} {L2 : Type} `{L2Payloads L2}.
Context (cfg : Config) (l2 : L2).

Definition consolidateNextSafeAttributes (attributes : AttributesWithParent) (onto : L2BlockRef) : Ah unit :=
  match EnvelopeByNumber l2 (l2_Number (awp_Parent attributes) +₆₄ 1) with
  | Panic w => lift (Panic w)
  | Err e =>
    if is_NotFound e then
      ah_emit (ResetEvent (Errorf "expected engine was synced and had unsafe block to reconcile" e))
    else ah_emit (EngineTemporaryErrorEvent (Errorf "failed to get existing unsafe payload" e))
  | Ok envelope =>
    match AttributesMatchBlock cfg (awp_Attributes attributes) (l2_Hash onto) envelope with
    | Panic w => lift (Panic w)
    | Err _ =>
      _ ← modify (ah_set_sent true);
      ah_emit (BuildStartEvent attributes)
    | Ok () =>
      match PayloadToBlockRef cfg (env_ExecutionPayload envelope) with
      | Panic w => lift (Panic w)
      | Err _ => mret ()
      | Ok ref =>
        _ ← put_out (TryUpdatePendingSafeCall ref (awp_Concluding attributes) (awp_DerivedFrom attributes));
        put_out (TryUpdateLocalSafeCall ref (awp_Concluding attributes) (awp_DerivedFrom attributes))
      end
    end
  end.

Definition onPendingSafeUpdate (pendingSafe unsafe : L2BlockRef) : Ah unit :=
  if l2_Number unsafe <? l2_Number pendingSafe then
    ah_emit (ResetEvent (ErrorsNew "pending-safe label may not be ahead of unsafe head label"))
  else
    eq ← get;
    match ah_attributes eq with
    | None =>
      _ ← modify (ah_set_sent false);
      ah_emit (PipelineStepEvent pendingSafe)
    | Some attributes =>
      if negb (l2_Number (awp_Parent attributes) =? l2_Number pendingSafe) then
        _ ← modify (λ _, mkAttributesHandler None false);
        ah_emit (PipelineStepEvent pendingSafe)
      else if ah_sentAttributes eq then mret ()
      else if negb (bool_decide (awp_Parent attributes = pendingSafe)) then
        ah_emit (ResetEvent (ErrorsNew "pending safe head changed, conflicting with queued safe attributes"))
      else if l2_Number pendingSafe <? l2_Number unsafe then
        consolidateNextSafeAttributes attributes pendingSafe
      else
        _ ← modify (ah_set_sent true);
        ah_emit (BuildStartEvent attributes)
    end.

Definition AttributesHandler_OnEvent (ev : Event) : Ah bool :=
  match ev with
  | PendingSafeUpdateEvent pendingSafe unsafe => _ ← onPendingSafeUpdate pendingSafe unsafe; mret true
  | DerivedAttributesEvent attributes =>
    _ ← modify (λ _, mkAttributesHandler (Some attributes) false);
    _ ← ah_emit ConfirmReceivedAttributesEvent;
    _ ← put_out RequestPendingSafeUpdateCall;
    mret true
  | ResetEvent _ => _ ← forceResetLocked; mret true
  | EngineTemporaryErrorEvent _ => _ ← modify (ah_set_sent false); mret true
  | InvalidPayloadAttributesEvent attributes _ =>
    if negb (awp_IsDerived attributes) then mret true
    else
      _ ← modify (λ _, mkAttributesHandler None false);
      _ ← put_out RequestPendingSafeUpdateCall;
      mret true
  | PayloadSealExpiredErrorEvent _ _ _ derivedFrom =>
    if bool_decide (derivedFrom = zeroL1) then mret true
    else _ ← modify (ah_set_sent false); mret true
  | PayloadSealInvalidEvent _ _ _ derivedFrom =>
    if bool_decide (derivedFrom = zeroL1) then mret true
    else
      _ ← modify (λ _, mkAttributesHandler None false);
      _ ← put_out RequestPendingSafeUpdateCall;
      mret true
  | _ => mret false
  end.

(** ** Properties *)

(** The handler moves the pending safe head over the block [ref] of the engine. *)
Definition consolidates (attributes : AttributesWithParent) (pendingSafe ref : L2BlockRef) : Prop :=
  ∃ envelope, EnvelopeByNumber l2 (l2_Number pendingSafe +₆₄ 1) = Ok envelope ∧
    block_matches cfg (awp_Attributes attributes) (l2_Hash pendingSafe) envelope ∧
    PayloadToBlockRef cfg (env_ExecutionPayload envelope) = Ok ref.

(** Outputs that act on attributes, with what has to hold. *)
Definition sound_output eq (ev : Event) (o : ah_out) : Prop :=
  match o with
  | AhEmit (BuildStartEvent a) =>
    ah_attributes eq = Some a ∧ ah_sentAttributes eq = false ∧
    ∃ unsafe, ev = PendingSafeUpdateEvent (awp_Parent a) unsafe ∧ l2_Number (awp_Parent a) ≤ l2_Number unsafe
  | TryUpdatePendingSafeCall ref c source | TryUpdateLocalSafeCall ref c source =>
    ∃ a unsafe, ah_attributes eq = Some a ∧ c = awp_Concluding a ∧ source = awp_DerivedFrom a ∧
      ev = PendingSafeUpdateEvent (awp_Parent a) unsafe ∧ consolidates a (awp_Parent a) ref
  | _ => True
  end.

(** Computations whose outputs are sound, whatever they are used for. *)
Lemma out_bind {A B} (m : Ah A) (k : A → Ah B) (P : ah_out → Prop) eq :
  Forall P (act_out m eq) → (∀ a, act_res m eq = Ok a → Forall P (act_out (k a) (act_state m eq))) →
  Forall P (act_out (m ≫= k) eq).
Proof.
  act_run. destruct (m eq) as [[[a|e|w] s] out]; cbn; intros Hm Hk; [|done..].
  specialize (Hk a eq_refl). destruct (k a s) as [[r s'] out']. cbn in *. by apply Forall_app.
Qed.

Lemma consolidate_outputs attributes onto eq :
  l2_Number (awp_Parent attributes) = l2_Number onto →
  let m := consolidateNextSafeAttributes attributes onto in
  (act_out m eq = [AhEmit (BuildStartEvent attributes)] ∧ act_state m eq = ah_set_sent true eq) ∨
  act_state m eq = eq ∧
  ((∃ ev, act_out m eq = [AhEmit ev] ∧ ∀ a, ev ≠ BuildStartEvent a) ∨
   (∃ ref, consolidates attributes onto ref ∧
      act_out m eq = [TryUpdatePendingSafeCall ref (awp_Concluding attributes) (awp_DerivedFrom attributes);
                      TryUpdateLocalSafeCall ref (awp_Concluding attributes) (awp_DerivedFrom attributes)]) ∨
   act_out m eq = [] ∧ (is_panic (act_res m eq) = true ∨
     ∃ envelope e, EnvelopeByNumber l2 (l2_Number onto +₆₄ 1) = Ok envelope ∧
       block_matches cfg (awp_Attributes attributes) (l2_Hash onto) envelope ∧
       PayloadToBlockRef cfg (env_ExecutionPayload envelope) = Err e)).
Proof.
  intros Hn. unfold consolidateNextSafeAttributes. rewrite Hn.
  destruct (EnvelopeByNumber l2 _) as [env|e|w] eqn:He.
  2: { right. destruct (is_NotFound e); (split; [done|]); left; eexists; (split; [done|]); done. }
  2: { right. split; [done|]. right; right. split; [done|by left]. }
  destruct (AttributesMatchBlock cfg _ _ env) as [[]|e|w] eqn:Hm; [|by left|].
  2: { right. split; [done|]. right; right. split; [done|by left]. }
  apply attributes_match_iff in Hm. right.
  destruct (PayloadToBlockRef cfg _) as [ref|e|w] eqn:Hp; (split; [done|]); right.
  - left. exists ref. split; [by exists env|done].
  - right. split; [done|right]. by exists env, e.
  - right. split; [done|by left].
Qed.

Lemma true_out (m : Ah unit) (P : ah_out → Prop) eq :
  Forall P (act_out m eq) → Forall P (act_out (_ ← m; mret true) eq).
Proof. intros Hm. apply out_bind; [done|]. intros _ _. constructor. Qed.

Lemma pending_safe_sound pendingSafe unsafe eq :
  let m := onPendingSafeUpdate pendingSafe unsafe in
  Forall (sound_output eq (PendingSafeUpdateEvent pendingSafe unsafe)) (act_out m eq) ∧
  (∀ a, AhEmit (BuildStartEvent a) ∈ act_out m eq → act_state m eq = mkAttributesHandler (Some a) true).
Proof.
  unfold onPendingSafeUpdate. destruct (Z.ltb_spec (l2_Number unsafe) (l2_Number pendingSafe)).
  { split; [by repeat constructor|]. act_run. set_solver. }
  act_run. destruct (ah_attributes eq) as [a|] eqn:Ha; act_run;
    [|split; [by repeat constructor|set_solver]].
  destruct (Z.eqb_spec (l2_Number (awp_Parent a)) (l2_Number pendingSafe)) as [Hn|Hn]; act_run;
    [|split; [by repeat constructor|set_solver]].
  destruct (ah_sentAttributes eq) eqn:Hs; act_run; [split; [constructor|set_solver]|].
  case_bool_decide as Hp; act_run; [|split; [by repeat constructor|set_solver]].
  assert (Hbuild : sound_output eq (PendingSafeUpdateEvent pendingSafe unsafe) (AhEmit (BuildStartEvent a)))
    by (cbn; rewrite Hp; split_and!; eauto).
  destruct (Z.ltb_spec (l2_Number pendingSafe) (l2_Number unsafe)); act_run.
  2: { unfold ah_emit. act_run. split; [by apply Forall_singleton|]. unfold ah_set_sent. rewrite Ha. set_solver. }
  pose proof (consolidate_outputs a pendingSafe eq Hn) as Hc. revert Hc. act_run.
  destruct (consolidateNextSafeAttributes a pendingSafe eq) as [[r s'] out]. cbn.
  intros [[-> ->]|(-> & [(ev & -> & Hev)|[(ref & Href & ->)|[-> _]]])].
  - split; [by apply Forall_singleton|]. unfold ah_set_sent. rewrite Ha. set_solver.
  - split; [|set_solver]. repeat constructor. destruct ev; try done. by destruct (Hev attributes).
  - split; [|set_solver]. subst pendingSafe. repeat constructor; cbn; eauto 10.
  - split; [constructor|set_solver].
Qed.


(** C24: derivation does not stall here: a move of the pending safe head makes the handler
    ask for a step of the pipeline, start a build, move the safe heads or report an
    error, unless the attributes were sent already, or a block that matches them has no
    readable L1 info. *)
Theorem handler_progress pendingSafe unsafe eq :
  act_out (onPendingSafeUpdate pendingSafe unsafe) eq = [] →
  ah_sentAttributes eq = true ∨
  is_panic (act_res (onPendingSafeUpdate pendingSafe unsafe) eq) = true ∨
  ∃ a envelope e, ah_attributes eq = Some a ∧ EnvelopeByNumber l2 (l2_Number pendingSafe +₆₄ 1) = Ok envelope ∧
    block_matches cfg (awp_Attributes a) (l2_Hash pendingSafe) envelope ∧
    PayloadToBlockRef cfg (env_ExecutionPayload envelope) = Err e.
Proof.
  unfold onPendingSafeUpdate. destruct (_ <? _); [done|]. act_run.
  destruct (ah_attributes eq) as [a|] eqn:Ha; act_run; [|done].
  destruct (Z.eqb_spec (l2_Number (awp_Parent a)) (l2_Number pendingSafe)) as [Hn|Hn]; act_run; [|done].
  destruct (ah_sentAttributes eq) eqn:Hs; act_run; [by left|].
  case_bool_decide as Hp; act_run; [|done]. destruct (_ <? _); act_run; [|done].
  pose proof (consolidate_outputs a pendingSafe eq Hn) as Hc. revert Hc. act_run.
  destruct (consolidateNextSafeAttributes a pendingSafe eq) as [[r s'] out]. cbn.
  intros [[-> _]|(_ & [(ev & -> & _)|[(ref & _ & ->)|[-> [Hr|(env & e & Hx)]]]])]; try done; intros _; right.
  - by left.
  - right. by exists a, env, e.
Qed.
End handler.

Module HandlerExample.
#[global] Existing Instance GethExample.geth.
#[global] Instance lib : EIP1559Lib := {
  ValidateHolocene1559Params _ := Ok ();
  DecodeHolocene1559Params _ := (250, 6);
  ValidateOptimismExtraData _ _ _ := Ok ();
  DecodeOptimismExtraData _ _ _ := (250, 6, None);
  EmptyWithdrawalsHash := zeroHash }.
Inductive l2_node := L2Node.
#[global] Instance payloads : L2Payloads l2_node := λ _ _, Err (Sentinel SNotFound).
Definition parent : L2BlockRef := mkL2BlockRef zeroHash 7 zeroHash 0 zeroBlockID 0.
Definition attributes : AttributesWithParent :=
  mkAttributesWithParent (mkPayloadAttributes 0 [] zeroAddress None None [] true None None None) parent true zeroL1.
(** The attributes are with the engine already. *)
Definition waiting : AttributesHandler := mkAttributesHandler (Some attributes) true.
End HandlerExample.

Lemma handler_progress_witness :
  act_out (onPendingSafeUpdate ExampleConfig.cfg HandlerExample.L2Node HandlerExample.parent HandlerExample.parent)
    HandlerExample.waiting = [] ∧
  (ah_sentAttributes HandlerExample.waiting = true ∨ True).
Proof.
  split; [vm_compute; reflexivity|].
  destruct (handler_progress ExampleConfig.cfg HandlerExample.L2Node HandlerExample.parent HandlerExample.parent
    HandlerExample.waiting ltac:(vm_compute; reflexivity)) as [Hs|_]; [left; exact Hs|right; exact I].
Defined.
