(* ===== verification/Deriver.v ===== *)
(** * The pipeline as an event handler

    Models [op-node/rollup/derive/deriver.go]: steps of the pipeline on request, with the
    outcome reported as events, and at most one set of attributes on its way unless a
    deposits-only replacement is asked for. *)

From S2P Require Import Prelude GoBytes Errors Eth RollupConfig ChainSpec Geth SysConfig Deposits L1BlockInfo.
From S2P Require Import Commitment UpgradeTxs SpanBatchTxs SpanBatch Batches Frame Stages L1Traversal Attributes.
From S2P Require Import DataSource FrameQueue ChannelMux ChannelInReader BatchMux AttributesQueue Pipeline Events.

Section deriver.
Context `{Geth} `{NUTBundles} `{Decompress} `{TxLib} `{BatchRLP}.
Context {L : Type} `{L1Source L} {L2 : Type} `{L2Source L2} {D : Type} `{AltDALaws L D}.

Record PipelineDeriver := mkPipelineDeriver {
  pd_pipeline : DerivationPipeline (L:=L) (L2:=L2) (D:=D);
  pd_needAttributesConfirmation : bool }.
Implicit Type d : PipelineDeriver.
Abbreviation Pd := (Act Event PipelineDeriver).

Definition NewPipelineDeriver pipeline : PipelineDeriver := mkPipelineDeriver pipeline false.
Definition pd_set_need (b : bool) d : PipelineDeriver := mkPipelineDeriver (pd_pipeline d) b.
Definition ResetPipeline : Pd unit := modify (λ d, mkPipelineDeriver (dp_Reset (pd_pipeline d))
  (pd_needAttributesConfirmation d)).

(** A call of the pipeline; its error is looked at by the caller. *)
Definition on_pipeline {A} (f : DerivationPipeline → Res A * DerivationPipeline) : Pd (Res A) := λ d,
  let '(r, dp) := f (pd_pipeline d) in (Ok r, mkPipelineDeriver dp (pd_needAttributesConfirmation d), []).

Definition emitDerivedAttributesEvent (attrib : AttributesWithParent) : Pd unit :=
  _ ← modify (pd_set_need true);
  put_out (DerivedAttributesEvent attrib).

(** What a step reports. *)
Definition report_step (pendingSafe : L2BlockRef) (r : Res (option AttributesWithParent)) : Pd unit :=
  origin ← gets (λ d, dp_origin (pd_pipeline d));
  match r with
  | Panic w => lift (Panic w)
  | Err err =>
    if is_EOF err then
      _ ← put_out (DeriverIdleEvent origin);
      put_out (ExhaustedL1Event origin pendingSafe)
    else if errors_Is err (TSentinel SEngineELSyncing) then put_out (DeriverIdleEvent origin)
    else if errors_Is err (TLevel LevelReset) then put_out (ResetEvent err)
    else if errors_Is err (TLevel LevelTemporary) then put_out (EngineTemporaryErrorEvent err)
    else if errors_Is err (TLevel LevelCritical) then put_out (CriticalErrorEvent err)
    else if errors_Is err (TSentinel SNotEnoughData) then put_out DeriverMoreEvent
    else put_out (EngineTemporaryErrorEvent err)
  | Ok (Some attrib) => emitDerivedAttributesEvent attrib
  | Ok None => put_out DeriverMoreEvent
  end.

Definition onPipelineStep (pendingSafe : L2BlockRef) : Pd unit :=
  d ← get;
  if pd_needAttributesConfirmation d then mret ()
  else
    let preOrigin := dp_origin (pd_pipeline d) in
    r ← on_pipeline (λ dp, Step dp pendingSafe);
    match r with
    | Panic w => lift (Panic w)
    | _ =>
      postOrigin ← gets (λ d, dp_origin (pd_pipeline d));
      _ ← (if negb (bool_decide (preOrigin = postOrigin))
           then put_out (DeriverL1StatusEvent postOrigin pendingSafe) else mret ());
      report_step pendingSafe r
    end.

Definition onDepositsOnlyRequest (parent : BlockID) (derivedFrom : L1BlockRef) : Pd unit :=
  r ← on_pipeline (on_attrib (λ a, DepositsOnlyAttributes a parent derivedFrom));
  match r with
  | Panic w => lift (Panic w)
  | Err err => put_out (CriticalErrorEvent (Errorf "deriving deposits-only attributes" err))
  | Ok attrib => emitDerivedAttributesEvent attrib
  end.

(** Only the traversal that is managed from outside takes blocks. *)
Definition provide_l1 (nextL1 : L1BlockRef) (t : traversal L) : Res unit * traversal L :=
  match t with
  | Following t => (Ok (), Following t)
  | ManagedBySupervisor t => let '(r, t) := ProvideNextL1 t nextL1 in (r, ManagedBySupervisor t)
  end.
Definition onProvideL1Traversal (nextL1 : L1BlockRef) : Pd unit :=
  r ← on_pipeline (on_l1 (provide_l1 nextL1));
  match r with
  | Panic w => lift (Panic w)
  | Ok () => mret ()
  | Err err =>
    if errors_Is err (TLevel LevelReset) then put_out (ResetEvent err)
    else if errors_Is err (TLevel LevelTemporary) then put_out (L1TemporaryErrorEvent err)
    else if errors_Is err (TLevel LevelCritical) then put_out (CriticalErrorEvent err)
    else put_out (L1TemporaryErrorEvent err)
  end.

Definition PipelineDeriver_OnEvent (ev : Event) : Pd bool :=
  match ev with
  | PipelineStepEvent pendingSafe => _ ← onPipelineStep pendingSafe; mret true
  | ConfirmPipelineResetEvent =>
    _ ← modify (λ d, mkPipelineDeriver (ConfirmEngineReset (pd_pipeline d)) (pd_needAttributesConfirmation d));
    mret true
  | ConfirmReceivedAttributesEvent => _ ← modify (pd_set_need false); mret true
  | DepositsOnlyPayloadAttributesRequestEvent parent derivedFrom =>
    _ ← onDepositsOnlyRequest parent derivedFrom; mret true
  | ProvideL1Traversal nextL1 => _ ← onProvideL1Traversal nextL1; mret true
  | _ => mret false
  end.

(** ** Properties *)

(** Where attributes that are sent out come from. *)
Definition derived_by d (ev : Event) (a : AttributesWithParent) : Prop :=
  (∃ pendingSafe dp', ev = PipelineStepEvent pendingSafe ∧ pd_needAttributesConfirmation d = false ∧
     Step (pd_pipeline d) pendingSafe = (Ok (Some a), dp')) ∨
  (∃ parent derivedFrom aq', ev = DepositsOnlyPayloadAttributesRequestEvent parent derivedFrom ∧
     DepositsOnlyAttributes (dp_attrib (pd_pipeline d)) parent derivedFrom = (Ok a, aq')).

Lemma run_then_true (m : Pd unit) d :
  act_out (_ ← m; mret true) d = act_out m d ∧ act_state (_ ← m; mret true) d = act_state m d ∧
  is_panic (act_res (_ ← m; mret true) d) = is_panic (act_res m d).
Proof. act_run. destruct (m d) as [[[[]| |] s] out]; cbn; by rewrite ?app_nil_r. Qed.

(** A report is never empty, and sends attributes out only when the step returned them. *)
Lemma report_step_out pendingSafe r d :
  is_panic r = false →
  act_out (report_step pendingSafe r) d ≠ [] ∧
  (∀ a, DerivedAttributesEvent a ∈ act_out (report_step pendingSafe r) d →
     r = Ok (Some a) ∧ pd_needAttributesConfirmation (act_state (report_step pendingSafe r) d) = true).
Proof.
  intros Hp. unfold report_step, emitDerivedAttributesEvent.
  destruct r as [[a|]|e|w]; [..|done]; act_cases; (split; [done|set_solver]).
Qed.

(** A step that is not held back reports its outcome, after an optional status event. *)
Lemma onPipelineStep_run pendingSafe d r dp' :
  pd_needAttributesConfirmation d = false → Step (pd_pipeline d) pendingSafe = (r, dp') → is_panic r = false →
  ∃ status,
    act_out (onPipelineStep pendingSafe) d = status ++ act_out (report_step pendingSafe r) (mkPipelineDeriver dp' false) ∧
    act_state (onPipelineStep pendingSafe) d = act_state (report_step pendingSafe r) (mkPipelineDeriver dp' false) ∧
    Forall (λ ev, ∃ o, ev = DeriverL1StatusEvent o pendingSafe) status.
Proof.
  intros Hn Hs Hp.
  assert (Hrun : ∀ k : Pd unit, ∃ status,
    act_out (_ ← (if negb (bool_decide (dp_origin (pd_pipeline d) = dp_origin dp'))
      then put_out (DeriverL1StatusEvent (dp_origin dp') pendingSafe) else mret ()); k) (mkPipelineDeriver dp' false) = status ++ act_out k (mkPipelineDeriver dp' false) ∧
    act_state (_ ← (if negb (bool_decide (dp_origin (pd_pipeline d) = dp_origin dp'))
      then put_out (DeriverL1StatusEvent (dp_origin dp') pendingSafe) else mret ()); k) (mkPipelineDeriver dp' false) = act_state k (mkPipelineDeriver dp' false) ∧
    Forall (λ ev, ∃ o, ev = DeriverL1StatusEvent o pendingSafe) status).
  { intros k. case_bool_decide; cbn [negb]; [exists []|eexists [_]]; act_run;
      destruct (k (mkPipelineDeriver dp' false)) as [[? ?] ?]; (split_and!; [done|done|]).
    - constructor.
    - apply Forall_singleton. by eexists. }
  destruct (Hrun (report_step pendingSafe r)) as (status & Ho & Hst & Hf). exists status.
  rewrite <- Ho, <- Hst. clear Ho Hst Hrun. split_and!; [| |done]; unfold onPipelineStep, on_pipeline; act_run;
    rewrite Hn, Hs; destruct r; [..|done| | |done]; act_run; cbn [pd_pipeline]; rewrite ?Hn;
    (case_bool_decide; act_run; by destruct (report_step _ _ _) as [[[] ?] ?]).
Qed.

(** C27: the pipeline keeps one set of attributes in flight and never goes silent. While
    attributes are unconfirmed a step request does nothing; otherwise the step reports at
    least one event unless it panics. Attributes are sent out only as the result of a step
    that was not held back, or as the deposits-only replacement that was asked for, and
    then wait for their confirmation. *)
Theorem deriver_flow (ev : Event) d :
  (∀ pendingSafe, ev = PipelineStepEvent pendingSafe →
     if pd_needAttributesConfirmation d
     then PipelineDeriver_OnEvent ev d = (Ok true, d, [])
     else is_panic (act_res (PipelineDeriver_OnEvent ev) d) = true ∨ act_out (PipelineDeriver_OnEvent ev) d ≠ []) ∧
  (∀ a, DerivedAttributesEvent a ∈ act_out (PipelineDeriver_OnEvent ev) d →
     derived_by d ev a ∧
     pd_needAttributesConfirmation (act_state (PipelineDeriver_OnEvent ev) d) = true).
Proof.
  destruct ev; (split; [try done|]); cbn [PipelineDeriver_OnEvent]; try (act_run; set_solver);
    destruct (run_then_true (onPipelineStep pendingSafe) d) as (Ho & Hs & Hp) ||
    destruct (run_then_true (onProvideL1Traversal nextL1) d) as (Ho & Hs & Hp) ||
    destruct (run_then_true (onDepositsOnlyRequest parent derivedFrom) d) as (Ho & Hs & Hp);
    rewrite ?Ho, ?Hs, ?Hp; clear Ho Hs Hp.
  - unfold onProvideL1Traversal, on_pipeline. act_run. destruct (on_l1 _ _) as [[[]|e|w] dp']; act_cases; set_solver.
  - intros ps [= <-]. destruct (pd_needAttributesConfirmation d) eqn:Hn.
    { unfold onPipelineStep. act_run. by rewrite Hn. }
    destruct (Step (pd_pipeline d) pendingSafe) as [r dp'] eqn:Hs. destruct (is_panic r) eqn:Hp.
    + left. unfold onPipelineStep, on_pipeline. act_run. rewrite Hn, Hs. by destruct r.
    + right. destruct (onPipelineStep_run _ _ _ _ Hn Hs Hp) as (status & -> & _ & _).
      destruct (report_step_out pendingSafe r (mkPipelineDeriver dp' false) Hp) as [Hne _].
      intros [_ ?]%app_nil. done.
  - intros a. destruct (pd_needAttributesConfirmation d) eqn:Hn.
    { unfold onPipelineStep. act_run. rewrite Hn. set_solver. }
    destruct (Step (pd_pipeline d) pendingSafe) as [r dp'] eqn:Hs. destruct (is_panic r) eqn:Hp.
    { unfold onPipelineStep, on_pipeline. act_run. rewrite Hn, Hs. destruct r; [done..|]. act_run. set_solver. }
    destruct (onPipelineStep_run _ _ _ _ Hn Hs Hp) as (status & -> & -> & Hst).
    destruct (report_step_out pendingSafe r (mkPipelineDeriver dp' false) Hp) as [_ Hr].
    intros [Hin|Hin]%elem_of_app; [by eapply Forall_forall in Hst as [o ?]; [|exact Hin]|].
    apply Hr in Hin as [-> Hneed]. split; [|done]. left. by exists pendingSafe, dp'.
  - intros a. unfold onDepositsOnlyRequest, on_pipeline, on_attrib, emitDerivedAttributesEvent. act_run.
    destruct (DepositsOnlyAttributes _ parent derivedFrom) as [[x|e|w] aq'] eqn:Hd; act_run; [|set_solver..].
    intros [= ->]%list_elem_of_singleton. split; [|done]. right. by exists parent, derivedFrom, aq'.
Qed.
End deriver.
