(* ===== verification/EngineController.v ===== *)
(** * The engine controller

    Models [op-node/rollup/engine]: [engine_controller.go] and the handlers of
    [build_*.go], [payload_*.go] and [events.go], with the status errors of
    [op-service/eth/status.go]. The controller keeps the heads of the chain, tells the
    execution engine about them, and turns attributes and payloads into blocks. The lock
    that makes every call atomic, the context and the metrics are left out, and so are the
    log callbacks. *)

From S2P Require Import Prelude GoBytes GoHeap Errors Eth RollupConfig ChainSpec Geth SysConfig Deposits L1BlockInfo.
From S2P Require Import L1Traversal SyncStart AttributesQueue Events PayloadsQueue.

(** ** The execution engine *)

Inductive ExecutePayloadStatus :=
| ExecutionValid | ExecutionInvalid | ExecutionSyncing | ExecutionAccepted
| ExecutionInvalidBlockHash | ExecutionInvalidTerminalBlock | UnknownStatus (s : string).
#[export] Instance ExecutePayloadStatus_eq_dec : EqDecision ExecutePayloadStatus.
Proof. solve_decision. Defined.

Record ForkchoiceState := mkForkchoice {
  fc_HeadBlockHash : Hash; fc_SafeBlockHash : Hash; fc_FinalizedBlockHash : Hash }.
#[export] Instance ForkchoiceState_eq_dec : EqDecision ForkchoiceState.
Proof. solve_decision. Defined.
Definition zeroForkchoice : ForkchoiceState := mkForkchoice zeroHash zeroHash zeroHash.

Record ForkchoiceUpdatedResult := mkFcuResult {
  fr_Status : ExecutePayloadStatus; fr_PayloadID : option bytes }.

(** [ExecEngine]: calls of the engine API may change the engine, queries do not. *)
Class ExecEngine (E : Type) := {
  ee_chain :: L2Chain E;
  GetPayload : E → PayloadInfo → Res ExecutionPayloadEnvelope * E;
  ForkchoiceUpdate : E → ForkchoiceState → option PayloadAttributes → Res ForkchoiceUpdatedResult * E;
  NewPayload : E → ExecutionPayload → option Hash → Res ExecutePayloadStatus * E;
}.

(** [rollup.SuperAuthority] *)
Class SuperAuthority (A : Type) := {
  FullyVerifiedL2Head : A → BlockID * bool;
  FinalizedL2Head : A → BlockID * bool;
  IsDenied : A → Z → Hash → Res bool;
}.

(** Codes of the engine API. *)
Definition UnknownPayload : Z := -38001.
Definition InvalidForkchoiceState : Z := -38002.
Definition InvalidPayloadAttributes : Z := -38003.
Definition IsEngineError (c : Z) : bool := (-38100 <? c) && (c <=? -38000).

(** Not called for a valid status, where there is no error. *)
Definition ForkchoiceUpdateErr (s : ExecutePayloadStatus) : error :=
  match s with
  | ExecutionSyncing => ErrorsNew "updated forkchoice, but node is syncing"
  | ExecutionAccepted | ExecutionInvalidTerminalBlock | ExecutionInvalidBlockHash =>
    ErrorsNew "unexpected status, could not update forkchoice"
  | ExecutionInvalid => ErrorsNew "cannot update forkchoice, block is invalid"
  | ExecutionValid => ErrorsNew "nil"
  | UnknownStatus _ => ErrorsNew "unknown forkchoice status"
  end.
Definition NewPayloadErr (s : ExecutePayloadStatus) : error :=
  match s with
  | ExecutionValid => ErrorsNew "nil"
  | ExecutionSyncing => ErrorsNew "failed to execute payload, node is syncing"
  | ExecutionInvalid => ErrorsNew "execution payload was INVALID"
  | ExecutionInvalidBlockHash => ErrorsNew "execution payload has INVALID BLOCKHASH"
  | ExecutionInvalidTerminalBlock => ErrorsNew "engine is misconfigured"
  | ExecutionAccepted => ErrorsNew "execution payload cannot be validated yet"
  | UnknownStatus _ => ErrorsNew "unknown execution status"
  end.

(** ** State *)

Inductive syncStatusEnum :=
| syncStatusCL | syncStatusWillStartEL | syncStatusStartedEL | syncStatusFinishedELButNotFinalized
| syncStatusFinishedEL.
#[export] Instance syncStatusEnum_eq_dec : EqDecision syncStatusEnum.
Proof. solve_decision. Defined.

(** What does not change: the configuration and which other parts are attached. *)
Record EngineEnv (A : Type) := mkEngineEnv {
  en_rollupCfg : Config;
  en_syncCfg : SyncConfig;
  en_supervisorEnabled : bool;
  en_superAuthority : option A;
  en_attributesResetter : bool;
  en_pipelineResetter : bool;
  en_originSelectorResetter : bool;
  en_crossUpdateHandler : bool }.
Arguments en_rollupCfg {A}.
Arguments en_syncCfg {A}.
Arguments en_supervisorEnabled {A}.
Arguments en_superAuthority {A}.
Arguments en_attributesResetter {A}.
Arguments en_pipelineResetter {A}.
Arguments en_originSelectorResetter {A}.
Arguments en_crossUpdateHandler {A}.

Record Heads := mkEngineHeads {
  h_unsafeHead : L2BlockRef;
  h_crossUnsafeHead : L2BlockRef;
  h_pendingSafeHead : L2BlockRef;
  h_localSafeHead : L2BlockRef;
  h_localFinalizedHead : L2BlockRef;
  h_backupUnsafeHead : L2BlockRef;
  h_deprecatedSafeHead : L2BlockRef;
  h_deprecatedFinalizedHead : L2BlockRef }.

Record EngineController (E : Type) := mkEngineController {
  ec_engine : E;
  ec_heads : Heads;
  ec_syncStatus : syncStatusEnum;
  ec_lastForkchoice : ForkchoiceState;
  ec_needFCUCallForBackupUnsafeReorg : bool;
  ec_chainSpec : ChainSpec;
  ec_unsafePayloads : PayloadsQueue }.
Arguments mkEngineController {E}.
Arguments ec_engine {E}.
Arguments ec_heads {E}.
Arguments ec_syncStatus {E}.
Arguments ec_lastForkchoice {E}.
Arguments ec_needFCUCallForBackupUnsafeReorg {E}.
Arguments ec_chainSpec {E}.
Arguments ec_unsafePayloads {E}.

Definition maxUnsafePayloadsMemory : Z := 500 * 1024 * 1024.
Definition zeroHeads : Heads := mkEngineHeads zeroL2 zeroL2 zeroL2 zeroL2 zeroL2 zeroL2 zeroL2 zeroL2.
Definition NewEngineController {E A} (env : EngineEnv A) (engine : E) : EngineController E :=
  mkEngineController engine zeroHeads
    (if decide (sy_SyncMode (en_syncCfg env) = ELSync) then syncStatusWillStartEL else syncStatusCL)
    zeroForkchoice false (NewChainSpec (en_rollupCfg env))
    (NewPayloadsQueue maxUnsafePayloadsMemory payloadMemSize).

(** What the controller puts out: events, and calls of the other parts. *)
Inductive ec_out :=
| EcEmit (ev : Event)
| AttributesForceResetCall
| ResetPipelineCall
| ResetOriginsCall
| OnCrossUnsafeUpdateCall (crossUnsafe localUnsafe : L2BlockRef)
| OnCrossSafeUpdateCall (crossSafe localSafe : L2BlockRef)
| OnELSyncStartedCall.

Section controller.
Context `{Geth} {E : Type} `{ExecEngine E} {A : Type} `{SuperAuthority A} {L : Type} `{L1Source L}.
Context (env : EngineEnv A) (l1 : L).
Implicit Type e : EngineController E.
Abbreviation Ec := (Act ec_out (EngineController E)).

Definition ec_set_engine (x : E) e : EngineController E :=
  mkEngineController x (ec_heads e) (ec_syncStatus e) (ec_lastForkchoice e)
    (ec_needFCUCallForBackupUnsafeReorg e) (ec_chainSpec e) (ec_unsafePayloads e).
Definition ec_map_heads (f : Heads → Heads) e : EngineController E :=
  mkEngineController (ec_engine e) (f (ec_heads e)) (ec_syncStatus e) (ec_lastForkchoice e)
    (ec_needFCUCallForBackupUnsafeReorg e) (ec_chainSpec e) (ec_unsafePayloads e).
Definition ec_set_syncStatus (x : syncStatusEnum) e : EngineController E :=
  mkEngineController (ec_engine e) (ec_heads e) x (ec_lastForkchoice e)
    (ec_needFCUCallForBackupUnsafeReorg e) (ec_chainSpec e) (ec_unsafePayloads e).
Definition ec_set_lastForkchoice (x : ForkchoiceState) e : EngineController E :=
  mkEngineController (ec_engine e) (ec_heads e) (ec_syncStatus e) x
    (ec_needFCUCallForBackupUnsafeReorg e) (ec_chainSpec e) (ec_unsafePayloads e).
Definition ec_set_needFCU (x : bool) e : EngineController E :=
  mkEngineController (ec_engine e) (ec_heads e) (ec_syncStatus e) (ec_lastForkchoice e)
    x (ec_chainSpec e) (ec_unsafePayloads e).
Definition ec_set_chainSpec (x : ChainSpec) e : EngineController E :=
  mkEngineController (ec_engine e) (ec_heads e) (ec_syncStatus e) (ec_lastForkchoice e)
    (ec_needFCUCallForBackupUnsafeReorg e) x (ec_unsafePayloads e).
Definition ec_set_unsafePayloads (x : PayloadsQueue) e : EngineController E :=
  mkEngineController (ec_engine e) (ec_heads e) (ec_syncStatus e) (ec_lastForkchoice e)
    (ec_needFCUCallForBackupUnsafeReorg e) (ec_chainSpec e) x.

Definition ec_emit (ev : Event) : Ec unit := put_out (EcEmit ev).
Definition unsafeHead e : L2BlockRef := h_unsafeHead (ec_heads e).
Definition crossUnsafeHead e : L2BlockRef := h_crossUnsafeHead (ec_heads e).
Definition pendingSafeHead e : L2BlockRef := h_pendingSafeHead (ec_heads e).
Definition localSafeHead e : L2BlockRef := h_localSafeHead (ec_heads e).
Definition backupUnsafeHead e : L2BlockRef := h_backupUnsafeHead (ec_heads e).
Let follows : bool := en_supervisorEnabled env || FollowSourceEnabled (en_syncCfg env).

(** ** Heads *)

(** The block that the authority names, as far as it is safe locally. *)
Definition authority_head e (local : L2BlockRef) (answer : BlockID * bool) : Res L2BlockRef :=
  let '(id, useLocal) := answer in
  if (useLocal : bool) then Ok local
  else if bool_decide (id = zeroBlockID) then
    match chain_ByNumber (ec_engine e) 0 with
    | Ok br => Ok br
    | Err _ => Ok zeroL2
    | Panic w => Panic w
    end
  else if l2_Number (localSafeHead e) <? id_Number id then Ok (localSafeHead e)
  else
    match chain_ByHash (ec_engine e) (id_Hash id) with
    | Ok br => Ok br
    | Err _ => Panic "superAuthority supplied an identifier which is not known to the engine"
    | Panic w => Panic w
    end.
Definition SafeL2Head e : Res L2BlockRef :=
  match en_superAuthority env with
  | Some a => authority_head e (localSafeHead e) (FullyVerifiedL2Head a)
  | None => if follows then Ok (h_deprecatedSafeHead (ec_heads e)) else Ok (localSafeHead e)
  end.
Definition FinalizedHead e : Res L2BlockRef :=
  match en_superAuthority env with
  | Some a => authority_head e (h_localFinalizedHead (ec_heads e)) (FinalizedL2Head a)
  | None =>
    if follows then Ok (h_deprecatedFinalizedHead (ec_heads e)) else Ok (h_localFinalizedHead (ec_heads e))
  end.
Definition getSafe : Ec L2BlockRef := λ e, (SafeL2Head e, e, []).
Definition getFinalized : Ec L2BlockRef := λ e, (FinalizedHead e, e, []).

Definition SetFinalizedHead (r : L2BlockRef) : Ec unit := modify (ec_map_heads (λ h,
  mkEngineHeads (h_unsafeHead h) (h_crossUnsafeHead h) (h_pendingSafeHead h) (h_localSafeHead h) r
    (h_backupUnsafeHead h) (h_deprecatedSafeHead h) r)).
Definition SetPendingSafeL2Head (r : L2BlockRef) : Ec unit := modify (ec_map_heads (λ h,
  mkEngineHeads (h_unsafeHead h) (h_crossUnsafeHead h) r (h_localSafeHead h) (h_localFinalizedHead h)
    (h_backupUnsafeHead h) (h_deprecatedSafeHead h) (h_deprecatedFinalizedHead h))).
Definition SetLocalSafeHead (r : L2BlockRef) : Ec unit := modify (ec_map_heads (λ h,
  mkEngineHeads (h_unsafeHead h) (h_crossUnsafeHead h) (h_pendingSafeHead h) r (h_localFinalizedHead h)
    (h_backupUnsafeHead h) (h_deprecatedSafeHead h) (h_deprecatedFinalizedHead h))).
Definition SetSafeHead (r : L2BlockRef) : Ec unit := modify (ec_map_heads (λ h,
  mkEngineHeads (h_unsafeHead h) (h_crossUnsafeHead h) (h_pendingSafeHead h) (h_localSafeHead h)
    (h_localFinalizedHead h) (h_backupUnsafeHead h) r (h_deprecatedFinalizedHead h))).
Definition SetUnsafeHead (r : L2BlockRef) : Ec unit := modify (λ e,
  ec_set_chainSpec (CheckForkActivation (ec_chainSpec e) r) (ec_map_heads (λ h,
    mkEngineHeads r (h_crossUnsafeHead h) (h_pendingSafeHead h) (h_localSafeHead h) (h_localFinalizedHead h)
      (h_backupUnsafeHead h) (h_deprecatedSafeHead h) (h_deprecatedFinalizedHead h)) e)).
Definition SetCrossUnsafeHead (r : L2BlockRef) : Ec unit := modify (ec_map_heads (λ h,
  mkEngineHeads (h_unsafeHead h) r (h_pendingSafeHead h) (h_localSafeHead h) (h_localFinalizedHead h)
    (h_backupUnsafeHead h) (h_deprecatedSafeHead h) (h_deprecatedFinalizedHead h))).
Definition SetBackupUnsafeL2Head (r : L2BlockRef) (triggerReorg : bool) : Ec unit := modify (λ e,
  ec_set_needFCU triggerReorg (ec_map_heads (λ h,
    mkEngineHeads (h_unsafeHead h) (h_crossUnsafeHead h) (h_pendingSafeHead h) (h_localSafeHead h)
      (h_localFinalizedHead h) r (h_deprecatedSafeHead h) (h_deprecatedFinalizedHead h)) e)).

Definition onUnsafeUpdate (crossUnsafe localUnsafe : L2BlockRef) : Ec unit :=
  if en_crossUpdateHandler env then put_out (OnCrossUnsafeUpdateCall crossUnsafe localUnsafe) else mret ().
Definition onSafeUpdate (crossSafe localSafe : L2BlockRef) : Ec unit :=
  if en_crossUpdateHandler env then put_out (OnCrossSafeUpdateCall crossSafe localSafe) else mret ().

Definition requestForkchoiceUpdate : Ec unit :=
  e ← get;
  safe ← getSafe;
  finalized ← getFinalized;
  ec_emit (ForkchoiceUpdateEvent (unsafeHead e) safe finalized).

Definition isEngineInitialELSyncing e : bool :=
  bool_decide (ec_syncStatus e ∈ [syncStatusWillStartEL; syncStatusStartedEL; syncStatusFinishedELButNotFinalized]).

(** Calls of the engine; the caller looks at the error. *)
Definition call_engine {B} (f : E → Res B * E) : Ec (error + B) := λ e,
  let '(r, x) := f (ec_engine e) in
  match r with
  | Ok b => (Ok (inr b), ec_set_engine x e, [])
  | Err err => (Ok (inl err), ec_set_engine x e, [])
  | Panic w => (Panic w, ec_set_engine x e, [])
  end.
Definition query_engine {B} (f : E → Res B) : Ec (error + B) := call_engine (λ x, (f x, x)).

(** ** Status of answers *)

Let el_sync : bool := bool_decide (sy_SyncMode (en_syncCfg env) = ELSync).
(** A valid answer ends the sync of the engine. *)
Definition finish_el_sync (status : ExecutePayloadStatus) : Ec unit :=
  e ← get;
  if bool_decide (status = ExecutionValid) && bool_decide (ec_syncStatus e = syncStatusStartedEL)
  then modify (ec_set_syncStatus syncStatusFinishedELButNotFinalized) else mret ().
Definition checkNewPayloadStatus (status : ExecutePayloadStatus) : Ec bool :=
  if el_sync then
    _ ← finish_el_sync status;
    mret (bool_decide (status ∈ [ExecutionValid; ExecutionSyncing; ExecutionAccepted]))
  else if negb (sy_SyncModeReqResp (en_syncCfg env)) then
    mret (bool_decide (status ∈ [ExecutionValid; ExecutionSyncing]))
  else mret (bool_decide (status = ExecutionValid)).
Definition checkForkchoiceUpdatedStatus (status : ExecutePayloadStatus) : Ec bool :=
  if el_sync then
    _ ← finish_el_sync status;
    mret (bool_decide (status ∈ [ExecutionValid; ExecutionSyncing]))
  else mret (bool_decide (status = ExecutionValid)).

(** ** The forkchoice *)

(** Load what is not known from the engine. *)
Definition initializeUnknowns : Ec unit :=
  e ← get;
  _ ← (if bool_decide (unsafeHead e = zeroL2) then
      r ← query_engine (λ x, chain_ByLabel x UnsafeLabel);
      match r with
      | inl err => fail (Errorf "failed to load local-unsafe head" err)
      | inr ref => SetUnsafeHead ref
      end
    else mret ());
  finalized ← getFinalized;
  finalizedRef ← (if bool_decide (finalized = zeroL2) then
      r ← query_engine (λ x, chain_ByLabel x FinalizedLabel);
      match r with
      | inl err => fail (Errorf "failed to load finalized head" err)
      | inr ref => _ ← SetFinalizedHead ref; mret ref
      end
    else mret zeroL2);
  safe ← getSafe;
  _ ← (if bool_decide (safe = zeroL2) then
      r ← query_engine (λ x, chain_ByLabel x SafeLabel);
      match r with
      | inl err =>
        if is_NotFound err then SetSafeHead finalizedRef
        else fail (Errorf "failed to load cross-safe head" err)
      | inr ref => SetSafeHead ref
      end
    else mret ());
  e ← get;
  _ ← (if bool_decide (crossUnsafeHead e = zeroL2) then safe ← getSafe; SetCrossUnsafeHead safe else mret ());
  e ← get;
  if bool_decide (localSafeHead e = zeroL2) then safe ← getSafe; SetLocalSafeHead safe else mret ().

(** The severity of an error of a forkchoice update without attributes. *)
Definition forkchoice_error (inconsistent failed : string) (err : error) : error :=
  match errors_As_rpc err with
  | Some code =>
    if code =? InvalidForkchoiceState then NewResetError (Errorf inconsistent err)
    else NewTemporaryError (Errorf "unexpected error code in forkchoice-updated response" err)
  | None => NewTemporaryError (Errorf failed err)
  end.
Definition fcu_inconsistent : string := "forkchoice update was inconsistent with engine, need reset to resolve".
Definition fcu_failed : string := "failed to sync forkchoice with engine".

Definition tryUpdateEngineInternal : Ec unit :=
  i ← try initializeUnknowns;
  match i with
  | inl err => fail (NewTemporaryError (Errorf "cannot update engine until engine forkchoice is initialized" err))
  | inr _ =>
    e ← get;
    finalized ← getFinalized;
    if l2_Number (unsafeHead e) <? l2_Number finalized then
      let err := ErrorsNew "invalid forkchoice state, unsafe head is behind finalized head" in
      _ ← ec_emit (CriticalErrorEvent err);
      fail err
    else
      safe ← getSafe;
      let fc := mkForkchoice (l2_Hash (unsafeHead e)) (l2_Hash safe) (l2_Hash finalized) in
      if bool_decide (fc = ec_lastForkchoice e) then mret ()
      else
        r ← call_engine (λ x, ForkchoiceUpdate x fc None);
        match r with
        | inl err => fail (forkchoice_error fcu_inconsistent fcu_failed err)
        | inr fcRes =>
          _ ← modify (ec_set_lastForkchoice fc);
          _ ← (if bool_decide (fr_Status fcRes = ExecutionValid) then requestForkchoiceUpdate else mret ());
          e ← get;
          safe ← getSafe;
          if bool_decide (unsafeHead e = safe) && bool_decide (safe = pendingSafeHead e)
          then SetBackupUnsafeL2Head zeroL2 false else mret ()
        end
  end.

(** Report an error by its severity. *)
Definition report_error (unexpected : string) (err : error) : Ec unit :=
  if errors_Is err (TLevel LevelReset) then ec_emit (ResetEvent err)
  else if errors_Is err (TLevel LevelTemporary) then ec_emit (EngineTemporaryErrorEvent err)
  else ec_emit (CriticalErrorEvent (Errorf unexpected err)).
Definition tryUpdateEngine : Ec unit :=
  r ← try tryUpdateEngineInternal;
  match r with
  | inl err => report_error "unexpected tryUpdateEngine error type" err
  | inr _ => mret ()
  end.

(** ** Unsafe payloads *)

(** Decide once whether the engine syncs by itself; the result says whether the payload
    is left alone. *)
Definition start_el_sync : Ec bool :=
  e ← get;
  if negb (bool_decide (ec_syncStatus e = syncStatusWillStartEL)) then mret false
  else
    r ← query_engine (λ x, chain_ByLabel x FinalizedLabel);
    let notFound := match r with inl err => is_NotFound err | inr _ => false end in
    let b := match r with inl _ => zeroL2 | inr b => b end in
    let rollupGenesisIsFinalized := bool_decide (l2_Hash b = id_Hash (gen_L2 (cfg_Genesis (en_rollupCfg env)))) in
    if notFound || rollupGenesisIsFinalized || sy_SupportsPostFinalizationELSync (en_syncCfg env) then
      _ ← modify (ec_set_syncStatus syncStatusStartedEL);
      _ ← put_out OnELSyncStartedCall;
      mret false
    else
      match r with
      | inr _ => _ ← modify (ec_set_syncStatus syncStatusFinishedEL); mret true
      | inl err => fail (NewTemporaryError (Errorf "failed to fetch finalized head" err))
      end.

(** The block that is offset from the synced tip. *)
Definition offset_block (ref : L2BlockRef) : Ec L2BlockRef :=
  let target := OffsetBlockNum (sy_OffsetELSafe (en_syncCfg env)) (cfg_BlockTime (en_rollupCfg env))
                  (l2_Number ref) (id_Number (gen_L2 (cfg_Genesis (en_rollupCfg env)))) in
  if target <? l2_Number ref then
    r ← query_engine (λ x, chain_ByNumber x target);
    match r with
    | inl err => fail (NewTemporaryError (Errorf "EL sync offset-derived head" err))
    | inr d => mret d
    end
  else mret ref.

(** The engine finished its sync: take the heads from its tip, but never back. *)
Definition mark_el_synced (ref : L2BlockRef) (head : Hash) : Ec ForkchoiceState :=
  offsetRef ← offset_block ref;
  finalized ← getFinalized;
  let finalizedRef := if l2_Number offsetRef <? l2_Number finalized then finalized else offsetRef in
  safe ← getSafe;
  let safeRef := if l2_Number offsetRef <? l2_Number safe then safe else offsetRef in
  _ ← SetUnsafeHead ref;
  _ ← ec_emit (UnsafeUpdateEvent ref);
  _ ← SetLocalSafeHead safeRef;
  _ ← SetSafeHead safeRef;
  _ ← onSafeUpdate safeRef safeRef;
  _ ← SetFinalizedHead finalizedRef;
  mret (mkForkchoice head (l2_Hash safeRef) (l2_Hash finalizedRef)).

Definition insertUnsafePayload (envelope : ExecutionPayloadEnvelope) (ref : L2BlockRef) : Ec unit :=
  let payload := env_ExecutionPayload envelope in
  skip ← start_el_sync;
  if (skip : bool) then mret ()
  else
    r ← call_engine (λ x, NewPayload x payload (env_ParentBeaconBlockRoot envelope));
    match r with
    | inl err => fail (NewTemporaryError (Errorf "failed to update insert payload" err))
    | inr status =>
      _ ← (if bool_decide (status = ExecutionInvalid)
           then ec_emit (PayloadInvalidEvent envelope (NewPayloadErr status)) else mret ());
      ok ← checkNewPayloadStatus status;
      if negb ok then fail (NewTemporaryError (Errorf "cannot process unsafe payload" (NewPayloadErr status)))
      else
        safe ← getSafe;
        finalized ← getFinalized;
        e ← get;
        fc ← (if bool_decide (ec_syncStatus e = syncStatusFinishedELButNotFinalized)
              then mark_el_synced ref (ep_BlockHash payload)
              else mret (mkForkchoice (ep_BlockHash payload) (l2_Hash safe) (l2_Hash finalized)));
        r ← call_engine (λ x, ForkchoiceUpdate x fc None);
        match r with
        | inl err =>
          fail (forkchoice_error "pre-unsafe-block forkchoice update was inconsistent with engine, need reset to resolve"
            "failed to update forkchoice to prepare for new unsafe payload" err)
        | inr fcRes =>
          ok ← checkForkchoiceUpdatedStatus (fr_Status fcRes);
          if negb ok then
            fail (NewTemporaryError (Errorf "cannot prepare unsafe chain for new payload"
              (ForkchoiceUpdateErr (fr_Status fcRes))))
          else
            _ ← SetUnsafeHead ref;
            _ ← modify (ec_set_lastForkchoice fc);
            _ ← ec_emit (UnsafeUpdateEvent ref);
            e ← get;
            _ ← (if bool_decide (ec_syncStatus e = syncStatusFinishedELButNotFinalized)
                 then modify (ec_set_syncStatus syncStatusFinishedEL) else mret ());
            if bool_decide (fr_Status fcRes = ExecutionValid) then requestForkchoiceUpdate else mret ()
        end
    end.

Definition processUnsafePayload (envelope : ExecutionPayloadEnvelope) : Ec unit :=
  match PayloadToBlockRef (en_rollupCfg env) (env_ExecutionPayload envelope) with
  | Panic w => lift (Panic w)
  | Err _ => mret ()
  | Ok ref =>
    e ← get;
    if bool_decide (L2_ID ref = L2_ID (unsafeHead e)) then mret ()
    else
      r ← try (insertUnsafePayload envelope ref);
      match r with
      | inl err => report_error "unexpected InsertUnsafePayload error type" err
      | inr _ => mret ()
      end
  end.

Definition PeekUnsafePayload e : Res (option ExecutionPayloadEnvelope * L2BlockRef) :=
  match upq_Peek (ec_unsafePayloads e) with
  | None => Ok (None, zeroL2)
  | Some payload =>
    match PayloadToBlockRef (en_rollupCfg env) (env_ExecutionPayload payload) with
    | Ok ref => Ok (Some payload, ref)
    | Err _ => Ok (None, zeroL2)
    | Panic w => Panic w
    end
  end.

Definition onForkchoiceUpdate (unsafe safe : L2BlockRef) : Ec unit :=
  _ ← modify (λ e, ec_set_unsafePayloads (DropInapplicableUnsafePayloads unsafe safe (ec_unsafePayloads e)) e);
  next ← gets (λ e, upq_Peek (ec_unsafePayloads e));
  match next with
  | None => mret ()
  | Some envelope =>
    let p := env_ExecutionPayload envelope in
    if negb (bool_decide (ep_ParentHash p = l2_Hash unsafe)) || negb (ep_BlockNumber p =? l2_Number unsafe +₆₄ 1)
    then mret () else processUnsafePayload envelope
  end.

Definition AddUnsafePayload (envelope : option ExecutionPayloadEnvelope) : Ec unit :=
  match envelope with
  | None => mret ()
  | Some _ =>
    e ← get;
    let '(r, q) := upq_Push envelope (ec_unsafePayloads e) in
    _ ← modify (ec_set_unsafePayloads q);
    match r with
    | Panic w => lift (Panic w)
    | Err _ => mret ()
    | Ok () => requestForkchoiceUpdate
    end
  end.

(** Drop an invalid payload from the front of the queue. *)
Definition onInvalidPayload (envelope : ExecutionPayloadEnvelope) : Ec unit :=
  e ← get;
  match upq_Peek (ec_unsafePayloads e) with
  | Some peek =>
    if bool_decide (env_hash envelope = env_hash peek)
    then modify (ec_set_unsafePayloads (upq_Pop (ec_unsafePayloads e)).2) else mret ()
  | None => mret ()
  end.

(** ** The backup of the unsafe head *)

Definition shouldTryBackupUnsafeReorg : Ec bool :=
  e ← get;
  if negb (ec_needFCUCallForBackupUnsafeReorg e) then mret false
  else if isEngineInitialELSyncing e then mret false
  else if bool_decide (backupUnsafeHead e = zeroL2) then
    _ ← SetBackupUnsafeL2Head zeroL2 false; mret false
  else mret true.

(** Whether the engine was called, and the error. *)
Definition tryBackupUnsafeReorg : Ec (bool * option error) :=
  go ← shouldTryBackupUnsafeReorg;
  if negb go then mret (false, None)
  else
    _ ← modify (ec_set_needFCU false);
    e ← get;
    safe ← getSafe;
    finalized ← getFinalized;
    let fc := mkForkchoice (l2_Hash (backupUnsafeHead e)) (l2_Hash safe) (l2_Hash finalized) in
    r ← call_engine (λ x, ForkchoiceUpdate x fc None);
    match r with
    | inl err =>
      _ ← (if bool_decide (errors_As_rpc err = Some InvalidForkchoiceState)
           then SetBackupUnsafeL2Head zeroL2 false else modify (ec_set_needFCU true));
      mret (true, Some (forkchoice_error fcu_inconsistent fcu_failed err))
    | inr fcRes =>
      if bool_decide (fr_Status fcRes = ExecutionValid) then
        _ ← SetUnsafeHead (backupUnsafeHead e);
        _ ← SetBackupUnsafeL2Head zeroL2 false;
        _ ← modify (ec_set_lastForkchoice fc);
        _ ← requestForkchoiceUpdate;
        mret (true, None)
      else
        _ ← SetBackupUnsafeL2Head zeroL2 false;
        mret (true, Some (NewTemporaryError (Errorf "cannot restore unsafe chain using backupUnsafe"
          (ForkchoiceUpdateErr (fr_Status fcRes)))))
    end.

(** ** Moving the heads *)

Definition localSafeIsFullySafe (timestamp : Z) : bool := negb (IsInterop (en_rollupCfg env) timestamp) || negb follows.

Definition RequestPendingSafeUpdate : Ec unit :=
  e ← get;
  ec_emit (PendingSafeUpdateEvent (pendingSafeHead e) (unsafeHead e)).
Definition tryUpdatePendingSafe (ref : L2BlockRef) : Ec unit :=
  e ← get;
  if l2_Number (pendingSafeHead e) <? l2_Number ref then
    _ ← SetPendingSafeL2Head ref;
    RequestPendingSafeUpdate
  else mret ().
Definition tryUpdateLocalSafe (ref : L2BlockRef) (concluding : bool) (source : L1BlockRef) : Ec unit :=
  e ← get;
  if concluding && (l2_Number (localSafeHead e) <? l2_Number ref) then
    _ ← SetLocalSafeHead ref;
    ec_emit (LocalSafeUpdateEvent ref source)
  else mret ().
Definition tryUpdateUnsafe (ref : L2BlockRef) : Ec unit :=
  e ← get;
  _ ← (if l2_Number ref <=? l2_Number (unsafeHead e) then SetBackupUnsafeL2Head (unsafeHead e) false else mret ());
  _ ← SetUnsafeHead ref;
  ec_emit (UnsafeUpdateEvent ref).

Definition PromoteSafe (ref : L2BlockRef) (source : L1BlockRef) : Ec unit :=
  _ ← SetSafeHead ref;
  _ ← ec_emit (SafeDerivedEvent ref source);
  safe ← getSafe;
  e ← get;
  _ ← onSafeUpdate safe (localSafeHead e);
  if l2_Number (crossUnsafeHead e) <? l2_Number ref then
    _ ← SetCrossUnsafeHead ref;
    onUnsafeUpdate ref (unsafeHead e)
  else mret ().

Definition promoteFinalized (ref : L2BlockRef) : Ec unit :=
  finalized ← getFinalized;
  if l2_Number ref <? l2_Number finalized then mret ()
  else
    safe ← getSafe;
    if l2_Number safe <? l2_Number ref then mret ()
    else
      _ ← SetFinalizedHead ref;
      _ ← ec_emit (FinalizedUpdateEvent ref);
      tryUpdateEngine.

(** ** Resets *)

Definition ForceEngineReset (localUnsafe crossUnsafe localSafe crossSafe finalized : L2BlockRef) : Ec unit :=
  _ ← SetUnsafeHead localUnsafe;
  _ ← SetCrossUnsafeHead crossUnsafe;
  _ ← SetLocalSafeHead localSafe;
  _ ← SetPendingSafeL2Head localSafe;
  _ ← SetSafeHead crossSafe;
  _ ← SetFinalizedHead finalized;
  SetBackupUnsafeL2Head zeroL2 false.

Definition forceReset (localUnsafe crossUnsafe localSafe crossSafe finalized : L2BlockRef)
    (signalOnlySeq : bool) : Ec unit :=
  _ ← (if en_attributesResetter env then put_out AttributesForceResetCall else mret ());
  _ ← (if en_pipelineResetter env then put_out ResetPipelineCall else mret ());
  _ ← (if en_originSelectorResetter env then put_out ResetOriginsCall else mret ());
  _ ← ForceEngineReset localUnsafe crossUnsafe localSafe crossSafe finalized;
  _ ← (if en_pipelineResetter env then ec_emit ConfirmPipelineResetEvent else mret ());
  _ ← (if signalOnlySeq then
         e ← get; safe ← getSafe; finalized ← getFinalized;
         ec_emit (ForkchoiceUpdateInitEvent (unsafeHead e) safe finalized)
       else tryUpdateEngine);
  e ← get;
  safe ← getSafe;
  finalized ← getFinalized;
  ec_emit (EngineResetConfirmedEvent (unsafeHead e) (crossUnsafeHead e) (localSafeHead e) safe finalized).

Definition ForceReset (localUnsafe crossUnsafe localSafe crossSafe finalized : L2BlockRef) : Ec unit :=
  forceReset localUnsafe crossUnsafe localSafe crossSafe finalized false.

(** The search for the heads. The number of the unsafe head bounds its iterations when the
    sync start check is not skipped; a search that does not end is a call that does not
    return. *)
Definition find_heads : Ec (error + FindHeadsResult) :=
  e ← get;
  let fuel := match chain_ByLabel (ec_engine e) UnsafeLabel with
              | Ok b => S (Z.to_nat (l2_Number b)) | _ => 1%nat end in
  match FindL2Heads fuel (en_rollupCfg env) l1 (ec_engine e) (en_syncCfg env) with
  | None => lift (Panic "does not return")
  | Some (Panic w) => lift (Panic w)
  | Some (Err err) => mret (inl err)
  | Some (Ok r) => mret (inr r)
  end.
Definition reset_to (r : FindHeadsResult) (signalOnlySeq : bool) : Ec unit :=
  forceReset (fh_Unsafe r) (fh_Unsafe r) (fh_Safe r) (fh_Safe r) (fh_Finalized r) signalOnlySeq.
Definition onResetEngineRequest : Ec unit :=
  r ← find_heads;
  match r with
  | inl err => ec_emit (ResetEvent (Errorf "failed to find the L2 Heads to start from" err))
  | inr result => reset_to result false
  end.
Definition TryInitialResetEngineForSequencer : Ec unit :=
  e ← get;
  if negb (bool_decide (unsafeHead e = zeroL2)) then mret ()
  else
    r ← find_heads;
    match r with
    | inl _ => mret ()
    | inr result => reset_to result true
    end.

(** ** Building blocks *)

Inductive BlockInsertionErrType := BlockInsertTemporaryErr | BlockInsertPrestateErr | BlockInsertPayloadErr.

(** Start to build; an error comes with its type. *)
Definition startPayload (fc : ForkchoiceState) (attrs : PayloadAttributes)
    : Ec ((BlockInsertionErrType * error) + bytes) :=
  r ← call_engine (λ x, ForkchoiceUpdate x fc (Some attrs));
  match r with
  | inl err =>
    mret (inl
      match errors_As_rpc err with
      | Some code =>
        if code =? InvalidForkchoiceState then
          (BlockInsertPrestateErr, Errorf "pre-block-creation forkchoice update was inconsistent with engine" err)
        else if code =? InvalidPayloadAttributes then
          (BlockInsertPayloadErr, Errorf "payload attributes are not valid, cannot build block" err)
        else if IsEngineError code then
          (BlockInsertPrestateErr, Errorf "unexpected engine error code in forkchoice-updated response" err)
        else (BlockInsertTemporaryErr, Errorf "unexpected generic error code in forkchoice-updated response" err)
      | None => (BlockInsertTemporaryErr, Errorf "failed to create new block via forkchoice" err)
      end)
  | inr fcRes =>
    mret
      match fr_Status fcRes with
      | ExecutionInvalid | ExecutionInvalidBlockHash =>
        inl (BlockInsertPayloadErr, ForkchoiceUpdateErr (fr_Status fcRes))
      | ExecutionValid =>
        match fr_PayloadID fcRes with
        | None => inl (BlockInsertTemporaryErr, ErrorsNew "nil id in forkchoice result when expecting a valid ID")
        | Some id => inr id
        end
      | ExecutionSyncing => inl (BlockInsertTemporaryErr, ErrorsNew "engine is syncing")
      | s => inl (BlockInsertTemporaryErr, ForkchoiceUpdateErr s)
      end
  end.

Definition onBuildStart (attributes : AttributesWithParent) : Ec unit :=
  safe ← getSafe;
  finalized ← getFinalized;
  let parent := awp_Parent attributes in
  if l2_Number parent <? l2_Number finalized then
    ec_emit (CriticalErrorEvent (ErrorsNew "invalid block-building pre-state, unsafe head is behind finalized head"))
  else
    let fc := mkForkchoice (l2_Hash parent) (l2_Hash safe) (l2_Hash finalized) in
    r ← startPayload fc (awp_Attributes attributes);
    match r with
    | inl (BlockInsertTemporaryErr, err) =>
      ec_emit (EngineTemporaryErrorEvent (Errorf "temporarily cannot insert new safe block" err))
    | inl (BlockInsertPrestateErr, err) => ec_emit (ResetEvent (Errorf "need reset to resolve pre-state problem" err))
    | inl (BlockInsertPayloadErr, err) => ec_emit (BuildInvalidEvent attributes err)
    | inr id =>
      _ ← ec_emit (ForkchoiceUpdateEvent parent safe finalized);
      ec_emit (BuildStartedEvent (mkPayloadInfo id (pa_Timestamp (awp_Attributes attributes))) parent
                 (awp_Concluding attributes) (awp_DerivedFrom attributes))
    end.

Definition onBuildStarted (info : PayloadInfo) (concluding : bool) (derivedFrom : L1BlockRef) : Ec unit :=
  if negb (bool_decide (derivedFrom = zeroL1)) then ec_emit (BuildSealEvent info concluding derivedFrom)
  else mret ().

(** The index of the last of the leading deposits, zero if there is none. *)
Fixpoint lastDeposit_loop (i lst : nat) (txns : list Data) : Res nat :=
  match txns with
  | [] => Ok lst
  | tx :: txns =>
    match tx with
    | [] => Err (ErrorsNew "invalid transaction")
    | b :: _ => if bool_decide (b = DepositTxType) then lastDeposit_loop (S i) i txns else Ok lst
    end
  end.
Definition lastDeposit (txns : list Data) : Res nat := lastDeposit_loop 0 0 txns.

Fixpoint no_deposits (txns : list Data) : Res unit :=
  match txns with
  | [] => Ok ()
  | [] :: _ => Err (Errorf "failed to decode transaction" (ErrorsNew "empty transaction"))
  | (b :: _) :: txns =>
    if bool_decide (b = DepositTxType) then Err (ErrorsNew "deposit tx after other tx in l2 block")
    else no_deposits txns
  end.
Definition sanityCheckPayload (payload : ExecutionPayload) : Res unit :=
  match ep_Transactions payload with
  | [] => Err (ErrorsNew "no transactions in returned payload")
  | [] :: _ => Panic "index out of range"
  | (b :: _) :: _ =>
    if negb (bool_decide (b = DepositTxType)) then Err (ErrorsNew "first transaction was not deposit tx")
    else
      lst ← map_err (Errorf "failed to find last deposit") (lastDeposit (ep_Transactions payload));
      no_deposits (drop (S lst) (ep_Transactions payload))
  end.

Definition onBuildSeal (info : PayloadInfo) (concluding : bool) (derivedFrom : L1BlockRef) : Ec unit :=
  r ← call_engine (λ x, GetPayload x info);
  match r with
  | inl err =>
    ec_emit (PayloadSealExpiredErrorEvent info (Errorf "failed to seal execution payload" err) concluding derivedFrom)
  | inr envelope =>
    match sanityCheckPayload (env_ExecutionPayload envelope) with
    | Panic w => lift (Panic w)
    | Err err =>
      ec_emit (PayloadSealInvalidEvent info (Errorf "failed sanity-check of execution payload contents" err)
                 concluding derivedFrom)
    | Ok () =>
      match PayloadToBlockRef (en_rollupCfg env) (env_ExecutionPayload envelope) with
      | Panic w => lift (Panic w)
      | Err err =>
        ec_emit (PayloadSealInvalidEvent info (Errorf "failed to decode L2 block ref from payload" err)
                   concluding derivedFrom)
      | Ok ref => ec_emit (BuildSealedEvent info concluding derivedFrom envelope ref)
      end
    end
  end.

Definition onBuildSealed (concluding : bool) (derivedFrom : L1BlockRef) (envelope : ExecutionPayloadEnvelope)
    (ref : L2BlockRef) : Ec unit :=
  if negb (bool_decide (derivedFrom = zeroL1))
  then ec_emit (PayloadProcessEvent concluding derivedFrom envelope ref) else mret ().

Definition onBuildInvalid (attributes : AttributesWithParent) (err : error) : Ec unit :=
  if IsDepositsOnly (awp_Attributes attributes) then
    ec_emit (CriticalErrorEvent (Errorf "failed to process block with only deposit transactions" err))
  else if awp_IsDerived attributes && IsHolocene (en_rollupCfg env) (l1_Time (awp_DerivedFrom attributes)) then
    ec_emit (DepositsOnlyPayloadAttributesRequestEvent (L2_ID (awp_Parent attributes)) (awp_DerivedFrom attributes))
  else
    safe ← getSafe;
    _ ← SetPendingSafeL2Head safe;
    e ← get;
    _ ← SetBackupUnsafeL2Head (backupUnsafeHead e) true;
    ec_emit (InvalidPayloadAttributesEvent attributes err).

Definition onBuildCancel (info : PayloadInfo) (force : bool) : Ec unit :=
  r ← call_engine (λ x, GetPayload x info);
  match r with
  | inl err =>
    if bool_decide (errors_As_rpc err = Some UnknownPayload) then mret ()
    else if negb force then ec_emit (EngineTemporaryErrorEvent err) else mret ()
  | inr _ => mret ()
  end.

(** ** Processing blocks *)

Definition request_deposits_only (ref : L2BlockRef) (derivedFrom : L1BlockRef) : Ec unit :=
  ec_emit (DepositsOnlyPayloadAttributesRequestEvent (L2_ParentID ref) derivedFrom).

Definition onPayloadProcess (concluding : bool) (derivedFrom : L1BlockRef) (envelope : ExecutionPayloadEnvelope)
    (ref : L2BlockRef) : Ec unit :=
  let payload := env_ExecutionPayload envelope in
  let denied := match en_superAuthority env with
                | Some a => IsDenied a (ep_BlockNumber payload) (ep_BlockHash payload)
                | None => Ok false
                end in
  match denied with
  | Panic w => lift (Panic w)
  | Ok true =>
    if negb (bool_decide (derivedFrom = zeroL1)) then request_deposits_only ref derivedFrom else mret ()
  | _ =>
    r ← call_engine (λ x, NewPayload x payload (env_ParentBeaconBlockRoot envelope));
    match r with
    | inl err => ec_emit (EngineTemporaryErrorEvent (Errorf "failed to insert execution payload" err))
    | inr status =>
      match status with
      | ExecutionInvalid | ExecutionInvalidBlockHash =>
        if negb (bool_decide (derivedFrom = zeroL1)) && IsHolocene (en_rollupCfg env) (l1_Time derivedFrom)
        then request_deposits_only ref derivedFrom
        else ec_emit (PayloadInvalidEvent envelope (NewPayloadErr status))
      | ExecutionValid => ec_emit (PayloadSuccessEvent concluding derivedFrom envelope ref)
      | _ => ec_emit (EngineTemporaryErrorEvent (NewPayloadErr status))
      end
    end
  end.

Definition ReplaceBlockSource : L1BlockRef := mkL1BlockRef (replicate 32 xff) (2 ^ 64 - 1) zeroHash 0.

Definition onPayloadSuccess (concluding : bool) (derivedFrom : L1BlockRef) (envelope : ExecutionPayloadEnvelope)
    (ref : L2BlockRef) : Ec unit :=
  if bool_decide (derivedFrom = ReplaceBlockSource) then
    finalized ← getFinalized;
    _ ← forceReset ref ref ref ref finalized false;
    _ ← ec_emit (InteropReplacedBlockEvent (L2_BlockRef ref) envelope);
    tryUpdateEngine
  else
    _ ← tryUpdateUnsafe ref;
    _ ← (if negb (bool_decide (derivedFrom = zeroL1)) then
           _ ← tryUpdatePendingSafe ref;
           tryUpdateLocalSafe ref concluding derivedFrom
         else mret ());
    _ ← try tryUpdateEngineInternal;
    mret ().

(** ** Events *)

Definition EngineController_OnEvent (ev : Event) : Ec bool :=
  match ev with
  | UnsafeUpdateEvent ref =>
    _ ← (if localSafeIsFullySafe (l2_Time ref) then ec_emit (PromoteCrossUnsafeEvent ref) else mret ());
    _ ← tryUpdateEngine; mret true
  | PromoteCrossUnsafeEvent ref =>
    _ ← SetCrossUnsafeHead ref;
    e ← get;
    _ ← onUnsafeUpdate ref (unsafeHead e); mret true
  | LocalSafeUpdateEvent ref source =>
    _ ← (if localSafeIsFullySafe (l2_Time ref) then PromoteSafe ref source else mret ()); mret true
  | DeriverL1StatusEvent _ _ | DeriverIdleEvent _ => _ ← tryUpdateEngine; mret true
  | InteropInvalidateBlockEvent _ attributes => _ ← ec_emit (BuildStartEvent attributes); mret true
  | BuildStartEvent attributes => _ ← onBuildStart attributes; mret true
  | BuildStartedEvent info _ concluding derivedFrom => _ ← onBuildStarted info concluding derivedFrom; mret true
  | BuildSealEvent info concluding derivedFrom => _ ← onBuildSeal info concluding derivedFrom; mret true
  | BuildSealedEvent _ concluding derivedFrom envelope ref =>
    _ ← onBuildSealed concluding derivedFrom envelope ref; mret true
  | BuildInvalidEvent attributes err => _ ← onBuildInvalid attributes err; mret true
  | BuildCancelEvent info force => _ ← onBuildCancel info force; mret true
  | PayloadProcessEvent concluding derivedFrom envelope ref =>
    _ ← onPayloadProcess concluding derivedFrom envelope ref; mret true
  | PayloadSuccessEvent concluding derivedFrom envelope ref =>
    _ ← onPayloadSuccess concluding derivedFrom envelope ref; mret true
  | PayloadInvalidEvent envelope _ => _ ← onInvalidPayload envelope; mret true
  | ForkchoiceUpdateEvent unsafe safe _ => _ ← onForkchoiceUpdate unsafe safe; mret true
  | ResetEngineRequestEvent => _ ← onResetEngineRequest; mret true
  | _ => mret false
  end.

(** ** Following another node *)

Definition follow_external (updateUnsafe : bool) (eSafe eLocalSafe eFinalized : L2BlockRef) : Ec unit :=
  _ ← (if updateUnsafe then tryUpdateUnsafe eLocalSafe else mret ());
  _ ← tryUpdateLocalSafe eLocalSafe true zeroL1;
  e ← get;
  _ ← (if l2_Number (h_deprecatedSafeHead (ec_heads e)) <? l2_Number eSafe then PromoteSafe eSafe zeroL1 else mret ());
  finalized ← getFinalized;
  if l2_Number finalized <=? l2_Number eFinalized then promoteFinalized eFinalized else mret ().

Definition FollowSource (eSafe eLocalSafe eFinalized : L2BlockRef) : Ec unit :=
  e ← get;
  if l2_Number (unsafeHead e) <? l2_Number eLocalSafe then follow_external true eSafe eLocalSafe eFinalized
  else
    r ← query_engine (λ x, chain_ByNumber x (l2_Number eLocalSafe));
    match r with
    | inl err => if is_NotFound err then follow_external false eSafe eLocalSafe eFinalized else mret ()
    | inr fetchedSafe =>
      if bool_decide (fetchedSafe = eLocalSafe) then follow_external false eSafe eLocalSafe eFinalized
      else follow_external true eSafe eLocalSafe eFinalized
    end.

(** ** The RPC interface *)

Definition BuildErrCodeTemporary : Z := -40100.
Definition BuildErrCodePrestate : Z := -40101.
Definition BuildErrCodeInvalidInput : Z := -40110.
Definition BuildErrCodeUnknownPayload : Z := -40120.
Definition BuildErrCodeOther : Z := -40199.

Definition OpenBlock (parent : BlockID) (attrs : PayloadAttributes) : Ec PayloadInfo :=
  r ← query_engine (λ x, chain_ByHash x (id_Hash parent));
  match r with
  | inl err => fail (Errorf "failed to retrieve parent block from engine" err)
  | inr _ =>
    i ← try initializeUnknowns;
    match i with
    | inl err => fail (Errorf "failed to initialize forkchoice pre-state" err)
    | inr _ =>
      safe ← getSafe;
      finalized ← getFinalized;
      r ← startPayload (mkForkchoice (id_Hash parent) (l2_Hash safe) (l2_Hash finalized)) attrs;
      match r with
      | inl (BlockInsertTemporaryErr, _) => fail (RpcError BuildErrCodeTemporary)
      | inl (BlockInsertPrestateErr, _) => fail (RpcError BuildErrCodePrestate)
      | inl (BlockInsertPayloadErr, _) => fail (RpcError BuildErrCodePrestate)
      | inr id => mret (mkPayloadInfo id (pa_Timestamp attrs))
      end
    end
  end.

Definition getPayload_error (err : error) : error :=
  if bool_decide (errors_As_rpc err = Some UnknownPayload) then RpcError BuildErrCodeUnknownPayload
  else RpcError BuildErrCodeOther.
Definition CancelBlock (id : PayloadInfo) : Ec unit :=
  r ← call_engine (λ x, GetPayload x id);
  match r with inl err => fail (getPayload_error err) | inr _ => mret () end.
Definition SealBlock (id : PayloadInfo) : Ec ExecutionPayloadEnvelope :=
  r ← call_engine (λ x, GetPayload x id);
  match r with inl err => fail (getPayload_error err) | inr envelope => mret envelope end.

Definition CommitBlock (envelope : ExecutionPayloadEnvelope) : Ec unit :=
  match PayloadToBlockRef (en_rollupCfg env) (env_ExecutionPayload envelope) with
  | Panic w => lift (Panic w)
  | Err err => fail (Errorf "invalid payload" err)
  | Ok ref =>
    r ← call_engine (λ x, NewPayload x (env_ExecutionPayload envelope) (env_ParentBeaconBlockRoot envelope));
    match r with
    | inl err => fail (Errorf "failed to insert payload" err)
    | inr status =>
      if bool_decide (status ∈ [ExecutionInvalid; ExecutionInvalidBlockHash])
      then fail (RpcError BuildErrCodeInvalidInput)
      else
        _ ← SetUnsafeHead ref;
        _ ← ec_emit (UnsafeUpdateEvent ref);
        u ← try tryUpdateEngineInternal;
        match u with
        | inl err => fail (Errorf "failed to update engine forkchoice" err)
        | inr _ => mret ()
        end
    end
  end.
End controller.
