(* ===== verification/EngineInv.v ===== *)
(** * Properties of the engine controller

    The forkchoice that the engine was told, finality that never goes back, the shape of
    sealed blocks, and how the engine sync ends. *)

From S2P Require Import Prelude GoBytes GoHeap Errors Eth RollupConfig ChainSpec Geth SysConfig Deposits L1BlockInfo.
From S2P Require Import L1Traversal SyncStart AttributesQueue Events PayloadsQueue EngineController.

(** ** Sealed blocks *)

Definition starts_deposit (tx : Data) : Prop := head tx = Some DepositTxType.
Definition not_deposit (tx : Data) : Prop := tx ≠ [] ∧ head tx ≠ Some DepositTxType.

Lemma no_deposits_ok txs : no_deposits txs = Ok () ↔ Forall not_deposit txs.
Proof.
  induction txs as [|[|b tx] txs IH]; cbn; [done|..].
  - split; [done|]. intros [[] _]%Forall_cons. done.
  - rewrite Forall_cons. unfold not_deposit at 1. cbn. case_bool_decide; [|rewrite IH; naive_solver].
    subst. naive_solver.
Qed.

(** From a list of deposits on, the loop goes to the end of the leading deposits. *)
Lemma lastDeposit_loop_deposits deps rest i lst :
  Forall starts_deposit deps → (∀ tx txs, rest = tx :: txs → not_deposit tx) →
  lastDeposit_loop i lst (deps ++ rest) = Ok (match deps with [] => lst | _ => (i + length deps - 1)%nat end).
Proof.
  intros Hd Hr. revert i lst. induction Hd as [|tx deps Htx Hd IH]; intros i lst; cbn.
  - destruct rest as [|[|b tx] txs]; cbn; [done|by destruct (Hr _ _ eq_refl)|].
    destruct (Hr _ _ eq_refl) as [_ Hb]. cbn in Hb. by rewrite bool_decide_eq_false_2 by congruence.
  - destruct tx as [|b tx]; [done|]. unfold starts_deposit in Htx. cbn in Htx. simplify_eq.
    rewrite bool_decide_eq_true_2 by done. rewrite IH. f_equal. destruct deps; cbn; lia.
Qed.

Lemma lastDeposit_loop_empty deps rest i lst :
  Forall starts_deposit deps → lastDeposit_loop i lst (deps ++ [] :: rest) = Err (ErrorsNew "invalid transaction").
Proof.
  intros Hd. revert i lst. induction Hd as [|tx deps Htx Hd IH]; intros i lst; cbn; [done|].
  destruct tx as [|b tx]; [done|]. unfold starts_deposit in Htx. cbn in Htx. simplify_eq.
  by rewrite bool_decide_eq_true_2.
Qed.

(** Any list is deposits first, then something else. *)
Lemma leading_deposits (txs : list Data) :
  ∃ deps rest, txs = deps ++ rest ∧ Forall starts_deposit deps ∧
    ∀ tx txs', rest = tx :: txs' → ¬ starts_deposit tx.
Proof.
  induction txs as [|tx txs (deps & rest & -> & Hd & Hr)]; [by exists [], []|].
  destruct (decide (starts_deposit tx)) as [Htx|Htx].
  - exists (tx :: deps), rest. split_and!; [done|by constructor|done].
  - exists [], (tx :: deps ++ rest). split_and!; [done|constructor|naive_solver].
Qed.

(** C28: a block that the engine sealed passes the check exactly when it is not empty and
    consists of deposits first, at least one, and then of other, non-empty
    transactions only. *)
Theorem sanity_check_iff payload :
  sanityCheckPayload payload = Ok () ↔
  ∃ deps rest, ep_Transactions payload = deps ++ rest ∧ deps ≠ [] ∧
    Forall starts_deposit deps ∧ Forall not_deposit rest.
Proof.
  unfold sanityCheckPayload, lastDeposit. split.
  - destruct (leading_deposits (ep_Transactions payload)) as (deps & rest & Htx & Hd & Hr). rewrite Htx.
    intros Hok. exists deps, rest. destruct deps as [|d deps].
    { cbn in Hok. destruct rest as [|[|b tx] txs]; [done..|]. case_bool_decide; [|done]. subst.
      by destruct (Hr _ _ eq_refl). }
    split_and!; [done..|]. apply no_deposits_ok.
    assert (Hrest : ∀ tx txs, rest = tx :: txs → not_deposit tx).
    { intros tx txs ->. split; [|by eapply Hr]. intros ->. revert Hok. pose proof Hd as [Hd0 _]%Forall_cons.
      destruct d as [|b d]; [done|]. rewrite lastDeposit_loop_empty by done. cbn. by destruct (negb _). }
    revert Hok. rewrite lastDeposit_loop_deposits by done. cbn [map_err mbind res_bind].
    replace (S (0 + length (d :: deps) - 1)) with (length (d :: deps)) by (cbn; lia).
    rewrite drop_app_length. pose proof Hd as [Hd0 _]%Forall_cons.
    destruct d as [|b d]; [done|]. cbn [app]. by destruct (negb _).
  - intros (deps & rest & -> & Hne & Hd & Hr). destruct deps as [|d deps]; [done|].
    rewrite lastDeposit_loop_deposits by (done || intros tx txs ->; by apply Forall_cons in Hr as [? _]).
    cbn [map_err mbind res_bind]. replace (S (0 + length (d :: deps) - 1)) with (length (d :: deps)) by (cbn; lia).
    rewrite drop_app_length. apply Forall_cons in Hd as [Hd0 _]. destruct d as [|b d]; [done|].
    unfold starts_deposit in Hd0. cbn in Hd0. simplify_eq. cbn [app].
    rewrite bool_decide_eq_true_2 by done. cbn [negb]. by apply no_deposits_ok.
Qed.

Section engine.
Context `{Geth} {E : Type} `{ExecEngine E} {A : Type} `{SuperAuthority A} {L : Type} `{L1Source L}.
Context (env : EngineEnv A) (l1 : L).
Implicit Type e : EngineController E.
Abbreviation Ec := (Act ec_out (EngineController E)).

(** ** The forkchoice without a super authority *)

Hypothesis no_authority : en_superAuthority env = None.

Definition safe_of e : L2BlockRef :=
  if en_supervisorEnabled env || FollowSourceEnabled (en_syncCfg env)
  then h_deprecatedSafeHead (ec_heads e) else localSafeHead e.
Definition finalized_of e : L2BlockRef :=
  if en_supervisorEnabled env || FollowSourceEnabled (en_syncCfg env)
  then h_deprecatedFinalizedHead (ec_heads e) else h_localFinalizedHead (ec_heads e).
Lemma SafeL2Head_of e : SafeL2Head env e = Ok (safe_of e).
Proof using no_authority. unfold SafeL2Head, safe_of. rewrite no_authority. by case_match. Qed.
Lemma FinalizedHead_of e : FinalizedHead env e = Ok (finalized_of e).
Proof using no_authority. unfold FinalizedHead, finalized_of. rewrite no_authority. by case_match. Qed.
Lemma getSafe_of e : getSafe env e = (Ok (safe_of e), e, []).
Proof using no_authority. unfold getSafe. by rewrite SafeL2Head_of. Qed.
Lemma getFinalized_of e : getFinalized env e = (Ok (finalized_of e), e, []).
Proof using no_authority. unfold getFinalized. by rewrite FinalizedHead_of. Qed.

(** All heads are set. *)
Definition heads_known e : Prop :=
  unsafeHead e ≠ zeroL2 ∧ finalized_of e ≠ zeroL2 ∧ safe_of e ≠ zeroL2 ∧
  crossUnsafeHead e ≠ zeroL2 ∧ localSafeHead e ≠ zeroL2.
(** The engine was told the heads. *)
Definition engine_told e : Prop :=
  ec_lastForkchoice e = mkForkchoice (l2_Hash (unsafeHead e)) (l2_Hash (safe_of e)) (l2_Hash (finalized_of e)).

Lemma initialize_known e : heads_known e → initializeUnknowns env e = (Ok (), e, []).
Proof using no_authority.
  intros (Hu & Hf & Hs & Hc & Hl). unfold initializeUnknowns. act_run.
  rewrite (bool_decide_eq_false_2 (unsafeHead e = _)) by done. act_run.
  rewrite getFinalized_of. act_run. rewrite (bool_decide_eq_false_2 (finalized_of e = _)) by done. act_run.
  rewrite getSafe_of. act_run. rewrite (bool_decide_eq_false_2 (safe_of e = _)) by done. act_run.
  rewrite (bool_decide_eq_false_2 (crossUnsafeHead e = _)) by done. act_run.
  by rewrite (bool_decide_eq_false_2 (localSafeHead e = _)) by done.
Qed.

Lemma request_known e :
  requestForkchoiceUpdate env e =
    (Ok (), e, [EcEmit (ForkchoiceUpdateEvent (unsafeHead e) (safe_of e) (finalized_of e))]).
Proof using no_authority.
  unfold requestForkchoiceUpdate. act_run. rewrite getSafe_of. act_run. by rewrite getFinalized_of.
Qed.

(** The update of an engine that knows the heads. *)
Lemma update_told e : heads_known e → engine_told e → l2_Number (finalized_of e) ≤ l2_Number (unsafeHead e) →
  tryUpdateEngineInternal env e = (Ok (), e, []).
Proof using no_authority.
  intros Hk Ht Hn. unfold tryUpdateEngineInternal, try. act_run. rewrite initialize_known by done. act_run.
  rewrite getFinalized_of. act_run. rewrite (proj2 (Z.ltb_ge _ _) Hn). act_run.
  rewrite getSafe_of. act_run. by rewrite bool_decide_eq_true_2.
Qed.

Lemma update_tells e : heads_known e → act_res (tryUpdateEngineInternal env) e = Ok () →
  let e' := act_state (tryUpdateEngineInternal env) e in
  unsafeHead e' = unsafeHead e ∧ safe_of e' = safe_of e ∧ finalized_of e' = finalized_of e ∧
  heads_known e' ∧ engine_told e' ∧ l2_Number (finalized_of e) ≤ l2_Number (unsafeHead e).
Proof using no_authority.
  intros Hk. unfold tryUpdateEngineInternal, try. act_run. rewrite initialize_known by done. act_run.
  rewrite getFinalized_of. act_run.
  destruct (Z.ltb_spec (l2_Number (unsafeHead e)) (l2_Number (finalized_of e))) as [|Hn]; act_run; [done|].
  rewrite getSafe_of. act_run. case_bool_decide as Hfc; act_run; [intros _; by split_and!|].
  unfold call_engine. destruct (ForkchoiceUpdate (ec_engine e) _ _) as [[fcRes|err|w] x]; act_run; [|done..].
  destruct (bool_decide (fr_Status fcRes = ExecutionValid)) eqn:Hv; act_run;
    [rewrite request_known; act_run|]; rewrite getSafe_of; act_run;
    (destruct (bool_decide _ && bool_decide _) eqn:Hb; act_run; intros _; by split_and!).
Qed.


(** A controller that neither follows another node nor is supervised loads the safe block
    of the engine and then keeps it where it is not read: its safe head and its local safe
    head are still unknown afterwards. *)
Lemma initial_safe_lost e u s f :
  en_supervisorEnabled env || FollowSourceEnabled (en_syncCfg env) = false → ec_heads e = zeroHeads →
  chain_ByLabel (ec_engine e) UnsafeLabel = Ok u → chain_ByLabel (ec_engine e) SafeLabel = Ok s →
  chain_ByLabel (ec_engine e) FinalizedLabel = Ok f →
  let e' := act_state (initializeUnknowns env) e in
  act_res (initializeUnknowns env) e = Ok () ∧ h_deprecatedSafeHead (ec_heads e') = s ∧
  safe_of e' = zeroL2 ∧ localSafeHead e' = zeroL2 ∧ crossUnsafeHead e' = zeroL2.
Proof using no_authority.
  intros Hd Hz Hu Hs Hf. destruct e as [x h st fc need cs q]. cbn in *. subst h.
  unfold initializeUnknowns, query_engine, call_engine, getSafe, getFinalized, SafeL2Head, FinalizedHead, safe_of.
  rewrite no_authority, Hd. act_run. cbn.
  assert (Hzz : bool_decide (zeroL2 = zeroL2) = true) by done.
  by repeat (rewrite ?Hzz, ?Hu, ?Hs, ?Hf; cbn).
Qed.

(** ** Finality does not go back *)

(** A run from [e] does not lower the number of the finalized block. *)
Definition keeps_at {B} (m : Ec B) e : Prop := l2_Number (finalized_of e) ≤ l2_Number (finalized_of (act_state m e)).

Lemma keeps_same {B} (m : Ec B) : (∀ e, finalized_of (act_state m e) = finalized_of e) → ∀ e, keeps_at m e.
Proof. intros Hm e. unfold keeps_at. by rewrite Hm. Qed.
Lemma keeps_bind {B B'} (m : Ec B) (k : B → Ec B') e :
  keeps_at m e → (∀ b, act_res m e = Ok b → keeps_at (k b) (act_state m e)) → keeps_at (m ≫= k) e.
Proof.
  unfold keeps_at. act_run. destruct (m e) as [[[b|err|w] e1] out]; cbn; intros Hm Hk; [|done..].
  specialize (Hk b eq_refl). destruct (k b e1) as [[r e2] out2]. cbn in *. lia.
Qed.
Lemma keeps_try {B} (m : Ec B) e : keeps_at m e → keeps_at (try m) e.
Proof. unfold keeps_at, try. act_run. by destruct (m e) as [[[]?]?]. Qed.
Lemma keeps_call {B} (f : E → Res B * E) e : keeps_at (call_engine f) e.
Proof. revert e. apply keeps_same. intros e. unfold call_engine. act_run. by destruct (f (ec_engine e)) as [[]?]. Qed.
Lemma keeps_query {B} (f : E → Res B) e : keeps_at (query_engine f) e.
Proof. apply keeps_call. Qed.
Lemma keeps_set r e : l2_Number (finalized_of e) ≤ l2_Number r → keeps_at (SetFinalizedHead r) e.
Proof. unfold keeps_at, SetFinalizedHead. act_run. unfold finalized_of. cbn. by case_match. Qed.

(** Go through a computation; [known] lemmas settle the calls. *)
Create HintDb keeps.
Hint Resolve keeps_call keeps_query : keeps.
Ltac keeps :=
  repeat match goal with
  | |- keeps_at (_ ≫= _) _ => apply keeps_bind; [|intros ? ?]
  | |- keeps_at (try _) _ => apply keeps_try
  | |- keeps_at (if ?b then _ else _) _ => let E := fresh "E" in destruct b eqn:E
  | |- keeps_at (match ?x with _ => _ end) _ => let E := fresh "E" in destruct x eqn:E
  | |- keeps_at _ _ => solve [auto with keeps | apply keeps_same; by intros ?]
  end.

(** The engine answers with block numbers, which are not negative. *)
Hypothesis labels_nonneg : ∀ (x : E) lbl b, chain_ByLabel x lbl = Ok b → 0 ≤ l2_Number b.

Lemma query_ok {B} (f : E → Res B) e r b : act_res (query_engine f) e = Ok r → r = inr b → f (ec_engine e) = Ok b.
Proof. unfold query_engine, call_engine. act_run. destruct (f (ec_engine e)); cbn; naive_solver. Qed.
Lemma getFinalized_ok e b : act_res (getFinalized env) e = Ok b → b = finalized_of e.
Proof using no_authority. unfold act_res. rewrite getFinalized_of. cbn. naive_solver. Qed.

Lemma state_getFinalized e : act_state (getFinalized env) e = e.
Proof using no_authority. unfold act_state. by rewrite getFinalized_of. Qed.
Lemma finalized_call {B} (f : E → Res B * E) e : finalized_of (act_state (call_engine f) e) = finalized_of e.
Proof. unfold call_engine. act_run. by destruct (f (ec_engine e)) as [[]?]. Qed.

Lemma keeps_init e : keeps_at (initializeUnknowns env) e.
Proof using no_authority labels_nonneg.
  unfold initializeUnknowns. keeps. apply keeps_set. unfold query_engine at 1.
  rewrite finalized_call, state_getFinalized.
  match goal with Hf : act_res (getFinalized env) _ = Ok _ |- _ => apply getFinalized_ok in Hf as <- end.
  match goal with Hq : act_res (query_engine _) _ = Ok _ |- _ => eapply query_ok in Hq; [|done] end.
  repeat match goal with Hz : bool_decide (_ = zeroL2) = true |- _ => apply bool_decide_eq_true_1 in Hz end.
  subst. cbn. by eapply labels_nonneg.
Qed.
Hint Resolve keeps_init : keeps.

Lemma keeps_update e : keeps_at (tryUpdateEngineInternal env) e.
Proof using no_authority labels_nonneg. unfold tryUpdateEngineInternal, requestForkchoiceUpdate. keeps. Qed.
Hint Resolve keeps_update : keeps.
Lemma keeps_tryUpdate e : keeps_at (tryUpdateEngine env) e.
Proof using no_authority labels_nonneg. unfold tryUpdateEngine, report_error. keeps. Qed.
Hint Resolve keeps_tryUpdate : keeps.

Lemma state_getSafe e : act_state (getSafe env) e = e.
Proof using no_authority. unfold act_state. by rewrite getSafe_of. Qed.

Lemma keeps_promote ref e : keeps_at (promoteFinalized env ref) e.
Proof using no_authority labels_nonneg.
  unfold promoteFinalized. keeps. rewrite state_getSafe, state_getFinalized. apply keeps_set.
  match goal with Hf : act_res (getFinalized env) _ = Ok _ |- _ => apply getFinalized_ok in Hf as <- end. lia.
Qed.
Hint Resolve keeps_promote : keeps.

Lemma keeps_mark ref h e : keeps_at (mark_el_synced env ref h) e.
Proof using no_authority.
  unfold mark_el_synced. apply keeps_bind; [unfold offset_block; keeps|intros r _].
  generalize (act_state (offset_block env ref) e). clear e. intros e.
  unfold keeps_at, onSafeUpdate. act_run. rewrite getFinalized_of. act_run. rewrite getSafe_of. act_run.
  destruct (en_crossUpdateHandler env); act_run; unfold finalized_of; cbn; case_match; case_match; lia.
Qed.
Hint Resolve keeps_mark : keeps.

Lemma keeps_insert envelope ref e : keeps_at (insertUnsafePayload env envelope ref) e.
Proof using no_authority.
  unfold insertUnsafePayload, start_el_sync, checkNewPayloadStatus, checkForkchoiceUpdatedStatus,
    finish_el_sync, requestForkchoiceUpdate. keeps.
Qed.
Hint Resolve keeps_insert : keeps.

Lemma keeps_reset u cu ls s f b e : l2_Number (finalized_of e) ≤ l2_Number f →
  keeps_at (forceReset env u cu ls s f b) e.
Proof using no_authority labels_nonneg.
  intros Hf. unfold forceReset. keeps. unfold keeps_at, ForceEngineReset.
  destruct (en_attributesResetter env), (en_pipelineResetter env), (en_originSelectorResetter env); act_run;
  unfold finalized_of in *; cbn; by case_match.
Qed.

Lemma keeps_success concluding l ev ref e : keeps_at (onPayloadSuccess env concluding l ev ref) e.
Proof using no_authority labels_nonneg.
  unfold onPayloadSuccess, tryUpdateUnsafe, tryUpdatePendingSafe, tryUpdateLocalSafe, RequestPendingSafeUpdate. keeps.
  rewrite state_getFinalized. apply keeps_reset.
  match goal with Hf : act_res (getFinalized env) _ = Ok _ |- _ => apply getFinalized_ok in Hf as <- end. done.
Qed.
Hint Resolve keeps_success : keeps.

Lemma keeps_promote_safe ref l e : keeps_at (PromoteSafe env ref l) e.
Proof. unfold PromoteSafe, onUnsafeUpdate, onSafeUpdate. keeps. Qed.
Hint Resolve keeps_promote_safe : keeps.
Lemma keeps_start fc attrs e : keeps_at (startPayload fc attrs) e.
Proof. unfold startPayload. keeps. Qed.
Hint Resolve keeps_start : keeps.
Lemma keeps_request e : keeps_at (requestForkchoiceUpdate env) e.
Proof. unfold requestForkchoiceUpdate. keeps. Qed.
Hint Resolve keeps_request : keeps.
Lemma keeps_follow b s ls f e : keeps_at (follow_external env b s ls f) e.
Proof using no_authority labels_nonneg. unfold follow_external, tryUpdateUnsafe, tryUpdateLocalSafe. keeps. Qed.
Hint Resolve keeps_follow : keeps.

(** The calls of the controller, apart from the two that look for the heads again. *)
Inductive ec_call :=
| CallEvent (ev : Event) (not_reset : ev ≠ ResetEngineRequestEvent)
| CallFinalize (ref : L2BlockRef)
| CallAddUnsafe (envelope : option ExecutionPayloadEnvelope)
| CallBackupReorg
| CallFollow (eSafe eLocalSafe eFinalized : L2BlockRef)
| CallOpen (parent : BlockID) (attrs : PayloadAttributes)
| CallCancel (id : PayloadInfo)
| CallSeal (id : PayloadInfo)
| CallCommit (envelope : ExecutionPayloadEnvelope).
Definition after_call (c : ec_call) e : EngineController E :=
  match c with
  | CallEvent ev _ => act_state (EngineController_OnEvent env l1 ev) e
  | CallFinalize ref => act_state (promoteFinalized env ref) e
  | CallAddUnsafe envelope => act_state (AddUnsafePayload env envelope) e
  | CallBackupReorg => act_state (tryBackupUnsafeReorg env) e
  | CallFollow s ls f => act_state (FollowSource env s ls f) e
  | CallOpen parent attrs => act_state (OpenBlock env parent attrs) e
  | CallCancel id => act_state (CancelBlock id) e
  | CallSeal id => act_state (SealBlock id) e
  | CallCommit envelope => act_state (CommitBlock env envelope) e
  end.

Lemma keeps_event ev e : ev ≠ ResetEngineRequestEvent → keeps_at (EngineController_OnEvent env l1 ev) e.
Proof using no_authority labels_nonneg.
  intros Hev. unfold EngineController_OnEvent. destruct ev; try done.
  all: unfold onUnsafeUpdate, onBuildStart, onBuildStarted, onBuildSeal,
    onBuildSealed, onBuildInvalid, onBuildCancel, onPayloadProcess, request_deposits_only, onInvalidPayload,
    onForkchoiceUpdate, processUnsafePayload, report_error.
  all: keeps.
Qed.
Lemma keeps_after c e : l2_Number (finalized_of e) ≤ l2_Number (finalized_of (after_call c e)).
Proof using no_authority labels_nonneg.
  destruct c; cbn; [by apply keeps_event|apply keeps_promote|..].
  - change (keeps_at (AddUnsafePayload env envelope) e). unfold AddUnsafePayload. keeps.
  - change (keeps_at (tryBackupUnsafeReorg env) e). unfold tryBackupUnsafeReorg, shouldTryBackupUnsafeReorg. keeps.
  - change (keeps_at (FollowSource env eSafe eLocalSafe eFinalized) e). unfold FollowSource. keeps.
  - change (keeps_at (OpenBlock env parent attrs) e). unfold OpenBlock. keeps.
  - change (keeps_at (CancelBlock id) e). unfold CancelBlock. keeps.
  - change (keeps_at (SealBlock id) e). unfold SealBlock. keeps.
  - change (keeps_at (CommitBlock env envelope) e). unfold CommitBlock. keeps.
Qed.


(** ** The end of the engine sync *)

Hypothesis el_mode : sy_SyncMode (en_syncCfg env) = ELSync.

Lemma started_goes_on e : ec_syncStatus e = syncStatusStartedEL → start_el_sync env e = (Ok false, e, []).
Proof. intros Hs. unfold start_el_sync. act_run. rewrite Hs. done. Qed.
Lemma new_payload_unfinished st e : st = ExecutionSyncing ∨ st = ExecutionAccepted →
  checkNewPayloadStatus env st e = (Ok true, e, []).
Proof using el_mode.
  intros Hst. unfold checkNewPayloadStatus, finish_el_sync. rewrite (bool_decide_eq_true_2 _ el_mode).
  destruct Hst; by subst st.
Qed.
Lemma valid_finishes e : ec_syncStatus e = syncStatusStartedEL →
  checkForkchoiceUpdatedStatus env ExecutionValid e =
    (Ok true, ec_set_syncStatus syncStatusFinishedELButNotFinalized e, []).
Proof using el_mode.
  intros Hs. unfold checkForkchoiceUpdatedStatus, finish_el_sync. rewrite (bool_decide_eq_true_2 _ el_mode).
  act_run. by rewrite Hs.
Qed.

(** The sync ends with the answer to the forkchoice update, not with that to the payload:
    the status goes on to the last one and no block is marked as finalized. *)
Lemma el_sync_ends_unmarked e envelope ref x x' st fcRes :
  ec_syncStatus e = syncStatusStartedEL →
  NewPayload (ec_engine e) (env_ExecutionPayload envelope) (env_ParentBeaconBlockRoot envelope) = (Ok st, x) →
  st = ExecutionSyncing ∨ st = ExecutionAccepted →
  ForkchoiceUpdate x (mkForkchoice (ep_BlockHash (env_ExecutionPayload envelope)) (l2_Hash (safe_of e))
    (l2_Hash (finalized_of e))) None = (Ok fcRes, x') →
  fr_Status fcRes = ExecutionValid →
  let e' := act_state (insertUnsafePayload env envelope ref) e in
  act_res (insertUnsafePayload env envelope ref) e = Ok () ∧
  ec_syncStatus e' = syncStatusFinishedEL ∧ unsafeHead e' = ref ∧
  safe_of e' = safe_of e ∧ finalized_of e' = finalized_of e.
Proof using no_authority el_mode.
  intros Hs Hn Hst Hf Hv. unfold insertUnsafePayload, call_engine. act_run.
  rewrite started_goes_on by done. act_run. rewrite Hn. act_run.
  replace (bool_decide (st = ExecutionInvalid)) with false by (destruct Hst; by subst st). act_run.
  rewrite new_payload_unfinished by done. act_run. rewrite getSafe_of. act_run. rewrite getFinalized_of. act_run.
  change (ec_syncStatus (ec_set_engine x e)) with (ec_syncStatus e). rewrite Hs.
  change (bool_decide (syncStatusStartedEL = syncStatusFinishedELButNotFinalized)) with false. act_run.
  change (safe_of (ec_set_engine x e)) with (safe_of e).
  change (finalized_of (ec_set_engine x e)) with (finalized_of e).
  change (ec_engine (ec_set_engine x e)) with x. rewrite Hf. act_run. rewrite Hv.
  rewrite valid_finishes by done. act_run.
  rewrite (bool_decide_eq_true_2 (ExecutionValid = _)) by done.
  unfold SetUnsafeHead. act_run. cbn -[requestForkchoiceUpdate safe_of finalized_of].
  rewrite (bool_decide_eq_true_2 (syncStatusFinishedELButNotFinalized = _)) by done. rewrite request_known. done.
Qed.
End engine.

(** ** Examples *)

Module EngineExample.
Import SyncExample.
(** An engine that accepts everything and moves its heads to known blocks. *)
Record node := Node { n_unsafe : nat; n_safe : nat; n_finalized : nat }.
Definition chain_of (x : node) : engine := Engine (Z.of_nat (n_unsafe x)) (Z.of_nat (n_safe x)) (Z.of_nat (n_finalized x)).
#[global] Instance node_chain : L2Chain node := {
  chain_ByHash x := chain_ByHash (chain_of x);
  chain_ByLabel x := chain_ByLabel (chain_of x);
  chain_ByNumber x := chain_ByNumber (chain_of x) }.
Definition number_of (h : Hash) (n : nat) : nat :=
  match chain_ByHash (Engine 0 0 0) h with Ok b => Z.to_nat (l2_Number b) | _ => n end.
#[global] Instance exec_engine : ExecEngine node := {
  GetPayload x _ := (Err (RpcError UnknownPayload), x);
  ForkchoiceUpdate x fc _ :=
    (Ok (mkFcuResult ExecutionValid None),
     Node (number_of (fc_HeadBlockHash fc) (n_unsafe x)) (number_of (fc_SafeBlockHash fc) (n_safe x))
       (number_of (fc_FinalizedBlockHash fc) (n_finalized x)));
  NewPayload x _ _ := (Ok ExecutionValid, x) }.
Inductive authority := .
#[global] Instance no_super : SuperAuthority authority := {
  FullyVerifiedL2Head a := match a with end;
  FinalizedL2Head a := match a with end;
  IsDenied a := match a with end }.
Definition env : EngineEnv authority :=
  mkEngineEnv authority ExampleConfig.cfg (sync false) false None true true true true.
Definition heads (unsafe safe finalized : Z) : Heads :=
  mkEngineHeads (l2_block unsafe) (l2_block unsafe) (l2_block safe) (l2_block safe) (l2_block finalized)
    zeroL2 (l2_block safe) (l2_block finalized).
Definition controller : EngineController node :=
  mkEngineController (Node 30 20 10) (heads 30 20 10) syncStatusCL zeroForkchoice false
    (NewChainSpec ExampleConfig.cfg) (NewPayloadsQueue maxUnsafePayloadsMemory payloadMemSize).
Lemma labels (x : node) lbl b : chain_ByLabel x lbl = Ok b → 0 ≤ l2_Number b.
Proof. cbn. intros [= <-]. destruct lbl; cbn; lia. Qed.
End EngineExample.
Import SyncExample EngineExample.


Definition finalize_12 : list ec_call :=
  [CallFinalize (l2_block 12); CallFinalize (l2_block 11); CallFinalize (l2_block 21); CallBackupReorg].
